(* ===== verification/_CoqProject ===== *)
-Q . S2P
Prelude.v
FixedPoint.v
Types.v
ParseDecimal.v
BookSpec.v
OrderBookV2.v
OrderBook.v
BookEquiv.v
Seqlock.v
MpmcQueue.v
FeedSpec.v
Json.v
JsonText.v
PositionManager.v
Config.v
RiskEngine.v
RateLimiter.v
SpinLock.v
CpuAffinity.v
StrategyEngine.v
OrderPath.v
OrderGateway.v
ExecutionHandler.v
ErrorHandler.v
LogFormat.v
LogWriter.v
LogReader.v
ReaderHandles.v
TimeReplayer.v
Security.v
Metrics.v
BacktestEngine.v
Protocols.v
Connection.v
Adapters.v
ThinMux.v
GridStrategy.v
HealthMonitor.v
HttpClient.v
UserStream.v
LiveSend.v
ZmqBridge.v
LiveTrading.v
TradingLoop.v
