(* ===== verification/Prelude.v ===== *)
(** * A verification of libchronos

    libchronos is a trading engine: market data feeds fill lock-free queues, a strategy
    engine keeps order books and positions and runs strategies, a risk engine checks
    every order, an order gateway sends orders to an exchange and routes fills back; logs
    record the session and a backtest replays them. This library models the C++ code
    under src/ by functions on explicit states and proves what the parts promise.

    ** The parts

    Data and arithmetic.
    - [Prelude]: machine integers ([wrapU], [wrapS]), the moving average, the binary
      search shared by the log reader, lists, tactics and the hint database [chronos].
    - [FixedPoint], [Types]: [Decimal] and double (core/types.hpp). [Decimal] is a
      [Z] raw value; fpm is not in the repository and is the class [FpmOps] with the laws
      [FpmLaws]; [FpmRef] is an instance. Doubles are the binary64 of Stdlib.
    - [ParseDecimal]: parseDecimal (core/parse_decimal.cpp).

    Market data.
    - [BookSpec]: the abstract book of twenty levels and the contract [BookContract];
      [OrderBookV2] and [OrderBook] (market_data/orderbook_v2.cpp, orderbook.cpp)
      implement it; [BookEquiv] compares them through the contract.
    - [Seqlock]: the optimistic readers of both books and of the risk engine against a
      concurrent writer, one load or store per step.
    - [MpmcQueue] (utils/mpmc_queue.hpp): the bounded queue, alone against a FIFO and
      under any interleaving of producers and consumers.
    - [FeedSpec]: the bounded first-in-first-out queue the feeds are compared with.
    - [Protocols] (io/protocols/): messages of Binance and OKX become ticks; simdjson is the
      class [SimdOps], what a parse hands over before it throws is kept ([feed]).
    - [Connection]: URLs, the proxy's tunnel and the handshakes; a [Network] is what
      Boost.Beast answers to one attempt.
    - [Adapters] (market_data/gateway.cpp, adapters/binance_adapter.cpp,
      okx_adapter.cpp): one adapter over the class [Exchange], which holds what the two
      sources differ in; [BinanceAdapter] and [OkxAdapter] are its instances.
    - [ThinMux] (io/transports/websocket_tls_transport.cpp, adapters/thin_mux_adapter.cpp,
      any_gateway.hpp, gateway_v2_factory.cpp): transport, adapter and protocol composed
      behind one type, the class [ExchangeAdapter].

    Trading.
    - [PositionManager] (trading/position_manager.cpp), [Config] (core/config.cpp),
      [RiskEngine] (risk/risk_engine.cpp); [RateLimiter] and [SpinLock]: its rate limiter
      and its locked statistics (and the lock of orderbook.cpp) by single atomic accesses
      of any number of threads, the limiter's also while the clock moves. [CpuAffinity] (utils/cpu_affinity.hpp).
    - [StrategyEngine] (trading/strategy_engine.cpp, strategy.hpp,
      order_id_generator.hpp): strategies are arbitrary programs over the context's
      methods; the engine's loop runs among pushes and polls of other threads.
      [OrderPath]: what anything the engine does does to its order path, also when limits and
      capital change in the middle of a check ([RiskEngine.checkOrder_among]).
    - [GridStrategy] (strategies/grid_strategy.hpp): one strategy, each callback such a
      program, run by [play] against given answers.
    - [OrderGateway], [ExecutionHandler] (execution/): orders in flight, fills to the
      owning strategies and to the positions. [LiveSend]: trades reported while an order's
      REST call is under way.
    - [HttpClient] (execution/binance_http_client.cpp, io/security/hmac_sha256.cpp): the
      signed requests and their repetition; [UserStream]
      (execution/binance_user_stream.cpp): reports become calls of the gateway, the
      read thread goes from check to check. [LiveTrading] composes gateway, user stream,
      execution handler and positions; [TradingLoop] closes the loop of engine and
      simulated gateway through the queues they share.

    Around it.
    - [ErrorHandler] (core/error.cpp), [Security] (io/security/security.cpp),
      [HealthMonitor] (monitoring/health_monitor.cpp).
    - [LogFormat], [LogWriter], [LogReader] (logging/): the record layouts byte for byte,
      the buffered writer on a model of the file system, the reader on what is on disk;
      [ZmqBridge] (logging/zmq_bridge.cpp): the same records published by a thread.
    - [TimeReplayer], [Metrics], [BacktestEngine] (backtest/): logs merged in time order,
      fed to a strategy whose orders are filled from the book.
    - [ReaderHandles]: who owns the descriptors and mappings of the log readers.

    [Json] holds what the code uses of nlohmann::json, [JsonText] what it relies on of the
    text form of documents ([dump] and [parse]).

    ** How they interact

    The queue keeps [QueueContract], a bounded FIFO: the strategy engine uses the lemmas
    that discharge it ([try_push_ok], [try_pop_ok]), the feeds and the bridge its
    history ([queue_state]: what it took and what it handed out). The books are used
    through [BookContract], records in logs and messages through [LogRecord], the heap
    of the replayer through [MinHeap], exchanges in the adapters through [Exchange],
    protocols and adapters through [Protocol] and [ExchangeAdapter]: a client's theorems
    rest on the interface. [OrderPath] is the interface of the engine's order path, configurations
    are [Serialized].

    Ticks enter the engine's queue ([StrategyEngine.pushTick]), update the book of their
    symbol ([OrderBookV2.update]) and reach the strategies; their orders pass
    [RiskEngine.checkOrder], which reads the positions, and go to the order queue, from
    which the gateway takes them; fills change the positions and come back to the
    strategy. The adapters push their ticks into a queue of the same kind
    ([MpmcQueue.try_push]); the user stream injects acknowledgements, rejections and
    fills into the gateway, whose REST calls are those of [HttpClient]. The backtest
    composes replayer, book, strategy, risk engine, positions and metrics in one thread.

    ** What is shown

    - Books: every reader of either book says what the abstract book says after any
      updates; the two agree; with at most twenty prices a book is the map of last
      quantities; a snapshot rebuilds the book.
    - Concurrency: a checked optimistic read is one committed book, the fallback read can
      tear; a pop returns the value pushed with its ticket and slots are exclusive; the
      spin lock makes the statistics atomic; the rate limiter admits at most twice
      its limit at the start of a second, the limit otherwise, and twice the limit more for
      every call that was under way before.
    - Money: a fill preserves realised and marked profit up to two roundings and one unit
      of the average price; quantities
      are the signed sum of the fills; the risk engine accepts exactly what all limits
      allow, counts every check once and admits exactly the first orders of a second;
      what it accepts is within the limits in exact numbers, as long as the products
      fit in a [Decimal].
    - Flow: the strategy engine never gets stuck, applies what its queues accepted in
      order and once, numbers orders uniquely and delivers none whose value did not pass limits
      and a capital set at some moments; the gateway counts every request once,
      keeps exactly open orders pending, routes fills, and cancels all on shutdown; in
      the closed loop positions are at every moment the signed sums of the orders
      executed.
    - Persistence: configurations, positions, logs, snapshots and API keys survive their
      round trips, where a theorem says which do not (amounts that are no numbers, flat positions,
      sessions over midnight); replay ends having delivered every record once and in order; a
      backtest ends and its books, fills, positions, trades and equity are those of an account
      written from the ticks alone ([BacktestEngine.accounts]); log readers close and unmap what they own, exactly once.
    - Feeds: a depth message is exactly the ticks of its levels; both generations of
      adapters make the same ticks; whatever calls, reads and reconnections come, the ticks accepted
      are those of the messages, in order, counted once, with ids handed out, and the
      consumer gets what a bounded queue of the same size would give it; exactly the exceptions
      of a parse and the reconnection after 22 counted ones end the second generation's program; a lost connection is never made again; the delays of
      reconnections and where they overflow.
    - The grid: a tick fills exactly its gaps, a filled buy is followed by one sell.
    - The exchange: a request is written at most twice; the fills the user stream
      reports for an order reach its strategy whatever the REST call answered; live orders
      filled by their reported trades leave positions that are their signed sums; [stop]
      ends the stream's thread, for good.
    - Reporting: a health report is what was last said of each component and the counts
      since the last export; subscribers of the ZeroMQ bridge decode the published records
      in order, and every call is accounted for.

    ** Bounds and fuel

    Loops that the code bounds by a structure are structural recursions. The others have
    fuel that is proved enough: the binary search its range ([bsearch_spec]), the
    replayer's loops the events left ([advance_while_spec]), the day loop of the metrics
    the days spanned ([day_loop_fuel]), the backtest's drain the queue's size
    ([drain_ok]); out of fuel they return [None] or are proved not to. Counters are
    64-bit with wrap-around; theorems that count events ask for fewer than 2^62 of them
    ([in_budget]), which also bounds queue tickets. Undefined behaviour (an access
    outside a vector, the top of an empty heap) is [None], and the theorems show it does
    not happen where it does not.

    ** Not modelled

    The code outside the repository: sockets, TLS and HTTP (Boost.Beast, OpenSSL), the
    digest behind the signatures, ZeroMQ, simdjson and nlohmann::json. What they answer is
    an argument or a class, what is handed to them a list in the state. Threads of the
    feeds, the user stream and the bridge take turns at the granularity of one
    operation, one read or one check of a flag: races inside an operation (an adapter's
    unlocked symbol table read while [subscribe] changes it, [stop] against a reconnection
    thread that wakes up, the user stream's transport replaced while it is stopped) are
    not modelled, and named among the findings where they matter; the gateway's callbacks
    reach the engine between its operations, not inside a callback of a strategy. Time stamps kept only for statistics are
    left out. Memory is sequentially consistent: the acquire and release annotations of the
    atomics are not used, and nothing is assumed or shown about the fairness of
    scheduling. Log messages (spdlog) are left out; so are the class declarations,
    deleted copies and type aliases of the headers, which have no behaviour of their own, and the
    branches of the processor affinity for other systems than Linux. Tests, benchmarks, examples and bindings are not part
    of the library.
*)
From Stdlib Require Export ZArith Lia.
From stdpp Require Export base gmap strings list numbers sorting relations.
From coqutil Require Export Datatypes.RecordSetters.
Export DoubleBraceUpdate.

Declare Scope chronos_scope.
Delimit Scope chronos_scope with chronos.
#[global] Open Scope chronos_scope.
#[global] Open Scope Z_scope.

(** ** Machine integers

    A [w]-bit integer is the [Z] it denotes. [wrapU w] is the value stored in a
    [uintw_t], [wrapS w] the value stored in an [intw_t] (two's complement). *)
Definition wrapU (w z : Z) : Z := z mod 2 ^ w.
Definition wrapS (w z : Z) : Z := (z + 2 ^ (w - 1)) mod 2 ^ w - 2 ^ (w - 1).

Definition inU (w z : Z) : Prop := 0 <= z < 2 ^ w.
Definition inS (w z : Z) : Prop := - 2 ^ (w - 1) <= z < 2 ^ (w - 1).

Abbreviation u8 := (wrapU 8).
Abbreviation u32 := (wrapU 32).
Abbreviation u64 := (wrapU 64).
Abbreviation s64 := (wrapS 64).

(** [x++] on a [uint64_t] counter. *)
Definition inc64 (x : Z) : Z := u64 (x + 1).

Create HintDb chronos.
#[global] Hint Constants Opaque : chronos.
Create Rewrite HintDb chronos.

Ltac simp_wrap := unfold inU, inS, inc64, wrapU, wrapS in *.

Lemma wrapU_id w z : inU w z → wrapU w z = z.
Proof. intros ?. by apply Z.mod_small. Qed.

Lemma wrapU_range w z : 0 <= w → inU w (wrapU w z).
Proof. intros ?. apply Z.mod_pos_bound. lia. Qed.

Lemma wrapS_id w z : 0 < w → inS w z → wrapS w z = z.
Proof.
  intros Hw Hz. unfold wrapS, inS in *.
  assert (2 ^ w = 2 * 2 ^ (w - 1)) as Hp
    by (rewrite <-Z.pow_succ_r by lia; f_equal; lia).
  rewrite Z.mod_small; lia.
Qed.

Lemma wrapS_range w z : 0 < w → inS w (wrapS w z).
Proof.
  intros Hw. unfold wrapS, inS.
  assert (2 ^ w = 2 * 2 ^ (w - 1)) as Hp
    by (rewrite <-Z.pow_succ_r by lia; f_equal; lia).
  pose proof (Z.mod_pos_bound (z + 2 ^ (w - 1)) (2 ^ w) ltac:(lia)). lia.
Qed.

Lemma wrapU_idem w z : 0 <= w → wrapU w (wrapU w z) = wrapU w z.
Proof. intros ?. by apply wrapU_id, wrapU_range. Qed.

Lemma u64_id z : 0 <= z < 2 ^ 64 → u64 z = z.
Proof. apply wrapU_id. Qed.

Lemma s64_id z : inS 64 z → s64 z = z.
Proof. by apply wrapS_id. Qed.

Lemma inc64_id x : 0 <= x < 2 ^ 64 - 1 → inc64 x = x + 1.
Proof. intros ?. apply u64_id. lia. Qed.

Lemma u64_odd x : Z.odd (u64 x) = Z.odd x.
Proof. unfold wrapU. by rewrite <-!Z.bit0_odd, Z.mod_pow2_bits_low by lia. Qed.

(** Incrementing a counter flips its parity, also when it wraps. *)
Lemma inc64_odd x : Z.odd (inc64 x) = negb (Z.odd x).
Proof. unfold inc64. by rewrite u64_odd, Z.odd_add. Qed.

#[export] Hint Resolve wrapU_range wrapS_range : chronos.
#[export] Hint Rewrite wrapU_idem using lia : chronos.

(** ** Exponential moving average

    [(avg == 0) ? x : (avg * 7 + x) / 8] on [uint64_t], the latency filter the
    order gateway and the execution handler share. *)
Definition ema_u64 (avg x : Z) : Z :=
  if avg =? 0 then x else u64 (avg * 7 + x) / 8.

Lemma ema_u64_bounds avg x :
  0 <= avg → 0 <= x → avg * 7 + x < 2 ^ 64 → avg ≠ 0 →
  Z.min avg x <= ema_u64 avg x <= Z.max avg x.
Proof.
  intros Ha Hx Hov Hnz. unfold ema_u64.
  destruct (Z.eqb_spec avg 0); [done|].
  rewrite u64_id by lia. Z.div_mod_to_equations. lia.
Qed.

(** ** Binary search

    The loop [while (lo < hi) { mid = lo + (hi - lo) / 2; if (go mid) lo = mid + 1;
    else hi = mid; }] of the sorted-array operations and of the log seek. The
    interval shrinks by at least one in every turn, so [hi - lo] turns of fuel
    are enough ([bsearch_fuel_enough]). *)
Fixpoint bsearch_loop (fuel : nat) (go : nat → bool) (lo hi : nat) : nat :=
  match fuel with
  | O => lo
  | S fuel' =>
      if decide (lo < hi)%nat then
        let mid := (lo + (hi - lo) / 2)%nat in
        if go mid then bsearch_loop fuel' go (mid + 1) hi
        else bsearch_loop fuel' go lo mid
      else lo
  end.

Definition bsearch (go : nat → bool) (lo hi : nat) : nat :=
  bsearch_loop (hi - lo) go lo hi.

Lemma bsearch_mid_bounds lo hi :
  (lo < hi → lo <= lo + (hi - lo) / 2 < hi)%nat.
Proof.
  intros ?. pose proof (Nat.div_lt (hi - lo) 2 ltac:(lia) ltac:(lia)). lia.
Qed.

Lemma bsearch_fuel_enough f1 f2 go lo hi :
  (hi - lo <= f1)%nat → (hi - lo <= f2)%nat →
  bsearch_loop f1 go lo hi = bsearch_loop f2 go lo hi.
Proof.
  revert f2 lo hi. induction f1 as [|f1 IH]; intros f2 lo hi H1 H2.
  - destruct f2; cbn [bsearch_loop]; [done|]. rewrite decide_False by lia. done.
  - destruct f2 as [|f2]; cbn [bsearch_loop].
    + rewrite decide_False by lia. done.
    + case_decide as Hd; [|done].
      pose proof (bsearch_mid_bounds lo hi Hd).
      destruct (go _); apply IH; lia.
Qed.

(** If [go] is downward closed on the interval (true on a prefix, false after
    it), the loop returns the length of that prefix. *)
Lemma bsearch_loop_spec fuel go lo hi r :
  (hi - lo <= fuel)%nat → (lo <= r <= hi)%nat →
  (∀ i, lo <= i < r → go i = true)%nat →
  (∀ i, r <= i < hi → go i = false)%nat →
  bsearch_loop fuel go lo hi = r.
Proof.
  revert lo hi. induction fuel as [|fuel IH]; intros lo hi Hf Hr Ht Hn;
    cbn [bsearch_loop]; [lia|].
  case_decide as Hd; [|lia].
  pose proof (bsearch_mid_bounds lo hi Hd) as Hm.
  set (mid := (lo + (hi - lo) / 2)%nat) in *.
  destruct (decide (mid < r)%nat).
  - rewrite Ht by lia. apply IH; try lia; intros; [apply Ht | apply Hn]; lia.
  - rewrite Hn by lia. apply IH; try lia; intros; [apply Ht | apply Hn]; lia.
Qed.

Lemma bsearch_spec go n r :
  (r <= n)%nat → (∀ i, i < r → go i = true)%nat →
  (∀ i, r <= i < n → go i = false)%nat → bsearch go 0 n = r.
Proof.
  intros. unfold bsearch. apply bsearch_loop_spec; auto with lia.
Qed.

(** Without any order the result is still a boundary of [go]. *)
Lemma bsearch_loop_boundary fuel go lo hi :
  (hi - lo <= fuel)%nat → (lo <= hi)%nat →
  let r := bsearch_loop fuel go lo hi in
  (lo <= r <= hi)%nat ∧ ((r < hi)%nat → go r = false) ∧ ((lo < r)%nat → go (r - 1)%nat = true).
Proof.
  revert lo hi. induction fuel as [|fuel IH]; intros lo hi Hf Hl; cbn [bsearch_loop]; [lia|].
  case_decide as Hd; [|lia].
  pose proof (bsearch_mid_bounds lo hi Hd) as Hm.
  set (mid := (lo + (hi - lo) / 2)%nat) in *.
  destruct (go mid) eqn:Hg.
  - destruct (IH (mid + 1)%nat hi) as (Hr & Hn & Ht); [lia..|]. split_and!; [lia..|done|].
    intros ?. destruct (decide (bsearch_loop fuel go (mid + 1) hi = mid + 1)%nat) as [->|];
      [by rewrite Nat.add_sub|apply Ht; lia].
  - destruct (IH lo mid) as (Hr & Hn & Ht); [lia..|]. split_and!; [lia..| |done].
    intros ?. destruct (decide (bsearch_loop fuel go lo mid = mid)) as [->|]; [done|apply Hn; lia].
Qed.

(** ** Lists *)
Lemma lookup_total_take {A} `{Inhabited A} (l : list A) n i :
  (i < n)%nat → take n l !!! i = l !!! i.
Proof. intros. by rewrite !list_lookup_total_alt, lookup_take_lt. Qed.

Lemma take_insert_snoc {A} (l : list A) n x :
  (n < length l)%nat → take (S n) (<[n := x]> l) = take n l ++ [x].
Proof.
  intros Hn. apply list_eq. intros i.
  destruct (decide (i < n)%nat); [|destruct (decide (i = n)) as [->|]].
  - rewrite lookup_take_lt, list_lookup_insert_ne, lookup_app_l, lookup_take_lt
      by (rewrite ?length_take; lia). done.
  - rewrite lookup_take_lt, list_lookup_insert_eq, lookup_app_r
      by (rewrite ?length_take; lia).
    rewrite length_take, Nat.min_l, Nat.sub_diag by lia. done.
  - rewrite lookup_take_ge by lia. symmetry. apply lookup_ge_None_2.
    rewrite length_app, length_take. simpl. lia.
Qed.

Lemma list_filter_all {A} (P : A → Prop) `{∀ x, Decision (P x)} (l : list A) :
  Forall P l → filter P l = l.
Proof.
  induction 1 as [|x l Hx _ IH]; [done|]. by rewrite filter_cons_True, IH.
Qed.

Lemma exists_last_or_nil {A} (l : list A) : l = [] ∨ ∃ l' x, l = l' ++ [x].
Proof. induction l as [|x l _] using rev_ind; [by left|right; by exists l, x]. Qed.

(** [Permutation]-invariant sums. *)
Definition sumZ (l : list Z) : Z := foldr Z.add 0 l.

Lemma sumZ_cons x l : sumZ (x :: l) = x + sumZ l.
Proof. done. Qed.

Lemma sumZ_app l1 l2 : sumZ (l1 ++ l2) = sumZ l1 + sumZ l2.
Proof. induction l1; simpl; lia. Qed.

#[export] Instance sumZ_proper : Proper (Permutation ==> eq) sumZ.
Proof. intros l1 l2 HP. induction HP; simpl; lia. Qed.

Lemma sumZ_nonneg l : Forall (Z.le 0) l → 0 <= sumZ l.
Proof. induction 1; simpl; lia. Qed.

(** ** Automation shared by the components *)
Ltac destruct_bool_ifs :=
  repeat match goal with
  | |- context [if ?b then _ else _] =>
      lazymatch type of b with
      | bool => let E := fresh "E" in destruct b eqn:E
      end
  end.

Ltac destruct_ltbs :=
  repeat match goal with
  | |- context [(?a <? ?b)%nat] => destruct (Nat.ltb_spec a b)
  | |- context [(?a <=? ?b)%nat] => destruct (Nat.leb_spec a b)
  | |- context [(?a <? ?b)%Z] => destruct (Z.ltb_spec a b)
  | |- context [(?a <=? ?b)%Z] => destruct (Z.leb_spec a b)
  end.

Ltac reflect_bools :=
  repeat match goal with
  | H : (_ =? _)%Z = true |- _ => apply Z.eqb_eq in H
  | H : (_ =? _)%Z = false |- _ => apply Z.eqb_neq in H
  | H : (_ <? _)%Z = true |- _ => apply Z.ltb_lt in H
  | H : (_ <? _)%Z = false |- _ => apply Z.ltb_ge in H
  | H : (_ <=? _)%Z = true |- _ => apply Z.leb_le in H
  | H : (_ <=? _)%Z = false |- _ => apply Z.leb_gt in H
  | H : (_ >? _)%Z = _ |- _ => rewrite Z.gtb_ltb in H
  | H : (_ >=? _)%Z = _ |- _ => rewrite Z.geb_leb in H
  | H : _ && _ = true |- _ => apply andb_true_iff in H as [? ?]
  | H : _ || _ = false |- _ => apply orb_false_iff in H as [? ?]
  | H : negb _ = true |- _ => apply negb_true_iff in H
  | H : negb _ = false |- _ => apply negb_false_iff in H
  end.
