(* ===== verification/FixedPoint.v ===== *)
(** Fixed-point [Decimal]s and [double]s (include/chronos/core/types.hpp).

    [Decimal] is [fpm::fixed<int64_t, __int128, 32>]. The fpm library is not part
    of the repository, so its arithmetic is a parameter: the class [FpmOps] holds
    the operations on raw values and [FpmLaws] what the code relies on. A
    [Decimal] is modelled by its [raw_value()]; the order and the equality of
    decimals are the order and equality of raw values. [FpmRef] is a concrete
    instance, used to evaluate witnesses.

    A [double] is IEEE 754 binary64, which Stdlib's [SpecFloat] defines on [Z]. *)
From Stdlib Require Import SpecFloat.
From S2P Require Import Prelude.

Declare Scope dec_scope.
Delimit Scope dec_scope with dec.
#[global] Open Scope dec_scope.

Definition FractionBits : Z := 32.
Definition ONE : Z := 2 ^ 32.

(** The values of [BaseType = int64_t]. *)
Definition is_dec (z : Z) : Prop := inS 64 z.

Class FpmOps := {
  fpm_of_int : Z → Z;          (* Decimal(n) for an integer n *)
  fpm_add : Z → Z → Z;
  fpm_sub : Z → Z → Z;
  fpm_neg : Z → Z;
  fpm_mul : Z → Z → Z;
  fpm_div : Z → Z → Z;
  fpm_div_int : Z → Z → Z;     (* Decimal / integer *)
}.

Infix "⊞" := fpm_add (at level 50, left associativity) : dec_scope.
Infix "⊟" := fpm_sub (at level 50, left associativity) : dec_scope.
Infix "⊠" := fpm_mul (at level 40, left associativity) : dec_scope.
Infix "⊘" := fpm_div (at level 40, left associativity) : dec_scope.

(** The exact product (quotient) is representable, so that rounding it to a
    neighbouring raw value does not overflow [BaseType]. *)
Definition mul_fits (a b : Z) : Prop := Z.abs (a * b) < (2 ^ 63 - 1) * ONE.
Definition div_fits (a b : Z) : Prop := b ≠ 0 ∧ Z.abs (a * ONE) < (2 ^ 63 - 1) * Z.abs b.

(** What the code relies on: sums, differences and negations are exact while
    they fit; products and quotients are off by less than one unit in the last
    place; every result is a value of [BaseType]. *)
Class FpmLaws (F : FpmOps) : Prop := {
  fpm_of_int_spec n : is_dec (n * ONE) → fpm_of_int n = n * ONE;
  fpm_add_spec a b : is_dec a → is_dec b → is_dec (a + b) → a ⊞ b = a + b;
  fpm_sub_spec a b : is_dec a → is_dec b → is_dec (a - b) → a ⊟ b = a - b;
  fpm_neg_spec a : is_dec a → is_dec (- a) → fpm_neg a = - a;
  fpm_mul_spec a b : is_dec a → is_dec b → mul_fits a b →
    Z.abs ((a ⊠ b) * ONE - a * b) < ONE;
  fpm_div_spec a b : is_dec a → is_dec b → div_fits a b →
    Z.abs ((a ⊘ b) * b - a * ONE) < Z.abs b;
  fpm_div_int_spec a n : is_dec a → n ≠ 0 → inS 64 n → n ≠ -1 →
    Z.abs (fpm_div_int a n * n - a) < Z.abs n;
  fpm_add_dec a b : is_dec (a ⊞ b);
  fpm_sub_dec a b : is_dec (a ⊟ b);
  fpm_neg_dec a : is_dec (fpm_neg a);
  fpm_mul_dec a b : is_dec (a ⊠ b);
  fpm_div_dec a b : is_dec (a ⊘ b);
}.

#[export] Hint Resolve fpm_add_dec fpm_sub_dec fpm_neg_dec fpm_mul_dec fpm_div_dec : chronos.

(** The idiom [x < Decimal(0) ? -x : x]. *)
Definition dabs `{FpmOps} (x : Z) : Z := if x <? 0 then fpm_neg x else x.

Section laws.
Context {F : FpmOps} {HF : FpmLaws F}.

Lemma dabs_spec x : is_dec x → is_dec (- x) → dabs x = Z.abs x.
Proof.
  intros Hx Hn. unfold dabs. destruct (Z.ltb_spec x 0); [|lia].
  rewrite fpm_neg_spec by done. lia.
Qed.

Lemma dabs_nonneg x : is_dec x → x ≠ - 2 ^ 63 → 0 <= dabs x.
Proof.
  intros Hx Hn. rewrite dabs_spec; [lia|done|]. unfold is_dec, inS in *. simpl in *. lia.
Qed.

Lemma dabs_dec x : is_dec x → is_dec (dabs x).
Proof. intros. unfold dabs. destruct (x <? 0); [apply fpm_neg_dec|done]. Qed.

(** A product that is a whole number of raw units is computed exactly. *)
Lemma fpm_mul_exact a b c :
  is_dec a → is_dec b → mul_fits a b → a * b = c * ONE → a ⊠ b = c.
Proof.
  intros Ha Hb Hf Hc. pose proof (fpm_mul_spec a b Ha Hb Hf) as H.
  unfold ONE in *. lia.
Qed.

Lemma fpm_mul_0_l b : is_dec b → 0 ⊠ b = 0.
Proof.
  intros Hb. apply fpm_mul_exact; [unfold is_dec, inS; simpl; lia|done|..].
  - unfold mul_fits, ONE. lia.
  - lia.
Qed.

Lemma fpm_mul_nonneg a b :
  is_dec a → is_dec b → mul_fits a b → 0 <= a * b → 0 <= a ⊠ b.
Proof.
  intros Ha Hb Hf Hc. pose proof (fpm_mul_spec a b Ha Hb Hf) as H.
  unfold ONE in *. lia.
Qed.

Lemma fpm_mul_nonpos a b :
  is_dec a → is_dec b → mul_fits a b → a * b <= 0 → a ⊠ b <= 0.
Proof.
  intros Ha Hb Hf Hc. pose proof (fpm_mul_spec a b Ha Hb Hf) as H.
  unfold ONE in *. lia.
Qed.
End laws.

(** ** A concrete instance

    64-bit wrap-around results, products and quotients rounded half away from
    zero. *)
Definition round_half (v : Z) : Z := Z.quot v 2 + Z.rem v 2.

Definition FpmRef : FpmOps := {|
  fpm_of_int n := s64 (n * ONE);
  fpm_add a b := s64 (a + b);
  fpm_sub a b := s64 (a - b);
  fpm_neg a := s64 (- a);
  fpm_mul a b := s64 (round_half (Z.quot (a * b) (2 ^ 31)));
  fpm_div a b := s64 (round_half (Z.quot (a * 2 ^ 33) b));
  fpm_div_int a n := s64 (Z.quot a n);
|}.

Lemma quot_err a b : b ≠ 0 → Z.abs (Z.quot a b * b - a) < Z.abs b.
Proof.
  intros Hb. pose proof (Z.quot_rem' a b). pose proof (Z.rem_bound_abs a b Hb). lia.
Qed.

Lemma round_half_err v : Z.abs (2 * round_half v - v) <= 1.
Proof.
  unfold round_half. pose proof (Z.quot_rem' v 2).
  pose proof (Z.rem_bound_abs v 2 ltac:(lia)). lia.
Qed.

Lemma ref_mul_raw a b :
  Z.abs (round_half (Z.quot (a * b) (2 ^ 31)) * ONE - a * b) < ONE.
Proof.
  unfold ONE. pose proof (quot_err (a * b) (2 ^ 31) ltac:(lia)).
  pose proof (round_half_err (Z.quot (a * b) (2 ^ 31))). lia.
Qed.

Lemma ref_div_raw a b :
  b ≠ 0 → Z.abs (round_half (Z.quot (a * 2 ^ 33) b) * b - a * ONE) < Z.abs b.
Proof.
  intros Hb. unfold ONE. pose proof (quot_err (a * 2 ^ 33) b Hb) as H1.
  pose proof (round_half_err (Z.quot (a * 2 ^ 33) b)) as H2.
  set (q := Z.quot (a * 2 ^ 33) b) in *. set (r := round_half q) in *.
  assert (Z.abs (2 * r * b - q * b) <= Z.abs b).
  { replace (2 * r * b - q * b) with ((2 * r - q) * b) by ring.
    rewrite Z.abs_mul. nia. }
  lia.
Qed.

#[export] Instance FpmRef_laws : FpmLaws FpmRef.
Proof.
  split; simpl; try (intros; apply wrapS_range; lia); try (by intros; apply s64_id).
  - intros a b _ _ Hfit. rewrite s64_id; [apply ref_mul_raw|].
    pose proof (ref_mul_raw a b). unfold mul_fits, ONE, inS in *. simpl in *. lia.
  - intros a b _ _ [Hb Hfit]. pose proof (ref_div_raw a b Hb) as Hr.
    rewrite s64_id; [done|]. unfold ONE, inS in *. simpl in *.
    set (r := round_half _) in *.
    assert (Z.abs (r * b) < 2 ^ 63 * Z.abs b) as Hlt by lia.
    rewrite Z.abs_mul in Hlt. nia.
  - intros a n Ha Hn Hn64 Hm1. rewrite s64_id; [by apply quot_err|].
    pose proof (quot_err a n ltac:(lia)) as He. unfold is_dec, inS in *. simpl in *.
    set (q := Z.quot a n) in *.
    destruct (decide (Z.abs n = 1)).
    { assert (n = 1) as Hn1 by lia. rewrite Hn1 in *. lia. }
    assert (Z.abs (q * n) < 2 ^ 63 + Z.abs n) as Hb by lia.
    rewrite Z.abs_mul in Hb. nia.
Qed.

(** ** Doubles *)
Abbreviation double := spec_float.

Definition d_of_Z (z : Z) : double := binary_normalize 53 1024 z 0 false.
Definition dadd : double → double → double := SFadd 53 1024.
Definition dsub : double → double → double := SFsub 53 1024.
Definition dmul : double → double → double := SFmul 53 1024.
Definition ddiv : double → double → double := SFdiv 53 1024.
Definition dltb : double → double → bool := SFltb.
Definition dleb : double → double → bool := SFleb.
Definition deqb : double → double → bool := SFeqb.

(** The literal [n / 10^k], correctly rounded when [n] and [10^k] are below 2^53. *)
Definition d_lit (n k : Z) : double := ddiv (d_of_Z n) (d_of_Z (10 ^ k)).

(** [static_cast<int64_t>(d)] truncates towards zero. Out of range (and for a
    NaN) the conversion is undefined behaviour in C++: the result is a parameter. *)
Class CastUB := { ub_cast : double → Z }.

Definition d_trunc (d : double) : option Z :=
  match d with
  | S754_zero _ => Some 0
  | S754_finite s m e =>
      let a := if 0 <=? e then Zpos m * 2 ^ e else Zpos m / 2 ^ (- e) in
      Some (if s then - a else a)
  | _ => None
  end.

Definition cast_int64 `{CastUB} (d : double) : Z :=
  match d_trunc d with
  | Some z => if (- 2 ^ 63 <=? z) && (z <? 2 ^ 63) then z else ub_cast d
  | None => ub_cast d
  end.

Definition scale : double := d_of_Z (2 ^ 32).

Definition toDecimal `{CastUB} (value : double) : Z := cast_int64 (dmul value scale).

Definition toDouble (value : Z) : double := ddiv (d_of_Z value) scale.

(** x86-64's [cvttsd2si] returns [INT64_MIN] out of range: an instance for witnesses. *)
Definition CastX86 : CastUB := {| ub_cast _ := - 2 ^ 63 |}.
