(* ===== verification/Types.v ===== *)
(** The shared data types of include/chronos/core/types.hpp: the enumerations,
    the fixed-size market-data and trading records and [Position]. A C++ scoped
    enumeration [E] or struct [S] is the type [E.t] or [S.t] of a module with the
    same name, so that constructors and fields keep their names. The [reserved]
    padding of the records, which no code reads, is left out; [LogFormat.v] gives the
    byte layout. *)
From S2P Require Import Prelude.
From S2P Require Import FixedPoint.

Module OrderSide.
Inductive t := BUY | SELL.
Definition to_Z (s : t) : Z := match s with BUY => 0 | SELL => 1 end.
Definition of_Z (z : Z) : option t :=
  if z =? 0 then Some BUY else if z =? 1 then Some SELL else None.
#[global] Instance eq_dec : EqDecision t. Proof. solve_decision. Defined.
Definition toString (s : t) : string := match s with BUY => "BUY" | SELL => "SELL" end.
End OrderSide.

Module ExchangeId.
Inductive t := UNKNOWN | BINANCE | OKX.
Definition to_Z (x : t) : Z := match x with UNKNOWN => 0 | BINANCE => 1 | OKX => 2 end.
End ExchangeId.

Module TickSide.
Inductive t := BID | ASK | TRADE.
Definition to_Z (s : t) : Z := match s with BID => 0 | ASK => 1 | TRADE => 2 end.
Definition of_Z (z : Z) : option t :=
  if z =? 0 then Some BID else if z =? 1 then Some ASK
  else if z =? 2 then Some TRADE else None.
#[global] Instance eq_dec : EqDecision t. Proof. solve_decision. Defined.
End TickSide.

Module OrderType.
Inductive t := LIMIT | MARKET | STOP_LOSS | STOP_LIMIT.
Definition to_Z (x : t) : Z :=
  match x with LIMIT => 0 | MARKET => 1 | STOP_LOSS => 2 | STOP_LIMIT => 3 end.
Definition of_Z (z : Z) : option t :=
  if z =? 0 then Some LIMIT else if z =? 1 then Some MARKET
  else if z =? 2 then Some STOP_LOSS else if z =? 3 then Some STOP_LIMIT else None.
#[global] Instance eq_dec : EqDecision t. Proof. solve_decision. Defined.
Definition toString (x : t) : string :=
  match x with
  | LIMIT => "LIMIT" | MARKET => "MARKET"
  | STOP_LOSS => "STOP_LOSS" | STOP_LIMIT => "STOP_LIMIT"
  end.
End OrderType.

Module TimeInForce.
Inductive t := GTC | IOC | FOK | DAY.
Definition to_Z (x : t) : Z := match x with GTC => 0 | IOC => 1 | FOK => 2 | DAY => 3 end.
Definition of_Z (z : Z) : option t :=
  if z =? 0 then Some GTC else if z =? 1 then Some IOC
  else if z =? 2 then Some FOK else if z =? 3 then Some DAY else None.
#[global] Instance eq_dec : EqDecision t. Proof. solve_decision. Defined.
Definition toString (x : t) : string :=
  match x with GTC => "GTC" | IOC => "IOC" | FOK => "FOK" | DAY => "DAY" end.
End TimeInForce.

Module ConnectionStatus.
Inductive t := DISCONNECTED | CONNECTING | CONNECTED | RECONNECTING | ERROR.
#[global] Instance eq_dec : EqDecision t. Proof. solve_decision. Defined.
Definition toString (x : t) : string :=
  match x with
  | DISCONNECTED => "DISCONNECTED" | CONNECTING => "CONNECTING"
  | CONNECTED => "CONNECTED" | RECONNECTING => "RECONNECTING" | ERROR => "ERROR"
  end.
End ConnectionStatus.

Module ErrorSeverity.
Inductive t := DEBUG | INFO | WARNING | ERROR | CRITICAL.
Definition to_nat (x : t) : nat :=
  match x with DEBUG => 0 | INFO => 1 | WARNING => 2 | ERROR => 3 | CRITICAL => 4 end.
#[global] Instance eq_dec : EqDecision t. Proof. solve_decision. Defined.
Definition toString (x : t) : string :=
  match x with
  | DEBUG => "DEBUG" | INFO => "INFO" | WARNING => "WARNING"
  | ERROR => "ERROR" | CRITICAL => "CRITICAL"
  end.
End ErrorSeverity.

Module OrderStatus.
Inductive t :=
  PENDING | ACCEPTED | REJECTED | PARTIALLY_FILLED | FILLED | CANCELLED | EXPIRED.
#[global] Instance eq_dec : EqDecision t. Proof. solve_decision. Defined.
Definition toString (x : t) : string :=
  match x with
  | PENDING => "PENDING" | ACCEPTED => "ACCEPTED" | REJECTED => "REJECTED"
  | PARTIALLY_FILLED => "PARTIALLY_FILLED" | FILLED => "FILLED"
  | CANCELLED => "CANCELLED" | EXPIRED => "EXPIRED"
  end.
End OrderStatus.

(** ** Market data *)

Module Tick.
Record t := mk {
  exchange_timestamp_us : Z;
  receive_timestamp_us : Z;
  exchange_id : Z;
  symbol_id : Z;
  price : Z;
  quantity : Z;
  side : TickSide.t;
  flags : Z;
}.
Definition default : t := mk 0 0 0 0 0 0 TickSide.BID 0.
#[global] Instance inhabited : Inhabited t := populate default.
End Tick.

Module PriceLevel.
Record t := mk { price : Z; quantity : Z }.
Definition default : t := mk 0 0.
#[global] Instance inhabited : Inhabited t := populate default.
#[global] Instance eq_dec : EqDecision t. Proof. solve_decision. Defined.
End PriceLevel.

Module OrderBookSnapshot.
Record t := mk {
  symbol_id : Z;
  timestamp_us : Z;
  bids : list PriceLevel.t;
  asks : list PriceLevel.t;
}.
End OrderBookSnapshot.

(** ** Trading *)

Module OrderRequest.
Record t := mk {
  order_id : Z;
  timestamp_us : Z;
  price : Z;
  quantity : Z;
  stop_price : Z;
  client_order_id : Z;
  symbol_id : Z;
  exchange_id : Z;
  strategy_id : Z;
  side : OrderSide.t;
  type : OrderType.t;
  tif : TimeInForce.t;
  strategy_flags : Z;
}.
Definition default : t :=
  mk 0 0 0 0 0 0 0 0 0 OrderSide.BUY OrderType.LIMIT TimeInForce.GTC 0.
#[global] Instance inhabited : Inhabited t := populate default.
End OrderRequest.

Module Fill.
Record t := mk {
  execution_id : Z;
  fill_id : Z;
  order_id : Z;
  exchange_timestamp_us : Z;
  receive_timestamp_us : Z;
  fill_price : Z;
  fill_quantity : Z;
  symbol_id : Z;
  exchange_id : Z;
  strategy_id : Z;
  side : OrderSide.t;
  is_maker : Z;
}.
Definition default : t := mk 0 0 0 0 0 0 0 0 0 0 OrderSide.BUY 0.
#[global] Instance inhabited : Inhabited t := populate default.
End Fill.

Module OrderAck.
Record t := mk {
  order_id : Z;
  exchange_order_id : Z;
  status : OrderStatus.t;
  timestamp_us : Z;
}.
End OrderAck.

Module OrderReject.
Record t := mk { order_id : Z; reason : string; timestamp_us : Z }.
End OrderReject.

(** ** Positions *)

Module Position.
Record t := mk {
  symbol_id : Z;
  quantity : Z;
  average_price : Z;
  realized_pnl : Z;
  last_update_us : Z;
}.
Definition default : t := mk 0 0 0 0 0.

Definition getUnrealizedPnL `{FpmOps} (p : t) (current_price : Z) : Z :=
  quantity p ⊠ (current_price ⊟ average_price p).
Definition getTotalPnL `{FpmOps} (p : t) (current_price : Z) : Z :=
  realized_pnl p ⊞ getUnrealizedPnL p current_price.
Definition isFlat (p : t) : bool := quantity p =? 0.
Definition isLong (p : t) : bool := quantity p >? 0.
Definition isShort (p : t) : bool := quantity p <? 0.
End Position.
