(* ===== verification/ParseDecimal.v ===== *)
(** [parseDecimal] (src/core/parse_decimal.cpp): decimal text to [Decimal].

    The [string_view] is the list of its characters; the pointer [p] is the rest
    of the list. Signed overflow of [mantissa] is undefined behaviour in C++: the
    definition wraps, and the theorems ask for an integer part that fits. *)
From Stdlib Require Import Ascii.
From S2P Require Import Prelude.
From S2P Require Import FixedPoint.

Definition code (c : Ascii.ascii) : Z := Z.of_N (Ascii.N_of_ascii c).

Definition is_digit (c : Ascii.ascii) : bool := (48 <=? code c) && (code c <=? 57).

Definition is_blank (c : Ascii.ascii) : bool := (code c =? 32) || (code c =? 9).

Fixpoint skip_blanks (p : list Ascii.ascii) : list Ascii.ascii :=
  match p with
  | c :: p' => if is_blank c then skip_blanks p' else p
  | [] => []
  end.

(** The integer part: digits accumulate into [mantissa], an [int64_t]. *)
Fixpoint parse_int (p : list Ascii.ascii) (mantissa : Z) : Z * list Ascii.ascii :=
  match p with
  | c :: p' =>
      if is_digit c then parse_int p' (s64 (mantissa * 10 + (code c - 48)))
      else (mantissa, p)
  | [] => (mantissa, [])
  end.

(** At most ten fractional digits; the rest of the digits is skipped and what
    follows them is never looked at. *)
Fixpoint parse_frac (p : list Ascii.ascii) (frac_part : Z) (frac_digits : nat) : Z * nat :=
  match p with
  | c :: p' =>
      if is_digit c && (frac_digits <? 10)%nat
      then parse_frac p' (frac_part * 10 + (code c - 48)) (S frac_digits)
      else (frac_part, frac_digits)
  | [] => (frac_part, frac_digits)
  end.

Definition pow10 (frac_digits : nat) : Z := Nat.iter frac_digits (λ x, x * 10) 1.

(** After the sign: integer part, optional fraction, and their scaled sum in
    [__int128]. *)
Definition parse_unsigned (p : list Ascii.ascii) : Z :=
  let '(mantissa, p) := parse_int p 0 in
  let '(frac_part, frac_digits) :=
    match p with
    | d :: p' => if code d =? 46 then parse_frac p' 0 0 else (0, 0%nat)
    | [] => (0, 0%nat)
    end in
  let scaled_mantissa := mantissa * 2 ^ 32 in
  let scaled_frac := Z.quot (frac_part * 2 ^ 32) (pow10 frac_digits) in
  scaled_mantissa + scaled_frac.

Definition parseDecimal_chars (sv : list Ascii.ascii) : Z :=
  match skip_blanks sv with
  | [] => 0
  | c :: p =>
      let negative := code c =? 45 in
      let raw :=
        parse_unsigned (if negative then p else if code c =? 43 then p else c :: p) in
      s64 (if negative then - raw else raw)
  end.

Definition parseDecimal (sv : string) : Z := parseDecimal_chars (String.list_ascii_of_string sv).

Example parse_int_ex : parseDecimal "1234" = 1234 * ONE. Proof. reflexivity. Qed.
Example parse_frac_ex : parseDecimal "-1234.5" = - (1234 * ONE + 2 ^ 31). Proof. reflexivity. Qed.
Example parse_edge_ex :
  map parseDecimal [EmptyString; " 123"; "+5"; "1234."; ".5"; "abc"]%string
  = [0; 123 * ONE; 5 * ONE; 1234 * ONE; 2 ^ 31; 0].
Proof. reflexivity. Qed.

(** ** Reference: the value of a digit string *)

Definition digit (d : Z) : Prop := 0 <= d <= 9.

Definition digit_char (d : Z) : Ascii.ascii := Ascii.ascii_of_N (Z.to_N (48 + d)).

Definition dval (ds : list Z) : Z := fold_left (λ acc d, acc * 10 + d) ds 0.

(** The texts the exchanges send: optional blanks, an optional sign, integer
    digits and an optional fraction. *)
Inductive sign := NoSign | Plus | Minus.

Definition sign_chars (s : sign) : list Ascii.ascii :=
  match s with NoSign => [] | Plus => ["+"%char] | Minus => ["-"%char] end.

Definition frac_chars (ofs : option (list Z)) : list Ascii.ascii :=
  match ofs with None => [] | Some fs => "."%char :: map digit_char fs end.

Definition decimal_text (ws : list Ascii.ascii) (s : sign) (ds : list Z)
    (ofs : option (list Z)) : list Ascii.ascii :=
  ws ++ sign_chars s ++ map digit_char ds ++ frac_chars ofs.

Definition with_sign (s : sign) (z : Z) : Z := match s with Minus => - z | _ => z end.

(** *** Digit strings *)

Lemma code_digit_char d : digit d → code (digit_char d) = 48 + d.
Proof.
  intros Hd. unfold code, digit_char, digit in *.
  rewrite Ascii.N_ascii_embedding by lia. lia.
Qed.

Lemma is_digit_digit_char d : digit d → is_digit (digit_char d) = true.
Proof.
  intros Hd. unfold is_digit. rewrite (code_digit_char d Hd). unfold digit in Hd.
  apply andb_true_iff. lia.
Qed.

Lemma dval_acc ds acc :
  fold_left (λ acc d, acc * 10 + d) ds acc = acc * 10 ^ Z.of_nat (length ds) + dval ds.
Proof.
  unfold dval. revert acc. induction ds as [|d ds IH]; intros acc; cbn [fold_left length]; [lia|].
  rewrite IH, (IH (0 * 10 + d)), Nat2Z.inj_succ, Z.pow_succ_r by lia. ring.
Qed.

Lemma dval_app ds fs : dval (ds ++ fs) = dval ds * 10 ^ Z.of_nat (length fs) + dval fs.
Proof. unfold dval at 1. rewrite fold_left_app. apply dval_acc. Qed.

Lemma dval_cons d ds : dval (d :: ds) = d * 10 ^ Z.of_nat (length ds) + dval ds.
Proof. rewrite <-(dval_acc ds d). unfold dval. cbn. f_equal. Qed.

Lemma dval_bounds ds : Forall digit ds → 0 <= dval ds < 10 ^ Z.of_nat (length ds).
Proof.
  induction 1 as [|d ds Hd Hds IH]; [cbn; lia|].
  rewrite dval_cons. cbn [length]. rewrite Nat2Z.inj_succ, Z.pow_succ_r by lia.
  unfold digit in Hd. nia.
Qed.

Lemma pow10_spec n : pow10 n = 10 ^ Z.of_nat n.
Proof.
  unfold pow10. induction n as [|n IH]; [done|].
  rewrite Nat.iter_succ, IH, Nat2Z.inj_succ, Z.pow_succ_r by lia. lia.
Qed.

#[export] Hint Resolve code_digit_char is_digit_digit_char : chronos.

(** *** The scanning loops *)

Lemma parse_int_digits ds rest m :
  Forall digit ds → 0 <= m → m * 10 ^ Z.of_nat (length ds) + dval ds < 2 ^ 63 →
  parse_int (map digit_char ds ++ rest) m
  = parse_int rest (m * 10 ^ Z.of_nat (length ds) + dval ds).
Proof.
  intros Hds. revert m. induction Hds as [|d ds Hd Hds IH]; intros m Hm Hov.
  { cbn. f_equal. lia. }
  pose proof (dval_bounds ds Hds) as Hb.
  rewrite dval_cons in *. cbn [length] in *.
  rewrite Nat2Z.inj_succ, Z.pow_succ_r in * by lia.
  cbn [map app parse_int]. rewrite is_digit_digit_char, code_digit_char by done.
  unfold digit in Hd.
  rewrite s64_id by (unfold inS; simpl; nia).
  replace (48 + d - 48) with d by lia.
  rewrite IH by nia. f_equal. ring.
Qed.

Definition stops (p : list Ascii.ascii) : Prop :=
  match p with [] => True | c :: _ => is_digit c = false end.

Lemma parse_int_stop p m : stops p → parse_int p m = (m, p).
Proof. destruct p as [|c p]; simpl; [done|]. by intros ->. Qed.

Lemma parse_frac_digits fs f n :
  Forall digit fs → (n <= 10)%nat →
  parse_frac (map digit_char fs) f n =
    (fold_left (λ acc d, acc * 10 + d) (take (10 - n) fs) f,
     (n + length (take (10 - n) fs))%nat).
Proof.
  intros Hfs. revert f n. induction Hfs as [|d fs Hd Hfs IH]; intros f n Hn.
  { rewrite take_nil. cbn. f_equal. lia. }
  cbn [map parse_frac]. rewrite is_digit_digit_char, code_digit_char by done.
  destruct (Nat.ltb_spec n 10); cbn [andb].
  - rewrite IH by lia. replace (10 - n)%nat with (S (10 - S n)) by lia.
    cbn [take fold_left length]. replace (48 + d - 48) with d by lia. f_equal. lia.
  - replace (10 - n)%nat with 0%nat by lia. cbn. f_equal. lia.
Qed.

Lemma skip_blanks_app ws p :
  Forall (λ c, is_blank c = true) ws → skip_blanks (ws ++ p) = skip_blanks p.
Proof. induction 1 as [|c ws Hc Hws IH]; simpl; [done|]. by rewrite Hc. Qed.

Definition frac_kept (ofs : option (list Z)) : list Z :=
  match ofs with None => [] | Some fs => take 10 fs end.

Definition frac_ok (ofs : option (list Z)) : Prop :=
  match ofs with None => True | Some fs => Forall digit fs end.

Lemma parse_unsigned_spec ds ofs :
  Forall digit ds → frac_ok ofs → dval ds < 2 ^ 63 →
  parse_unsigned (map digit_char ds ++ frac_chars ofs) =
    dval ds * 2 ^ 32 +
    dval (frac_kept ofs) * 2 ^ 32 / 10 ^ Z.of_nat (length (frac_kept ofs)).
Proof.
  intros Hds Hfs Hov. unfold parse_unsigned.
  rewrite (parse_int_digits ds _ 0) by (rewrite ?Z.mul_0_l; auto with lia).
  rewrite parse_int_stop by (by destruct ofs).
  rewrite Z.mul_0_l, Z.add_0_l.
  destruct ofs as [fs|]; cbn [frac_chars frac_kept]; [|by rewrite Z.div_0_l].
  change (code ".") with 46. rewrite Z.eqb_refl.
  rewrite parse_frac_digits by (done || lia). cbn [Nat.sub Nat.add].
  fold (dval (take 10 fs)). rewrite pow10_spec.
  pose proof (dval_bounds _ (Forall_take _ 10 _ Hfs)).
  rewrite Z.quot_div_nonneg by lia. done.
Qed.

Lemma parseDecimal_unsigned ws s ds ofs :
  Forall (λ c, is_blank c = true) ws → Forall digit ds →
  parseDecimal_chars (decimal_text ws s ds ofs) =
    s64 (with_sign s (parse_unsigned (map digit_char ds ++ frac_chars ofs))).
Proof.
  intros Hws Hds. unfold parseDecimal_chars, decimal_text.
  rewrite skip_blanks_app by done.
  set (q := map digit_char ds ++ frac_chars ofs).
  destruct s; cbn [sign_chars app]; [|done..].
  assert (skip_blanks q = q ∧
    match q with [] => True | c :: _ => (code c =? 45) = false ∧ (code c =? 43) = false end)
    as [Hq Hc].
  { subst q. destruct Hds as [|d ds Hd Hds].
    - by destruct ofs.
    - cbn [map app skip_blanks]. unfold is_blank. rewrite (code_digit_char d Hd).
      unfold digit in Hd.
      destruct (Z.eqb_spec (48 + d) 32), (Z.eqb_spec (48 + d) 9),
        (Z.eqb_spec (48 + d) 45), (Z.eqb_spec (48 + d) 43); try lia; done. }
  rewrite Hq. destruct q as [|c q]; [done|]. by destruct Hc as [-> ->].
Qed.

(** ** Properties *)

(** C30: for a text whose integer part is within the documented range of [Decimal]
    and with at most ten fractional digits, the parsed raw value is the exact
    decimal number scaled by 2^32, truncated towards zero: the error is below one
    unit in the last place and never away from zero. *)
Theorem parseDecimal_accurate ws s ds fs :
  Forall (λ c, is_blank c = true) ws → Forall digit ds → Forall digit fs →
  dval ds < 2 ^ 31 → (length fs <= 10)%nat →
  ∃ err, 0 <= err < 10 ^ Z.of_nat (length fs) ∧
    parseDecimal_chars (decimal_text ws s ds (Some fs)) * 10 ^ Z.of_nat (length fs)
    = with_sign s (dval (ds ++ fs) * 2 ^ 32 - err).
Proof.
  intros Hws Hds Hfs Hr Hl.
  rewrite parseDecimal_unsigned, parse_unsigned_spec by (done || lia).
  cbn [frac_kept]. rewrite take_ge by lia.
  set (k := 10 ^ Z.of_nat (length fs)).
  pose proof (dval_bounds ds Hds) as Hd. pose proof (dval_bounds fs Hfs) as Hf. fold k in Hf.
  assert (0 < k) as Hk by (unfold k; lia).
  pose proof (Z.mul_div_le (dval fs * 2 ^ 32) k Hk) as H1.
  pose proof (Z.mul_succ_div_gt (dval fs * 2 ^ 32) k Hk) as H2.
  assert (dval fs * 2 ^ 32 / k < 2 ^ 32) by (apply Z.div_lt_upper_bound; nia).
  assert (0 <= dval fs * 2 ^ 32 / k) by (apply Z.div_pos; lia).
  set (q := dval fs * 2 ^ 32 / k) in *.
  exists (dval fs * 2 ^ 32 - k * q). split; [lia|].
  rewrite dval_app. fold k.
  rewrite s64_id by (destruct s; unfold inS; cbn [with_sign]; simpl; lia).
  destruct s; cbn [with_sign]; ring.
Qed.

Lemma parseDecimal_accurate_witness :
  ∃ err, 0 <= err < 10 ^ 2 ∧
    parseDecimal " -1234.56" * 10 ^ 2 = - (123456 * 2 ^ 32 - err).
Proof.
  exact (parseDecimal_accurate [" "%char] Minus [1; 2; 3; 4] [5; 6]
    ltac:(by repeat constructor) ltac:(repeat constructor; done)
    ltac:(repeat constructor; done) ltac:(reflexivity) ltac:(simpl; lia)).
Defined.

(** Outside the documented range nothing is rejected: an integer text of at
    most 18 digits or so (any value an [int64_t] holds) is reduced modulo 2^32
    into the range, as a two's complement 32-bit integer part. *)
Lemma parseDecimal_int_wraps ws s ds :
  Forall (λ c, is_blank c = true) ws → Forall digit ds → dval ds < 2 ^ 63 →
  parseDecimal_chars (decimal_text ws s ds None) = wrapS 32 (with_sign s (dval ds)) * 2 ^ 32.
Proof.
  intros Hws Hds Hov.
  rewrite parseDecimal_unsigned, parse_unsigned_spec by done.
  cbn [frac_kept length dval fold_left]. rewrite Z.mul_0_l, Z.div_0_l, Z.add_0_r by done.
  replace (with_sign s (dval ds * 2 ^ 32)) with (with_sign s (dval ds) * 2 ^ 32)
    by (destruct s; cbn [with_sign]; ring).
  unfold wrapS. set (z := with_sign s (dval ds)).
  replace (z * 2 ^ 32 + 2 ^ (64 - 1)) with ((z + 2 ^ (32 - 1)) * 2 ^ 32) by lia.
  replace (2 ^ 64) with (2 ^ 32 * 2 ^ 32) by lia.
  rewrite Z.mul_mod_distr_r by lia. lia.
Qed.

Lemma parseDecimal_int_wraps_witness :
  parseDecimal "2147483648" = - 2147483648 * 2 ^ 32.
Proof.
  exact (parseDecimal_int_wraps [] NoSign [2; 1; 4; 7; 4; 8; 3; 6; 4; 8]
    ltac:(constructor) ltac:(repeat constructor; done) ltac:(reflexivity)).
Defined.
