(* ===== verification/BookSpec.v ===== *)
(** The abstract order book: what both order-book implementations promise.

    A side of the book is a list of price levels, best price first, strictly
    ordered by [better] (higher first for bids, lower first for asks), at most
    [MAX_DEPTH] long. A tick with a positive quantity sets its level, any other
    quantity removes it; what falls below the twentieth level is forgotten. The
    class [BookContract] states the contract an implementation fulfils with respect
    to this specification. *)
From S2P Require Import Prelude.
From S2P Require Import FixedPoint.
From S2P Require Import Types.

Definition MAX_DEPTH : nat := 20.

(** ** Price orders *)

Class PriceOrder (better : Z → Z → bool) : Prop := {
  better_irrefl a : better a a = false;
  better_trans a b c : better a b = true → better b c = true → better a c = true;
  better_total a b : better a b = true ∨ a = b ∨ better b a = true;
}.

Definition bid_better : Z → Z → bool := Z.gtb.
Definition ask_better : Z → Z → bool := Z.ltb.

#[export] Instance bid_order : PriceOrder bid_better.
Proof. split; unfold bid_better; intros; rewrite ?Z.gtb_ltb in *; lia. Qed.

#[export] Instance ask_order : PriceOrder ask_better.
Proof. split; unfold ask_better; intros; lia. Qed.

Lemma better_asym `{PriceOrder better} a b : better a b = true → better b a = false.
Proof.
  intros Hab. destruct (better b a) eqn:Hba; [|done].
  pose proof (better_trans a b a Hab Hba). by rewrite better_irrefl in *.
Qed.

(** ** One side of the book *)

Notation levels := (list PriceLevel.t).

Section side.
Context (better : Z → Z → bool).

Definition sorted_levels : levels → Prop :=
  StronglySorted (λ a b, better (PriceLevel.price a) (PriceLevel.price b) = true).

(** [std::map]'s [m[price] = quantity] on the ordered list of its entries. *)
Fixpoint set_level (p q : Z) (l : levels) : levels :=
  match l with
  | [] => [PriceLevel.mk p q]
  | x :: l' =>
      if better (PriceLevel.price x) p then x :: set_level p q l'
      else if PriceLevel.price x =? p then PriceLevel.mk p q :: l'
      else PriceLevel.mk p q :: x :: l'
  end.

(** [m.find(price)] *)
Fixpoint find_level (p : Z) (l : levels) : option Z :=
  match l with
  | [] => None
  | x :: l' => if PriceLevel.price x =? p then Some (PriceLevel.quantity x) else find_level p l'
  end.

(** [m.erase(it)] for the entry at [price] *)
Fixpoint erase_level (p : Z) (l : levels) : levels :=
  match l with
  | [] => []
  | x :: l' => if PriceLevel.price x =? p then l' else x :: erase_level p l'
  end.

Definition side_update (p q : Z) (l : levels) : levels :=
  if q >? 0 then take MAX_DEPTH (set_level p q l) else erase_level p l.

Definition side_wf (l : levels) : Prop :=
  sorted_levels l ∧ (length l <= MAX_DEPTH)%nat ∧
  Forall (λ x, 0 < PriceLevel.quantity x) l.

Context `{!PriceOrder better}.

(** A sorted list splits at any price into the levels better than it and the rest. *)
Lemma split_at p l :
  sorted_levels l →
  ∃ pre suf, l = pre ++ suf ∧
    Forall (λ x, better (PriceLevel.price x) p = true) pre ∧
    Forall (λ x, better (PriceLevel.price x) p = false) suf.
Proof.
  induction 1 as [|x l Hl IH Hx]; [by exists [], []|].
  destruct (better (PriceLevel.price x) p) eqn:Hp.
  - destruct IH as (pre & suf & -> & Hpre & Hsuf).
    exists (x :: pre), suf. by repeat constructor.
  - exists [], (x :: l). split_and!; [done..|]. constructor; [done|].
    eapply Forall_impl; [done|]. intros y Hxy. simpl in Hxy.
    destruct (better (PriceLevel.price y) p) eqn:Hy; [|done].
    pose proof (better_trans _ _ _ Hxy Hy). congruence.
Qed.

Definition set_head (p q : Z) (suf : levels) : levels :=
  match suf with
  | [] => [PriceLevel.mk p q]
  | x :: suf' =>
      if PriceLevel.price x =? p then PriceLevel.mk p q :: suf'
      else PriceLevel.mk p q :: suf
  end.

Lemma set_level_split p q pre suf :
  Forall (λ x, better (PriceLevel.price x) p = true) pre →
  Forall (λ x, better (PriceLevel.price x) p = false) suf →
  set_level p q (pre ++ suf) = pre ++ set_head p q suf.
Proof.
  intros Hpre Hsuf. induction Hpre as [|x pre Hx Hpre IH]; simpl.
  - destruct Hsuf as [|x suf Hx Hsuf]; simpl; [done|]. by rewrite Hx.
  - by rewrite Hx, IH.
Qed.

Lemma erase_level_pre p pre suf :
  Forall (λ x, better (PriceLevel.price x) p = true) pre →
  erase_level p (pre ++ suf) = pre ++ erase_level p suf.
Proof.
  induction 1 as [|x pre Hx Hpre IH]; simpl; [done|].
  destruct (Z.eqb_spec (PriceLevel.price x) p) as [Heq|]; [|by rewrite IH].
  by rewrite Heq, better_irrefl in Hx.
Qed.

Lemma find_level_elem p q l : find_level p l = Some q → PriceLevel.mk p q ∈ l.
Proof.
  induction l as [|[p' q'] l IH]; simpl; [done|].
  destruct (Z.eqb_spec p' p) as [->|]; intros ?; simplify_eq; set_solver.
Qed.

Lemma erase_level_absent p l : find_level p l = None → erase_level p l = l.
Proof.
  induction l as [|x l IH]; simpl; [done|].
  destruct (PriceLevel.price x =? p); [done|]. intros ?. f_equal. auto.
Qed.

Lemma set_level_Forall P p q l : P (PriceLevel.mk p q) → Forall P l → Forall P (set_level p q l).
Proof.
  intros Hpq. induction 1 as [|x l Hx Hl IH]; simpl; [by repeat constructor|].
  destruct (better _ p); [|destruct (_ =? p)]; repeat constructor; auto.
Qed.

Lemma erase_level_Forall P p l : Forall P l → Forall P (erase_level p l).
Proof.
  induction 1 as [|x l Hx Hl IH]; simpl; [done|].
  destruct (_ =? p); [done|]. by constructor.
Qed.

Lemma set_level_sorted p q l : sorted_levels l → sorted_levels (set_level p q l).
Proof.
  induction 1 as [|x l Hl IH Hx]; simpl; [by repeat constructor|].
  destruct (better (PriceLevel.price x) p) eqn:Hb.
  - constructor; [done|]. by apply set_level_Forall.
  - destruct (Z.eqb_spec (PriceLevel.price x) p) as [Heq|Hne].
    + constructor; [done|]. by rewrite <-Heq.
    + assert (better p (PriceLevel.price x) = true) as Hpx.
      { destruct (better_total (PriceLevel.price x) p) as [?|[?|?]]; congruence. }
      repeat constructor; [done..|].
      eapply Forall_impl; [done|]. intros y Hxy. simpl in *. by eapply better_trans.
Qed.

Lemma erase_level_sorted p l : sorted_levels l → sorted_levels (erase_level p l).
Proof.
  induction 1 as [|x l Hl IH Hx]; simpl; [constructor|].
  destruct (_ =? p); [done|]. constructor; [done|]. by apply erase_level_Forall.
Qed.

Lemma set_level_length p q l :
  (length l <= length (set_level p q l) <= S (length l))%nat.
Proof.
  induction l as [|x l IH]; simpl; [lia|].
  destruct (better _ p); [|destruct (_ =? p)]; simpl; lia.
Qed.

Lemma erase_level_length p l : (length (erase_level p l) <= length l)%nat.
Proof. induction l as [|x l IH]; simpl; [lia|]. destruct (_ =? p); simpl; lia. Qed.

Lemma take_sorted n l : sorted_levels l → sorted_levels (take n l).
Proof. intros Hl. rewrite <-(take_drop n l) in Hl. by eapply StronglySorted_app_1_l. Qed.

Lemma side_update_wf p q l : side_wf l → side_wf (side_update p q l).
Proof.
  intros (Hs & Hl & Hq). unfold side_update. rewrite Z.gtb_ltb.
  destruct (Z.ltb_spec 0 q) as [Hpos|]; split_and!.
  - by apply take_sorted, set_level_sorted.
  - rewrite length_take. lia.
  - by apply Forall_take, set_level_Forall.
  - by apply erase_level_sorted.
  - pose proof (erase_level_length p l). lia.
  - by apply erase_level_Forall.
Qed.

(** The head of a sorted side is better than everything behind it. *)
Lemma sorted_head_best x l y :
  sorted_levels (x :: l) → y ∈ l → better (PriceLevel.price x) (PriceLevel.price y) = true.
Proof. intros [Hx _]%StronglySorted_cons Hy. rewrite Forall_forall in Hx. by apply Hx. Qed.

(** *** Lookups *)

Lemma find_set_eq p q l : sorted_levels l → find_level p (set_level p q l) = Some q.
Proof.
  induction 1 as [|x l Hl IH Hx]; simpl; [by rewrite Z.eqb_refl|].
  destruct (better _ p) eqn:Hb; simpl.
  - destruct (Z.eqb_spec (PriceLevel.price x) p) as [Heq|]; [|done].
    by rewrite Heq, better_irrefl in Hb.
  - destruct (_ =? p); simpl; by rewrite Z.eqb_refl.
Qed.

Lemma find_set_ne p p' q l : p ≠ p' → find_level p' (set_level p q l) = find_level p' l.
Proof.
  intros Hne. induction l as [|x l IH]; simpl.
  - by rewrite (proj2 (Z.eqb_neq p p')).
  - destruct (better _ p); simpl; [by rewrite IH|].
    destruct (Z.eqb_spec (PriceLevel.price x) p) as [Heq|]; simpl;
      rewrite (proj2 (Z.eqb_neq p p')) by done; [|done].
    destruct (Z.eqb_spec (PriceLevel.price x) p'); [congruence|done].
Qed.

Lemma find_above_None p l :
  Forall (λ y, better p (PriceLevel.price y) = true) l → find_level p l = None.
Proof.
  induction 1 as [|y l Hy Hl IH]; simpl; [done|].
  destruct (Z.eqb_spec (PriceLevel.price y) p) as [Heq|]; [|done].
  by rewrite Heq, better_irrefl in Hy.
Qed.

Lemma find_erase_eq p l : sorted_levels l → find_level p (erase_level p l) = None.
Proof.
  induction 1 as [|x l Hl IH Hx]; simpl; [done|].
  destruct (Z.eqb_spec (PriceLevel.price x) p) as [<-|Hne]; simpl.
  - by apply find_above_None.
  - by rewrite (proj2 (Z.eqb_neq _ _) Hne).
Qed.

Lemma find_erase_ne p p' l : p ≠ p' → find_level p' (erase_level p l) = find_level p' l.
Proof.
  intros Hne. induction l as [|x l IH]; simpl; [done|].
  destruct (Z.eqb_spec (PriceLevel.price x) p) as [Heq|]; simpl; [|by rewrite IH].
  destruct (Z.eqb_spec (PriceLevel.price x) p'); [congruence|done].
Qed.
End side.

(** ** The book *)

Record book := Book { book_bids : levels; book_asks : levels }.

Definition book_wf (b : book) : Prop :=
  side_wf bid_better (book_bids b) ∧ side_wf ask_better (book_asks b).

Definition book_init : book := Book [] [].

(** Every tick that is not a bid updates the ask side, trades included. *)
Definition book_update (t : Tick.t) (b : book) : book :=
  match Tick.side t with
  | TickSide.BID =>
      Book (side_update bid_better (Tick.price t) (Tick.quantity t) (book_bids b)) (book_asks b)
  | _ =>
      Book (book_bids b) (side_update ask_better (Tick.price t) (Tick.quantity t) (book_asks b))
  end.

Definition book_run (ts : list Tick.t) (b : book) : book :=
  fold_left (λ b t, book_update t b) ts b.

Definition best_price (l : levels) : option Z := PriceLevel.price <$> head l.

Lemma book_init_wf : book_wf book_init.
Proof. repeat split; repeat constructor; simpl; lia. Qed.

Lemma book_update_wf t b : book_wf b → book_wf (book_update t b).
Proof.
  intros [Hb Ha]. unfold book_update.
  destruct (Tick.side t); split; try done; by apply side_update_wf; try apply _.
Qed.

Lemma book_run_wf ts b : book_wf b → book_wf (book_run ts b).
Proof.
  revert b. induction ts as [|t ts IH]; intros b Hb; simpl; [done|].
  by apply IH, book_update_wf.
Qed.

(** *** Shallow traces lose nothing

    While a side never sees more than [MAX_DEPTH] prices, the book is the plain
    finite map of last quantities. *)

Definition qty_update (p q : Z) (m : gmap Z Z) : gmap Z Z :=
  if q >? 0 then <[p := q]> m else delete p m.

Definition is_bid (t : Tick.t) : bool :=
  match Tick.side t with TickSide.BID => true | _ => false end.

Definition last_quantities (bid : bool) (ts : list Tick.t) (m : gmap Z Z) : gmap Z Z :=
  fold_left
    (λ m t, if Bool.eqb (is_bid t) bid then qty_update (Tick.price t) (Tick.quantity t) m else m)
    ts m.

Definition side_prices (bid : bool) (ts : list Tick.t) : gset Z :=
  list_to_set (Tick.price <$> filter (λ t, is_bid t = bid) ts).

Lemma side_update_shallow better `{!PriceOrder better} p q l m (ps : gset Z) :
  sorted_levels better l → (∀ p', find_level p' l = m !! p') →
  (size ps <= MAX_DEPTH)%nat → p ∈ ps →
  (∀ x, x ∈ l → PriceLevel.price x ∈ ps) →
  (∀ p', find_level p' (side_update better p q l) = qty_update p q m !! p') ∧
  (∀ x, x ∈ side_update better p q l → PriceLevel.price x ∈ ps).
Proof.
  intros Hs Hm Hsz Hp Hps. unfold side_update, qty_update. rewrite Z.gtb_ltb.
  destruct (Z.ltb_spec 0 q).
  - assert (Forall (λ x, PriceLevel.price x ∈ ps) (set_level better p q l)) as Hall.
    { apply set_level_Forall; [done|]. by rewrite Forall_forall. }
    rewrite take_ge.
    + split; [|by rewrite Forall_forall in Hall].
      intros p'. destruct (decide (p = p')) as [<-|Hne].
      * rewrite lookup_insert_eq. by apply find_set_eq.
      * rewrite lookup_insert_ne, find_set_ne by done. auto.
    + assert (NoDup (PriceLevel.price <$> set_level better p q l)) as Hnd.
      { pose proof (set_level_sorted better p q l Hs) as Hss.
        induction Hss as [|x l' Hl' IH Hx]; simpl; [constructor|].
        apply Forall_cons in Hall as [_ Hall]. constructor; [|auto].
        intros (y & Heq & Hy)%list_elem_of_fmap. rewrite Forall_forall in Hx.
        specialize (Hx y Hy). simpl in Hx. by rewrite Heq, better_irrefl in Hx. }
      pose proof (subseteq_size (list_to_set (PriceLevel.price <$> set_level better p q l)) ps) as Hsub.
      rewrite size_list_to_set, length_fmap in Hsub by done.
      etrans; [|exact Hsz]. apply Hsub. intros x. rewrite elem_of_list_to_set.
      intros (y & -> & Hy)%list_elem_of_fmap. rewrite Forall_forall in Hall. by apply Hall.
  - split.
    + intros p'. destruct (decide (p = p')) as [<-|Hne].
      * rewrite lookup_delete_eq. by eapply find_erase_eq.
      * rewrite lookup_delete_ne, find_erase_ne by done. auto.
    + rewrite <-Forall_forall. apply erase_level_Forall. by rewrite Forall_forall.
Qed.

Lemma book_run_shallow_gen bid ts b m (ps : gset Z) :
  let side := λ b, if bid : bool then book_bids b else book_asks b in
  book_wf b → (∀ p, find_level p (side b) = m !! p) →
  (size ps <= MAX_DEPTH)%nat → side_prices bid ts ⊆ ps →
  (∀ x, x ∈ side b → PriceLevel.price x ∈ ps) →
  ∀ p, find_level p (side (book_run ts b)) = last_quantities bid ts m !! p.
Proof.
  intros side. revert b m. induction ts as [|t ts IH]; intros b m Hwf Hm Hsz Hsub Hin; [done|].
  cbn [book_run last_quantities fold_left].
  assert (side_prices bid ts ⊆ ps) as Hsub'.
  { unfold side_prices in *. rewrite filter_cons in Hsub. case_decide; set_solver. }
  apply IH; clear IH; [by apply book_update_wf|..|done|done|].
  all: destruct Hwf as [(Hsb & _) (Hsa & _)]; unfold side, book_update, is_bid.
  all: unfold side in Hm, Hin.
  all: destruct (Tick.side t) eqn:Ht, bid; cbn [Bool.eqb book_bids book_asks]; try done.
  all: assert (Tick.price t ∈ ps) as Hp
    by (apply Hsub; unfold side_prices; rewrite filter_cons, decide_True
          by (unfold is_bid; by rewrite Ht); set_solver).
  all: by eapply side_update_shallow; try apply _.
Qed.

(** ** The contract *)

(** What an order book promises: [ob_abs] maps its state to the abstract book,
    [ob_inv] is its representation invariant. *)
Class BookContract (B : Type) := {
  ob_init : B;
  ob_update : Tick.t → B → B;
  ob_clear : B → B;
  ob_best_bid : B → option (option Z);
  ob_best_ask : B → option (option Z);
  ob_inv : B → Prop;
  ob_abs : B → book;
  ob_init_ok : ob_inv ob_init ∧ ob_abs ob_init = book_init;
  ob_update_ok t s : ob_inv s → ob_inv (ob_update t s) ∧
    ob_abs (ob_update t s) = book_update t (ob_abs s);
  ob_clear_ok s : ob_inv s → ob_inv (ob_clear s) ∧ ob_abs (ob_clear s) = book_init;
  ob_best_bid_ok s : ob_inv s → ob_best_bid s = Some (best_price (book_bids (ob_abs s)));
  ob_best_ask_ok s : ob_inv s → ob_best_ask s = Some (best_price (book_asks (ob_abs s)));
  ob_inv_wf s : ob_inv s → book_wf (ob_abs s);
}.

Definition ob_run `{BookContract B} (ts : list Tick.t) : B :=
  fold_left (λ s t, ob_update t s) ts ob_init.

Section client.
Context `{BookContract B}.

Lemma ob_run_ok ts : ob_inv (ob_run ts) ∧ ob_abs (ob_run ts) = book_run ts book_init.
Proof.
  unfold ob_run, book_run. destruct ob_init_ok as [Hi Ha]. rewrite <-Ha.
  clear Ha. revert Hi. generalize ob_init as s.
  induction ts as [|t ts IH]; intros s Hi; simpl; [done|].
  destruct (ob_update_ok t s Hi) as [Hi' <-]. by apply IH.
Qed.

Lemma ob_run_best_bid ts :
  ob_best_bid (ob_run ts) = Some (best_price (book_bids (book_run ts book_init))).
Proof. destruct (ob_run_ok ts) as [Hi <-]. by apply ob_best_bid_ok. Qed.

Lemma ob_run_best_ask ts :
  ob_best_ask (ob_run ts) = Some (best_price (book_asks (book_run ts book_init))).
Proof. destruct (ob_run_ok ts) as [Hi <-]. by apply ob_best_ask_ok. Qed.

Lemma ob_run_find_bid ts p :
  (size (side_prices true ts) <= MAX_DEPTH)%nat →
  find_level p (book_bids (ob_abs (ob_run ts))) = last_quantities true ts ∅ !! p.
Proof.
  intros Hsz. destruct (ob_run_ok ts) as [_ ->].
  apply (book_run_shallow_gen true ts book_init ∅ (side_prices true ts));
    [apply book_init_wf|done|done|done|]. cbn. set_solver.
Qed.

Lemma ob_run_find_ask ts p :
  (size (side_prices false ts) <= MAX_DEPTH)%nat →
  find_level p (book_asks (ob_abs (ob_run ts))) = last_quantities false ts ∅ !! p.
Proof.
  intros Hsz. destruct (ob_run_ok ts) as [_ ->].
  apply (book_run_shallow_gen false ts book_init ∅ (side_prices false ts));
    [apply book_init_wf|done|done|done|]. cbn. set_solver.
Qed.
End client.
