(* ===== verification/OrderBookV2.v ===== *)
(** [OrderBookV2] (include/chronos/market_data/orderbook_v2.hpp,
    src/market_data/orderbook_v2.cpp): five hot levels behind a version counter,
    twenty cold levels in two swapped buffers.

    The C arrays are lists of fixed length updated in place; [std::memcpy] and the
    loops that shift levels are written out. The counters are [nat]: the invariant
    bounds them by [MAX_DEPTH], so the [uint8_t] of the source never wraps. This
    file is the writer's thread; [Seqlock.v] has the concurrent readers. *)
From S2P Require Import Prelude.
From S2P Require Import FixedPoint.
From S2P Require Import Types.
From S2P Require Import BookSpec.

Definition HOT_DEPTH : nat := 5.

(** ** Sorted-array operations

    The bid and the ask versions differ in the direction of the comparison only:
    [before levels[mid].price price] is [levels[mid].price > price] for bids and
    [levels[mid].price < price] for asks. *)
Section arrays.
Context (before : Z → Z → bool).

Notation price_at levels i := (PriceLevel.price (levels !!! i)).

(** [for (i = count; i > insert_pos; --i) levels[i] = levels[i - 1]], with
    [n = i - insert_pos] turns left. *)
Fixpoint shift_up (n insert_pos : nat) (levels : levels) : BookSpec.levels :=
  match n with
  | O => levels
  | S n' =>
      let i := (insert_pos + S n')%nat in
      shift_up n' insert_pos (<[i := levels !!! (i - 1)%nat]> levels)
  end.

(** [for (j = mid; j < count - 1; ++j) levels[j] = levels[j + 1]], with [n] turns left. *)
Fixpoint shift_down (n j : nat) (levels : levels) : BookSpec.levels :=
  match n with
  | O => levels
  | S n' => shift_down n' (S j) (<[j := levels !!! S j]> levels)
  end.

Definition insertLevel (levels : levels) (count : nat) (price quantity : Z)
    : BookSpec.levels * nat * Z :=
  let lo := bsearch (λ mid, before (price_at levels mid) price) 0 count in
  if (lo <? count)%nat && (price_at levels lo =? price) then
    (<[lo := PriceLevel.mk (price_at levels lo) quantity]> levels, count, Z.of_nat lo)
  else
    let insert_pos := lo in
    if (MAX_DEPTH <=? count)%nat && (MAX_DEPTH <=? insert_pos)%nat then (levels, count, -1)
    else
      let count := if (MAX_DEPTH <=? count)%nat then (MAX_DEPTH - 1)%nat else count in
      let levels := shift_up (count - insert_pos) insert_pos levels in
      (<[insert_pos := PriceLevel.mk price quantity]> levels, S count, Z.of_nat insert_pos).

(** The search of [removeBidLevel]: [Some mid] when the price is found. *)
Fixpoint remove_search (fuel : nat) (levels : levels) (price : Z) (lo hi : nat) : option nat :=
  match fuel with
  | O => None
  | S fuel' =>
      if decide (lo < hi)%nat then
        let mid := (lo + (hi - lo) / 2)%nat in
        if before (price_at levels mid) price then remove_search fuel' levels price (mid + 1) hi
        else if before price (price_at levels mid) then remove_search fuel' levels price lo mid
        else Some mid
      else None
  end.

Definition removeLevel (levels : levels) (count : nat) (price : Z)
    : BookSpec.levels * nat * Z :=
  match remove_search count levels price 0 count with
  | Some mid => (shift_down (count - 1 - mid) mid levels, (count - 1)%nat, Z.of_nat mid)
  | None => (levels, count, -1)
  end.
End arrays.

Definition insertBidLevel := insertLevel bid_better.
Definition insertAskLevel := insertLevel ask_better.
Definition removeBidLevel := removeLevel bid_better.
Definition removeAskLevel := removeLevel ask_better.

(** ** State *)

Module HotData.
Record t := mk {
  bid_prices : list Z;
  bid_quantities : list Z;
  ask_prices : list Z;
  ask_quantities : list Z;
  version : Z;
  last_update_time : Z;
  bid_count : nat;
  ask_count : nat;
}.
Definition zeros : list Z := replicate HOT_DEPTH 0.
Definition init : t := mk zeros zeros zeros zeros 0 0 0 0.
End HotData.

Module ColdData.
Record t := mk {
  bids : levels;
  asks : levels;
  bid_count : nat;
  ask_count : nat;
  last_update_time : Z;
}.
Definition empty_levels : levels := replicate MAX_DEPTH PriceLevel.default.
Definition init : t := mk empty_levels empty_levels 0 0 0.
(** [clear()] keeps [last_update_time]. *)
Definition clear (c : t) : t := mk empty_levels empty_levels 0 0 (last_update_time c).
End ColdData.

Module Statistics.
Record t := mk {
  total_updates : Z;
  hot_path_reads : Z;
  cold_path_reads : Z;
  buffer_swaps : Z;
  version_retries : Z;
}.
Definition init : t := mk 0 0 0 0 0.
End Statistics.

(** [active_cold_buffer_] is the index of the buffer the pointer designates. *)
Record OrderBookV2 := mkOrderBookV2 {
  hot_data_ : HotData.t;
  cold_buffers_ : ColdData.t * ColdData.t;
  active_cold_buffer_ : bool;
  write_buffer_index_ : bool;
  stats_ : Statistics.t;
  hot_data_dirty_ : bool;
}.

Definition buffer (i : bool) (s : OrderBookV2) : ColdData.t :=
  if i then (cold_buffers_ s).2 else (cold_buffers_ s).1.

Definition set_buffer (i : bool) (c : ColdData.t) (s : OrderBookV2) : OrderBookV2 :=
  s {{ cold_buffers_ := if i then ((cold_buffers_ s).1, c) else (c, (cold_buffers_ s).2) }}.

Definition getWriteBuffer (s : OrderBookV2) : ColdData.t := buffer (write_buffer_index_ s) s.
Definition setWriteBuffer (c : ColdData.t) (s : OrderBookV2) : OrderBookV2 :=
  set_buffer (write_buffer_index_ s) c s.
Definition getReadBuffer (s : OrderBookV2) : ColdData.t := buffer (active_cold_buffer_ s) s.

(** The constructor leaves both indices on buffer 0. *)
Definition OrderBookV2_init : OrderBookV2 :=
  mkOrderBookV2 HotData.init (ColdData.init, ColdData.init) false false Statistics.init false.

(** ** The writer *)

Definition updateLevels (tick : Tick.t) (s : OrderBookV2) : OrderBookV2 :=
  let write_buf := getWriteBuffer s in
  let price := Tick.price tick in
  let quantity := Tick.quantity tick in
  let '(write_buf, affected_pos) :=
    match Tick.side tick with
    | TickSide.BID =>
        let '(l, n, pos) :=
          if quantity >? 0
          then insertBidLevel (ColdData.bids write_buf) (ColdData.bid_count write_buf) price quantity
          else removeBidLevel (ColdData.bids write_buf) (ColdData.bid_count write_buf) price in
        (write_buf {{ ColdData.bids := l; ColdData.bid_count := n }}, pos)
    | _ =>
        let '(l, n, pos) :=
          if quantity >? 0
          then insertAskLevel (ColdData.asks write_buf) (ColdData.ask_count write_buf) price quantity
          else removeAskLevel (ColdData.asks write_buf) (ColdData.ask_count write_buf) price in
        (write_buf {{ ColdData.asks := l; ColdData.ask_count := n }}, pos)
    end in
  let dirty := (0 <=? affected_pos) && (affected_pos <? Z.of_nat HOT_DEPTH) in
  let write_buf := write_buf {{ ColdData.last_update_time := Tick.receive_timestamp_us tick }} in
  (setWriteBuffer write_buf s) {{ hot_data_dirty_ := dirty }}.

(** [for (i = 0; i < n; ++i) dst[i] = f(src[i])], from [i] on with [n - i] turns left. *)
Fixpoint copy_levels (k i : nat) (f : PriceLevel.t → Z) (src : levels) (dst : list Z) : list Z :=
  match k with
  | O => dst
  | S k' => copy_levels k' (S i) f src (<[i := f (src !!! i)]> dst)
  end.

Definition rebuildHotData (s : OrderBookV2) : OrderBookV2 :=
  if negb (hot_data_dirty_ s) then s
  else
    let s := s {{ hot_data_dirty_ := false }} in
    let write_buf := getWriteBuffer s in
    let h := hot_data_ s in
    let h := h {{ HotData.version ::= inc64 }} in
    let h := h {{ HotData.bid_count := Nat.min HOT_DEPTH (ColdData.bid_count write_buf) }} in
    let h := h {{
      HotData.bid_prices ::=
        copy_levels (HotData.bid_count h) 0 PriceLevel.price (ColdData.bids write_buf);
      HotData.bid_quantities ::=
        copy_levels (HotData.bid_count h) 0 PriceLevel.quantity (ColdData.bids write_buf) }} in
    let h := h {{ HotData.ask_count := Nat.min HOT_DEPTH (ColdData.ask_count write_buf) }} in
    let h := h {{
      HotData.ask_prices ::=
        copy_levels (HotData.ask_count h) 0 PriceLevel.price (ColdData.asks write_buf);
      HotData.ask_quantities ::=
        copy_levels (HotData.ask_count h) 0 PriceLevel.quantity (ColdData.asks write_buf) }} in
    let h := h {{ HotData.last_update_time := ColdData.last_update_time write_buf }} in
    let h := h {{ HotData.version ::= inc64 }} in
    s {{ hot_data_ := h }}.

Definition swapColdBuffers (s : OrderBookV2) : OrderBookV2 :=
  let s := s {{ write_buffer_index_ := negb (write_buffer_index_ s) }} in
  let new_active := negb (write_buffer_index_ s) in
  let s := s {{ active_cold_buffer_ := new_active }} in
  let s := setWriteBuffer (buffer new_active s) s in
  s {{ stats_ -> Statistics.buffer_swaps ::= inc64 }}.

Definition update (tick : Tick.t) (s : OrderBookV2) : OrderBookV2 :=
  let s := updateLevels tick s in
  let s := rebuildHotData s in
  let s := swapColdBuffers s in
  s {{ stats_ -> Statistics.total_updates ::= inc64 }}.

Definition clear (s : OrderBookV2) : OrderBookV2 :=
  let s := setWriteBuffer (ColdData.clear (getWriteBuffer s)) s in
  let h := hot_data_ s in
  let h := h {{ HotData.version ::= inc64 }} in
  let h := h {{ HotData.bid_count := 0%nat; HotData.ask_count := 0%nat }} in
  let h := h {{ HotData.bid_prices := HotData.zeros; HotData.bid_quantities := HotData.zeros;
                HotData.ask_prices := HotData.zeros; HotData.ask_quantities := HotData.zeros }} in
  let h := h {{ HotData.version ::= inc64 }} in
  swapColdBuffers (s {{ hot_data_ := h }}).

(** ** Readers *)

(** The optimistic read as the writer's own thread sees it: with an odd version it
    would retry for ever ([None]), with an even one its first attempt succeeds. *)
Definition readHotDataOptimistic {A} (func : HotData.t → A) (s : OrderBookV2) : option A :=
  if Z.odd (HotData.version (hot_data_ s)) then None else Some (func (hot_data_ s)).

Definition getBestBid (s : OrderBookV2) : option (option Z) :=
  readHotDataOptimistic (λ data,
    if (0 <? HotData.bid_count data)%nat then Some (HotData.bid_prices data !!! 0%nat) else None) s.

Definition getBestAsk (s : OrderBookV2) : option (option Z) :=
  readHotDataOptimistic (λ data,
    if (0 <? HotData.ask_count data)%nat then Some (HotData.ask_prices data !!! 0%nat) else None) s.

Definition getMidPrice `{FpmOps} (s : OrderBookV2) : option (option Z) :=
  readHotDataOptimistic (λ data,
    if (0 <? HotData.bid_count data)%nat && (0 <? HotData.ask_count data)%nat
    then Some ((HotData.bid_prices data !!! 0%nat ⊞ HotData.ask_prices data !!! 0%nat)
               ⊘ fpm_of_int 2)
    else None) s.

Definition getSpread `{FpmOps} (s : OrderBookV2) : option (option Z) :=
  readHotDataOptimistic (λ data,
    if (0 <? HotData.bid_count data)%nat && (0 <? HotData.ask_count data)%nat
    then Some (HotData.ask_prices data !!! 0%nat ⊟ HotData.bid_prices data !!! 0%nat)
    else None) s.

Definition getTop5Bids (s : OrderBookV2) : option levels :=
  readHotDataOptimistic (λ data,
    (λ i, if (i <? HotData.bid_count data)%nat
          then PriceLevel.mk (HotData.bid_prices data !!! i) (HotData.bid_quantities data !!! i)
          else PriceLevel.default) <$> seq 0 HOT_DEPTH) s.

Definition getTop5Asks (s : OrderBookV2) : option levels :=
  readHotDataOptimistic (λ data,
    (λ i, if (i <? HotData.ask_count data)%nat
          then PriceLevel.mk (HotData.ask_prices data !!! i) (HotData.ask_quantities data !!! i)
          else PriceLevel.default) <$> seq 0 HOT_DEPTH) s.

Definition count_cold_read (s : OrderBookV2) : OrderBookV2 :=
  s {{ stats_ -> Statistics.cold_path_reads ::= inc64 }}.

Definition getBidLevel (level : nat) (s : OrderBookV2) : option PriceLevel.t * OrderBookV2 :=
  if (MAX_DEPTH <=? level)%nat then (None, s)
  else
    let buffer := getReadBuffer s in
    if (level <? ColdData.bid_count buffer)%nat
    then (Some (ColdData.bids buffer !!! level), count_cold_read s)
    else (None, s).

Definition getAskLevel (level : nat) (s : OrderBookV2) : option PriceLevel.t * OrderBookV2 :=
  if (MAX_DEPTH <=? level)%nat then (None, s)
  else
    let buffer := getReadBuffer s in
    if (level <? ColdData.ask_count buffer)%nat
    then (Some (ColdData.asks buffer !!! level), count_cold_read s)
    else (None, s).

Definition is_valid (l : PriceLevel.t) : bool := PriceLevel.quantity l >? 0.

(** [for (i = 0; i < count; ++i) if (levels[i].is_valid()) out.emplace_back(levels[i])] *)
Definition collect_valid (levels : levels) (count : nat) : BookSpec.levels :=
  flat_map (λ i, let l := levels !!! i in if is_valid l then [l] else []) (seq 0 count).

Definition getBidLevels (max_levels : nat) (s : OrderBookV2) : levels * OrderBookV2 :=
  let buffer := getReadBuffer s in
  let count := Nat.min max_levels (ColdData.bid_count buffer) in
  (collect_valid (ColdData.bids buffer) count, count_cold_read s).

Definition getAskLevels (max_levels : nat) (s : OrderBookV2) : levels * OrderBookV2 :=
  let buffer := getReadBuffer s in
  let count := Nat.min max_levels (ColdData.ask_count buffer) in
  (collect_valid (ColdData.asks buffer) count, count_cold_read s).

(** The array of the pair starts out as default levels. *)
Fixpoint copy_fast (k i : nat) (src dst : levels) : levels :=
  match k with
  | O => dst
  | S k' => copy_fast k' (S i) src (<[i := src !!! i]> dst)
  end.

Definition getBidLevelsFast (s : OrderBookV2) : (levels * nat) * OrderBookV2 :=
  let buffer := getReadBuffer s in
  ((copy_fast (ColdData.bid_count buffer) 0 (ColdData.bids buffer) ColdData.empty_levels,
    ColdData.bid_count buffer), count_cold_read s).

Definition getAskLevelsFast (s : OrderBookV2) : (levels * nat) * OrderBookV2 :=
  let buffer := getReadBuffer s in
  ((copy_fast (ColdData.ask_count buffer) 0 (ColdData.asks buffer) ColdData.empty_levels,
    ColdData.ask_count buffer), count_cold_read s).

(** The snapshot's [symbol_id] is never assigned: [uninit] is what its memory held. *)
Definition generateSnapshot (uninit : Z) (s : OrderBookV2) : OrderBookSnapshot.t :=
  let buffer := getReadBuffer s in
  OrderBookSnapshot.mk uninit (ColdData.last_update_time buffer)
    (collect_valid (ColdData.bids buffer) (ColdData.bid_count buffer))
    (collect_valid (ColdData.asks buffer) (ColdData.ask_count buffer)).

Definition empty (s : OrderBookV2) : bool :=
  let buffer := getReadBuffer s in
  (ColdData.bid_count buffer =? 0)%nat && (ColdData.ask_count buffer =? 0)%nat.

Definition getLastUpdateTime (s : OrderBookV2) : Z := HotData.last_update_time (hot_data_ s).

Definition getStatistics (s : OrderBookV2) : Statistics.t := stats_ s.

(** ** Array lemmas *)

(** The first [n] cells of a full-size array are the side [l]. *)
Definition represents (arr : levels) (n : nat) (l : levels) : Prop :=
  length arr = MAX_DEPTH ∧ (n <= MAX_DEPTH)%nat ∧ take n arr = l.

Lemma represents_split arr n l :
  represents arr n l ↔
  ∃ rest, arr = l ++ rest ∧ n = length l ∧ (length l + length rest = MAX_DEPTH)%nat.
Proof.
  split.
  - intros (Hl & Hn & <-). exists (drop n arr). rewrite take_drop, length_take, length_drop. auto with lia.
  - intros (rest & -> & -> & Hl). unfold represents.
    rewrite length_app, take_app_length. auto with lia.
Qed.

Lemma shift_up_insert pre mid y suf z :
  <[length pre := z]> (shift_up (length mid) (length pre) (pre ++ mid ++ y :: suf))
  = pre ++ z :: mid ++ suf.
Proof.
  revert y suf. induction mid as [|m mid IH] using rev_ind; intros y suf.
  - cbn. by rewrite insert_app_r_alt, Nat.sub_diag by lia.
  - rewrite length_app, Nat.add_comm. cbn [length Nat.add shift_up].
    rewrite <-!app_assoc. cbn [app].
    replace ((pre ++ mid ++ m :: y :: suf) !!! (length pre + S (length mid) - 1)%nat) with m.
    2: { symmetry. apply list_lookup_total_correct.
         rewrite lookup_app_r by lia. rewrite lookup_app_r by lia.
         by replace (_ - _ - _)%nat with 0%nat by lia. }
    replace (<[(length pre + S (length mid))%nat:=m]> (pre ++ mid ++ m :: y :: suf))
      with (pre ++ mid ++ m :: m :: suf).
    2: { rewrite !insert_app_r_alt by lia.
         by replace (_ - _ - _)%nat with 1%nat by lia. }
    by rewrite IH.
Qed.

Lemma shift_down_remove pre x mid suf :
  ∃ y, shift_down (length mid) (length pre) (pre ++ x :: mid ++ suf) = pre ++ mid ++ y :: suf.
Proof.
  revert pre x. induction mid as [|m mid IH]; intros pre x; [by exists x|].
  cbn [length shift_down]. destruct (IH (pre ++ [m]) m) as [y Hy]. exists y.
  rewrite length_app in Hy. cbn [length] in Hy. rewrite Nat.add_1_r in Hy.
  rewrite <-!app_assoc in Hy. cbn [app] in *. rewrite <-Hy. f_equal.
  rewrite insert_app_r_alt, Nat.sub_diag by lia. cbn. repeat f_equal.
  apply list_lookup_total_correct. rewrite lookup_app_r by lia.
  by replace (_ - _)%nat with 1%nat by lia.
Qed.

Lemma length_shift_up n pos l : length (shift_up n pos l) = length l.
Proof. revert l. induction n as [|n IH]; intros l; cbn [shift_up]; [done|]. by rewrite IH, length_insert. Qed.

Lemma take_copy_levels k i f src dst :
  (i + k <= length dst)%nat → (i + k <= length src)%nat →
  take (i + k) (copy_levels k i f src dst) = take i dst ++ (f <$> take k (drop i src)).
Proof.
  revert i dst. induction k as [|k IH]; intros i dst Hd Hs; cbn [copy_levels].
  - by rewrite Nat.add_0_r, app_nil_r.
  - replace (i + S k)%nat with (S i + k)%nat by lia.
    rewrite IH by (rewrite ?length_insert; lia).
    rewrite take_insert_snoc by lia. rewrite <-app_assoc. f_equal. cbn [app].
    destruct (lookup_lt_is_Some_2 src i ltac:(lia)) as [x Hx].
    rewrite (drop_S src x i) by done. cbn. by rewrite (list_lookup_total_correct _ _ _ Hx).
Qed.

Lemma take_copy_levels_0 k f src dst :
  (k <= length dst)%nat → (k <= length src)%nat →
  take k (copy_levels k 0 f src dst) = f <$> take k src.
Proof. exact (take_copy_levels k 0 f src dst). Qed.

Lemma length_copy_levels k i f src dst : length (copy_levels k i f src dst) = length dst.
Proof.
  revert i dst. induction k as [|k IH]; intros i dst; cbn [copy_levels]; [done|].
  by rewrite IH, length_insert.
Qed.

Section refinement.
Context (before : Z → Z → bool) `{!PriceOrder before}.

Lemma represents_lookup arr n l i x :
  represents arr n l → l !! i = Some x → arr !!! i = x.
Proof.
  intros (rest & -> & _)%represents_split Hx.
  apply list_lookup_total_correct. by apply lookup_app_l_Some.
Qed.

Lemma insert_search arr pre suf rest p :
  arr = (pre ++ suf) ++ rest →
  Forall (λ x, before (PriceLevel.price x) p = true) pre →
  Forall (λ x, before (PriceLevel.price x) p = false) suf →
  bsearch (λ mid, before (PriceLevel.price (arr !!! mid)) p) 0 (length (pre ++ suf)) = length pre.
Proof.
  intros -> Hpre Hsuf. rewrite Forall_lookup in Hpre, Hsuf.
  apply bsearch_spec; [rewrite length_app; lia|..].
  - intros i Hi. destruct (lookup_lt_is_Some_2 pre i Hi) as [x Hx].
    erewrite list_lookup_total_correct; [by eapply Hpre|].
    by do 2 apply lookup_app_l_Some.
  - intros i [Hlo Hhi]. rewrite length_app in Hhi.
    destruct (lookup_lt_is_Some_2 suf (i - length pre) ltac:(lia)) as [x Hx].
    erewrite list_lookup_total_correct; [by eapply Hsuf|].
    apply lookup_app_l_Some. rewrite lookup_app_r by lia. done.
Qed.

(** What the returned position means: [-1] when nothing changed, otherwise the
    levels in front of it are untouched. *)
Definition position_ok (pos : Z) (l l' : levels) : Prop :=
  (pos = -1 ∧ l' = l) ∨
  (0 <= pos < Z.of_nat MAX_DEPTH ∧ take (Z.to_nat pos) l' = take (Z.to_nat pos) l).

Lemma position_ok_prefix pos l l' k :
  position_ok pos l l' → (0 <=? pos) && (pos <? Z.of_nat k) = false → take k l' = take k l.
Proof.
  intros [[_ ->]|[Hpos Ht]] Hk; [done|].
  assert (k <= Z.to_nat pos)%nat by lia.
  rewrite <-(Nat.min_l k (Z.to_nat pos)), <-!take_take by done. by rewrite Ht.
Qed.

Definition head_is (p : Z) (l : levels) : Prop :=
  match l with [] => False | x :: _ => PriceLevel.price x = p end.

#[local] Instance head_is_dec p l : Decision (head_is p l).
Proof. destruct l; cbn; apply _. Defined.

Lemma insert_match pre suf rest p :
  let arr := (pre ++ suf) ++ rest in
  (length pre <? length (pre ++ suf))%nat && (PriceLevel.price (arr !!! length pre) =? p) = true
  ↔ head_is p suf.
Proof.
  rewrite length_app. destruct suf as [|x suf]; cbn [head_is length].
  - rewrite Nat.add_0_r, Nat.ltb_irrefl. done.
  - assert (((pre ++ x :: suf) ++ rest) !!! length pre = x) as ->.
    { apply list_lookup_total_correct, lookup_app_l_Some.
      rewrite lookup_app_r, Nat.sub_diag by lia. done. }
    rewrite andb_true_iff, Nat.ltb_lt, Z.eqb_eq. lia.
Qed.

Lemma set_head_new p q suf : ¬ head_is p suf → set_head p q suf = PriceLevel.mk p q :: suf.
Proof. destruct suf as [|x suf]; cbn; [done|]. by destruct (Z.eqb_spec (PriceLevel.price x) p). Qed.

Lemma insert_position_ok pre l l' :
  (length pre < MAX_DEPTH)%nat →
  position_ok (Z.of_nat (length pre)) (pre ++ l) (take MAX_DEPTH (pre ++ l')).
Proof.
  intros ?. right. split; [lia|].
  rewrite Nat2Z.id, take_take, Nat.min_l, !take_app_length by lia. done.
Qed.

Section insert.
Context (p q : Z) (pre suf rest : levels).
Context (Hpre : Forall (λ x, before (PriceLevel.price x) p = true) pre).
Context (Hsuf : Forall (λ x, before (PriceLevel.price x) p = false) suf).
Context (Hlen : (length (pre ++ suf) + length rest = MAX_DEPTH)%nat).

Notation arr := ((pre ++ suf) ++ rest).
Notation new := (PriceLevel.mk p q).

Lemma insert_existing :
  head_is p suf →
  let '(arr', n', pos) := insertLevel before arr (length (pre ++ suf)) p q in
  represents arr' n' (take MAX_DEPTH (pre ++ set_head p q suf)) ∧
  pos = Z.of_nat (length pre) ∧ (length pre < MAX_DEPTH)%nat.
Proof.
  intros Hh. unfold insertLevel. rewrite (insert_search arr pre suf rest p eq_refl Hpre Hsuf).
  pose proof Hh as Hm%(insert_match pre suf rest p). rewrite Hm.
  apply andb_true_iff in Hm as [_ ->%Z.eqb_eq].
  destruct suf as [|x suf']; [done|]. cbn in Hh. cbn [set_head].
  rewrite (proj2 (Z.eqb_eq _ _) Hh).
  rewrite !length_app in *. cbn [length] in *.
  rewrite take_ge by (rewrite length_app; cbn; lia).
  split; [|split; [done|lia]].
  apply represents_split. exists rest.
  rewrite <-app_assoc, insert_app_r_alt, Nat.sub_diag by lia. cbn.
  rewrite <-app_assoc. rewrite !length_app. cbn. auto with lia.
Qed.

Lemma insert_room :
  ¬ head_is p suf → (length (pre ++ suf) < MAX_DEPTH)%nat →
  let '(arr', n', pos) := insertLevel before arr (length (pre ++ suf)) p q in
  represents arr' n' (take MAX_DEPTH (pre ++ new :: suf)) ∧
  pos = Z.of_nat (length pre).
Proof.
  intros Hh Hroom. unfold insertLevel.
  rewrite (insert_search arr pre suf rest p eq_refl Hpre Hsuf).
  rewrite (not_true_is_false (_ && _)) by (by rewrite insert_match).
  rewrite (proj2 (Nat.leb_gt _ _) Hroom). cbn [andb]. split; [|done].
  destruct rest as [|y rest']; [cbn in Hlen; lia|].
  rewrite length_app in *. rewrite Nat.add_comm, Nat.add_sub.
  rewrite <-app_assoc, shift_up_insert.
  rewrite take_ge by (rewrite length_app; cbn in *; lia).
  apply represents_split. exists rest'.
  rewrite <-app_assoc, length_app. cbn in *. auto with lia.
Qed.

Lemma insert_full :
  ¬ head_is p suf → length (pre ++ suf) = MAX_DEPTH →
  let '(arr', n', pos) := insertLevel before arr (length (pre ++ suf)) p q in
  represents arr' n' (take MAX_DEPTH (pre ++ new :: suf)) ∧
  pos = if decide (suf = []) then -1 else Z.of_nat (length pre).
Proof.
  intros Hh Hfull. unfold insertLevel.
  rewrite (insert_search arr pre suf rest p eq_refl Hpre Hsuf).
  rewrite (not_true_is_false (_ && _)) by (by rewrite insert_match).
  assert (rest = []) as Hr by (destruct rest; [done|cbn in *; lia]). 
  rewrite Hr, app_nil_r, Hfull, Nat.leb_refl in *. cbn [andb].
  destruct (exists_last_or_nil suf) as [Hnil|(mid & y & Hy)].
  - rewrite decide_True, Hnil, app_nil_r in * by done. rewrite Hfull, Nat.leb_refl.
    rewrite take_app_le, take_ge by lia. split; [|done].
    apply represents_split. exists []. rewrite app_nil_r. auto with lia.
  - rewrite decide_False by (rewrite Hy; by destruct mid).
    rewrite Hy, !length_app in *. cbn [length] in *.
    rewrite (proj2 (Nat.leb_gt _ _)) by lia. split; [|done].
    replace (MAX_DEPTH - 1 - length pre)%nat with (length mid) by lia.
    rewrite (shift_up_insert pre mid y [] _), app_nil_r.
    rewrite app_comm_cons, app_assoc, take_app_le, take_ge by (rewrite length_app; cbn; lia).
    apply represents_split. exists []. rewrite app_nil_r, length_app. cbn.
    unfold MAX_DEPTH in *. auto with lia.
Qed.
End insert.

Lemma insertLevel_refines arr n l p q :
  represents arr n l → sorted_levels before l → 0 < q →
  let '(arr', n', pos) := insertLevel before arr n p q in
  represents arr' n' (side_update before p q l) ∧ position_ok pos l (side_update before p q l).
Proof.
  intros Hrep Hs Hq. apply represents_split in Hrep as (rest & -> & -> & Hlen).
  destruct (split_at before p l Hs) as (pre & suf & -> & Hpre & Hsuf).
  unfold side_update. rewrite (proj2 (Z.gtb_lt _ _) Hq), set_level_split by done.
  destruct (decide (head_is p suf)) as [Hh|Hh].
  - pose proof (insert_existing p q pre suf rest Hpre Hsuf Hlen Hh) as He.
    destruct (insertLevel _ _ _ _ _) as [[arr' n'] pos]. destruct He as (? & -> & ?).
    split; [done|]. by apply insert_position_ok.
  - rewrite set_head_new by done.
    destruct (decide (length (pre ++ suf) < MAX_DEPTH)%nat) as [Hr|Hr].
    + pose proof (insert_room p q pre suf rest Hpre Hsuf Hlen Hh Hr) as He.
      destruct (insertLevel _ _ _ _ _) as [[arr' n'] pos]. destruct He as (? & ->).
      split; [done|]. apply insert_position_ok. rewrite length_app in Hr. lia.
    + pose proof (insert_full p q pre suf rest Hpre Hsuf Hlen Hh ltac:(lia)) as He.
      destruct (insertLevel _ _ _ _ _) as [[arr' n'] pos]. destruct He as (? & ->).
      split; [done|]. case_decide as Hn.
      * left. split; [done|]. subst suf. rewrite app_nil_r in *.
        by rewrite take_app_le, take_ge by lia.
      * apply insert_position_ok. rewrite length_app in Hlen.
        destruct suf; [done|]. cbn in Hlen. lia.
Qed.

(** *** Removal *)

Lemma remove_search_absent fuel arr p lo hi :
  (∀ i, lo <= i < hi → PriceLevel.price (arr !!! i) ≠ p)%nat →
  remove_search before fuel arr p lo hi = None.
Proof.
  revert lo hi. induction fuel as [|fuel IH]; intros lo hi Hne; cbn [remove_search]; [done|].
  case_decide as Hd; [|done]. pose proof (bsearch_mid_bounds lo hi Hd) as Hm.
  set (mid := (lo + (hi - lo) / 2)%nat) in *.
  destruct (better_total (PriceLevel.price (arr !!! mid)) p) as [H1|[H1|H1]].
  - rewrite H1. apply IH. intros i Hi. apply Hne. lia.
  - by destruct (Hne mid ltac:(lia)).
  - rewrite (better_asym _ _ H1), H1. apply IH. intros i Hi. apply Hne. lia.
Qed.

Lemma remove_search_found fuel arr p lo hi r :
  (hi - lo <= fuel)%nat → (lo <= r < hi)%nat →
  (∀ i, lo <= i < r → before (PriceLevel.price (arr !!! i)) p = true)%nat →
  PriceLevel.price (arr !!! r) = p →
  (∀ i, r < i < hi → before p (PriceLevel.price (arr !!! i)) = true)%nat →
  remove_search before fuel arr p lo hi = Some r.
Proof.
  revert lo hi. induction fuel as [|fuel IH]; intros lo hi Hf Hr Hlt Heq Hgt;
    cbn [remove_search]; [lia|].
  rewrite decide_True by lia. pose proof (bsearch_mid_bounds lo hi ltac:(lia)) as Hm.
  set (mid := (lo + (hi - lo) / 2)%nat) in *.
  destruct (lt_eq_lt_dec mid r) as [[Hc|Hc]|Hc].
  - rewrite Hlt by lia. apply IH; try done; try lia. intros; apply Hlt; lia.
  - by rewrite Hc, Heq, better_irrefl.
  - assert (before p (PriceLevel.price (arr !!! mid)) = true) as Hb by (apply Hgt; lia).
    rewrite (better_asym _ _ Hb), Hb.
    apply IH; try done; try lia. intros; apply Hgt; lia.
Qed.

Lemma sorted_split_price p l :
  sorted_levels before l →
  find_level p l = None ∨
  ∃ pre x suf, l = pre ++ x :: suf ∧ PriceLevel.price x = p ∧
    Forall (λ y, before (PriceLevel.price y) p = true) pre ∧
    Forall (λ y, before p (PriceLevel.price y) = true) suf.
Proof.
  induction 1 as [|x l Hl IH Hx]; [by left|]. cbn [find_level].
  destruct (Z.eqb_spec (PriceLevel.price x) p) as [Heq|Hne].
  - right. exists [], x, l. split_and!; [done..|]. by subst p.
  - destruct IH as [?|(pre & y & suf & -> & Hy & Hpre & Hsuf)]; [by left|].
    right. exists (x :: pre), y, suf. split_and!; try done. constructor; [|done].
    apply Forall_app in Hx as [_ [Hx _]%Forall_cons]. by rewrite Hy in Hx.
Qed.

Lemma find_level_None_ne p l i x : find_level p l = None → l !! i = Some x → PriceLevel.price x ≠ p.
Proof.
  revert i. induction l as [|y l IH]; intros [|i] Hf Hx; try done; cbn in Hf, Hx;
    destruct (Z.eqb_spec (PriceLevel.price y) p); simplify_eq; try done. by eapply IH.
Qed.

Lemma removeLevel_refines arr n l p q :
  represents arr n l → sorted_levels before l → q <= 0 →
  let '(arr', n', pos) := removeLevel before arr n p in
  represents arr' n' (side_update before p q l) ∧ position_ok pos l (side_update before p q l).
Proof.
  intros Hrep Hs Hq. unfold side_update, removeLevel.
  rewrite Z.gtb_ltb, (proj2 (Z.ltb_ge _ _) Hq).
  destruct (sorted_split_price p l Hs) as [Hnone|(pre & x & suf & -> & Hx & Hpre & Hsuf)].
  - rewrite erase_level_absent by done.
    rewrite remove_search_absent; [split; [done|by left]|].
    intros i [_ Hi]. destruct Hrep as (Hl & Hn & Hrep).
    assert (l !! i = Some (arr !!! i)) as Hlk.
    { rewrite <-Hrep, lookup_take_lt by done. apply list_lookup_lookup_total_lt. lia. }
    by eapply find_level_None_ne.
  - rewrite (erase_level_pre before) by done. cbn [erase_level].
    rewrite (proj2 (Z.eqb_eq _ _) Hx).
    pose proof Hrep as (rest & Harr & -> & Hlen)%represents_split.
    rewrite Forall_lookup in Hpre, Hsuf. rewrite length_app in *. cbn [length] in *.
    rewrite (remove_search_found _ _ _ _ _ (length pre)); try lia.
    + replace (_ + _ - 1 - _)%nat with (length suf) by lia.
      rewrite Harr, <-app_assoc. cbn [app].
      destruct (shift_down_remove pre x suf rest) as [y ->]. split.
      * apply represents_split. exists (y :: rest). rewrite <-app_assoc, length_app. cbn.
        auto with lia.
      * right. split; [lia|]. by rewrite Nat2Z.id, !take_app_length.
    + intros i [_ Hi]. destruct (lookup_lt_is_Some_2 pre i Hi) as [y Hy].
      erewrite (represents_lookup _ _ _ i y Hrep); [by eapply Hpre|]. by apply lookup_app_l_Some.
    + erewrite (represents_lookup _ _ _ _ x Hrep); [done|].
      by rewrite lookup_app_r, Nat.sub_diag by lia.
    + intros i [Hi1 Hi2].
      destruct (lookup_lt_is_Some_2 suf (i - length pre - 1) ltac:(lia)) as [y Hy].
      erewrite (represents_lookup _ _ _ i y Hrep); [by eapply Hsuf|].
      rewrite lookup_app_r by lia. by replace (i - length pre)%nat with (S (i - length pre - 1)) by lia.
Qed.

Lemma sideLevel_refines arr n l p q :
  represents arr n l → sorted_levels before l →
  let '(arr', n', pos) :=
    if q >? 0 then insertLevel before arr n p q else removeLevel before arr n p in
  represents arr' n' (side_update before p q l) ∧ position_ok pos l (side_update before p q l).
Proof.
  intros. destruct (Z.gtb_spec q 0).
  - by apply insertLevel_refines; try lia.
  - by apply removeLevel_refines; try lia.
Qed.
End refinement.

(** ** The representation invariant *)

Definition cold_ok (c : ColdData.t) (b : book) : Prop :=
  represents (ColdData.bids c) (ColdData.bid_count c) (book_bids b) ∧
  represents (ColdData.asks c) (ColdData.ask_count c) (book_asks b).

(** [top] holds the best [HOT_DEPTH] levels of a side. *)
Definition hot_side (prices quantities : list Z) (count : nat) (top : levels) : Prop :=
  count = length top ∧ length prices = HOT_DEPTH ∧ length quantities = HOT_DEPTH ∧
  take count prices = PriceLevel.price <$> top ∧
  take count quantities = PriceLevel.quantity <$> top.

Definition hot_ok (h : HotData.t) (b : book) : Prop :=
  hot_side (HotData.bid_prices h) (HotData.bid_quantities h) (HotData.bid_count h)
    (take HOT_DEPTH (book_bids b)) ∧
  hot_side (HotData.ask_prices h) (HotData.ask_quantities h) (HotData.ask_count h)
    (take HOT_DEPTH (book_asks b)).

Definition cold_abs (c : ColdData.t) : book :=
  Book (take (ColdData.bid_count c) (ColdData.bids c))
       (take (ColdData.ask_count c) (ColdData.asks c)).

Definition v2_abs (s : OrderBookV2) : book := cold_abs (getReadBuffer s).

Record v2_inv (s : OrderBookV2) : Prop := {
  v2_same_buffers : (cold_buffers_ s).1 = (cold_buffers_ s).2;
  v2_cold : cold_ok (getReadBuffer s) (v2_abs s);
  v2_wf : book_wf (v2_abs s);
  v2_hot : hot_ok (hot_data_ s) (v2_abs s);
  v2_even : Z.odd (HotData.version (hot_data_ s)) = false;
  v2_clean : hot_data_dirty_ s = false;
}.

Lemma cold_ok_abs c b : cold_ok c b → cold_abs c = b.
Proof. intros [(_ & _ & Hb) (_ & _ & Ha)]. unfold cold_abs. rewrite Hb, Ha. by destruct b. Qed.

Lemma v2_write_buffer s : v2_inv s → getWriteBuffer s = getReadBuffer s.
Proof.
  intros []. unfold getWriteBuffer, getReadBuffer, buffer.
  destruct (write_buffer_index_ s), (active_cold_buffer_ s); congruence.
Qed.

Lemma cold_ok_clear c : cold_ok (ColdData.clear c) book_init.
Proof. repeat split; cbn; lia. Qed.

Lemma hot_ok_zeros v t : hot_ok (HotData.mk HotData.zeros HotData.zeros HotData.zeros HotData.zeros v t 0 0) book_init.
Proof. done. Qed.

(** Swapping publishes the write buffer [w], whatever the other buffer held. *)
Lemma swapColdBuffers_spec s :
  let s' := swapColdBuffers s in
  let w := getWriteBuffer s in
  cold_buffers_ s' = (w, w) ∧ getReadBuffer s' = w ∧
  active_cold_buffer_ s' = negb (write_buffer_index_ s') ∧
  hot_data_ s' = hot_data_ s ∧ hot_data_dirty_ s' = hot_data_dirty_ s ∧
  stats_ s' = (stats_ s) {{ Statistics.buffer_swaps ::= inc64 }}.
Proof. destruct s as [h [c0 c1] a [] st d]; done. Qed.

(** What the two steps of a write and the swap leave behind. *)
Lemma publish_inv s b :
  cold_ok (getWriteBuffer s) b → book_wf b → hot_ok (hot_data_ s) b →
  Z.odd (HotData.version (hot_data_ s)) = false → hot_data_dirty_ s = false →
  v2_inv (swapColdBuffers s) ∧ v2_abs (swapColdBuffers s) = b.
Proof.
  intros Hc Hwf Hh Hv Hd.
  destruct (swapColdBuffers_spec s) as (Hbufs & Hr & _ & Hhot & Hdirty & _).
  assert (v2_abs (swapColdBuffers s) = b) as Ha by (unfold v2_abs; rewrite Hr; by apply cold_ok_abs).
  split; [|done]. split; rewrite ?Ha, ?Hr, ?Hhot, ?Hdirty, ?Hbufs; done.
Qed.

(** [updateLevels] refines the abstract update of the write buffer; if the top
    levels changed, the dirty flag is set. *)
Lemma updateLevels_ok t s b :
  cold_ok (getWriteBuffer s) b → book_wf b →
  let s' := updateLevels t s in
  cold_ok (getWriteBuffer s') (book_update t b) ∧ hot_data_ s' = hot_data_ s ∧
  (hot_data_dirty_ s' = false →
     take HOT_DEPTH (book_bids (book_update t b)) = take HOT_DEPTH (book_bids b) ∧
     take HOT_DEPTH (book_asks (book_update t b)) = take HOT_DEPTH (book_asks b)).
Proof.
  intros [Hb Ha] [(Hsb & _) (Hsa & _)]. unfold updateLevels.
  assert (∀ c d, getWriteBuffer ((setWriteBuffer c s) {{ hot_data_dirty_ := d }}) = c) as Hget
    by (intros; destruct s as [h [c0 c1] act [] st d']; done).
  assert (∀ c d, hot_data_ ((setWriteBuffer c s) {{ hot_data_dirty_ := d }}) = hot_data_ s) as Hhot
    by (intros; destruct s as [h [c0 c1] act [] st d']; done).
  unfold book_update, insertBidLevel, insertAskLevel, removeBidLevel, removeAskLevel.
  destruct (Tick.side t).
  1: pose proof (sideLevel_refines bid_better _ _ _ (Tick.price t) (Tick.quantity t) Hb Hsb) as Hr.
  2-3: pose proof (sideLevel_refines ask_better _ _ _ (Tick.price t) (Tick.quantity t) Ha Hsa) as Hr.
  all: destruct (if _ >? 0 then _ else _) as [[l' n'] pos]; destruct Hr as [Hr Hp].
  all: rewrite Hget, Hhot; cbn [book_bids book_asks]; split_and!; [by split|done|].
  all: intros Hd; (split; [|done]) || (split; [done|]); by eapply position_ok_prefix.
Qed.

Lemma hot_side_copy src n l p q c :
  represents src n l → length p = HOT_DEPTH → length q = HOT_DEPTH → c = Nat.min HOT_DEPTH n →
  hot_side (copy_levels c 0 PriceLevel.price src p) (copy_levels c 0 PriceLevel.quantity src q)
    c (take HOT_DEPTH l).
Proof.
  intros (Hsrc & Hn & Hl) Hp Hq ->. unfold hot_side. rewrite !length_copy_levels.
  assert (length l = n) as Hlen by (rewrite <-Hl, length_take; lia).
  assert (take (Nat.min HOT_DEPTH n) src = take HOT_DEPTH l) as Ht by (by rewrite <-Hl, take_take).
  unfold HOT_DEPTH, MAX_DEPTH in *.
  split_and!; try done; [rewrite length_take; lia|..].
  all: rewrite take_copy_levels_0, Ht by (rewrite ?Hp, ?Hq; lia); done.
Qed.

(** After [rebuildHotData] the hot data holds the top of the write buffer, given
    that it did before or that the dirty flag was set. *)
Lemma rebuildHotData_ok s b b' :
  cold_ok (getWriteBuffer s) b' → hot_ok (hot_data_ s) b →
  Z.odd (HotData.version (hot_data_ s)) = false →
  (hot_data_dirty_ s = false →
     take HOT_DEPTH (book_bids b') = take HOT_DEPTH (book_bids b) ∧
     take HOT_DEPTH (book_asks b') = take HOT_DEPTH (book_asks b)) →
  let s' := rebuildHotData s in
  getWriteBuffer s' = getWriteBuffer s ∧ hot_ok (hot_data_ s') b' ∧
  Z.odd (HotData.version (hot_data_ s')) = false ∧ hot_data_dirty_ s' = false.
Proof.
  intros [Hcb Hca] [Hhb Hha] Hv Htop. unfold rebuildHotData.
  destruct (hot_data_dirty_ s) eqn:Hd; cbn [negb].
  - destruct Hhb as (_ & Hb1 & Hb2 & _), Hha as (_ & Ha1 & Ha2 & _).
    split_and!; [done|split|..]; cbn -[inc64 Z.odd].
    + by eapply hot_side_copy.
    + by eapply hot_side_copy.
    + rewrite !inc64_odd, negb_involutive. exact Hv.
    + done.
  - destruct (Htop eq_refl) as [Htb Hta]. split_and!; try done.
    unfold hot_ok. by rewrite Htb, Hta.
Qed.

Lemma v2_update_ok t s :
  v2_inv s → v2_inv (update t s) ∧ v2_abs (update t s) = book_update t (v2_abs s).
Proof.
  intros Hi. pose proof (v2_write_buffer s Hi) as Hwr. destruct Hi as [Hsame Hcold Hwf Hhot Hev Hcl].
  rewrite <-Hwr in Hcold.
  destruct (updateLevels_ok t s _ Hcold Hwf) as (Hc1 & Hh1 & Hd1).
  rewrite <-Hh1 in Hhot, Hev.
  destruct (rebuildHotData_ok _ _ _ Hc1 Hhot Hev Hd1) as (Hw2 & Hh2 & Hv2 & Hd2).
  rewrite <-Hw2 in Hc1.
  destruct (publish_inv _ _ Hc1 (book_update_wf t _ Hwf) Hh2 Hv2 Hd2) as [[] Ha].
  unfold update. set (s' := swapColdBuffers _) in *. by split; [split|].
Qed.

Lemma v2_clear_ok s : v2_inv s → v2_inv (clear s) ∧ v2_abs (clear s) = book_init.
Proof.
  intros []. unfold clear. apply publish_inv; [|apply book_init_wf|..].
  - assert (∀ h c, getWriteBuffer ((setWriteBuffer c s) {{ hot_data_ := h }}) = c) as Hget
      by (intros; by destruct s as [h0 [c0 c1] act [] st d']).
    rewrite Hget. apply cold_ok_clear.
  - done.
  - cbn -[inc64 Z.odd]. rewrite !inc64_odd, negb_involutive. exact v2_even0.
  - by destruct s.
Qed.

Lemma v2_init_ok : v2_inv OrderBookV2_init ∧ v2_abs OrderBookV2_init = book_init.
Proof.
  split; [|done]. split; try done; [split; split_and!; cbn; (done || lia)|apply book_init_wf].
Qed.

Lemma getBest_ok s :
  v2_inv s →
  getBestBid s = Some (best_price (book_bids (v2_abs s))) ∧
  getBestAsk s = Some (best_price (book_asks (v2_abs s))).
Proof.
  intros [_ _ _ [Hb Ha] Hev _]. unfold getBestBid, getBestAsk, readHotDataOptimistic. rewrite Hev.
  destruct Hb as (Hbn & _ & _ & Hbp & _), Ha as (Han & _ & _ & Hap & _).
  split; f_equal; unfold best_price.
  - rewrite Hbn in *. destruct (book_bids _) as [|x l]; [done|]. cbn in *.
    by destruct (HotData.bid_prices _); simplify_eq/=.
  - rewrite Han in *. destruct (book_asks _) as [|x l]; [done|]. cbn in *.
    by destruct (HotData.ask_prices _); simplify_eq/=.
Qed.

#[global, refine] Instance OrderBookV2_book : BookContract OrderBookV2 := {
  ob_init := OrderBookV2_init;
  ob_update := update;
  ob_clear := clear;
  ob_best_bid := getBestBid;
  ob_best_ask := getBestAsk;
  ob_inv := v2_inv;
  ob_abs := v2_abs;
  ob_init_ok := v2_init_ok;
  ob_update_ok := v2_update_ok;
  ob_clear_ok := v2_clear_ok;
}.
Proof.
  - intros s Hs. by apply getBest_ok.
  - intros s Hs. by apply getBest_ok.
  - by intros s [].
Defined.

(** ** What the readers return *)

Lemma collect_valid_take arr n l k :
  represents arr n l → Forall (λ x, 0 < PriceLevel.quantity x) l → (k <= n)%nat →
  collect_valid arr k = take k l.
Proof.
  intros Hrep Hpos. unfold collect_valid. induction k as [|k IH]; intros Hk; [done|].
  rewrite seq_S, flat_map_app, IH by lia. cbn.
  pose proof Hrep as (rest & Harr & Hn & _)%represents_split.
  destruct (lookup_lt_is_Some_2 l k ltac:(lia)) as [x Hx].
  rewrite (take_S_r _ _ _ Hx), (represents_lookup _ _ _ _ _ Hrep Hx), app_nil_r.
  rewrite Forall_lookup in Hpos. unfold is_valid. rewrite Z.gtb_ltb.
  by rewrite (proj2 (Z.ltb_lt _ _) (Hpos _ _ Hx)).
Qed.

Lemma represents_level arr n l i :
  represents arr n l →
  (if (i <? n)%nat then Some (arr !!! i) else None) = l !! i.
Proof.
  intros Hrep. pose proof Hrep as (rest & Harr & Hn & _)%represents_split.
  destruct (Nat.ltb_spec i n).
  - destruct (lookup_lt_is_Some_2 l i ltac:(lia)) as [x Hx].
    by rewrite (represents_lookup _ _ _ _ _ Hrep Hx), Hx.
  - symmetry. apply lookup_ge_None_2. lia.
Qed.

(** The five slots [getTop5Bids] returns: the best levels, padded with empty ones. *)
Definition top5 (l : levels) : levels :=
  take HOT_DEPTH l ++ replicate (HOT_DEPTH - length l) PriceLevel.default.

Lemma hot_side_top5 p q n l :
  hot_side p q n (take HOT_DEPTH l) →
  ((λ i, if (i <? n)%nat then PriceLevel.mk (p !!! i) (q !!! i) else PriceLevel.default)
     <$> seq 0 HOT_DEPTH) = top5 l.
Proof.
  intros (Hn & Hp & Hq & Htp & Htq). apply list_eq. intros i. unfold top5.
  assert (n = Nat.min HOT_DEPTH (length l)) as Hn' by (by rewrite Hn, length_take).
  destruct (decide (i < HOT_DEPTH)%nat) as [Hi|Hi].
  2: { rewrite !lookup_ge_None_2; [done|..];
         rewrite ?length_fmap, ?length_seq, ?length_app, ?length_take, ?length_replicate; lia. }
  rewrite list_lookup_fmap, lookup_seq_lt by done. cbn [fmap option_fmap option_map Nat.add].
  destruct (Nat.ltb_spec i n).
  - destruct (lookup_lt_is_Some_2 (take HOT_DEPTH l) i ltac:(lia)) as [x Hx].
    rewrite lookup_app_l by lia. rewrite Hx.
    assert (p !!! i = PriceLevel.price x ∧ q !!! i = PriceLevel.quantity x) as [-> ->];
      [|by destruct x].
    split; apply list_lookup_total_correct.
    + by rewrite <-(lookup_take_lt p n i), Htp, list_lookup_fmap, Hx by lia.
    + by rewrite <-(lookup_take_lt q n i), Htq, list_lookup_fmap, Hx by lia.
  - rewrite lookup_app_r by (rewrite length_take; lia). rewrite length_take.
    symmetry. rewrite lookup_replicate_2; [done|lia].
Qed.

Lemma copy_fast_take k i src dst :
  (i + k <= length dst)%nat → (i + k <= length src)%nat →
  take (i + k) (copy_fast k i src dst) = take i dst ++ take k (drop i src).
Proof.
  revert i dst. induction k as [|k IH]; intros i dst Hd Hs; cbn [copy_fast].
  - by rewrite Nat.add_0_r, app_nil_r.
  - replace (i + S k)%nat with (S i + k)%nat by lia.
    rewrite IH by (rewrite ?length_insert; lia).
    rewrite take_insert_snoc by lia. rewrite <-app_assoc. f_equal. cbn [app].
    destruct (lookup_lt_is_Some_2 src i ltac:(lia)) as [x Hx].
    rewrite (drop_S src x i) by done. cbn. by rewrite (list_lookup_total_correct _ _ _ Hx).
Qed.

(** The readers of a state satisfying the invariant, in terms of its book. *)
Record reads_book (s : OrderBookV2) (b : book) : Prop := {
  rb_best_bid : getBestBid s = Some (best_price (book_bids b));
  rb_best_ask : getBestAsk s = Some (best_price (book_asks b));
  rb_top_bids : getTop5Bids s = Some (top5 (book_bids b));
  rb_top_asks : getTop5Asks s = Some (top5 (book_asks b));
  rb_bid i : (getBidLevel i s).1 = book_bids b !! i;
  rb_ask i : (getAskLevel i s).1 = book_asks b !! i;
  rb_bids n : (getBidLevels n s).1 = take n (book_bids b);
  rb_asks n : (getAskLevels n s).1 = take n (book_asks b);
  rb_bids_fast : let '(l, n) := (getBidLevelsFast s).1 in take n l = book_bids b;
  rb_asks_fast : let '(l, n) := (getAskLevelsFast s).1 in take n l = book_asks b;
  rb_snapshot u : ∃ ts, generateSnapshot u s = OrderBookSnapshot.mk u ts (book_bids b) (book_asks b);
  rb_empty : empty s = true ↔ b = book_init;
}.

Lemma collect_valid_levels arr n l m :
  represents arr n l → Forall (λ x, 0 < PriceLevel.quantity x) l →
  collect_valid arr (Nat.min m n) = take m l.
Proof.
  intros Hrep Hpos. rewrite (collect_valid_take _ _ _ _ Hrep Hpos) by lia.
  destruct Hrep as (? & ? & <-). rewrite !take_take. f_equal. lia.
Qed.

Lemma level_in_range arr n l i (A : Type) (f : option PriceLevel.t * A) s' s :
  represents arr n l →
  f = (if (MAX_DEPTH <=? i)%nat then (None, s)
       else if (i <? n)%nat then (Some (arr !!! i), s') else (None, s)) →
  f.1 = l !! i.
Proof.
  intros Hrep ->. rewrite <-(represents_level _ _ _ i Hrep). destruct Hrep as (_ & Hn & _).
  destruct (Nat.leb_spec MAX_DEPTH i), (Nat.ltb_spec i n); done || lia.
Qed.

Lemma fast_levels arr n l :
  represents arr n l → take n (copy_fast n 0 arr ColdData.empty_levels) = l.
Proof.
  intros (Hl & Hn & <-). pose proof (copy_fast_take n 0 arr ColdData.empty_levels) as H.
  cbn [Nat.add take app drop] in H. apply H; [|lia].
  unfold ColdData.empty_levels. rewrite length_replicate. lia.
Qed.

Lemma inv_reads_book s : v2_inv s → reads_book s (v2_abs s).
Proof.
  intros Hi. pose proof (getBest_ok s Hi) as [Hbb Hba].
  destruct Hi as [_ [Hb Ha] [(_ & _ & Hpb) (_ & _ & Hpa)] [Hhb Hha] Hev _].
  split; try done.
  - unfold getTop5Bids, readHotDataOptimistic. by rewrite Hev, (hot_side_top5 _ _ _ _ Hhb).
  - unfold getTop5Asks, readHotDataOptimistic. by rewrite Hev, (hot_side_top5 _ _ _ _ Hha).
  - intros i. by eapply level_in_range.
  - intros i. by eapply level_in_range.
  - intros n. by apply (collect_valid_levels _ _ _ n Hb).
  - intros n. by apply (collect_valid_levels _ _ _ n Ha).
  - by apply fast_levels.
  - by apply fast_levels.
  - intros u. exists (ColdData.last_update_time (getReadBuffer s)). unfold generateSnapshot.
    rewrite (collect_valid_take _ _ _ _ Hb), (collect_valid_take _ _ _ _ Ha) by done.
    f_equal; apply take_ge; unfold v2_abs, cold_abs; cbn; rewrite length_take; lia.
  - unfold empty. rewrite andb_true_iff, !Nat.eqb_eq. unfold v2_abs, cold_abs, book_init.
    destruct Hb as (Hlb & Hnb & _), Ha as (Hla & Hna & _). split; [by intros [-> ->]|].
    intros [= H1%(f_equal length) H2%(f_equal length)].
    rewrite !length_take in *. cbn in *. lia.
Qed.

(** ** Properties *)

(** C1: after any sequence of ticks and clears, every reader of [OrderBookV2] (best
    prices, top five, single levels, level lists, snapshot, emptiness) returns what
    the abstract book built from the ticks since the last clear says; in
    particular the five hot levels are never stale although [rebuildHotData] skips
    the updates that leave the top five alone. *)
Theorem readers_agree_with_book (evs : list (option Tick.t)) :
  let step (s : OrderBookV2) e := match e with Some t => update t s | None => clear s end in
  let abs b e := match e with Some t => book_update t b | None => book_init end in
  reads_book (fold_left step evs OrderBookV2_init) (fold_left abs evs book_init).
Proof.
  intros step abs.
  assert (∀ s b, v2_inv s ∧ v2_abs s = b →
    v2_inv (fold_left step evs s) ∧ v2_abs (fold_left step evs s) = fold_left abs evs b) as Hrun.
  { induction evs as [|e evs IH]; intros s b [Hi Ha]; [done|]. apply IH. subst b.
    destruct e as [t|]; [by apply v2_update_ok|by apply v2_clear_ok]. }
  destruct (Hrun _ _ v2_init_ok) as [Hi Ha]. rewrite <-Ha. by apply inv_reads_book.
Qed.

(** The buffer the writer fills and the one the readers use are distinct in
    every reachable state but the initial one: the very first tick is written into
    the buffer readers already see, every later one into the dark buffer. *)
Theorem writes_dark_buffer (ts : list Tick.t) :
  let s := fold_left (λ s t, update t s) ts OrderBookV2_init in
  write_buffer_index_ s = active_cold_buffer_ s ↔ ts = [].
Proof.
  intros s. split; [|by intros ->]. destruct (exists_last_or_nil ts) as [?|(ts' & t & Hts)]; [done|].
  subst s. rewrite Hts, fold_left_app. cbn [fold_left]. set (s := fold_left _ ts' _).
  assert (active_cold_buffer_ (update t s) = negb (write_buffer_index_ (update t s))) as ->
    by (unfold update; exact (proj1 (proj2 (proj2 (swapColdBuffers_spec _))))).
  by destruct (write_buffer_index_ _).
Qed.
