(* ===== verification/OrderBook.v ===== *)
(** [OrderBook] (include/chronos/market_data/orderbook.hpp,
    src/market_data/orderbook.cpp): the first order book, a [std::map] per side and
    the best prices in a versioned hot record.

    A [std::map] is the list of its entries in iteration order; [set_level],
    [find_level] and [erase_level] of [BookSpec.v] are its [operator[]], [find] and
    [erase]. The mutex and the spin lock make every operation atomic for other
    writers, so the model is sequential; [Seqlock.v] has the optimistic readers.
    The latency statistic is wall-clock time and left out. *)
From S2P Require Import Prelude.
From S2P Require Import FixedPoint.
From S2P Require Import Types.
From S2P Require Import BookSpec.

Module HotData.
Record t := mk {
  best_bid_price : Z;
  best_bid_quantity : Z;
  best_ask_price : Z;
  best_ask_quantity : Z;
  last_update_time : Z;
  version : Z;
  has_bids : bool;
  has_asks : bool;
}.
Definition init : t := mk 0 0 0 0 0 0 false false.
End HotData.

Module Statistics.
Record t := mk {
  total_updates : Z;
  bid_updates : Z;
  ask_updates : Z;
  level_additions : Z;
  level_removals : Z;
  hot_path_reads : Z;
  cold_path_reads : Z;
}.
Definition init : t := mk 0 0 0 0 0 0 0.
End Statistics.

Record OrderBook := mkOrderBook {
  hot_data_ : HotData.t;
  bids_ : levels;
  asks_ : levels;
  statistics_ : Statistics.t;
}.

Definition OrderBook_init : OrderBook := mkOrderBook HotData.init [] [] Statistics.init.

(** ** Writers *)

Definition updateBidLevel (price quantity : Z) (s : OrderBook) : OrderBook :=
  if quantity >? 0 then
    let s := match find_level price (bids_ s) with
             | None => s {{ statistics_ -> Statistics.level_additions ::= inc64 }}
             | Some _ => s
             end in
    s {{ bids_ ::= set_level bid_better price quantity }}
  else
    match find_level price (bids_ s) with
    | Some _ => s {{ bids_ ::= erase_level price; statistics_ -> Statistics.level_removals ::= inc64 }}
    | None => s
    end.

Definition updateAskLevel (price quantity : Z) (s : OrderBook) : OrderBook :=
  if quantity >? 0 then
    let s := match find_level price (asks_ s) with
             | None => s {{ statistics_ -> Statistics.level_additions ::= inc64 }}
             | Some _ => s
             end in
    s {{ asks_ ::= set_level ask_better price quantity }}
  else
    match find_level price (asks_ s) with
    | Some _ => s {{ asks_ ::= erase_level price; statistics_ -> Statistics.level_removals ::= inc64 }}
    | None => s
    end.

Definition updateHotData (receive_timestamp_us : Z) (s : OrderBook) : OrderBook :=
  let h := hot_data_ s in
  let h := h {{ HotData.version ::= inc64 }} in
  let h := match bids_ s with
           | best_bid :: _ =>
               h {{ HotData.best_bid_price := PriceLevel.price best_bid;
                    HotData.best_bid_quantity := PriceLevel.quantity best_bid;
                    HotData.has_bids := true }}
           | [] => h {{ HotData.has_bids := false }}
           end in
  let h := match asks_ s with
           | best_ask :: _ =>
               h {{ HotData.best_ask_price := PriceLevel.price best_ask;
                    HotData.best_ask_quantity := PriceLevel.quantity best_ask;
                    HotData.has_asks := true }}
           | [] => h {{ HotData.has_asks := false }}
           end in
  let h := h {{ HotData.last_update_time := receive_timestamp_us }} in
  let h := h {{ HotData.version ::= inc64 }} in
  s {{ hot_data_ := h }}.

(** [while (m.size() > MAX_DEPTH) erase the last entry]: every turn removes an
    entry, so [length l] turns are enough. *)
Fixpoint trim_levels (fuel : nat) (l : levels) : levels :=
  match fuel with
  | O => l
  | S fuel' => if (MAX_DEPTH <? length l)%nat then trim_levels fuel' (removelast l) else l
  end.

Definition trimDepth (s : OrderBook) : OrderBook :=
  let s := s {{ bids_ := trim_levels (length (bids_ s)) (bids_ s) }} in
  s {{ asks_ := trim_levels (length (asks_ s)) (asks_ s) }}.

Definition update (tick : Tick.t) (s : OrderBook) : OrderBook :=
  let is_bid := match Tick.side tick with TickSide.BID => true | _ => false end in
  let s := if is_bid then updateBidLevel (Tick.price tick) (Tick.quantity tick) s
           else updateAskLevel (Tick.price tick) (Tick.quantity tick) s in
  let s := updateHotData (Tick.receive_timestamp_us tick) s in
  let s := trimDepth s in
  let s := s {{ statistics_ -> Statistics.total_updates ::= inc64 }} in
  if is_bid then s {{ statistics_ -> Statistics.bid_updates ::= inc64 }}
  else s {{ statistics_ -> Statistics.ask_updates ::= inc64 }}.

(** [bids_[level.price] = level.quantity] for each level of a snapshot side. *)
Definition rebuild_side (better : Z → Z → bool) (snapshot_side : levels) : levels :=
  fold_left (λ m level, set_level better (PriceLevel.price level) (PriceLevel.quantity level) m)
    snapshot_side [].

Definition rebuildFromSnapshot (now_us : Z) (snapshot : OrderBookSnapshot.t) (s : OrderBook)
    : OrderBook :=
  let s := s {{ bids_ := []; asks_ := [] }} in
  let s := s {{ bids_ := rebuild_side bid_better (OrderBookSnapshot.bids snapshot) }} in
  let s := s {{ asks_ := rebuild_side ask_better (OrderBookSnapshot.asks snapshot) }} in
  updateHotData now_us s.

Definition clear (s : OrderBook) : OrderBook :=
  let s := s {{ bids_ := []; asks_ := [] }} in
  let h := hot_data_ s in
  let h := h {{ HotData.version ::= inc64 }} in
  let h := h {{ HotData.has_bids := false; HotData.has_asks := false;
                HotData.best_bid_price := 0; HotData.best_bid_quantity := 0;
                HotData.best_ask_price := 0; HotData.best_ask_quantity := 0 }} in
  let h := h {{ HotData.version ::= inc64 }} in
  s {{ hot_data_ := h }}.

(** ** Readers *)

(** The bounded optimistic read as the writer's own thread sees it: with an even
    version the first attempt succeeds and is counted, with an odd one the hundred
    retries are spent and the unchecked fallback answers. *)
Definition readHotDataOptimistic {A} (func : HotData.t → A) (s : OrderBook) : A * OrderBook :=
  if Z.odd (HotData.version (hot_data_ s)) then (func (hot_data_ s), s)
  else (func (hot_data_ s), s {{ statistics_ -> Statistics.hot_path_reads ::= inc64 }}).

Definition getBestBid (s : OrderBook) : option Z * OrderBook :=
  readHotDataOptimistic (λ data,
    if HotData.has_bids data then Some (HotData.best_bid_price data) else None) s.

Definition getBestAsk (s : OrderBook) : option Z * OrderBook :=
  readHotDataOptimistic (λ data,
    if HotData.has_asks data then Some (HotData.best_ask_price data) else None) s.

Definition getMidPrice `{FpmOps} (s : OrderBook) : option Z * OrderBook :=
  readHotDataOptimistic (λ data,
    if HotData.has_bids data && HotData.has_asks data
    then Some ((HotData.best_bid_price data ⊞ HotData.best_ask_price data) ⊘ fpm_of_int 2)
    else None) s.

Definition getSpread `{FpmOps} (s : OrderBook) : option Z * OrderBook :=
  readHotDataOptimistic (λ data,
    if HotData.has_bids data && HotData.has_asks data
    then Some (HotData.best_ask_price data ⊟ HotData.best_bid_price data) else None) s.

Definition getBestBidAsk (s : OrderBook) : (option Z * option Z) * OrderBook :=
  readHotDataOptimistic (λ data,
    (if HotData.has_bids data then Some (HotData.best_bid_price data) else None,
     if HotData.has_asks data then Some (HotData.best_ask_price data) else None)) s.

Definition count_cold_read (s : OrderBook) : OrderBook :=
  s {{ statistics_ -> Statistics.cold_path_reads ::= inc64 }}.

Definition getBidLevel (level : nat) (s : OrderBook) : option PriceLevel.t * OrderBook :=
  match bids_ s !! level with
  | None => (None, s)
  | Some it => (Some it, count_cold_read s)
  end.

Definition getAskLevel (level : nat) (s : OrderBook) : option PriceLevel.t * OrderBook :=
  match asks_ s !! level with
  | None => (None, s)
  | Some it => (Some it, count_cold_read s)
  end.

(** The loop that stops at [max_levels] entries. *)
Fixpoint first_levels (count max_levels : nat) (m : levels) : levels :=
  match m with
  | [] => []
  | x :: m' => if (max_levels <=? count)%nat then [] else x :: first_levels (S count) max_levels m'
  end.

Definition getBidLevels (max_levels : nat) (s : OrderBook) : levels * OrderBook :=
  (first_levels 0 max_levels (bids_ s), count_cold_read s).

Definition getAskLevels (max_levels : nat) (s : OrderBook) : levels * OrderBook :=
  (first_levels 0 max_levels (asks_ s), count_cold_read s).

(** As in [OrderBookV2], the snapshot's [symbol_id] is left uninitialised. *)
Definition generateSnapshot (uninit : Z) (s : OrderBook) : OrderBookSnapshot.t :=
  OrderBookSnapshot.mk uninit (HotData.last_update_time (hot_data_ s)) (bids_ s) (asks_ s).

Definition empty (s : OrderBook) : bool :=
  match bids_ s, asks_ s with [], [] => true | _, _ => false end.

Definition getBidDepth (s : OrderBook) : nat := length (bids_ s).
Definition getAskDepth (s : OrderBook) : nat := length (asks_ s).
Definition getLastUpdateTime (s : OrderBook) : Z := HotData.last_update_time (hot_data_ s).
Definition getStatistics (s : OrderBook) : Statistics.t := statistics_ s.

(** ** Lemmas *)

Lemma trim_levels_take fuel l : (length l <= fuel)%nat → trim_levels fuel l = take MAX_DEPTH l.
Proof.
  revert l. induction fuel as [|fuel IH]; intros l Hl; cbn [trim_levels].
  { destruct l; [done|cbn in Hl; lia]. }
  destruct (Nat.ltb_spec MAX_DEPTH (length l)) as [Hlong|]; [|by rewrite take_ge by lia].
  destruct (exists_last_or_nil l) as [->|(l' & x & ->)]; [cbn in Hlong; lia|].
  rewrite removelast_last. rewrite length_app in Hl, Hlong. cbn in Hl, Hlong.
  rewrite IH by lia. by rewrite take_app_le by lia.
Qed.

Lemma first_levels_take n m l : first_levels n (n + m) l = take m l.
Proof.
  revert n m. induction l as [|x l IH]; intros n m; cbn [first_levels]; [by rewrite take_nil|].
  destruct m as [|m].
  - by rewrite Nat.add_0_r, Nat.leb_refl.
  - rewrite (proj2 (Nat.leb_gt _ _)) by lia. cbn [take]. f_equal.
    by rewrite <-(IH (S n)), Nat.add_succ_r.
Qed.

Lemma trim_noop l : (length l <= MAX_DEPTH)%nat → trim_levels (length l) l = l.
Proof. intros. by rewrite trim_levels_take, take_ge. Qed.

(** Appending the levels of a sorted side in order rebuilds it. *)
Lemma rebuild_sorted better `{!PriceOrder better} pre l :
  sorted_levels better (pre ++ l) →
  fold_left (λ m x, set_level better (PriceLevel.price x) (PriceLevel.quantity x) m) l pre = pre ++ l.
Proof.
  revert pre. induction l as [|x l IH]; intros pre Hs; cbn [fold_left]; [by rewrite app_nil_r|].
  assert (set_level better (PriceLevel.price x) (PriceLevel.quantity x) pre = pre ++ [x]) as ->.
  { rewrite <-(app_nil_r pre) at 1. rewrite (set_level_split better); [by destruct x| |done].
    unfold sorted_levels in Hs. rewrite StronglySorted_app in Hs. destruct Hs as (Hc & _ & _).
    apply Forall_forall. intros y Hy. apply Hc; [done|by left]. }
  rewrite IH; by rewrite <-app_assoc.
Qed.

(** ** The representation invariant *)

Definition v1_abs (s : OrderBook) : book := Book (bids_ s) (asks_ s).

Definition hot_best (has : bool) (price quantity : Z) (l : levels) : Prop :=
  match l with
  | [] => has = false
  | x :: _ => has = true ∧ price = PriceLevel.price x ∧ quantity = PriceLevel.quantity x
  end.

Record v1_inv (s : OrderBook) : Prop := {
  v1_wf : book_wf (v1_abs s);
  v1_hot_bid : hot_best (HotData.has_bids (hot_data_ s)) (HotData.best_bid_price (hot_data_ s))
    (HotData.best_bid_quantity (hot_data_ s)) (bids_ s);
  v1_hot_ask : hot_best (HotData.has_asks (hot_data_ s)) (HotData.best_ask_price (hot_data_ s))
    (HotData.best_ask_quantity (hot_data_ s)) (asks_ s);
  v1_even : Z.odd (HotData.version (hot_data_ s)) = false;
}.

(** [updateHotData] leaves the maps alone and fills the hot record from them. *)
Lemma updateHotData_ok t s :
  let s' := updateHotData t s in
  bids_ s' = bids_ s ∧ asks_ s' = asks_ s ∧ statistics_ s' = statistics_ s ∧
  hot_best (HotData.has_bids (hot_data_ s')) (HotData.best_bid_price (hot_data_ s'))
    (HotData.best_bid_quantity (hot_data_ s')) (bids_ s) ∧
  hot_best (HotData.has_asks (hot_data_ s')) (HotData.best_ask_price (hot_data_ s'))
    (HotData.best_ask_quantity (hot_data_ s')) (asks_ s) ∧
  Z.odd (HotData.version (hot_data_ s')) = Z.odd (HotData.version (hot_data_ s)).
Proof.
  destruct s as [h b a st]. unfold updateHotData.
  split_and!; [done..| | |]; destruct b, a; cbn -[inc64 Z.odd];
    rewrite ?inc64_odd, ?negb_involutive; done.
Qed.

Lemma hot_best_take has p q l : hot_best has p q l → hot_best has p q (take MAX_DEPTH l).
Proof. by destruct l. Qed.

Lemma updateBidLevel_ok p q s :
  (length (bids_ s) <= MAX_DEPTH)%nat →
  take MAX_DEPTH (bids_ (updateBidLevel p q s)) = side_update bid_better p q (bids_ s) ∧
  asks_ (updateBidLevel p q s) = asks_ s ∧ hot_data_ (updateBidLevel p q s) = hot_data_ s.
Proof.
  intros Hl. unfold updateBidLevel, side_update.
  destruct (q >? 0), (find_level p (bids_ s)) eqn:Hf; split_and!; try done.
  - apply take_ge. pose proof (erase_level_length p (bids_ s)). cbn -[MAX_DEPTH] in *. lia.
  - by rewrite erase_level_absent, take_ge.
Qed.

Lemma updateAskLevel_ok p q s :
  (length (asks_ s) <= MAX_DEPTH)%nat →
  take MAX_DEPTH (asks_ (updateAskLevel p q s)) = side_update ask_better p q (asks_ s) ∧
  bids_ (updateAskLevel p q s) = bids_ s ∧ hot_data_ (updateAskLevel p q s) = hot_data_ s.
Proof.
  intros Hl. unfold updateAskLevel, side_update.
  destruct (q >? 0), (find_level p (asks_ s)) eqn:Hf; split_and!; try done.
  - apply take_ge. pose proof (erase_level_length p (asks_ s)). cbn -[MAX_DEPTH] in *. lia.
  - by rewrite erase_level_absent, take_ge.
Qed.

Lemma v1_update_ok t s :
  v1_inv s → v1_inv (update t s) ∧ v1_abs (update t s) = book_update t (v1_abs s).
Proof.
  intros [Hwf _ _ Hev]. pose proof (book_update_wf t _ Hwf) as Hwf'.
  destruct Hwf as [(_ & Hlb & _) (_ & Hla & _)]. cbn in Hlb, Hla.
  unfold update. set (isb := match Tick.side t with TickSide.BID => true | _ => false end).
  set (s1 := if isb then updateBidLevel _ _ s else updateAskLevel _ _ s).
  assert (Book (take MAX_DEPTH (bids_ s1)) (take MAX_DEPTH (asks_ s1)) = book_update t (v1_abs s)
    ∧ hot_data_ s1 = hot_data_ s) as [Hbook Hh1].
  { subst s1 isb. unfold book_update, v1_abs.
    destruct (updateBidLevel_ok (Tick.price t) (Tick.quantity t) s Hlb) as (Hb1 & Hb2 & Hb3),
      (updateAskLevel_ok (Tick.price t) (Tick.quantity t) s Hla) as (Ha1 & Ha2 & Ha3).
    destruct (Tick.side t); cbn [book_bids book_asks];
      (split; [|exact Hb3 || exact Ha3]);
      rewrite ?Hb1, ?Hb2, ?Ha1, ?Ha2; f_equal; by apply take_ge. }
  destruct (updateHotData_ok (Tick.receive_timestamp_us t) s1) as (Hb & Ha & _ & Hhb & Hha & Hv).
  set (s2 := updateHotData _ s1) in *. rewrite Hh1, Hev in Hv.
  assert (∀ s', bids_ s' = take MAX_DEPTH (bids_ s1) → asks_ s' = take MAX_DEPTH (asks_ s1) →
    hot_data_ s' = hot_data_ s2 → v1_inv s' ∧ v1_abs s' = book_update t (v1_abs s)) as Hfin.
  { intros s' Hb' Ha' Hh'. assert (v1_abs s' = book_update t (v1_abs s)) as Habs
      by (unfold v1_abs at 1; by rewrite Hb', Ha').
    split; [split|done]; rewrite ?Habs, ?Hh', ?Hb', ?Ha'; auto using hot_best_take. }
  destruct isb; apply Hfin; cbn -[trim_levels]; rewrite ?trim_levels_take by done; by rewrite ?Hb, ?Ha.
Qed.

Lemma v1_clear_ok s : v1_inv s → v1_inv (clear s) ∧ v1_abs (clear s) = book_init.
Proof.
  intros [_ _ _ Hev]. split; [|done]. split; try done; [apply book_init_wf|].
  cbn -[inc64 Z.odd]. by rewrite !inc64_odd, negb_involutive.
Qed.

Lemma v1_init_ok : v1_inv OrderBook_init ∧ v1_abs OrderBook_init = book_init.
Proof. split; [|done]. split; try done. apply book_init_wf. Qed.

Lemma hot_best_price has p q l :
  hot_best has p q l → (if has then Some p else None) = best_price l.
Proof. destruct l; cbn; [by intros ->|by intros (-> & -> & _)]. Qed.

Lemma getBestBidAsk_ok s :
  hot_best (HotData.has_bids (hot_data_ s)) (HotData.best_bid_price (hot_data_ s))
    (HotData.best_bid_quantity (hot_data_ s)) (bids_ s) →
  hot_best (HotData.has_asks (hot_data_ s)) (HotData.best_ask_price (hot_data_ s))
    (HotData.best_ask_quantity (hot_data_ s)) (asks_ s) →
  (getBestBidAsk s).1 = (best_price (bids_ s), best_price (asks_ s)).
Proof.
  intros Hb%hot_best_price Ha%hot_best_price. unfold getBestBidAsk, readHotDataOptimistic.
  rewrite <-Hb, <-Ha. by destruct (Z.odd _).
Qed.

#[global, refine] Instance OrderBook_book : BookContract OrderBook := {
  ob_init := OrderBook_init;
  ob_update := update;
  ob_clear := clear;
  ob_best_bid s := Some (getBestBid s).1;
  ob_best_ask s := Some (getBestAsk s).1;
  ob_inv := v1_inv;
  ob_abs := v1_abs;
  ob_init_ok := v1_init_ok;
  ob_update_ok := v1_update_ok;
  ob_clear_ok := v1_clear_ok;
}.
Proof.
  - intros s []. unfold getBestBid, readHotDataOptimistic. rewrite v1_even0. cbn. f_equal.
    by eapply hot_best_price.
  - intros s []. unfold getBestAsk, readHotDataOptimistic. rewrite v1_even0. cbn. f_equal.
    by eapply hot_best_price.
  - by intros s [].
Defined.

(** ** Properties *)

(** A snapshot round trip loses nothing: rebuilding any book from the snapshot
    of a book in its invariant gives back the same levels, best prices included,
    and re-establishes the invariant. *)
Lemma rebuild_snapshot_roundtrip now u s s' :
  v1_inv s → Z.odd (HotData.version (hot_data_ s')) = false →
  let r := rebuildFromSnapshot now (generateSnapshot u s) s' in
  v1_inv r ∧ v1_abs r = v1_abs s ∧ (getBestBidAsk r).1 = (getBestBidAsk s).1.
Proof.
  intros Hi Hev r. pose proof Hi as [[Hb Ha] Hhb Hha Hv].
  set (s1 := s' {{ bids_ := bids_ s; asks_ := asks_ s }}).
  assert (r = updateHotData now s1) as Hr.
  { subst r s1. unfold rebuildFromSnapshot, rebuild_side, generateSnapshot. cbn [OrderBookSnapshot.bids OrderBookSnapshot.asks].
    rewrite !(rebuild_sorted _ []); [done|apply Hb|apply Ha]. }
  destruct (updateHotData_ok now s1) as (Hb1 & Ha1 & _ & Hhb1 & Hha1 & Hv1). rewrite <-Hr in *.
  assert (v1_abs r = v1_abs s) as Habs by (unfold v1_abs; by rewrite Hb1, Ha1).
  split_and!; [|done|].
  - split; rewrite ?Habs, ?Hb1, ?Ha1; [by split|done|done|]. rewrite Hv1. exact Hev.
  - pose proof (getBestBidAsk_ok r) as Hr1. rewrite Hb1, Ha1 in Hr1.
    rewrite (Hr1 Hhb1 Hha1). by rewrite (getBestBidAsk_ok s Hhb Hha).
Qed.

Definition sample_book : OrderBook :=
  fold_left (λ s t, update t s)
    [Tick.mk 1 1 1 1 100 5 TickSide.BID 0; Tick.mk 2 2 1 1 101 7 TickSide.ASK 0] OrderBook_init.

Lemma rebuild_snapshot_roundtrip_witness :
  let r := rebuildFromSnapshot 9 (generateSnapshot 0 sample_book) OrderBook_init in
  v1_inv r ∧ v1_abs r = v1_abs sample_book ∧ (getBestBidAsk r).1 = (getBestBidAsk sample_book).1.
Proof.
  apply (rebuild_snapshot_roundtrip 9 0 sample_book OrderBook_init); [|reflexivity].
  apply v1_update_ok, v1_update_ok, v1_init_ok.
Defined.
