(* ===== verification/BookEquiv.v ===== *)
(** The two order books agree, and both agree with the plain map of last
    quantities while a side has at most twenty prices. The proofs use the two
    implementations through [BookContract] only. *)
From S2P Require Import Prelude.
From S2P Require Import FixedPoint.
From S2P Require Import Types.
From S2P Require Import BookSpec.
From S2P Require OrderBookV2.
From S2P Require OrderBook.

(** ** Clients of the contract *)

(** Ticks, with [None] for a call of [clear]. *)
Definition ob_event `{BookContract B} (s : B) (e : option Tick.t) : B :=
  match e with Some t => ob_update t s | None => ob_clear s end.

Section agree.
Context {B1 B2 : Type} `{BookContract B1} `{BookContract B2}.

Lemma same_book evs (s1 : B1) (s2 : B2) :
  ob_inv s1 → ob_inv s2 → ob_abs s1 = ob_abs s2 →
  let s1' := fold_left ob_event evs s1 in
  let s2' := fold_left ob_event evs s2 in
  ob_inv s1' ∧ ob_inv s2' ∧ ob_abs s1' = ob_abs s2'.
Proof.
  revert s1 s2. induction evs as [|e evs IH]; intros s1 s2 H1 H2 Heq; [done|].
  cbn [fold_left]. destruct e as [t|]; cbn [ob_event].
  - destruct (ob_update_ok t s1 H1) as [? Ha1], (ob_update_ok t s2 H2) as [? Ha2].
    apply IH; [done..|]. by rewrite Ha1, Ha2, Heq.
  - destruct (ob_clear_ok s1 H1) as [? Ha1], (ob_clear_ok s2 H2) as [? Ha2].
    apply IH; [done..|]. by rewrite Ha1, Ha2.
Qed.
End agree.

Section shallow.
Context `{BookContract B}.

(** The head of a sorted side is the maximum of the prices [find_level] knows. *)
Lemma best_price_spec better `{!PriceOrder better} l p :
  sorted_levels better l →
  best_price l = Some p ↔
  is_Some (find_level p l) ∧ ∀ p', is_Some (find_level p' l) → p' = p ∨ better p p' = true.
Proof.
  intros Hs. split.
  - destruct l as [|x l]; [done|]. cbn. intros [= <-]. rewrite Z.eqb_refl. split; [by eexists|].
    intros p' Hp'. destruct (Z.eqb_spec (PriceLevel.price x) p') as [?|_]; [by left|right].
    destruct Hp' as [q Hq%(find_level_elem better)].
    by apply (sorted_head_best better x l (PriceLevel.mk p' q) Hs).
  - intros [[q Hq] Hmax]. destruct l as [|x l]; [done|]. cbn. f_equal.
    cbn in Hq. destruct (Z.eqb_spec (PriceLevel.price x) p) as [?|Hne]; [done|].
    pose proof (sorted_head_best better x l _ Hs (find_level_elem better _ _ _ Hq)) as Hb. cbn in Hb.
    destruct (Hmax (PriceLevel.price x)) as [?|Hb']; [|done|].
    + cbn. rewrite Z.eqb_refl. by eexists.
    + by rewrite (better_asym _ _ Hb') in Hb.
Qed.

Lemma ob_run_best_shallow ts :
  (size (side_prices true ts) <= MAX_DEPTH)%nat →
  ∃ best, ob_best_bid (ob_run ts) = Some best ∧
    ∀ p, best = Some p ↔
      p ∈ dom (last_quantities true ts ∅) ∧ ∀ p', p' ∈ dom (last_quantities true ts ∅) → p' <= p.
Proof.
  intros Hsz. destruct (ob_run_ok ts) as [Hi Ha]. exists (best_price (book_bids (ob_abs (ob_run ts)))).
  split; [by apply ob_best_bid_ok|]. intros p.
  destruct (ob_inv_wf _ Hi) as [(Hs & _) _]. rewrite (best_price_spec bid_better) by done.
  rewrite elem_of_dom, (ob_run_find_bid ts p Hsz). f_equiv.
  apply forall_proper. intros p'. rewrite elem_of_dom, (ob_run_find_bid ts p' Hsz).
  unfold bid_better. rewrite Z.gtb_ltb, Z.ltb_lt. assert (p' = p ∨ p' < p ↔ p' <= p) by lia. tauto.
Qed.
End shallow.

(** *** Mid price and spread from the best prices *)

Section derived.
Context {F : FpmOps}.

Definition of_best {A} (f : Z → Z → A) (bid ask : option Z) : option A := b ← bid; a ← ask; Some (f b a).
Definition mid (bid ask : Z) : Z := (bid ⊞ ask) ⊘ fpm_of_int 2.
Definition spread (bid ask : Z) : Z := ask ⊟ bid.

Lemma v1_derived (s : OrderBook.OrderBook) :
  (OrderBook.getMidPrice s).1 = of_best mid (OrderBook.getBestBid s).1 (OrderBook.getBestAsk s).1 ∧
  (OrderBook.getSpread s).1 = of_best spread (OrderBook.getBestBid s).1 (OrderBook.getBestAsk s).1.
Proof.
  unfold OrderBook.getMidPrice, OrderBook.getSpread, OrderBook.getBestBid, OrderBook.getBestAsk, OrderBook.readHotDataOptimistic.
  destruct (Z.odd _); cbn; by destruct (OrderBook.HotData.has_bids _), (OrderBook.HotData.has_asks _).
Qed.

Lemma v2_derived (s : OrderBookV2.OrderBookV2) bid ask :
  OrderBookV2.getBestBid s = Some bid → OrderBookV2.getBestAsk s = Some ask →
  OrderBookV2.getMidPrice s = Some (of_best mid bid ask) ∧ OrderBookV2.getSpread s = Some (of_best spread bid ask).
Proof.
  unfold OrderBookV2.getMidPrice, OrderBookV2.getSpread, OrderBookV2.getBestBid, OrderBookV2.getBestAsk, OrderBookV2.readHotDataOptimistic.
  destruct (Z.odd _); [done|]. intros [= <-] [= <-].
  by destruct (0 <? OrderBookV2.HotData.bid_count _)%nat, (0 <? OrderBookV2.HotData.ask_count _)%nat.
Qed.
End derived.

(** ** Properties *)

(** C7: after any sequence of updates and clears [OrderBook] and [OrderBookV2] return
    the same best prices, mid price and spread, the same level at every depth, the same
    level lists and snapshot levels, and agree on emptiness; the top five of
    [OrderBookV2] are the first five levels of [OrderBook], padded with empty ones. The times of
    the last update are not compared: they differ ([update_times_differ]). *)
Theorem books_equivalent {F : FpmOps} (evs : list (option Tick.t)) :
  let s1 : OrderBook.OrderBook := fold_left ob_event evs ob_init in
  let s2 : OrderBookV2.OrderBookV2 := fold_left ob_event evs ob_init in
  OrderBookV2.getBestBid s2 = Some (OrderBook.getBestBid s1).1 ∧
  OrderBookV2.getBestAsk s2 = Some (OrderBook.getBestAsk s1).1 ∧
  (∀ i, (OrderBookV2.getBidLevel i s2).1 = (OrderBook.getBidLevel i s1).1) ∧
  (∀ i, (OrderBookV2.getAskLevel i s2).1 = (OrderBook.getAskLevel i s1).1) ∧
  (∀ n, (OrderBookV2.getBidLevels n s2).1 = (OrderBook.getBidLevels n s1).1) ∧
  (∀ n, (OrderBookV2.getAskLevels n s2).1 = (OrderBook.getAskLevels n s1).1) ∧
  (∀ u, OrderBookSnapshot.bids (OrderBookV2.generateSnapshot u s2) =
        OrderBookSnapshot.bids (OrderBook.generateSnapshot u s1)) ∧
  (∀ u, OrderBookSnapshot.asks (OrderBookV2.generateSnapshot u s2) =
        OrderBookSnapshot.asks (OrderBook.generateSnapshot u s1)) ∧
  OrderBookV2.empty s2 = OrderBook.empty s1 ∧
  OrderBookV2.getMidPrice s2 = Some (OrderBook.getMidPrice s1).1 ∧
  OrderBookV2.getSpread s2 = Some (OrderBook.getSpread s1).1 ∧
  OrderBookV2.getTop5Bids s2 = Some (OrderBookV2.top5 (OrderBook.getBidLevels 20 s1).1) ∧
  OrderBookV2.getTop5Asks s2 = Some (OrderBookV2.top5 (OrderBook.getAskLevels 20 s1).1).
Proof.
  intros s1 s2.
  destruct (same_book evs (ob_init (B := OrderBook.OrderBook)) (ob_init (B := OrderBookV2.OrderBookV2)))
    as (H1 & H2 & Heq); [apply ob_init_ok..|done|]. fold s1 in H1, Heq. fold s2 in H2, Heq.
  pose proof (ob_best_bid_ok s1 H1) as Hb1. pose proof (ob_best_ask_ok s1 H1) as Ha1.
  destruct (OrderBookV2.inv_reads_book s2 H2) as [Hb Ha Htb Hta Hbl Hal Hbls Hals _ _ Hsn Hem].
  destruct (ob_inv_wf _ H1) as [(_ & Hlb & _) (_ & Hla & _)].
  change (OrderBookV2.v2_abs s2) with (ob_abs s2) in *. rewrite <-Heq in *.
  assert (OrderBookV2.getBestBid s2 = Some (OrderBook.getBestBid s1).1) as Eb by (rewrite Hb; symmetry; exact Hb1).
  assert (OrderBookV2.getBestAsk s2 = Some (OrderBook.getBestAsk s1).1) as Ea by (rewrite Ha; symmetry; exact Ha1).
  destruct (v1_derived s1) as [M1 S1]. destruct (v2_derived s2 _ _ Eb Ea) as [M2 S2].
  split_and!.
  - exact Eb.
  - exact Ea.
  - intros i. rewrite Hbl. unfold OrderBook.getBidLevel. cbn. by destruct (_ !! i).
  - intros i. rewrite Hal. unfold OrderBook.getAskLevel. cbn. by destruct (_ !! i).
  - intros n. rewrite Hbls. symmetry. apply (OrderBook.first_levels_take 0).
  - intros n. rewrite Hals. symmetry. apply (OrderBook.first_levels_take 0).
  - intros u. by destruct (Hsn u) as [ts ->].
  - intros u. by destruct (Hsn u) as [ts ->].
  - destruct (OrderBookV2.empty s2), (OrderBook.empty s1) eqn:He; try done; unfold OrderBook.empty in He.
    + assert (Book (OrderBook.bids_ s1) (OrderBook.asks_ s1) = book_init) as [= Hbn Han]
        by exact (proj1 Hem eq_refl).
      by rewrite Hbn, Han in He.
    + assert (false = true); [|done]. apply Hem. cbn. unfold OrderBook.v1_abs.
      destruct (OrderBook.bids_ s1), (OrderBook.asks_ s1); done.
  - by rewrite M1.
  - by rewrite S1.
  - rewrite Htb. do 2 f_equal. symmetry. etrans; [apply (OrderBook.first_levels_take 0)|]. by apply take_ge.
  - rewrite Hta. do 2 f_equal. symmetry. etrans; [apply (OrderBook.first_levels_take 0)|]. by apply take_ge.
Qed.

(** An update below the top five: [OrderBook] stores its time, [OrderBookV2] leaves the hot
    data, and with it the time that [getLastUpdateTime] returns, as they were. *)
Definition six_bids : list (option Tick.t) :=
  (λ n, Some (Tick.mk (Z.of_nat n) (Z.of_nat n) 1 1 (100 - Z.of_nat n) 5 TickSide.BID 0)) <$> seq 1 6.

Lemma update_times_differ :
  OrderBook.getLastUpdateTime (fold_left ob_event six_bids ob_init) = 6 ∧
  OrderBookV2.getLastUpdateTime (fold_left ob_event six_bids ob_init) = 5.
Proof. by vm_compute. Qed.

(** While the bid side of a feed never shows more than twenty distinct prices,
    [OrderBookV2] holds for every price exactly the quantity of its last tick
    (nothing when that quantity is not positive), and [getBestBid] is the greatest
    price still alive: the depth limit loses nothing. *)
Lemma shallow_bids_exact (ts : list Tick.t) :
  (size (side_prices true ts) <= MAX_DEPTH)%nat →
  let s := fold_left (λ s t, OrderBookV2.update t s) ts OrderBookV2.OrderBookV2_init in
  (∀ p, find_level p (OrderBookV2.getBidLevels 20 s).1 = last_quantities true ts ∅ !! p) ∧
  ∃ best, OrderBookV2.getBestBid s = Some best ∧
    ∀ p, best = Some p ↔
      p ∈ dom (last_quantities true ts ∅) ∧ ∀ p', p' ∈ dom (last_quantities true ts ∅) → p' <= p.
Proof.
  intros Hsz s. split; [|exact (ob_run_best_shallow (B := OrderBookV2.OrderBookV2) ts Hsz)].
  intros p. destruct (ob_run_ok (B := OrderBookV2.OrderBookV2) ts) as [Hi _].
  pose proof (ob_run_find_bid (B := OrderBookV2.OrderBookV2) ts p Hsz) as Hf.
  change (ob_run ts) with s in *. rewrite <-Hf.
  rewrite (OrderBookV2.rb_bids _ _ (OrderBookV2.inv_reads_book s Hi)).
  destruct (ob_inv_wf _ Hi) as [(_ & Hl & _) _]. by rewrite take_ge.
Qed.

Definition sample_ticks : list Tick.t :=
  [Tick.mk 1 1 1 1 100 5 TickSide.BID 0; Tick.mk 2 2 1 1 102 7 TickSide.BID 0;
   Tick.mk 3 3 1 1 101 7 TickSide.ASK 0; Tick.mk 4 4 1 1 102 0 TickSide.BID 0].

Lemma shallow_bids_exact_witness :
  let s := fold_left (λ s t, OrderBookV2.update t s) sample_ticks OrderBookV2.OrderBookV2_init in
  find_level 100 (OrderBookV2.getBidLevels 20 s).1 = Some 5.
Proof.
  intros s. etrans; [apply (shallow_bids_exact sample_ticks); vm_compute; lia|reflexivity].
Defined.
