(* ===== verification/Seqlock.v ===== *)
(** Optimistic versioned reads against a concurrent writer: the [HotData] of the two
    order books ([readHotDataOptimistic], [rebuildHotData], [updateHotData]) and the
    hot parameters of the risk engine.

    The writer increments [version], stores the cells one at a time and increments
    [version] again. A reader loads [version], retries when it is odd, runs its
    function on the cells, one load at a time, and compares [version] again.
    [OrderBookV2] retries for ever; [OrderBook] and [RiskEngine] give up after
    [MAX_RETRIES] attempts and run the function without a check. The interleaving is
    sequentially consistent, at the grain of a single load or store; [epoch] and
    [hist] are ghost state: the number of increments so far and the cells at each
    commit. *)
From S2P Require Import Prelude.
From S2P Require Import FixedPoint.
From S2P Require Import Types.
From S2P Require Import BookSpec.
From S2P Require OrderBookV2.
From S2P Require OrderBook.

(** ** Functions on the cells, as sequences of loads *)
Inductive prog (cell A : Type) :=
  | Ret (a : A)
  | Load (c : cell) (k : Z → prog cell A).
Arguments Ret {_ _} _.
Arguments Load {_ _} _ _.

Section seqlock.
Context {cell : Type} `{EqDecision cell} {A : Type}.

Definition memory := cell → Z.

Definition store (m : memory) (c : cell) (x : Z) : memory :=
  λ c', if decide (c' = c) then x else m c'.

Fixpoint run (p : prog cell A) (m : memory) : A :=
  match p with
  | Ret a => a
  | Load c k => run (k (m c)) m
  end.

Definition stores (m : memory) (ws : list (cell * Z)) : memory :=
  fold_left (λ m '(c, x), store m c x) ws m.

(** The function readers run, and the bound on their attempts. *)
Context (func : prog cell A) (MAX_RETRIES : option nat).

Inductive writer := WIdle | WWriting (rest : list (cell * Z)).

Inductive reader :=
  | RStart (retry : nat)
  | RReading (retry : nat) (version_before : Z) (rest : prog cell A)
  | RFallback (rest : prog cell A)
  | RDone (checked : bool) (result : A).

(** [todo] are the writes the writer thread has still to start, each the list of
    its stores in order; [epoch] counts the increments of the version and [loaded]
    is the epoch of the reader's last load of it. *)
Record state := State {
  version : Z;
  cells : memory;
  todo : list (list (cell * Z));
  wr : writer;
  rd : reader;
  epoch : nat;
  loaded : nat;
}.

(** The next attempt after a failed one: a further retry or, when the bound is
    reached, the fallback. *)
Definition retry_or_fallback (retry : nat) : reader :=
  match MAX_RETRIES with
  | Some n => if (S retry <? n)%nat then RStart (S retry) else RFallback func
  | None => RStart (S retry)
  end.

Inductive step : state → state → Prop :=
  | step_begin v m ws todo r e l :
      step (State v m (ws :: todo) WIdle r e l) (State (inc64 v) m todo (WWriting ws) r (S e) l)
  | step_store v m c x ws todo r e l :
      step (State v m todo (WWriting ((c, x) :: ws)) r e l)
           (State v (store m c x) todo (WWriting ws) r e l)
  | step_end v m todo r e l :
      step (State v m todo (WWriting []) r e l) (State (inc64 v) m todo WIdle r (S e) l)
  | step_load_odd v m todo w n e l :
      Z.odd v = true →
      step (State v m todo w (RStart n) e l) (State v m todo w (retry_or_fallback n) e l)
  | step_load_even v m todo w n e l :
      Z.odd v = false →
      step (State v m todo w (RStart n) e l) (State v m todo w (RReading n v func) e e)
  | step_read v m todo w n vb c k e l :
      step (State v m todo w (RReading n vb (Load c k)) e l)
           (State v m todo w (RReading n vb (k (m c))) e l)
  | step_check_ok v m todo w n a e l :
      step (State v m todo w (RReading n v (Ret a)) e l) (State v m todo w (RDone true a) e l)
  | step_check_fail v m todo w n vb a e l :
      v ≠ vb →
      step (State v m todo w (RReading n vb (Ret a)) e l)
           (State v m todo w (retry_or_fallback n) e l)
  | step_fallback_read v m todo w c k e l :
      step (State v m todo w (RFallback (Load c k)) e l)
           (State v m todo w (RFallback (k (m c))) e l)
  | step_fallback_done v m todo w a e l :
      step (State v m todo w (RFallback (Ret a)) e l) (State v m todo w (RDone false a) e l).

(** The same steps as a function of who moves, to run schedules. *)
Inductive actor := Writer | Reader.

Definition step_fn (a : actor) (s : state) : option state :=
  let '(State v m todo w r e l) := s in
  match a with
  | Writer =>
      match w, todo with
      | WIdle, ws :: todo' => Some (State (inc64 v) m todo' (WWriting ws) r (S e) l)
      | WIdle, [] => None
      | WWriting ((c, x) :: ws), _ => Some (State v (store m c x) todo (WWriting ws) r e l)
      | WWriting [], _ => Some (State (inc64 v) m todo WIdle r (S e) l)
      end
  | Reader =>
      match r with
      | RStart n =>
          if Z.odd v then Some (State v m todo w (retry_or_fallback n) e l)
          else Some (State v m todo w (RReading n v func) e e)
      | RReading n vb (Load c k) => Some (State v m todo w (RReading n vb (k (m c))) e l)
      | RReading n vb (Ret a) =>
          if v =? vb then Some (State v m todo w (RDone true a) e l)
          else Some (State v m todo w (retry_or_fallback n) e l)
      | RFallback (Load c k) => Some (State v m todo w (RFallback (k (m c))) e l)
      | RFallback (Ret a) => Some (State v m todo w (RDone false a) e l)
      | RDone _ _ => None
      end
  end.

Fixpoint exec (schedule : list actor) (s : state) : option state :=
  match schedule with
  | [] => Some s
  | a :: schedule' => step_fn a s ≫= exec schedule'
  end.

Lemma step_fn_sound a s s' : step_fn a s = Some s' → step s s'.
Proof.
  destruct s as [v m td w r e l]. destruct a; cbn.
  - destruct w as [|[|[c x] ws]], td as [|ws' td]; intros; simplify_eq; constructor.
  - destruct r as [n|n vb [a|c k]|[a|c k]|]; intros; simplify_eq; try by constructor.
    + destruct (Z.odd v) eqn:?; simplify_eq; by constructor.
    + destruct (Z.eqb_spec v vb); simplify_eq; by constructor.
Qed.

Lemma exec_sound schedule s s' : exec schedule s = Some s' → rtc step s s'.
Proof.
  revert s. induction schedule as [|a sch IH]; intros s; cbn; [by intros [= ->]|].
  destruct (step_fn a s) as [s1|] eqn:Hs; [|done]. cbn. intros.
  eapply rtc_l; [by eapply step_fn_sound|auto].
Qed.

Lemma exec_result schedule s r :
  (rd <$> exec schedule s) = Some r → ∃ s', rtc step s s' ∧ rd s' = r.
Proof.
  destruct (exec schedule s) as [s'|] eqn:He; [|done]. intros [= <-].
  exists s'. split; [by eapply exec_sound|done].
Qed.

Definition init_state (m : memory) (scripts : list (list (cell * Z))) : state :=
  State 0 m scripts WIdle (RStart 0) 0 0.

(** ** The invariant *)

(** The cells at the commits of a sequence of writes, the initial ones first. *)
Fixpoint commits (m : memory) (scripts : list (list (cell * Z))) : list memory :=
  match scripts with
  | [] => [m]
  | ws :: scripts' => m :: commits (stores m ws) scripts'
  end.

Section invariant.
Context (m0 : memory) (scripts : list (list (cell * Z))).
Context (Hbound : 2 * Z.of_nat (length scripts) < 2 ^ 64).

(** [s1] is the moment of the run that led to [s] at which the reader's last attempt
    loaded the version, with no write in progress: the attempt has just begun and its
    epoch is that of the reader's last load of the version. *)
Definition quiet_moment (s1 s : state) : Prop :=
  rtc step (init_state m0 scripts) s1 ∧ rtc step s1 s ∧
  wr s1 = WIdle ∧ cells s1 ∈ commits m0 scripts ∧
  epoch s1 = loaded s ∧ ∃ n vb, rd s1 = RReading n vb func.

(** A reader in its attempt loaded the version at a quiet moment and, unless the
    epoch has moved on since, is on its way to the value of [func] at that moment;
    a checked result is the value of [func] at a quiet moment. *)
Definition reader_inv (s : state) : Prop :=
  match rd s with
  | RReading _ vb rest =>
      vb = u64 (Z.of_nat (loaded s)) ∧ (loaded s <= epoch s)%nat ∧
      Nat.even (loaded s) = true ∧
      ∃ s1, quiet_moment s1 s ∧ (epoch s = loaded s → run rest (cells s) = run func (cells s1))
  | RDone true a => ∃ s1, quiet_moment s1 s ∧ a = run func (cells s1)
  | _ => True
  end.

Record inv (s : state) : Prop := {
  inv_version : version s = u64 (Z.of_nat (epoch s));
  inv_epoch : (epoch s + match wr s with WIdle => 0 | WWriting _ => 1 end
               + 2 * length (todo s) = 2 * length scripts)%nat;
  inv_commits : ∃ past, commits m0 scripts = past ++
    match wr s with
    | WIdle => commits (cells s) (todo s)
    | WWriting rest => commits (stores (cells s) rest) (todo s)
    end;
  inv_reader : reader_inv s;
}.

Lemma retry_or_fallback_reader n :
  (∃ n', retry_or_fallback n = RStart n') ∨ retry_or_fallback n = RFallback func.
Proof. unfold retry_or_fallback. destruct MAX_RETRIES as [k|]; [destruct (_ <? _)%nat|]; eauto. Qed.

Lemma inc64_epoch e : inc64 (u64 (Z.of_nat e)) = u64 (Z.of_nat (S e)).
Proof.
  unfold inc64, wrapU. rewrite Nat2Z.inj_succ, <-Z.add_1_r.
  by rewrite Zplus_mod_idemp_l.
Qed.

Lemma version_odd e : Z.odd (u64 (Z.of_nat e)) = Nat.odd e.
Proof.
  rewrite u64_odd. induction e as [|e IH]; [done|].
  by rewrite Nat2Z.inj_succ, Z.odd_succ, <-Z.negb_odd, IH, Nat.odd_succ, <-Nat.negb_odd.
Qed.

Lemma commits_head m ss : ∃ rest, commits m ss = m :: rest.
Proof. destruct ss; by eexists. Qed.

Lemma quiet_moment_step s1 s s' : quiet_moment s1 s → step s s' → loaded s' = loaded s → quiet_moment s1 s'.
Proof. intros (? & ? & ? & ? & ? & ?) ? ?. split_and!; [done|by eapply rtc_r|done..|congruence|done]. Qed.

Lemma inv_epoch_parity s : inv s → Nat.even (epoch s) = match wr s with WIdle => true | _ => false end.
Proof.
  intros [_ He _ _]. destruct (wr s).
  - apply Nat.even_spec. exists (length scripts - length (todo s))%nat. lia.
  - apply not_true_is_false. rewrite Nat.even_spec. intros [k Hk]. lia.
Qed.

Lemma seq_init_inv : inv (init_state m0 scripts).
Proof. split; try done. by exists []. Qed.

(** A step of the writer either moves the epoch on or happens at an odd one: the
    reader cannot be about to succeed. *)
Lemma writer_step_reader s s' :
  step s s' → rd s' = rd s → loaded s' = loaded s →
  (epoch s' = S (epoch s) ∨ (epoch s' = epoch s ∧ Nat.even (epoch s) = false)) →
  reader_inv s → reader_inv s'.
Proof.
  intros Hst Hrd Hl He Hr. unfold reader_inv in *. rewrite Hrd, Hl.
  destruct (rd s) as [|n vb p| |[] a]; try done.
  - destruct Hr as (? & ? & Hev & s1 & Hq & Hrun). split_and!; [done|lia|done|].
    exists s1. split; [by eapply quiet_moment_step|].
    intros Heq. destruct He as [?|[Hee Hp]]; [lia|]. rewrite <-Hee, Heq, Hev in Hp. done.
  - destruct Hr as (s1 & Hq & ->). exists s1. split; [by eapply quiet_moment_step|done].
Qed.

Lemma retry_reader_inv s n : rd s = retry_or_fallback n → reader_inv s.
Proof.
  intros Hrd. unfold reader_inv. rewrite Hrd.
  by destruct (retry_or_fallback_reader n) as [[n' ->]| ->].
Qed.

(** What a load of an even version finds is quiet and committed. *)
Lemma even_load_quiet s :
  inv s → Z.odd (version s) = false → wr s = WIdle ∧ cells s ∈ commits m0 scripts.
Proof.
  intros Hi Hev. pose proof (inv_epoch_parity s Hi) as Hpar.
  destruct Hi as [Hv _ [past Hc] _]. rewrite Hv, version_odd, <-Nat.negb_even, Hpar in Hev.
  destruct (wr s) eqn:Hw; [|done]. split; [done|].
  destruct (commits_head (cells s) (todo s)) as [rest Hh]. rewrite Hc, Hh. set_solver.
Qed.

(** The reader's own steps. *)
Lemma load_even_inv v m td w n e l :
  let s := State v m td w (RStart n) e l in
  rtc step (init_state m0 scripts) s → Z.odd v = false → inv s →
  reader_inv (State v m td w (RReading n v func) e e).
Proof.
  intros s Hreach Hev Hi. destruct (even_load_quiet s Hi Hev) as [Hq1 Hq2].
  pose proof (inv_version s Hi) as Hv. cbn in Hv.
  split_and!; cbn [loaded epoch]; [done|lia| |].
  - rewrite Hv, version_odd, <-Nat.negb_even in Hev. by destruct (Nat.even e).
  - exists (State v m td w (RReading n v func) e e). split; [|done].
    split_and!; [eapply rtc_r; [exact Hreach|by constructor]|done..|by exists n, v].
Qed.

Lemma check_ok_inv v m td w n a e l :
  let s := State v m td w (RReading n v (Ret a)) e l in
  inv s → reader_inv (State v m td w (RDone true a) e l).
Proof.
  intros s [Hv Hep _ (Hvl & Hle & Hev & s1 & Hq & Hrun)]. subst s.
  cbn [version epoch loaded todo wr cells] in *.
  assert (e = l) as Hel.
  { rewrite Hv in Hvl. rewrite !u64_id in Hvl by lia. lia. }
  exists s1. split; [eapply quiet_moment_step; [done|constructor|done]|]. by apply Hrun.
Qed.

Lemma seq_step_inv s s' :
  rtc step (init_state m0 scripts) s → step s s' → inv s → inv s'.
Proof.
  intros Hreach Hstep Hi. pose proof (inv_epoch_parity s Hi) as Hpar. pose proof Hi as [Hv Hw Hc Hr].
  assert (version s' = u64 (Z.of_nat (epoch s')) ∧
    (epoch s' + match wr s' with WIdle => 0 | WWriting _ => 1 end + 2 * length (todo s')
      = 2 * length scripts)%nat ∧
    (∃ past, commits m0 scripts = past ++
      match wr s' with
      | WIdle => commits (cells s') (todo s')
      | WWriting rest => commits (stores (cells s') rest) (todo s')
      end)) as (? & ? & ?).
  { destruct Hstep; cbn [version epoch wr todo rd cells loaded] in *; try done.
    - rewrite Hv, inc64_epoch. cbn in Hw. split_and!; [done|lia|].
      destruct Hc as [past Hc]. exists (past ++ [m]). by rewrite <-app_assoc.
    - rewrite Hv, inc64_epoch. split_and!; [done|lia|done]. }
  split; [done..|].
  pose proof (writer_step_reader s s' Hstep) as Hwr.
  destruct Hstep; cbn [version epoch wr todo rd cells loaded] in *.
  - apply Hwr; auto.
  - apply Hwr; auto.
  - apply Hwr; auto.
  - by eapply retry_reader_inv.
  - by eapply load_even_inv.
  - destruct Hr as (? & ? & ? & s1 & Hq & Hrun). split_and!; [done..|].
    exists s1. split; [eapply quiet_moment_step; [done|constructor|done]|done].
  - by eapply check_ok_inv.
  - by eapply retry_reader_inv.
  - done.
  - done.
Qed.

Lemma seq_reachable_inv s : rtc step (init_state m0 scripts) s → inv s.
Proof.
  revert s. apply rtc_ind_r; [apply seq_init_inv|]. intros s s' Hs Hst IH. by eapply seq_step_inv.
Qed.

(** Whatever the interleaving, a checked read is atomic: its result is the value of
    the reader's function at the moment its last attempt loaded the version. *)
Lemma checked_read_atomic s a :
  rtc step (init_state m0 scripts) s → rd s = RDone true a →
  ∃ s1, quiet_moment s1 s ∧ a = run func (cells s1).
Proof.
  intros Hs Hr. destruct (seq_reachable_inv s Hs) as [_ _ _ Hi]. unfold reader_inv in Hi.
  by rewrite Hr in Hi.
Qed.

(** The unbounded loop never returns an unchecked result. *)
Lemma unbounded_always_checked s b a :
  MAX_RETRIES = None → rtc step (init_state m0 scripts) s → rd s = RDone b a → b = true.
Proof.
  intros Hn Hs. assert (∀ r, retry_or_fallback r = RStart (S r)) as Hrf
    by (intros; unfold retry_or_fallback; by rewrite Hn).
  cut (match rd s with RFallback _ => False | RDone b _ => b = true | _ => True end).
  { intros Hc Hr. by rewrite Hr in Hc. }
  revert s Hs. apply rtc_ind_r; [done|]. intros s1 s2 Hs H12 IH.
  destruct H12; cbn in *; rewrite ?Hrf; done.
Qed.
End invariant.
End seqlock.

(** ** [OrderBookV2]: the writer's stores *)

(** The fields of [HotData], the bid side first ([true]). *)
Inductive cell :=
  | Price (bid : bool) (i : nat)
  | Quantity (bid : bool) (i : nat)
  | Count (bid : bool)
  | LastUpdateTime.

#[export] Instance cell_eq_dec : EqDecision cell.
Proof. solve_decision. Defined.

Definition hot_mem (h : OrderBookV2.HotData.t) : @memory cell := λ c,
  match c with
  | Price true i => OrderBookV2.HotData.bid_prices h !!! i
  | Price false i => OrderBookV2.HotData.ask_prices h !!! i
  | Quantity true i => OrderBookV2.HotData.bid_quantities h !!! i
  | Quantity false i => OrderBookV2.HotData.ask_quantities h !!! i
  | Count true => Z.of_nat (OrderBookV2.HotData.bid_count h)
  | Count false => Z.of_nat (OrderBookV2.HotData.ask_count h)
  | LastUpdateTime => OrderBookV2.HotData.last_update_time h
  end.

(** The stores of [rebuildHotData] between its two increments, in order. *)
Definition side_writes (bid : bool) (l : levels) (n : nat) : list (cell * Z) :=
  (Count bid, Z.of_nat n) ::
  flat_map (λ i, [(Price bid i, PriceLevel.price (l !!! i)); (Quantity bid i, PriceLevel.quantity (l !!! i))])
    (seq 0 n).

Definition rebuild_writes (w : OrderBookV2.ColdData.t) : list (cell * Z) :=
  side_writes true (OrderBookV2.ColdData.bids w)
    (Nat.min OrderBookV2.HOT_DEPTH (OrderBookV2.ColdData.bid_count w)) ++
  side_writes false (OrderBookV2.ColdData.asks w)
    (Nat.min OrderBookV2.HOT_DEPTH (OrderBookV2.ColdData.ask_count w)) ++
  [(LastUpdateTime, OrderBookV2.ColdData.last_update_time w)].

(** The writes of the writer thread for a list of ticks: one per tick that makes
    the hot data dirty. *)
Fixpoint tick_scripts (ts : list Tick.t) (s : OrderBookV2.OrderBookV2) : list (list (cell * Z)) :=
  match ts with
  | [] => []
  | t :: ts' =>
      let s1 := OrderBookV2.updateLevels t s in
      (if OrderBookV2.hot_data_dirty_ s1 then [rebuild_writes (OrderBookV2.getWriteBuffer s1)] else [])
      ++ tick_scripts ts' (OrderBookV2.update t s)
  end.

(** *** Readers' functions, load by load *)

(** [if (data.bid_count > 0 && data.ask_count > 0) return data.ask_prices[0] - data.bid_prices[0]] *)
Definition getSpread_prog `{FpmOps} : prog cell (option Z) :=
  Load (Count true) (λ nb, if 0 <? nb then
    Load (Count false) (λ na, if 0 <? na then
      Load (Price false 0) (λ a, Load (Price true 0) (λ b, Ret (Some (a ⊟ b))))
    else Ret None)
  else Ret None).

(** The loop of [getTop5Bids] and [getTop5Asks], from slot [i] on. *)
Fixpoint getTop5_prog (bid : bool) (k i : nat) (out : levels) : prog cell levels :=
  match k with
  | O => Ret out
  | S k' =>
      Load (Count bid) (λ n, if Z.of_nat i <? n then
        Load (Price bid i) (λ p, Load (Quantity bid i) (λ q,
          getTop5_prog bid k' (S i) (out ++ [PriceLevel.mk p q])))
      else getTop5_prog bid k' (S i) (out ++ [PriceLevel.default]))
  end.

Definition getTop5Bids_prog : prog cell levels := getTop5_prog true OrderBookV2.HOT_DEPTH 0 [].

(** *** The stores add up to [rebuildHotData] *)

Definition same_cells (m m' : @memory cell) : Prop := ∀ c, m c = m' c.

Lemma stores_app (m : @memory cell) ws1 ws2 : stores m (ws1 ++ ws2) = stores (stores m ws1) ws2.
Proof. unfold stores. apply fold_left_app. Qed.

Lemma stores_same m m' ws : same_cells m m' → same_cells (stores m ws) (stores m' ws).
Proof.
  revert m m'. induction ws as [|[c x] ws IH]; intros m m' Hm; [done|].
  apply IH. intros c'. unfold store. by case_decide.
Qed.

Lemma run_same {A} (p : prog cell A) m m' : same_cells m m' → run p m = run p m'.
Proof. intros Hm. induction p as [|c k IH]; cbn; [done|]. by rewrite Hm, IH. Qed.

Lemma stores_side bid l n m c :
  stores m (side_writes bid l n) c =
  match c with
  | Price b i => if Bool.eqb b bid && (i <? n)%nat then PriceLevel.price (l !!! i) else m c
  | Quantity b i => if Bool.eqb b bid && (i <? n)%nat then PriceLevel.quantity (l !!! i) else m c
  | Count b => if Bool.eqb b bid then Z.of_nat n else m c
  | LastUpdateTime => m c
  end.
Proof.
  unfold side_writes. change (stores ?m ((?c, ?x) :: ?ws)) with (stores (store m c x) ws).
  set (m1 := store m (Count bid) (Z.of_nat n)).
  assert (∀ k, stores m1 (flat_map (λ i, [(Price bid i, PriceLevel.price (l !!! i));
      (Quantity bid i, PriceLevel.quantity (l !!! i))]) (seq 0 k)) c =
    match c with
    | Price b i => if Bool.eqb b bid && (i <? k)%nat then PriceLevel.price (l !!! i) else m1 c
    | Quantity b i => if Bool.eqb b bid && (i <? k)%nat then PriceLevel.quantity (l !!! i) else m1 c
    | _ => m1 c
    end) as ->.
  { induction k as [|k IH].
    { cbn. by destruct c; rewrite ?andb_false_r. }
    rewrite seq_S, flat_map_app, stores_app. cbn. unfold store. rewrite IH.
    destruct c as [[] i|[] i|[]|], bid; cbn [Bool.eqb andb]; repeat case_decide; simplify_eq;
      try done.
    all: destruct_ltbs; done || lia || (exfalso; assert (i = k) by lia; congruence). }
  subst m1. unfold store.
  by destruct c as [[] i|[] i|[]|], bid; case_decide; simplify_eq.
Qed.

Lemma copy_levels_lookup k i f src dst j :
  (i + k <= length dst)%nat →
  OrderBookV2.copy_levels k i f src dst !!! j =
    if (i <=? j)%nat && (j <? i + k)%nat then f (src !!! j) else dst !!! j.
Proof.
  revert i dst. induction k as [|k IH]; intros i dst Hl; cbn [OrderBookV2.copy_levels].
  - destruct_ltbs; cbn; done || lia.
  - rewrite IH by (rewrite length_insert; lia).
    destruct (decide (i = j)) as [->|Hne].
    + rewrite list_lookup_total_insert_eq by lia. destruct_ltbs; cbn; done || lia.
    + rewrite list_lookup_total_insert_ne by done. destruct_ltbs; cbn; done || lia.
Qed.

Lemma rebuild_writes_ok s :
  OrderBookV2.v2_inv s → ∀ t,
  let s1 := OrderBookV2.updateLevels t s in
  OrderBookV2.hot_data_dirty_ s1 = true →
  same_cells (stores (hot_mem (OrderBookV2.hot_data_ s)) (rebuild_writes (OrderBookV2.getWriteBuffer s1)))
    (hot_mem (OrderBookV2.hot_data_ (OrderBookV2.update t s))).
Proof.
  intros Hi t s1 Hd c.
  assert (OrderBookV2.hot_data_ (OrderBookV2.update t s)
    = OrderBookV2.hot_data_ (OrderBookV2.rebuildHotData s1)) as -> by done.
  pose proof (OrderBookV2.v2_write_buffer s Hi) as Hwr.
  destruct Hi as [_ Hcold Hwf [(_ & Hp1 & Hp2 & _) (_ & Hp3 & Hp4 & _)] _ _]. rewrite <-Hwr in Hcold.
  destruct (OrderBookV2.updateLevels_ok t s _ Hcold Hwf) as (_ & Hh & _). fold s1 in Hh.
  unfold OrderBookV2.rebuildHotData. rewrite Hd. cbn [negb].
  unfold rebuild_writes. rewrite !stores_app.
  set (m1 := stores _ (side_writes true _ _)). set (m2 := stores m1 _).
  change (stores m2 [(LastUpdateTime, ?x)]) with (store m2 LastUpdateTime x).
  assert (∀ c, m2 c = stores m1 (side_writes false
    (OrderBookV2.ColdData.asks (OrderBookV2.getWriteBuffer s1))
    (Nat.min OrderBookV2.HOT_DEPTH (OrderBookV2.ColdData.ask_count (OrderBookV2.getWriteBuffer s1)))) c)
    as Hm2 by done.
  unfold store. rewrite Hm2, stores_side. subst m1. rewrite stores_side. clear m2 Hm2.
  rewrite <-Hh in *. clear Hh.
  change (OrderBookV2.getWriteBuffer (s1 {{ OrderBookV2.hot_data_dirty_ := false }}))
    with (OrderBookV2.getWriteBuffer s1).
  set (w := OrderBookV2.getWriteBuffer s1) in *. set (h := OrderBookV2.hot_data_ s1) in *.
  assert (∀ k, (0 + Nat.min OrderBookV2.HOT_DEPTH k <= OrderBookV2.HOT_DEPTH)%nat) as Hmin by lia.
  destruct c as [[] i|[] i|[]|]; cbn [Bool.eqb andb hot_mem]; try done.
  all: rewrite decide_False by done.
  all: symmetry; etrans; [apply copy_levels_lookup; etrans; [apply Hmin|by apply Nat.eq_le_incl]|done].
Qed.

(** Every commit of the writer is the hot data after some number of ticks. *)
Lemma commits_ticks ts s m m' :
  OrderBookV2.v2_inv s → same_cells m (hot_mem (OrderBookV2.hot_data_ s)) →
  m' ∈ commits m (tick_scripts ts s) →
  ∃ k, (k <= length ts)%nat ∧ same_cells m' (hot_mem (OrderBookV2.hot_data_
    (fold_left (λ s t, OrderBookV2.update t s) (take k ts) s))).
Proof.
  revert s m. induction ts as [|t ts IH]; intros s m Hi Hm Hin.
  { cbn in Hin. apply list_elem_of_singleton in Hin as ->. by exists 0%nat. }
  cbn [tick_scripts] in Hin. destruct (OrderBookV2.v2_update_ok t s Hi) as [Hi' _].
  assert (∀ m1, same_cells m1 (hot_mem (OrderBookV2.hot_data_ (OrderBookV2.update t s))) →
    m' ∈ commits m1 (tick_scripts ts (OrderBookV2.update t s)) → ∃ k, (k <= length (t :: ts))%nat ∧
    same_cells m' (hot_mem (OrderBookV2.hot_data_
      (fold_left (λ s t, OrderBookV2.update t s) (take k (t :: ts)) s)))) as Hnext.
  { intros m1 Hm1 Hin1. destruct (IH _ _ Hi' Hm1 Hin1) as (k & Hk & Hs).
    exists (S k). split; [cbn; lia|done]. }
  destruct (OrderBookV2.hot_data_dirty_ (OrderBookV2.updateLevels t s)) eqn:Hd; cbn [app commits] in Hin.
  - apply elem_of_cons in Hin as [->|Hin]; [exists 0%nat; split; [lia|done]|].
    eapply Hnext; [|done]. intros c. rewrite <-(rebuild_writes_ok s Hi t Hd c).
    by apply stores_same.
  - eapply Hnext; [|done]. intros c. rewrite Hm.
    destruct (OrderBookV2.updateLevels_ok t s (OrderBookV2.v2_abs s)) as (_ & Hh & _);
      [rewrite OrderBookV2.v2_write_buffer by done; apply Hi|apply Hi|].
    rewrite <-Hh. cbn. unfold OrderBookV2.rebuildHotData. by rewrite Hd.
Qed.

Lemma tick_scripts_length ts s : (length (tick_scripts ts s) <= length ts)%nat.
Proof.
  revert s. induction ts as [|t ts IH]; intros s; cbn [tick_scripts length]; [lia|].
  rewrite length_app. specialize (IH (OrderBookV2.update t s)).
  destruct (OrderBookV2.hot_data_dirty_ _); cbn [length]; lia.
Qed.

(** The initial state of a run: a new book and a writer about to process [ts]. *)
Definition book_run_init {A} (ts : list Tick.t) : @state cell A :=
  init_state (hot_mem OrderBookV2.HotData.init) (tick_scripts ts OrderBookV2.OrderBookV2_init).

Definition book_after (k : nat) (ts : list Tick.t) : OrderBookV2.OrderBookV2 :=
  fold_left (λ s t, OrderBookV2.update t s) (take k ts) OrderBookV2.OrderBookV2_init.

Lemma concurrent_read_atomic {A} (func : prog cell A) ts s b r :
  2 * Z.of_nat (length ts) < 2 ^ 64 →
  rtc (step func None) (book_run_init ts) s → rd s = RDone b r →
  ∃ k s1, (k <= length ts)%nat ∧
    rtc (step func None) (book_run_init ts) s1 ∧ rtc (step func None) s1 s ∧ wr s1 = WIdle ∧
    (∃ n vb, rd s1 = RReading n vb func) ∧ epoch s1 = loaded s ∧
    same_cells (cells s1) (hot_mem (OrderBookV2.hot_data_ (book_after k ts))) ∧
    r = run func (hot_mem (OrderBookV2.hot_data_ (book_after k ts))).
Proof.
  intros Hb Hs Hr. pose proof (tick_scripts_length ts OrderBookV2.OrderBookV2_init) as Hl.
  assert (b = true) as -> by (by eapply unbounded_always_checked).
  assert (2 * Z.of_nat (length (tick_scripts ts OrderBookV2.OrderBookV2_init)) < 2 ^ 64) as Hb' by lia.
  destruct (checked_read_atomic func None (hot_mem OrderBookV2.HotData.init) _ Hb' s r Hs Hr)
    as (s1 & (H1 & H2 & H3 & H4 & H5 & H6) & ->).
  destruct (commits_ticks ts OrderBookV2.OrderBookV2_init _ _ (proj1 OrderBookV2.v2_init_ok)
    (λ c, eq_refl) H4) as (k & Hk & Hsame).
  exists k, s1. split_and!; try done. by apply run_same.
Qed.

(** *** The programs compute the readers' functions *)

Lemma getSpread_prog_ok `{FpmOps} s :
  Z.odd (OrderBookV2.HotData.version (OrderBookV2.hot_data_ s)) = false →
  OrderBookV2.getSpread s = Some (run getSpread_prog (hot_mem (OrderBookV2.hot_data_ s))).
Proof.
  intros Hv. unfold OrderBookV2.getSpread, OrderBookV2.readHotDataOptimistic, getSpread_prog.
  rewrite Hv. f_equal. clear Hv. destruct (OrderBookV2.hot_data_ s) as [? ? ? ? ? ? [] []]; done.
Qed.

Lemma getTop5_prog_run bid k i out m :
  run (getTop5_prog bid k i out) m =
  out ++ ((λ j, if Z.of_nat j <? m (Count bid) then PriceLevel.mk (m (Price bid j)) (m (Quantity bid j))
                else PriceLevel.default) <$> seq i k).
Proof.
  revert i out. induction k as [|k IH]; intros i out; cbn; [by rewrite app_nil_r|].
  destruct (Z.of_nat i <? m (Count bid)); cbn; by rewrite IH, <-app_assoc.
Qed.

Lemma getTop5_prog_ok s :
  Z.odd (OrderBookV2.HotData.version (OrderBookV2.hot_data_ s)) = false →
  OrderBookV2.getTop5Bids s =
    Some (run getTop5Bids_prog (hot_mem (OrderBookV2.hot_data_ s))).
Proof.
  intros Hv. unfold OrderBookV2.getTop5Bids, OrderBookV2.readHotDataOptimistic.
  unfold getTop5Bids_prog. rewrite Hv, getTop5_prog_run. cbn [app]. f_equal. apply list_fmap_ext. intros _ j _.
  cbn [hot_mem]. by destruct_ltbs; try lia.
Qed.

(** ** Properties *)

(** C5: a [getTop5Bids] racing with the writer is atomic, whatever the interleaving
    of its loads with the writer's stores: its five levels are the best five of the
    abstract book after some number [k] of the writer's ticks, and that book was the
    published one, with no write in progress, at the moment [s1] at which the attempt that
    succeeded loaded the version (the last load of it: [epoch s1 = loaded s]), so between
    the two version loads of that attempt. Torn and outdated reads never
    escape [readHotDataOptimistic] of [OrderBookV2]. *)
Theorem concurrent_top5_atomic (ts : list Tick.t) s b r :
  2 * Z.of_nat (length ts) < 2 ^ 64 →
  rtc (step getTop5Bids_prog None) (book_run_init ts) s → rd s = RDone b r →
  ∃ k s1, (k <= length ts)%nat ∧
    rtc (step getTop5Bids_prog None) (book_run_init ts) s1 ∧ rtc (step getTop5Bids_prog None) s1 s ∧ wr s1 = WIdle ∧
    (∃ n vb, rd s1 = RReading n vb getTop5Bids_prog) ∧ epoch s1 = loaded s ∧
    same_cells (cells s1) (hot_mem (OrderBookV2.hot_data_ (book_after k ts))) ∧
    r = OrderBookV2.top5 (book_bids (book_run (take k ts) book_init)).
Proof.
  intros Hb Hs Hr.
  destruct (concurrent_read_atomic getTop5Bids_prog ts s b r Hb Hs Hr) as (k & s1 & Hk & H1 & H2 & Hw & Hrd & Hep & Hsame & ->).
  exists k, s1. split_and!; try done.
  destruct (ob_run_ok (B := OrderBookV2.OrderBookV2) (take k ts)) as [Hi Ha].
  change (ob_run (take k ts)) with (book_after k ts) in *. change (ob_abs ?s) with (OrderBookV2.v2_abs s) in *.
  pose proof (OrderBookV2.rb_top_bids _ _ (OrderBookV2.inv_reads_book _ Hi)) as Ht.
  rewrite getTop5_prog_ok in Ht by apply Hi. rewrite <-Ha. by injection Ht.
Qed.

Definition two_sided : list Tick.t :=
  [Tick.mk 1 1 1 1 100 5 TickSide.BID 0; Tick.mk 2 2 1 1 101 7 TickSide.ASK 0].

(** The read starts between the two ticks, is overtaken by the second and retries. *)
Lemma top5_run :
  (rd <$> exec getTop5Bids_prog None
    (replicate 7 Writer ++ replicate 4 Reader ++ replicate 9 Writer ++ replicate 14 Reader)
    (book_run_init two_sided)) =
  Some (RDone true [PriceLevel.mk 100 5; PriceLevel.default; PriceLevel.default;
                    PriceLevel.default; PriceLevel.default]).
Proof. vm_compute. reflexivity. Qed.

Lemma concurrent_top5_atomic_witness :
  ∃ s k, rtc (step getTop5Bids_prog None) (book_run_init two_sided) s ∧ (k <= 2)%nat ∧
    rd s = RDone true (OrderBookV2.top5 (book_bids (book_run (take k two_sided) book_init))).
Proof.
  destruct (exec_result _ _ _ _ _ top5_run) as (s & Hs & Hr).
  destruct (concurrent_top5_atomic two_sided s _ _ eq_refl Hs Hr) as (k & s1 & Hk & _ & _ & _ & _ & _ & _ & Heq).
  exists s, k. rewrite <-Heq. split_and!; [exact Hs|exact Hk|exact Hr].
Defined.

(** ** [OrderBook]: a bounded number of attempts *)

Definition MAX_RETRIES : nat := 100.

Definition v1_mem (h : OrderBook.HotData.t) : @memory cell := λ c,
  match c with
  | Price true _ => OrderBook.HotData.best_bid_price h
  | Price false _ => OrderBook.HotData.best_ask_price h
  | Quantity true _ => OrderBook.HotData.best_bid_quantity h
  | Quantity false _ => OrderBook.HotData.best_ask_quantity h
  | Count true => Z.b2z (OrderBook.HotData.has_bids h)
  | Count false => Z.b2z (OrderBook.HotData.has_asks h)
  | LastUpdateTime => OrderBook.HotData.last_update_time h
  end.

(** The stores of [updateHotData]; [Count] stands for [has_bids] and [has_asks]. *)
Definition best_writes (bid : bool) (l : levels) : list (cell * Z) :=
  match l with
  | best :: _ => [(Price bid 0, PriceLevel.price best); (Quantity bid 0, PriceLevel.quantity best);
                  (Count bid, 1)]
  | [] => [(Count bid, 0)]
  end.

Definition v1_writes (receive_timestamp_us : Z) (s : OrderBook.OrderBook) : list (cell * Z) :=
  best_writes true (OrderBook.bids_ s) ++ best_writes false (OrderBook.asks_ s) ++
  [(LastUpdateTime, receive_timestamp_us)].

Lemma v1_writes_ok t s c :
  (∀ b i, c = Price b i ∨ c = Quantity b i → i = 0%nat) →
  stores (v1_mem (OrderBook.hot_data_ s)) (v1_writes t s) c =
  v1_mem (OrderBook.hot_data_ (OrderBook.updateHotData t s)) c.
Proof.
  intros Hc. unfold v1_writes, best_writes, OrderBook.updateHotData.
  destruct s as [h [|b bs] [|a as_] st]; destruct c as [[] i|[] i|[]|]; try done;
    assert (i = 0%nat) as -> by (eapply Hc; auto); done.
Qed.

(** The writer updates the maps, then the hot data, tick by tick. *)
Fixpoint v1_scripts (ts : list Tick.t) (s : OrderBook.OrderBook) : list (list (cell * Z)) :=
  match ts with
  | [] => []
  | t :: ts' =>
      let s1 := match Tick.side t with
                | TickSide.BID => OrderBook.updateBidLevel (Tick.price t) (Tick.quantity t) s
                | _ => OrderBook.updateAskLevel (Tick.price t) (Tick.quantity t) s
                end in
      v1_writes (Tick.receive_timestamp_us t) s1 :: v1_scripts ts' (OrderBook.update t s)
  end.

Definition getBestBidAsk_prog : prog cell (option Z * option Z) :=
  let ask bid :=
    Load (Count false) (λ ha, if ha =? 0 then Ret (bid, None)
      else Load (Price false 0) (λ a, Ret (bid, Some a))) in
  Load (Count true) (λ hb, if hb =? 0 then ask None
    else Load (Price true 0) (λ b, ask (Some b))).

Lemma getBestBidAsk_prog_ok s :
  (OrderBook.getBestBidAsk s).1 = run getBestBidAsk_prog (v1_mem (OrderBook.hot_data_ s)).
Proof.
  unfold OrderBook.getBestBidAsk, OrderBook.readHotDataOptimistic, getBestBidAsk_prog.
  destruct (Z.odd _); destruct (OrderBook.hot_data_ s) as [? ? ? ? ? ? [] []]; done.
Qed.

Definition v1_run_init (ts : list Tick.t) : @state cell (option Z * option Z) :=
  init_state (v1_mem OrderBook.HotData.init) (v1_scripts ts OrderBook.OrderBook_init).

Definition v1_after (k : nat) (ts : list Tick.t) : OrderBook.OrderBook :=
  fold_left (λ s t, OrderBook.update t s) (take k ts) OrderBook.OrderBook_init.

(** Best bid 100 and best ask 101; the bid falls to 98, then the ask to 99. *)
Definition falling_ticks : list Tick.t :=
  [Tick.mk 1 1 1 1 98 5 TickSide.BID 0; Tick.mk 2 2 1 1 100 5 TickSide.BID 0;
   Tick.mk 3 3 1 1 101 5 TickSide.ASK 0; Tick.mk 4 4 1 1 100 0 TickSide.BID 0;
   Tick.mk 5 5 1 1 99 5 TickSide.ASK 0].

(** The reader spends its attempts while the fourth tick is being written, loads the
    old bid unchecked, and the new ask after the fifth tick. *)
Definition tearing_schedule : list actor :=
  replicate 22 Writer ++ replicate 102 Reader ++ replicate 17 Writer ++ replicate 3 Reader.

Lemma tearing_run :
  (rd <$> exec getBestBidAsk_prog (Some MAX_RETRIES) tearing_schedule (v1_run_init falling_ticks))
  = Some (RDone false (Some 100, Some 99)).
Proof. vm_compute. reflexivity. Qed.

(** The bounded retry of [OrderBook::readHotDataOptimistic] does not keep torn
    reads out: there is an interleaving in which [getBestBidAsk] uses up its hundred
    attempts and returns best bid 100 with best ask 99, a crossed book, although no
    prefix of the ticks the writer processed ever had these best prices. *)
Lemma fallback_can_tear :
  ∃ s, rtc (step getBestBidAsk_prog (Some MAX_RETRIES)) (v1_run_init falling_ticks) s ∧
    rd s = RDone false (Some 100, Some 99) ∧
    ∀ k, (OrderBook.getBestBidAsk (v1_after k falling_ticks)).1 ≠ (Some 100, Some 99).
Proof.
  destruct (exec_result _ _ _ _ _ tearing_run) as (s & Hs & Hr).
  exists s. split_and!; [done..|]. intros k.
  do 5 (destruct k as [|k]; [vm_compute; congruence|]).
  unfold v1_after. rewrite take_ge by (cbn; lia). vm_compute. congruence.
Qed.
