(* ===== verification/MpmcQueue.v ===== *)
(** [MPMCQueue] (include/chronos/utils/mpmc_queue.hpp): the bounded queue between
    strategies, risk and gateway.

    First the operations run alone, against a bounded FIFO ([QueueContract], the
    interface the other components use); then the interleaving of any number of
    producers and consumers, one atomic access per step, with the invariant that
    gives exclusive access to a slot and makes the value popped at a ticket the
    value pushed at that ticket. [N = 2 ^ k]. *)
From stdpp Require Import functions.
From S2P Require Import Prelude.

(** ** The interface *)

(** A bounded FIFO with non-blocking operations: [push] and [pop] report failure
    exactly when the queue is full or empty. *)
Class QueueContract (Q A : Type) := {
  q_capacity : nat;
  q_rep : Q → list A → Prop;
  q_bounded : Q → nat → Prop;    (* fewer than [n] operations overflow no counter *)
  q_push : A → Q → option (bool * Q);
  q_pop : Q → option (option A * Q);
  q_bounded_S q n : q_bounded q (S n) → q_bounded q n;
  q_push_ok q l n v : q_rep q l → q_bounded q (S n) →
    ∃ q', q_bounded q' n ∧
      if (length l <? q_capacity)%nat then q_push v q = Some (true, q') ∧ q_rep q' (l ++ [v])
      else q_push v q = Some (false, q') ∧ q' = q;
  q_pop_ok q l n : q_rep q l → q_bounded q n →
    ∃ q', q_bounded q' n ∧
      match l with
      | [] => q_pop q = Some (None, q') ∧ q' = q
      | v :: l' => q_pop q = Some (Some v, q') ∧ q_rep q' l'
      end;
}.

(** ** Slots and tickets *)

Section mpmc.
Context {A : Type} `{Inhabited A} (k : Z).

Definition N : Z := 2 ^ k.

(** [pos & (N - 1)] *)
Definition slot_index (pos : Z) : nat := Z.to_nat (Z.land pos (N - 1)).

(** [static_cast<int64_t>(a) - static_cast<int64_t>(b)] *)
Definition diff (a b : Z) : Z := s64 (s64 a - s64 b).

Record MPMCQueue := mkQueue {
  data_ : list A;
  seq_ : list Z;
  head_ : Z;
  tail_ : Z;
}.

(** The slots' data is uninitialised memory, [seq] of slot [i] is [i]. *)
Definition MPMCQueue_init : MPMCQueue :=
  mkQueue (replicate (Z.to_nat N) inhabitant) (Z.of_nat <$> seq 0 (Z.to_nat N)) 0 0.

(** ** One operation alone

    With nobody else around the compare-and-swap succeeds; a slot ahead of the
    ticket ([diff > 0]) would make the loop reload an unchanged counter for ever:
    [None]. *)
Definition try_push (val : A) (q : MPMCQueue) : option (bool * MPMCQueue) :=
  let pos := head_ q in
  let d := diff (seq_ q !!! slot_index pos) pos in
  if d =? 0 then
    Some (true, q {{ head_ := u64 (pos + 1); data_ ::= <[slot_index pos := val]>;
                     seq_ ::= <[slot_index pos := u64 (pos + 1)]> }})
  else if d <? 0 then Some (false, q)
  else None.

Definition try_pop (q : MPMCQueue) : option (option A * MPMCQueue) :=
  let pos := tail_ q in
  let d := diff (seq_ q !!! slot_index pos) (u64 (pos + 1)) in
  if d =? 0 then
    Some (Some (data_ q !!! slot_index pos),
          q {{ tail_ := u64 (pos + 1); seq_ ::= <[slot_index pos := u64 (pos + N)]> }})
  else if d <? 0 then Some (None, q)
  else None.

Definition size (q : MPMCQueue) : Z := u64 (head_ q - tail_ q).
Definition empty (q : MPMCQueue) : bool := size q =? 0.

Context (Hk : 1 <= k < 62).

Lemma N_ge_2 : 2 <= N.
Proof. unfold N. apply (Z.pow_le_mono_r 2 1 k); lia. Qed.

Lemma N_small : 2 * N <= 2 ^ 62.
Proof. unfold N. rewrite <-Z.pow_succ_r by lia. apply (Z.pow_le_mono_r 2 (Z.succ k) 62); lia. Qed.

Lemma slot_index_mod pos : slot_index pos = Z.to_nat (pos mod N).
Proof.
  unfold slot_index, N. rewrite <-Z.land_ones by lia. f_equal. f_equal.
  by rewrite Z.ones_equiv.
Qed.

Lemma slot_index_lt pos : (slot_index pos < Z.to_nat N)%nat.
Proof.
  rewrite slot_index_mod. pose proof N_ge_2.
  pose proof (Z.mod_pos_bound pos N ltac:(lia)). lia.
Qed.

Lemma slot_index_eq a b : slot_index a = slot_index b ↔ a mod N = b mod N.
Proof.
  rewrite !slot_index_mod. pose proof N_ge_2.
  pose proof (Z.mod_pos_bound a N ltac:(lia)). pose proof (Z.mod_pos_bound b N ltac:(lia)).
  split; [lia|congruence].
Qed.

Lemma slot_index_add_N a : slot_index (a + N) = slot_index a.
Proof.
  apply slot_index_eq. rewrite <-(Z.mul_1_l N) at 1. apply Z_mod_plus_full.
Qed.

(** Two tickets of one slot are a multiple of [N] apart. *)
Lemma slot_index_close a b :
  slot_index a = slot_index b → Z.abs (a - b) < N → a = b.
Proof.
  intros He%slot_index_eq Hab. pose proof N_ge_2.
  pose proof (Z.div_mod a N ltac:(lia)). pose proof (Z.div_mod b N ltac:(lia)).
  assert (a / N = b / N); [|nia].
  nia.
Qed.

Lemma slot_index_succ a b : slot_index a = slot_index b → a ≠ b + 1.
Proof.
  intros He ->. pose proof N_ge_2. pose proof (slot_index_close _ _ He ltac:(lia)). lia.
Qed.

Lemma diff_exact a b : 0 <= a < 2 ^ 63 → 0 <= b < 2 ^ 63 → diff a b = a - b.
Proof. intros Ha Hb. unfold diff. rewrite (s64_id a), (s64_id b), s64_id; unfold inS; lia. Qed.

(** *** The FIFO a quiescent queue holds *)

Record rep (q : MPMCQueue) (l : list A) : Prop := {
  rep_data_len : length (data_ q) = Z.to_nat N;
  rep_seq_len : length (seq_ q) = Z.to_nat N;
  rep_tail : 0 <= tail_ q;
  rep_head : head_ q = tail_ q + Z.of_nat (length l);
  rep_len : Z.of_nat (length l) <= N;
  rep_full i v : l !! i = Some v →
    data_ q !!! slot_index (tail_ q + Z.of_nat i) = v ∧
    seq_ q !!! slot_index (tail_ q + Z.of_nat i) = tail_ q + Z.of_nat i + 1;
  rep_free t : head_ q <= t < tail_ q + N → seq_ q !!! slot_index t = t;
}.

Definition bounded (q : MPMCQueue) (n : nat) : Prop := head_ q + Z.of_nat n + N < 2 ^ 63.

Lemma init_rep : rep MPMCQueue_init [].
Proof.
  pose proof N_ge_2. split; cbn; try done; try lia.
  - by rewrite length_replicate.
  - by rewrite length_fmap, length_seq.
  - intros t Ht. rewrite slot_index_mod, Z.mod_small by lia.
    apply list_lookup_total_correct. rewrite list_lookup_fmap, lookup_seq_lt by lia. cbn. f_equal. lia.
Qed.

Lemma insert_slot_eq {B} `{Inhabited B} (l : list B) t x :
  length l = Z.to_nat N → <[slot_index t := x]> l !!! slot_index t = x.
Proof. intros Hl. apply list_lookup_total_insert_eq. rewrite Hl. apply slot_index_lt. Qed.

Lemma insert_slot_ne {B} `{Inhabited B} (l : list B) t t' x :
  t ≠ t' → Z.abs (t - t') < N → <[slot_index t := x]> l !!! slot_index t' = l !!! slot_index t'.
Proof.
  intros Hne Hab. apply list_lookup_total_insert_ne. intros He. by apply Hne, slot_index_close.
Qed.

Lemma try_push_ok q l n v :
  rep q l → bounded q (S n) →
  ∃ q', bounded q' n ∧
    if (length l <? Z.to_nat N)%nat then try_push v q = Some (true, q') ∧ rep q' (l ++ [v])
    else try_push v q = Some (false, q') ∧ q' = q.
Proof.
  destruct q as [qd qs qh qt]. intros [Hd Hs Ht Hh Hl Hfull Hfree] Hb. pose proof N_ge_2.
  unfold bounded, try_push in *. cbn [data_ seq_ head_ tail_] in *.
  destruct (Nat.ltb_spec (length l) (Z.to_nat N)).
  - rewrite (Hfree (qh)), diff_exact, Z.sub_diag by lia. cbn [Z.eqb].
    rewrite (u64_id (qh + 1)) by lia.
    exists (mkQueue (<[slot_index qh := v]> qd) (<[slot_index qh := qh + 1]> qs) (qh + 1) qt).
    split; [cbn [head_]; lia|]. split; [reflexivity|].
    split; cbn [data_ seq_ head_ tail_]; rewrite ?length_insert, ?length_app; cbn [length]; try done; try lia.
    + intros i w Hi.
      destruct (decide (i < length l)%nat) as [Hil|Hil].
      * rewrite lookup_app_l in Hi by done. rewrite !insert_slot_ne by lia. by apply Hfull.
      * assert (i = length l) as ->
          by (apply lookup_lt_Some in Hi; rewrite length_app in Hi; cbn in Hi; lia).
        rewrite lookup_app_r, Nat.sub_diag in Hi by lia. injection Hi as ->.
        rewrite <-Hh, !insert_slot_eq by done. done.
    + intros t Htt. rewrite insert_slot_ne by lia. apply Hfree. lia.
  - eexists. split; [|split; [|done]]; [cbn [head_]; lia|].
    destruct (lookup_lt_is_Some_2 l 0 ltac:(lia)) as [w Hw].
    destruct (Hfull 0%nat w Hw) as [_ Hseq]. rewrite Z.add_0_r in Hseq.
    replace (qh) with (qt + N) by lia.
    rewrite slot_index_add_N, Hseq, diff_exact by lia.
    destruct (Z.eqb_spec (qt + 1 - (qt + N)) 0); [lia|].
    by destruct (Z.ltb_spec (qt + 1 - (qt + N)) 0); [|lia].
Qed.

Lemma try_pop_ok q l n :
  rep q l → bounded q n →
  ∃ q', bounded q' n ∧
    match l with
    | [] => try_pop q = Some (None, q') ∧ q' = q
    | v :: l' => try_pop q = Some (Some v, q') ∧ rep q' l'
    end.
Proof.
  destruct q as [qd qs qh qt]. intros [Hd Hs Ht Hh Hl Hfull Hfree] Hb. pose proof N_ge_2.
  unfold bounded, try_pop in *. cbn [data_ seq_ head_ tail_] in *.
  destruct l as [|v l]; cbn [length] in *.
  - eexists. split; [|split; [|done]]; [cbn [head_]; lia|].
    rewrite (Hfree (qt)), u64_id, diff_exact by lia.
    destruct (Z.eqb_spec (qt - (qt + 1)) 0); [lia|].
    by destruct (Z.ltb_spec (qt - (qt + 1)) 0); [|lia].
  - destruct (Hfull 0%nat v eq_refl) as [Hdv Hseq]. rewrite Z.add_0_r in Hdv, Hseq.
    rewrite Hseq, Hdv, !u64_id, diff_exact, Z.sub_diag by lia. cbn [Z.eqb].
    exists (mkQueue qd (<[slot_index qt := qt + N]> qs) qh (qt + 1)).
    split; [cbn [head_]; lia|]. split; [reflexivity|].
    split; cbn [data_ seq_ head_ tail_]; rewrite ?length_insert; try done; try lia.
    + intros i w Hi. pose proof (lookup_lt_Some _ _ _ Hi).
      replace (qt + 1 + Z.of_nat i) with (qt + Z.of_nat (S i)) by lia.
      rewrite insert_slot_ne by lia. by apply Hfull.
    + intros t Htt. destruct (decide (t = qt + N)) as [->|].
      * rewrite slot_index_add_N, insert_slot_eq by done. done.
      * rewrite insert_slot_ne by lia. apply Hfree. lia.
Qed.

Lemma size_ok q l n : rep q l → bounded q n → size q = Z.of_nat (length l).
Proof.
  intros [_ _ Ht Hh Hl _ _] Hb. unfold bounded in Hb. pose proof N_ge_2.
  unfold size. rewrite u64_id; lia.
Qed.
End mpmc.

Lemma try_pop_head {A} `{Inhabited A} k (q q' : @MPMCQueue A) r :
  try_pop k q = Some (r, q') → head_ q' = head_ q.
Proof.
  unfold try_pop. destruct (_ =? 0); [by intros [= <- <-]|]. destruct (_ <? 0); [by intros [= <- <-]|done].
Qed.

Lemma try_push_tail {A} `{Inhabited A} k (q q' : @MPMCQueue A) v b :
  try_push k v q = Some (b, q') → tail_ q' = tail_ q.
Proof.
  unfold try_push. destruct (_ =? 0); [by intros [= <- <-]|]. destruct (_ <? 0); [by intros [= <- <-]|done].
Qed.

(** ** The history of a queue *)

Section history.
Context {A : Type} `{Inhabited A} (k : Z) (Hk : 1 <= k < 62).

(** A queue that has taken [pushed] and handed out [done]. *)
Definition queue_state (q : @MPMCQueue A) (pushed done : list A) : Prop :=
  ∃ queued, pushed = done ++ queued ∧ rep k q queued ∧ tail_ q = Z.of_nat (length done).

Lemma queue_state_init : queue_state (MPMCQueue_init k) [] [].
Proof. exists []. split_and!; [done|by apply init_rep|done]. Qed.

Lemma queue_state_bounded (q : @MPMCQueue A) done queued :
  rep k q queued → tail_ q = Z.of_nat (length done) → Z.of_nat (length (done ++ queued)) < 2 ^ 62 → bounded k q 1.
Proof.
  intros Hq Ht Hn. rewrite length_app in Hn. pose proof (rep_head _ _ _ Hq).
  assert (N k <= 2 ^ 61) by (apply Z.pow_le_mono_r; lia). unfold bounded. lia.
Qed.

Lemma queue_state_push q pushed done v :
  queue_state q pushed done → Z.of_nat (length pushed) < 2 ^ 62 →
  ∃ ok q', try_push k v q = Some (ok, q') ∧
    queue_state q' (pushed ++ if ok : bool then [v] else []) done.
Proof.
  intros (queued & -> & Hq & Ht) Hn.
  destruct (try_push_ok k Hk _ _ 0 v Hq) as (q' & _ & Hpush); [by eapply queue_state_bounded|].
  destruct (_ <? _)%nat; destruct Hpush as [Hpush Hq']; rewrite Hpush; eexists _, _; (split; [done|]).
  - exists (queued ++ [v]). by rewrite <-app_assoc, (try_push_tail _ _ _ _ _ Hpush).
  - subst q'. exists queued. by rewrite app_nil_r.
Qed.

(** A queue that refuses is full. *)
Lemma queue_state_room q q' pushed done v :
  queue_state q pushed done → Z.of_nat (length pushed) < 2 ^ 62 → try_push k v q = Some (false, q') →
  N k <= Z.of_nat (length pushed - length done).
Proof.
  intros (queued & -> & Hq & Ht) Hn Hp. rewrite length_app.
  destruct (try_push_ok k Hk _ _ 0 v Hq) as (q1 & _ & Hpush); [by eapply queue_state_bounded|].
  destruct (Nat.ltb_spec (length queued) (Z.to_nat (N k))) as [Hl|Hl]; destruct Hpush as [Hpush _]; [congruence|lia].
Qed.

Lemma queue_state_pop q pushed done :
  queue_state q pushed done → Z.of_nat (length pushed) < 2 ^ 62 →
  ∃ r q', try_pop k q = Some (r, q') ∧ queue_state q' pushed (done ++ option_list r).
Proof.
  intros (queued & -> & Hq & Ht) Hn.
  destruct (try_pop_ok k Hk _ _ 1 Hq) as (q' & _ & Hpop); [by eapply queue_state_bounded|].
  destruct queued as [|v queued]; destruct Hpop as [Hpop Hq']; rewrite Hpop; eexists _, _; (split; [done|]).
  - subst q'. exists []. by rewrite !app_nil_r.
  - pose proof (rep_head _ _ _ Hq). pose proof (try_pop_head _ _ _ _ Hpop). pose proof (rep_head _ _ _ Hq'). cbn [length] in *.
    exists queued. rewrite <-app_assoc, length_app. split_and!; [done..|cbn; lia].
Qed.

(** What exactly a push and a pop do to what is queued. *)
Lemma queue_state_offer q done queued v :
  queue_state q (done ++ queued) done → Z.of_nat (length (done ++ queued)) < 2 ^ 62 →
  ∃ q', try_push k v q = Some (bool_decide (length queued < Z.to_nat (N k))%nat, q') ∧
    queue_state q' (done ++ queued ++ if decide (length queued < Z.to_nat (N k))%nat then [v] else []) done.
Proof.
  intros (queued' & E & Hq & Ht) Hn. apply (inj (app done)) in E as <-.
  destruct (try_push_ok k Hk _ _ 0 v Hq) as (q' & _ & Hpush); [by eapply queue_state_bounded|].
  destruct (Nat.ltb_spec (length queued) (Z.to_nat (N k))) as [Hl|Hl]; destruct Hpush as [Hpush Hq']; exists q'; rewrite Hpush.
  - rewrite bool_decide_true, decide_True by done. split; [done|]. exists (queued ++ [v]).
    by rewrite (try_push_tail _ _ _ _ _ Hpush).
  - rewrite bool_decide_false, decide_False by lia. split; [done|]. exists queued. subst q'. by rewrite app_nil_r.
Qed.

Lemma queue_state_next q done queued :
  queue_state q (done ++ queued) done → Z.of_nat (length (done ++ queued)) < 2 ^ 62 →
  ∃ q', try_pop k q = Some (head queued, q') ∧
    queue_state q' ((done ++ option_list (head queued)) ++ tail queued) (done ++ option_list (head queued)).
Proof.
  intros Hs Hn. pose proof Hs as (queued' & E & Hq & Ht). apply (inj (app done)) in E as <-.
  destruct (try_pop_ok k Hk _ _ 1 Hq) as (q' & _ & Hpop); [by eapply queue_state_bounded|].
  destruct (queue_state_pop q _ done Hs Hn) as (r & q1 & Hpop' & Hs').
  destruct queued as [|v queued]; destruct Hpop as [Hpop _]; rewrite Hpop in Hpop'; injection Hpop' as <- <-; exists q';
    (split; [done|]); cbn [head tail option_list] in *.
  - by rewrite !app_nil_r in *.
  - by rewrite <-app_assoc.
Qed.

Lemma queue_state_done q pushed done :
  queue_state q pushed done → (length done <= length pushed)%nat.
Proof. intros (queued & -> & _). rewrite length_app. lia. Qed.
End history.

#[global, refine] Instance MPMCQueue_contract {A} `{Inhabited A} k (Hk : 1 <= k < 62) :
  QueueContract (@MPMCQueue A) A := {
  q_capacity := Z.to_nat (N k);
  q_rep := rep k;
  q_bounded := bounded k;
  q_push := try_push k;
  q_pop := try_pop k;
}.
Proof.
  - unfold bounded. intros. lia.
  - intros. by apply try_push_ok.
  - intros. by apply try_pop_ok.
Defined.

(** ** Any number of threads

    A step of a thread is one atomic access: a load of a counter or of a slot's
    sequence number, the compare-and-swap, the copy of the data, the store that
    publishes the slot. [log] and [popped] are ghost state: the values in ticket
    order, and the tickets with the values popped. *)
Section concurrent.
Context {A : Type} `{Inhabited A} (k : Z) (Hk : 1 <= k < 62).

Notation N := (N k).
Notation slot_index := (slot_index k).

Inductive pc :=
  | Idle
  (* try_push(val) *)
  | PushStart (val : A)              (* about to load head_ *)
  | PushAt (val : A) (pos : Z)       (* about to load the slot's seq *)
  | PushCas (val : A) (pos : Z)      (* diff == 0 *)
  | PushWrite (val : A) (pos : Z)    (* owns the ticket *)
  | PushPublish (val : A) (pos : Z)
  (* try_pop(val) *)
  | PopStart
  | PopAt (pos : Z)
  | PopCas (pos : Z)
  | PopRead (pos : Z)
  | PopPublish (pos : Z) (val : A).

Record state := State {
  data : list A;
  seqs : list Z;
  head : Z;
  tail : Z;
  pcs : nat → pc;
  log : list A;
  popped : list (Z * A);
}.

Inductive step (i : nat) : state → state → Prop :=
  | push_call v d s h t ps lg po :
      ps i = Idle →
      step i (State d s h t ps lg po) (State d s h t (<[i := PushStart v]> ps) lg po)
  | push_load v d s h t ps lg po :
      ps i = PushStart v →
      step i (State d s h t ps lg po) (State d s h t (<[i := PushAt v h]> ps) lg po)
  | push_seq_ready v pos d s h t ps lg po :
      ps i = PushAt v pos → diff (s !!! slot_index pos) pos = 0 →
      step i (State d s h t ps lg po) (State d s h t (<[i := PushCas v pos]> ps) lg po)
  | push_seq_full v pos d s h t ps lg po :
      ps i = PushAt v pos → diff (s !!! slot_index pos) pos < 0 →
      step i (State d s h t ps lg po) (State d s h t (<[i := Idle]> ps) lg po)
  | push_seq_reload v pos d s h t ps lg po :
      ps i = PushAt v pos → 0 < diff (s !!! slot_index pos) pos →
      step i (State d s h t ps lg po) (State d s h t (<[i := PushStart v]> ps) lg po)
  | push_cas_ok v pos d s h t ps lg po :
      ps i = PushCas v pos → h = pos →
      step i (State d s h t ps lg po)
             (State d s (u64 (pos + 1)) t (<[i := PushWrite v pos]> ps) (lg ++ [v]) po)
  (* the weak compare-and-swap may fail spuriously *)
  | push_cas_fail v pos d s h t ps lg po :
      ps i = PushCas v pos →
      step i (State d s h t ps lg po) (State d s h t (<[i := PushAt v h]> ps) lg po)
  | push_write v pos d s h t ps lg po :
      ps i = PushWrite v pos →
      step i (State d s h t ps lg po)
             (State (<[slot_index pos := v]> d) s h t (<[i := PushPublish v pos]> ps) lg po)
  | push_publish v pos d s h t ps lg po :
      ps i = PushPublish v pos →
      step i (State d s h t ps lg po)
             (State d (<[slot_index pos := u64 (pos + 1)]> s) h t (<[i := Idle]> ps) lg po)
  | pop_call d s h t ps lg po :
      ps i = Idle →
      step i (State d s h t ps lg po) (State d s h t (<[i := PopStart]> ps) lg po)
  | pop_load d s h t ps lg po :
      ps i = PopStart →
      step i (State d s h t ps lg po) (State d s h t (<[i := PopAt t]> ps) lg po)
  | pop_seq_ready pos d s h t ps lg po :
      ps i = PopAt pos → diff (s !!! slot_index pos) (u64 (pos + 1)) = 0 →
      step i (State d s h t ps lg po) (State d s h t (<[i := PopCas pos]> ps) lg po)
  | pop_seq_empty pos d s h t ps lg po :
      ps i = PopAt pos → diff (s !!! slot_index pos) (u64 (pos + 1)) < 0 →
      step i (State d s h t ps lg po) (State d s h t (<[i := Idle]> ps) lg po)
  | pop_seq_reload pos d s h t ps lg po :
      ps i = PopAt pos → 0 < diff (s !!! slot_index pos) (u64 (pos + 1)) →
      step i (State d s h t ps lg po) (State d s h t (<[i := PopStart]> ps) lg po)
  | pop_cas_ok pos d s h t ps lg po :
      ps i = PopCas pos → t = pos →
      step i (State d s h t ps lg po)
             (State d s h (u64 (pos + 1)) (<[i := PopRead pos]> ps) lg po)
  | pop_cas_fail pos d s h t ps lg po :
      ps i = PopCas pos →
      step i (State d s h t ps lg po) (State d s h t (<[i := PopAt t]> ps) lg po)
  | pop_read pos d s h t ps lg po :
      ps i = PopRead pos →
      step i (State d s h t ps lg po)
             (State d s h t (<[i := PopPublish pos (d !!! slot_index pos)]> ps) lg po)
  | pop_publish pos v d s h t ps lg po :
      ps i = PopPublish pos v →
      step i (State d s h t ps lg po)
             (State d (<[slot_index pos := u64 (pos + N)]> s) h t (<[i := Idle]> ps) lg
                (po ++ [(pos, v)])).

Definition any_step (s s' : state) : Prop := ∃ i, step i s s'.

Definition init_state : state :=
  State (replicate (Z.to_nat N) inhabitant) (Z.of_nat <$> seq 0 (Z.to_nat N)) 0 0 (λ _, Idle) [] [].

(** *** The invariant *)

Definition push_ticket (p : pc) : option Z :=
  match p with PushWrite _ pos | PushPublish _ pos => Some pos | _ => None end.

Definition pop_ticket (p : pc) : option Z :=
  match p with PopRead pos | PopPublish pos _ => Some pos | _ => None end.

Definition logged (lg : list A) (t : Z) (v : A) : Prop := lg !! Z.to_nat t = Some v.

(** What each thread may rely on: a ticket it is about to claim is still the
    counter's value only if the slot has not moved on; a ticket it owns comes with
    the slot. *)
Definition thread_ok (s : state) (p : pc) : Prop :=
  match p with
  | Idle | PushStart _ | PopStart => True
  | PushAt _ pos => 0 <= pos <= head s
  | PushCas _ pos => 0 <= pos <= head s ∧ (head s = pos → seqs s !!! slot_index pos = pos)
  | PushWrite v pos => 0 <= pos < head s ∧ seqs s !!! slot_index pos = pos ∧ logged (log s) pos v
  | PushPublish v pos => 0 <= pos < head s ∧ seqs s !!! slot_index pos = pos ∧
      logged (log s) pos v ∧ data s !!! slot_index pos = v
  | PopAt pos => 0 <= pos <= tail s
  | PopCas pos => 0 <= pos <= tail s ∧ (tail s = pos → seqs s !!! slot_index pos = pos + 1)
  | PopRead pos => 0 <= pos < tail s ∧ seqs s !!! slot_index pos = pos + 1
  | PopPublish pos v => 0 <= pos < tail s ∧ seqs s !!! slot_index pos = pos + 1 ∧ logged (log s) pos v
  end.

Record inv (s : state) : Prop := {
  inv_lens : length (data s) = Z.to_nat N ∧ length (seqs s) = Z.to_nat N;
  inv_counters : 0 <= tail s <= head s ∧ head s = Z.of_nat (length (log s));
  inv_seq_range p : 0 <= p → 0 <= seqs s !!! slot_index p <= head s + N;
  inv_full t : 0 <= t → seqs s !!! slot_index t = t + 1 →
    t < head s ∧ logged (log s) t (data s !!! slot_index t);
  inv_threads i : thread_ok s (pcs s i);
  inv_push_unique i j t : push_ticket (pcs s i) = Some t → push_ticket (pcs s j) = Some t → i = j;
  inv_pop_unique i j t : pop_ticket (pcs s i) = Some t → pop_ticket (pcs s j) = Some t → i = j;
  inv_popped t v : (t, v) ∈ popped s → 0 <= t < tail s ∧ logged (log s) t v;
  inv_popped_once : NoDup (popped s).*1;
  inv_popping i t : pop_ticket (pcs s i) = Some t → t ∉ (popped s).*1;
}.

Lemma insert_pc_eq i (p : pc) (ps : nat → pc) : (<[i := p]> ps) i = p.
Proof. apply fn_lookup_insert. Qed.

Lemma insert_pc_ne i j (p : pc) (ps : nat → pc) : i ≠ j → (<[i := p]> ps) j = ps j.
Proof. intros. by apply fn_lookup_insert_ne. Qed.

Lemma forall_threads (P : nat → pc → Prop) (i : nat) p (ps : nat → pc) :
  P i p → (∀ j, i ≠ j → P j (ps j)) → ∀ j, P j ((<[i := p]> ps) j).
Proof.
  intros Hi Hj j. destruct (decide (i = j)) as [<-|Hne]; [by rewrite insert_pc_eq|].
  rewrite insert_pc_ne by done. auto.
Qed.

(** Tickets stay unique when a thread keeps its ticket, drops it or takes a new one. *)
Lemma unique_insert (f : pc → option Z) (i : nat) p (ps : nat → pc) :
  (∀ j1 j2 t, f (ps j1) = Some t → f (ps j2) = Some t → j1 = j2) →
  (∀ t, f p = Some t → f (ps i) = Some t ∨ ∀ j, f (ps j) ≠ Some t) →
  ∀ j1 j2 t, f ((<[i := p]> ps) j1) = Some t → f ((<[i := p]> ps) j2) = Some t → j1 = j2.
Proof.
  intros Hu Hp j1 j2 t.
  destruct (decide (i = j1)) as [<-|H1], (decide (i = j2)) as [<-|H2];
    rewrite ?insert_pc_eq, ?insert_pc_ne by done; intros Ht1 Ht2.
  - done.
  - destruct (Hp _ Ht1) as [Ho|Ho]; [by eapply Hu|by destruct (Ho j2)].
  - destruct (Hp _ Ht2) as [Ho|Ho]; [by eapply Hu|by destruct (Ho j1)].
  - by eapply Hu.
Qed.

Lemma logged_app lg t v w : logged lg t v → logged (lg ++ [w]) t v.
Proof. apply lookup_app_l_Some. Qed.

(** A step that only moves a thread's program counter, keeping or dropping tickets. *)
Lemma move_inv i p d s h t ps lg po :
  inv (State d s h t ps lg po) → thread_ok (State d s h t ps lg po) p →
  (∀ x, push_ticket p = Some x → push_ticket (ps i) = Some x) →
  (∀ x, pop_ticket p = Some x → pop_ticket (ps i) = Some x) →
  inv (State d s h t (<[i := p]> ps) lg po).
Proof.
  intros [H1 H2 H3 H4 H5 H6 H7 H8 H9 H10] Hp Hpush Hpop. split; try done.
  - apply (forall_threads (λ _, thread_ok _)); [done|]. intros j _. apply (H5 j).
  - apply unique_insert; [done|]. auto.
  - apply unique_insert; [done|]. auto.
  - cbn in *. intros j x. revert j. apply (forall_threads (λ _ q, pop_ticket q = Some x → x ∉ po.*1)).
    + intros Hx. eapply H10, Hpop, Hx.
    + intros j _. apply H10.
Qed.

(** *** Frames: what a step of another thread leaves of a thread's knowledge *)

(** [Hk] is a conjunction too: clear it before taking hypotheses apart. *)
Ltac solve_thread :=
  clear Hk;
  repeat match goal with H : _ ∧ _ |- _ => destruct H end;
  repeat (apply conj); intros; try done; try lia; auto using logged_app.

Lemma thread_ok_head d s h t ps ps' lg w po p :
  thread_ok (State d s h t ps lg po) p →
  thread_ok (State d s (h + 1) t ps' (lg ++ [w]) po) p.
Proof.
  destruct p; cbn; intros Hp; solve_thread.
Qed.

Lemma thread_ok_tail d s h t ps ps' lg po p :
  thread_ok (State d s h t ps lg po) p → thread_ok (State d s h (t + 1) ps' lg po) p.
Proof.
  destruct p; cbn; intros Hp; solve_thread.
Qed.

Ltac destruct_eqbs :=
  repeat match goal with |- context [?a =? ?b] => destruct (Z.eqb_spec a b) end.

(** The slot, and its sequence number, a thread counts on. *)
Definition claim (h t : Z) (p : pc) : option (Z * Z) :=
  match p with
  | PushCas _ q => if h =? q then Some (q, q) else None
  | PushWrite _ q | PushPublish _ q => Some (q, q)
  | PopCas q => if t =? q then Some (q, q + 1) else None
  | PopRead q | PopPublish q _ => Some (q, q + 1)
  | _ => None
  end.

Lemma claim_holds d s h t ps lg po p q y :
  thread_ok (State d s h t ps lg po) p → claim h t p = Some (q, y) → s !!! slot_index q = y.
Proof.
  clear Hk. destruct p; cbn; intros Hp; destruct_eqbs; intros; simplify_eq; tauto.
Qed.

Lemma claim_cases h t p q y :
  claim h t p = Some (q, y) →
  (y = q ∧ (h = q ∨ push_ticket p = Some q)) ∨ (y = q + 1 ∧ (t = q ∨ pop_ticket p = Some q)).
Proof.
  clear Hk. destruct p; cbn; destruct_eqbs; intros; simplify_eq; tauto.
Qed.

Lemma thread_ok_publish d s h t ps ps' lg po po' pos x p :
  thread_ok (State d s h t ps lg po) p →
  (∀ q y, claim h t p = Some (q, y) → slot_index pos ≠ slot_index q) →
  thread_ok (State d (<[slot_index pos := x]> s) h t ps' lg po') p.
Proof.
  intros Hp Hc. assert (∀ q y, claim h t p = Some (q, y) →
    <[slot_index pos := x]> s !!! slot_index q = s !!! slot_index q) as Hs.
  { intros q y Hq. apply list_lookup_total_insert_ne. by eapply Hc. }
  destruct p; cbn in *; try done; try (by rewrite (Hs _ _ eq_refl)).
  - destruct Hp as [Hr Hp]. split; [done|]. intros Heq.
    rewrite (Hs pos0 pos0); [auto|]. by rewrite (proj2 (Z.eqb_eq _ _) Heq).
  - destruct Hp as [Hr Hp]. split; [done|]. intros Heq.
    rewrite (Hs pos0 (pos0 + 1)); [auto|]. by rewrite (proj2 (Z.eqb_eq _ _) Heq).
Qed.

Lemma thread_ok_write d s h t ps ps' lg po pos x p :
  thread_ok (State d s h t ps lg po) p →
  (∀ v q, p = PushPublish v q → slot_index pos ≠ slot_index q) →
  thread_ok (State (<[slot_index pos := x]> d) s h t ps' lg po) p.
Proof.
  intros Hp Hc. destruct p; cbn in *; try done.
  rewrite list_lookup_total_insert_ne; [done|]. by eapply Hc.
Qed.

Lemma ticket_below d s h t ps lg po p x :
  thread_ok (State d s h t ps lg po) p →
  (push_ticket p = Some x → 0 <= x < h) ∧ (pop_ticket p = Some x → 0 <= x < t).
Proof. destruct p; cbn; intros; split; intros; simplify_eq; lia. Qed.

Section steps.
Context (i : nat) (d : list A) (s : list Z) (h t : Z) (ps : nat → pc) (lg : list A) (po : list (Z * A)).
Context (Hi : inv (State d s h t ps lg po)).

Lemma keep_popping p :
  (∀ x, pop_ticket p = Some x → x ∉ po.*1) →
  ∀ j x, pop_ticket ((<[i := p]> ps) j) = Some x → x ∉ po.*1.
Proof.
  intros Hp j x. revert j.
  apply (forall_threads (λ _ q, pop_ticket q = Some x → x ∉ po.*1)); [apply Hp|].
  intros j _. apply (inv_popping _ Hi).
Qed.

Lemma push_cas_inv v :
  ps i = PushCas v h → inv (State d s (h + 1) t (<[i := PushWrite v h]> ps) (lg ++ [v]) po).
Proof.
  intros Hpc. destruct Hi as [H1 H2 H3 H4 H5 H6 H7 H8 H9 H10].
  cbn [data seqs head tail pcs log popped] in *.
  pose proof (H5 i) as Hti. rewrite Hpc in Hti. destruct Hti as [Hr Hs]. cbn in Hr, Hs.
  split; cbn [data seqs head tail pcs log popped]; try done.
  - rewrite length_app. cbn [length]. lia.
  - intros p Hp. specialize (H3 p Hp). lia.
  - intros x Hx Hsx. destruct (H4 x Hx Hsx). split; [lia|by apply logged_app].
  - apply (forall_threads (λ _, thread_ok _)).
    + cbn. split_and!; [lia..|auto|]. unfold logged.
      rewrite lookup_app_r, (proj2 H2), Nat2Z.id, Nat.sub_diag by lia. done.
    + intros j _. by apply (thread_ok_head _ _ _ _ ps).
  - apply unique_insert; [done|]. cbn. intros x [= <-]. right. intros j Hj.
    apply (ticket_below _ _ _ _ _ _ _ _ _ (H5 j)) in Hj. lia.
  - by apply unique_insert.
  - intros x v' Hin. destruct (H8 x v' Hin). split; [done|by apply logged_app].
  - by apply keep_popping.
Qed.

Lemma pop_cas_inv :
  ps i = PopCas t → inv (State d s h (t + 1) (<[i := PopRead t]> ps) lg po).
Proof.
  intros Hpc. pose proof (keep_popping (PopRead t)) as Hkeep.
  destruct Hi as [H1 H2 H3 H4 H5 H6 H7 H8 H9 H10].
  cbn [data seqs head tail pcs log popped] in *.
  pose proof (H5 i) as Hti. rewrite Hpc in Hti. destruct Hti as [Hr Hs]. cbn in Hr, Hs.
  destruct (H4 t ltac:(lia) (Hs eq_refl)) as [Hth _].
  split; cbn [data seqs head tail pcs log popped]; try done; [lia|..].
  - apply (forall_threads (λ _, thread_ok _)); [cbn; split; [lia|auto]|].
    intros j _. by apply (thread_ok_tail _ _ _ _ ps).
  - by apply unique_insert.
  - apply unique_insert; [done|]. cbn. intros x [= <-]. right. intros j Hj.
    apply (ticket_below _ _ _ _ _ _ _ _ _ (H5 j)) in Hj. lia.
  - intros x v' Hin. destruct (H8 x v' Hin). split; [lia|done].
  - apply Hkeep. cbn. intros x [= <-] ([x' v] & Heq & Hin)%list_elem_of_fmap. cbn in Heq. subst x'.
    destruct (H8 t v Hin). lia.
Qed.

Lemma push_write_inv v pos :
  ps i = PushWrite v pos →
  inv (State (<[slot_index pos := v]> d) s h t (<[i := PushPublish v pos]> ps) lg po).
Proof.
  intros Hpc. pose proof (keep_popping (PushPublish v pos)) as Hkeep.
  destruct Hi as [H1 H2 H3 H4 H5 H6 H7 H8 H9 H10].
  cbn [data seqs head tail pcs log popped] in *.
  pose proof (H5 i) as Hti. rewrite Hpc in Hti. destruct Hti as (Hr & Hs & Hlg). cbn in Hr, Hs, Hlg.
  split; cbn [data seqs head tail pcs log popped]; try done; [by rewrite length_insert|..].
  - intros x Hx Hsx. destruct (H4 x Hx Hsx) as [Hxh Hl]. split; [done|].
    rewrite list_lookup_total_insert_ne; [done|]. intros He.
    rewrite <-He, Hs in Hsx. by eapply (slot_index_succ k Hk).
  - apply (forall_threads (λ _, thread_ok _)).
    + cbn. split_and!; [lia..|done|done|]. apply insert_slot_eq; [done|apply H1].
    + intros j Hne. apply (thread_ok_write _ _ _ _ ps); [done|]. intros v' q Hq He.
      pose proof (H5 j) as Hj. rewrite Hq in Hj. destruct Hj as (_ & Hsj & _). cbn in Hsj.
      apply Hne, (H6 i j pos); [by rewrite Hpc|]. rewrite Hq. cbn. f_equal. congruence.
  - apply unique_insert; [done|]. rewrite Hpc. auto.
  - by apply unique_insert.
  - by apply Hkeep.
Qed.

Lemma push_publish_inv v pos :
  ps i = PushPublish v pos →
  inv (State d (<[slot_index pos := pos + 1]> s) h t (<[i := Idle]> ps) lg po).
Proof.
  intros Hpc. pose proof (keep_popping Idle) as Hkeep.
  destruct Hi as [H1 H2 H3 H4 H5 H6 H7 H8 H9 H10]. pose proof (N_ge_2 k Hk) as HN.
  cbn [data seqs head tail pcs log popped] in *.
  pose proof (H5 i) as Hti. rewrite Hpc in Hti. destruct Hti as (Hr & Hs & Hlg & Hd). cbn in Hr, Hs, Hlg, Hd.
  assert (∀ p, slot_index pos ≠ slot_index p → <[slot_index pos := pos + 1]> s !!! slot_index p
    = s !!! slot_index p) as Hother by (intros; by apply list_lookup_total_insert_ne).
  assert (<[slot_index pos := pos + 1]> s !!! slot_index pos = pos + 1) as Hnew
    by (apply insert_slot_eq; [done|apply H1]).
  split; cbn [data seqs head tail pcs log popped]; try done; [by rewrite length_insert|..].
  - intros p Hp. destruct (decide (slot_index pos = slot_index p)) as [<-|He]; [lia|].
    rewrite (Hother p He). auto.
  - intros x Hx. destruct (decide (slot_index pos = slot_index x)) as [He|He].
    + rewrite <-He, Hnew. intros ?. assert (x = pos) as -> by lia. split; [lia|]. by rewrite Hd.
    + rewrite (Hother x He). auto.
  - apply (forall_threads (λ _, thread_ok _)); [done|]. intros j Hne.
    apply (thread_ok_publish _ _ _ _ ps _ _ po); [done|]. intros q y Hc He.
    pose proof (claim_holds _ _ _ _ _ _ _ _ _ _ (H5 j) Hc) as Hy. rewrite <-He, Hs in Hy. subst y.
    apply claim_cases in Hc as [[-> [?|Hp]]|[Hq _]].
    + lia.
    + apply Hne. apply (H6 i j q); [by rewrite Hpc|done].
    + by apply (slot_index_succ k Hk) in He.
  - by apply unique_insert.
  - by apply unique_insert.
  - by apply Hkeep.
Qed.

Lemma pop_publish_inv v pos :
  ps i = PopPublish pos v →
  inv (State d (<[slot_index pos := pos + N]> s) h t (<[i := Idle]> ps) lg (po ++ [(pos, v)])).
Proof.
  intros Hpc. destruct Hi as [H1 H2 H3 H4 H5 H6 H7 H8 H9 H10]. pose proof (N_ge_2 k Hk) as HN.
  cbn [data seqs head tail pcs log popped] in *.
  pose proof (H5 i) as Hti. rewrite Hpc in Hti. destruct Hti as (Hr & Hs & Hlg). cbn in Hr, Hs, Hlg.
  assert (∀ p, slot_index pos ≠ slot_index p → <[slot_index pos := pos + N]> s !!! slot_index p
    = s !!! slot_index p) as Hother by (intros; by apply list_lookup_total_insert_ne).
  assert (<[slot_index pos := pos + N]> s !!! slot_index pos = pos + N) as Hnew
    by (apply insert_slot_eq; [done|apply H1]).
  split; cbn [data seqs head tail pcs log popped]; try done; [by rewrite length_insert|..].
  - intros p Hp. destruct (decide (slot_index pos = slot_index p)) as [<-|He]; [lia|].
    rewrite (Hother p He). auto.
  - intros x Hx. destruct (decide (slot_index pos = slot_index x)) as [He|He].
    + rewrite <-He, Hnew. intros ?. exfalso. rewrite <-(slot_index_add_N k Hk) in He.
      by apply (slot_index_succ k Hk) in He.
    + rewrite (Hother x He). auto.
  - apply (forall_threads (λ _, thread_ok _)); [done|]. intros j Hne.
    apply (thread_ok_publish _ _ _ _ ps _ _ po); [done|]. intros q y Hc He.
    pose proof (claim_holds _ _ _ _ _ _ _ _ _ _ (H5 j) Hc) as Hy. rewrite <-He, Hs in Hy. subst y.
    apply claim_cases in Hc as [[Hq _]|[Hq [?|Hp]]].
    + symmetry in He. by apply (slot_index_succ k Hk) in He.
    + lia.
    + apply Hne. assert (q = pos) as -> by lia. apply (H7 i j pos); [by rewrite Hpc|done].
  - by apply unique_insert.
  - by apply unique_insert.
  - intros x w [Hin|Hin%list_elem_of_singleton]%elem_of_app; [auto|]. by injection Hin as -> ->.
  - rewrite fmap_app. apply NoDup_app. split_and!; [done| |apply NoDup_singleton].
    intros x Hx Hx'. apply list_elem_of_singleton in Hx' as ->.
    apply (H10 i pos); [by rewrite Hpc|done].
  - intros j x. revert j.
    apply (forall_threads (λ _ q, pop_ticket q = Some x → x ∉ (po ++ [(pos, v)]).*1)); [done|].
    intros j Hne Hx. rewrite fmap_app, not_elem_of_app. split; [by apply (H10 j)|].
    intros Hx'. apply list_elem_of_singleton in Hx' as ->. apply Hne, (H7 i j pos); [by rewrite Hpc|done].
Qed.
End steps.

Lemma mq_init_inv : inv init_state.
Proof.
  pose proof (N_ge_2 k Hk) as HN.
  assert (∀ p, 0 <= p → 0 <= (Z.of_nat <$> seq 0 (Z.to_nat N)) !!! slot_index p < N ∧
    Z.of_nat <$> seq 0 (Z.to_nat N) !! slot_index p = Some (Z.of_nat (slot_index p))) as Hseq.
  { intros p Hp. pose proof (slot_index_lt k Hk p).
    rewrite lookup_seq_lt by done. split; [|done].
    erewrite list_lookup_total_correct; [|by rewrite list_lookup_fmap, lookup_seq_lt]. lia. }
  split; cbn [init_state data seqs head tail pcs log popped]; try done.
  - by rewrite length_replicate, length_fmap, length_seq.
  - intros p Hp. destruct (Hseq p Hp) as [? _]. lia.
  - intros t Ht Hst. exfalso. destruct (Hseq t Ht) as [_ Hl].
    assert (t + 1 = Z.of_nat (slot_index t)) as Heq.
    { rewrite <-Hst. apply list_lookup_total_correct. by rewrite list_lookup_fmap. }
    assert (slot_index t = slot_index (t + 1)) as Hs.
    { apply (slot_index_eq k Hk). rewrite Heq, (slot_index_mod k Hk), Z2Nat.id, Z.mod_mod by
        (try apply Z.mod_pos_bound; lia). done. }
    symmetry in Hs. by apply (slot_index_succ k Hk) in Hs.
  - intros t v Hin. by apply elem_of_nil in Hin.
  - apply NoDup_nil_2.
Qed.

(** Fewer pushes than the 63-bit range of the ticket comparison. *)
Definition in_range (s : state) : Prop := Z.of_nat (length (log s)) + N < 2 ^ 63.

Lemma step_log i s s' : step i s s' → (length (log s) <= length (log s'))%nat.
Proof. destruct 1; cbn; rewrite ?length_app; lia. Qed.

Lemma diff_push s p :
  inv s → in_range s → 0 <= p <= head s →
  diff (seqs s !!! slot_index p) p = seqs s !!! slot_index p - p.
Proof.
  intros [_ H2 H3 _ _ _ _ _ _ _] Hb Hp. unfold in_range in Hb. specialize (H3 p ltac:(lia)).
  pose proof (N_ge_2 k Hk). apply diff_exact; lia.
Qed.

Lemma diff_pop s p :
  inv s → in_range s → 0 <= p <= tail s →
  diff (seqs s !!! slot_index p) (u64 (p + 1)) = seqs s !!! slot_index p - (p + 1).
Proof.
  intros [_ H2 H3 _ _ _ _ _ _ _] Hb Hp. unfold in_range in Hb. specialize (H3 p ltac:(lia)).
  pose proof (N_ge_2 k Hk). rewrite u64_id by lia. apply diff_exact; lia.
Qed.

Lemma mq_step_inv i st st' : step i st st' → in_range st' → inv st → inv st'.
Proof.
  intros Hst Hb' Hi. assert (in_range st) as Hb
    by (pose proof (step_log _ _ _ Hst); unfold in_range in *; lia).
  pose proof (inv_threads _ Hi i) as Hti. pose proof (inv_counters _ Hi) as Hc.
  pose proof (N_ge_2 k Hk) as HN.
  destruct Hst; cbn [data seqs head tail pcs log popped] in *;
    match goal with Hp : _ i = _ |- _ => rewrite Hp in Hti; cbn [thread_ok head tail seqs] in Hti end;
    unfold in_range in Hb; cbn [log] in Hb; rewrite ?u64_id by lia.
  - by apply move_inv.
  - apply move_inv; cbn; try done. lia.
  - rewrite (diff_push (State d s h t ps lg po)) in * by done. cbn in *.
    apply move_inv; cbn; try done. split; [done|lia].
  - by apply move_inv.
  - by apply move_inv.
  - subst h. by apply push_cas_inv.
  - apply move_inv; cbn; try done. lia.
  - by apply push_write_inv.
  - by eapply push_publish_inv.
  - by apply move_inv.
  - apply move_inv; cbn; try done. lia.
  - rewrite (diff_pop (State d s h t ps lg po)) in * by done. cbn in *.
    apply move_inv; cbn; try done. split; [done|lia].
  - by apply move_inv.
  - by apply move_inv.
  - subst t. by apply pop_cas_inv.
  - apply move_inv; cbn; try done. lia.
  - destruct (inv_full _ Hi pos) as [_ Hl]; [lia|apply Hti|].
    apply move_inv; cbn; try done; [|by rewrite H0]. split_and!; (lia || apply Hti || done).
  - by apply pop_publish_inv.
Qed.

Lemma mq_reachable_inv s : rtc any_step init_state s → in_range s → inv s.
Proof.
  intros Hs. cut ((length (log init_state) <= length (log s))%nat ∧ (in_range s → inv s)); [tauto|].
  revert s Hs. apply rtc_ind_r; [split; [done|intros; apply mq_init_inv]|].
  intros s s' _ [i Hst] [Hle IH]. pose proof (step_log _ _ _ Hst).
  split; [lia|]. intros Hb. eapply mq_step_inv; [done|done|]. apply IH. unfold in_range in *. lia.
Qed.

(** Distinct tickets below the length of the log pick distinct elements of it. *)
Lemma tickets_submseteq (l : list A) (ts : list nat) :
  NoDup ts → Forall (λ t, (t < length l)%nat) ts → ((λ t, l !!! t) <$> ts) ⊆+ l.
Proof.
  intros Hnd Hlt. assert ((λ t, l !!! t) <$> seq 0 (length l) = l) as Hl.
  { apply list_eq. intros j. rewrite list_lookup_fmap.
    destruct (decide (j < length l)%nat).
    - rewrite lookup_seq_lt by done. cbn. symmetry. by apply list_lookup_lookup_total_lt.
    - rewrite lookup_seq_ge, lookup_ge_None_2 by lia. done. }
  cut (((λ t, l !!! t) <$> ts) ⊆+ ((λ t, l !!! t) <$> seq 0 (length l))); [by rewrite Hl|].
  apply fmap_submseteq. apply NoDup_submseteq; [done|].
  intros t Ht. rewrite Forall_forall in Hlt. apply elem_of_seq. specialize (Hlt t Ht). lia.
Qed.
End concurrent.

(** ** Properties *)

(** C6: under any interleaving of any number of producers and consumers, a pop that
    completes at ticket [t] returns exactly the value whose push claimed ticket [t],
    no ticket is popped twice, only pushed tickets are popped, and so the values
    popped form a sub-multiset of the values pushed: nothing is invented,
    duplicated or exchanged between tickets. *)
Theorem popped_is_pushed {A} `{Inhabited A} k (s : @state A) :
  1 <= k < 62 → rtc (any_step k) (init_state k) s → in_range k s →
  (∀ t v, (t, v) ∈ popped s → 0 <= t < tail s ∧ logged (log s) t v) ∧
  NoDup (popped s).*1 ∧ (popped s).*2 ⊆+ log s.
Proof.
  intros Hk Hs Hb. destruct (mq_reachable_inv k Hk s Hs Hb) as [_ [Ht Hh] _ _ _ _ _ H8 H9 _].
  split_and!; [done..|].
  assert ((popped s).*2 = (λ t, log s !!! t) <$> (Z.to_nat <$> (popped s).*1)) as ->.
  { rewrite <-!list_fmap_compose. apply list_fmap_ext. intros j [t v] Hj. cbn. symmetry.
    apply list_lookup_total_correct. by apply list_elem_of_lookup_2, H8 in Hj as [_ Hj]. }
  apply tickets_submseteq.
  - apply NoDup_fmap_2_strong; [|done]. intros x y Hx Hy Heq.
    apply list_elem_of_fmap in Hx as ([x' v] & -> & Hx), Hy as ([y' w] & -> & Hy). cbn in *.
    destruct (H8 _ _ Hx), (H8 _ _ Hy). lia.
  - apply Forall_forall. intros j Hj.
    apply list_elem_of_fmap in Hj as (x & -> & Hx).
    apply list_elem_of_fmap in Hx as ([x' v] & -> & Hx). cbn. destruct (H8 _ _ Hx). lia.
Qed.

Ltac thread_step i c := eapply rtc_l; [exists i; eapply c; reflexivity|].

(** Thread 0 pushes 7 while thread 1 pops it. *)
Lemma popped_is_pushed_witness :
  ∃ s, rtc (any_step 1) (init_state 1) s ∧ popped s = [(0, 7)] ∧ (popped s).*2 ⊆+ log s.
Proof.
  assert (∃ s, rtc (any_step 1) (@init_state Z _ 1) s ∧ popped s = [(0, 7)] ∧ log s = [7])
    as (s & Hs & Hp & Hl).
  { eexists. split.
    - thread_step 0%nat (@push_call Z _ 1 0 7). thread_step 0%nat (@push_load Z _). thread_step 1%nat (@pop_call Z _).
      thread_step 0%nat (@push_seq_ready Z _). thread_step 0%nat (@push_cas_ok Z _). thread_step 0%nat (@push_write Z _).
      thread_step 0%nat (@push_publish Z _). thread_step 1%nat (@pop_load Z _). thread_step 1%nat (@pop_seq_ready Z _).
      thread_step 1%nat (@pop_cas_ok Z _). thread_step 1%nat (@pop_read Z _). thread_step 1%nat (@pop_publish Z _).
      apply rtc_refl.
    - split; vm_compute; reflexivity. }
  exists s. split_and!; [exact Hs|exact Hp|].
  apply (popped_is_pushed 1 s ltac:(lia) Hs). unfold in_range. rewrite Hl. reflexivity.
Defined.

(** The copies of a slot's data are race free: while a producer is about to write
    a slot, no other thread is about to write it or to read it. *)
Lemma slot_access_exclusive {A} `{Inhabited A} k (s : @state A) i j v pos pos' :
  1 <= k < 62 → rtc (any_step k) (init_state k) s → in_range k s →
  i ≠ j → pcs s i = PushWrite v pos →
  ((∃ v', pcs s j = PushWrite v' pos') ∨ pcs s j = PopRead pos') →
  slot_index k pos ≠ slot_index k pos'.
Proof.
  intros Hk Hs Hb Hne Hpi Hpj He.
  destruct (mq_reachable_inv k Hk s Hs Hb) as [_ _ _ _ H5 H6 _ _ _ _].
  pose proof (H5 i) as Hi. pose proof (H5 j) as Hj. rewrite Hpi in Hi. destruct Hi as (_ & Hi & _).
  destruct Hpj as [[v' Hpj]|Hpj]; rewrite Hpj in Hj.
  - destruct Hj as (_ & Hj & _). rewrite <-He, Hi in Hj. subst pos'.
    apply Hne, (H6 i j pos); [by rewrite Hpi|by rewrite Hpj].
  - destruct Hj as (_ & Hj). rewrite <-He, Hi in Hj. by apply (slot_index_succ k Hk) in He.
Qed.

(** Two producers own neighbouring slots. *)
Lemma slot_access_exclusive_witness :
  ∃ s, rtc (any_step 1) (init_state 1) s ∧
    pcs s 0%nat = PushWrite 7 0 ∧ pcs s 1%nat = PushWrite 8 1 ∧ slot_index 1 0 ≠ slot_index 1 1.
Proof.
  assert (∃ s, rtc (any_step 1) (@init_state Z _ 1) s ∧ pcs s 0%nat = PushWrite 7 0 ∧
    pcs s 1%nat = PushWrite 8 1 ∧ log s = [7; 8]) as (s & Hs & Hp0 & Hp1 & Hl).
  { eexists. split.
    - thread_step 0%nat (@push_call Z _ 1 0 7). thread_step 1%nat (@push_call Z _ 1 1 8).
      thread_step 0%nat (@push_load Z _). thread_step 0%nat (@push_seq_ready Z _). thread_step 0%nat (@push_cas_ok Z _).
      thread_step 1%nat (@push_load Z _). thread_step 1%nat (@push_seq_ready Z _). thread_step 1%nat (@push_cas_ok Z _).
      apply rtc_refl.
    - split_and!; vm_compute; reflexivity. }
  exists s. split_and!; [exact Hs|exact Hp0|exact Hp1|].
  apply (slot_access_exclusive 1 s 0 1 7 0 1 ltac:(lia) Hs); [|done|exact Hp0|left; by exists 8].
  unfold in_range. rewrite Hl. reflexivity.
Defined.

(** A sequence of operations run one after the other: [Some v] pushes, [None] pops. *)
Section sequential.
Context {Q A : Type} `{QueueContract Q A}.

Inductive response := Pushed (b : bool) | Popped (r : option A).

Fixpoint run_ops (ops : list (option A)) (q : Q) : option (list response) :=
  match ops with
  | [] => Some []
  | Some v :: ops' => '(b, q') ← q_push v q; rs ← run_ops ops' q'; Some (Pushed b :: rs)
  | None :: ops' => '(r, q') ← q_pop q; rs ← run_ops ops' q'; Some (Popped r :: rs)
  end.

(** The bounded FIFO. *)
Fixpoint fifo_ops (cap : nat) (ops : list (option A)) (l : list A) : list response :=
  match ops with
  | [] => []
  | Some v :: ops' =>
      if (length l <? cap)%nat then Pushed true :: fifo_ops cap ops' (l ++ [v])
      else Pushed false :: fifo_ops cap ops' l
  | None :: ops' =>
      match l with
      | [] => Popped None :: fifo_ops cap ops' []
      | v :: l' => Popped (Some v) :: fifo_ops cap ops' l'
      end
  end.

Lemma run_ops_fifo ops q l :
  q_rep q l → q_bounded q (length ops) → run_ops ops q = Some (fifo_ops q_capacity ops l).
Proof.
  revert q l. induction ops as [|[v|] ops IH]; intros q l Hr Hb; [done|..]; cbn [run_ops fifo_ops].
  - destruct (q_push_ok q l _ v Hr Hb) as (q' & Hb' & Hq).
    destruct (_ <? _)%nat; destruct Hq as [-> Hr']; cbn [mbind option_bind].
    + by rewrite (IH q' _ Hr').
    + subst q'. by rewrite (IH q _ Hr).
  - apply q_bounded_S in Hb as Hb1. destruct (q_pop_ok q l _ Hr Hb1) as (q' & Hb' & Hq).
    destruct l as [|v l]; destruct Hq as [-> Hr']; cbn [mbind option_bind].
    + subst q'. by rewrite (IH q _ Hr).
    + by rewrite (IH q' _ Hr').
Qed.
End sequential.

(** C4: run one after the other, [try_push] and [try_pop] are exactly a bounded FIFO
    of capacity [N]: every push succeeds unless [N] elements are inside, every pop
    returns the oldest element, no operation spins. *)
Theorem mpmc_refines_fifo {A} `{Inhabited A} k (Hk : 1 <= k < 62) (ops : list (option A)) :
  Z.of_nat (length ops) + N k < 2 ^ 63 →
  run_ops (H := MPMCQueue_contract k Hk) ops (MPMCQueue_init k) =
    Some (fifo_ops (Z.to_nat (N k)) ops []).
Proof.
  intros Hb. apply (run_ops_fifo (H := MPMCQueue_contract k Hk)); [by apply init_rep|].
  cbn. unfold bounded. cbn [head_ MPMCQueue_init]. lia.
Qed.

Lemma mpmc_refines_fifo_witness :
  run_ops (H := MPMCQueue_contract 1 ltac:(lia)) [Some 10; Some 20; Some 30; None; None; None]
    (MPMCQueue_init 1)
  = Some [Pushed true; Pushed true; Pushed false; Popped (Some 10); Popped (Some 20); Popped None].
Proof.
  exact (mpmc_refines_fifo 1 ltac:(lia) [Some 10; Some 20; Some 30; None; None; None] ltac:(reflexivity)).
Defined.

(** The capacity check [N & (N - 1) == 0] also admits [N = 1], for which the
    algorithm is broken: a second push overwrites the element still inside, and the
    next pop spins for ever. *)
Theorem capacity_one_overwrites (v w : Z) :
  ∃ q1 q2 : @MPMCQueue Z,
    try_push 0 v (MPMCQueue_init 0) = Some (true, q1) ∧
    try_push 0 w q1 = Some (true, q2) ∧
    size q2 = 2 ∧ data_ q2 = [w] ∧ try_pop 0 q2 = None.
Proof. by do 2 eexists. Qed.
