(* ===== verification/FeedSpec.v ===== *)
(** What a feed promises its consumer: a bounded first-in-first-out queue. Each event of a
    feed offers the ticks its message was parsed to; those that find a free place are taken,
    the others are dropped; a pop hands out the oldest. The two generations of adapters
    (Adapters.v, ThinMux.v) are proved to implement it. *)
From S2P Require Import Prelude Types.

Section spec.
Context {E G : Type}.
(** The feed's own step, the ticks an event offers, and the events that pop. *)
Context (run : E → G → option (list Tick.t * G)) (ticks : E → G → list Tick.t) (is_pop : E → bool).
(** The places of the queue. *)
Context (capacity : nat).

Definition fifo_push (queue ts : list Tick.t) : list Tick.t := queue ++ take (capacity - length queue) ts.

Definition fifo_event (e : E) (g : G) (queue : list Tick.t) : list Tick.t * list Tick.t :=
  if is_pop e then (option_list (head queue), tail queue) else ([], fifo_push queue (ticks e g)).

(** What a run hands out, and what is queued after it. *)
Fixpoint fifo_run (es : list E) (g : G) (queue : list Tick.t) : list Tick.t * list Tick.t :=
  match es with
  | [] => ([], queue)
  | e :: es =>
      let '(out, queue) := fifo_event e g queue in
      match run e g with
      | Some (_, g) => let '(outs, queue) := fifo_run es g queue in (out ++ outs, queue)
      | None => (out, queue)
      end
  end.

(** What a run offers. *)
Fixpoint offered (es : list E) (g : G) : list Tick.t :=
  match es with
  | [] => []
  | e :: es => ticks e g ++ match run e g with Some (_, g) => offered es g | None => [] end
  end.

Lemma fifo_push_none queue : fifo_push queue [] = queue.
Proof. unfold fifo_push. by rewrite take_nil, app_nil_r. Qed.

Lemma fifo_push_sublist queue ts : fifo_push queue ts `sublist_of` queue ++ ts.
Proof. unfold fifo_push. apply sublist_app; [done|apply sublist_take]. Qed.

Lemma fifo_push_room queue ts : (length queue + length ts <= capacity)%nat → fifo_push queue ts = queue ++ ts.
Proof. intros H. unfold fifo_push. by rewrite take_ge by lia. Qed.

(** One tick, then the rest. *)
Lemma fifo_push_cons queue t ts :
  fifo_push queue (t :: ts) =
    fifo_push (queue ++ if decide (length queue < capacity)%nat then [t] else []) ts.
Proof.
  unfold fifo_push. rewrite length_app. destruct (decide _) as [Hl|Hl]; cbn [length].
  - replace (capacity - length queue)%nat with (S (capacity - (length queue + 1))) by lia.
    cbn [take]. by rewrite <-app_assoc.
  - replace (capacity - length queue)%nat with 0%nat by lia.
    replace (capacity - (length queue + 0))%nat with 0%nat by lia. cbn. by rewrite !app_nil_r.
Qed.

Context (pop_silent : ∀ e g, is_pop e = true → ticks e g = []).

Lemma fifo_event_sublist e g queue : let '(out, queue') := fifo_event e g queue in (out ++ queue') `sublist_of` queue ++ ticks e g.
Proof.
  unfold fifo_event. destruct (is_pop e) eqn:He.
  - rewrite pop_silent, app_nil_r by done. by destruct queue.
  - apply fifo_push_sublist.
Qed.

(** Nothing is made up or reordered. *)
Lemma fifo_run_sublist es g queue :
  let '(out, queue') := fifo_run es g queue in (out ++ queue') `sublist_of` queue ++ offered es g.
Proof.
  revert g queue. induction es as [|e es IH]; intros g queue; cbn [fifo_run offered].
  - by rewrite app_nil_r.
  - pose proof (fifo_event_sublist e g queue) as He. destruct (fifo_event e g queue) as [out queue1].
    destruct (run e g) as [[o g1]|]; [|by rewrite app_nil_r].
    specialize (IH g1 queue1). destruct (fifo_run es g1 queue1) as [outs queue2]. rewrite <-app_assoc.
    etrans; [apply sublist_app; [done|exact IH]|]. rewrite !app_assoc. by apply sublist_app.
Qed.

(** Nothing is dropped as long as everything has room. *)
Lemma fifo_run_complete es g queue :
  (length queue + length (offered es g) <= capacity)%nat →
  let '(out, queue') := fifo_run es g queue in out ++ queue' = queue ++ offered es g.
Proof.
  revert g queue. induction es as [|e es IH]; intros g queue; cbn [fifo_run offered]; intros Hn.
  - by rewrite app_nil_r.
  - rewrite length_app in Hn.
    assert (let '(out, queue1) := fifo_event e g queue in out ++ queue1 = queue ++ ticks e g) as He.
    { unfold fifo_event. destruct (is_pop e) eqn:He; [rewrite pop_silent, app_nil_r by done; by destruct queue|].
      apply fifo_push_room. lia. }
    destruct (fifo_event e g queue) as [out queue1].
    destruct (run e g) as [[o g1]|]; [|by rewrite app_nil_r].
    specialize (IH g1 queue1). destruct (fifo_run es g1 queue1) as [outs queue2].
    rewrite <-app_assoc, IH, !app_assoc, He; [done|]. apply (f_equal length) in He. rewrite !length_app in He. lia.
Qed.
End spec.
