(* ===== verification/Json.v ===== *)
(** What the program uses of the nlohmann::json library.

    The library is not part of the repository: its documents are an abstract type
    with the constructors and accessors the code calls, and the laws say that the
    accessors undo the constructors. Members that do not exist or have another type
    make [at] and [get] throw, which is [None] here. [JsonRef] is a concrete
    instance. *)
From S2P Require Import Prelude.
From S2P Require Import FixedPoint.

Class JsonOps := {
  json : Type;
  j_string : string → json;
  j_int : Z → json;
  j_double : double → json;
  j_bool : bool → json;
  j_array : list json → json;
  j_object : list (string * json) → json;
  j_is_array : json → bool;
  j_elements : json → list json;             (* iteration over an array *)
  j_contains : json → string → bool;
  j_at : json → string → option json;
  j_get_string : json → option string;
  j_get_int : json → option Z;               (* before the cast to the target width *)
  j_get_double : json → option double;
  j_get_bool : json → option bool;
  j_get_array : json → option (list json);
}.

Class JsonLaws (J : JsonOps) : Prop := {
  j_is_array_array l : j_is_array (j_array l) = true;
  j_elements_array l : j_elements (j_array l) = l;
  j_contains_object fs k v : (k, v) ∈ fs → j_contains (j_object fs) k = true;
  j_at_object fs k v : NoDup fs.*1 → (k, v) ∈ fs → j_at (j_object fs) k = Some v;
  j_get_string_string s : j_get_string (j_string s) = Some s;
  j_get_int_int z : j_get_int (j_int z) = Some z;
  j_get_double_double d : j_get_double (j_double d) = Some d;
  j_get_bool_bool b : j_get_bool (j_bool b) = Some b;
  j_get_array_array l : j_get_array (j_array l) = Some l;
}.

(** ** Members of an object literal *)

Section members.
Context {J : JsonOps} {HJ : JsonLaws J}.

(** [if (j.contains(k)) j.at(k).get_to(field)], where [field] holds its default. *)
Definition get_or {A} (get : json → option A) (default : A) (j : json) (k : string) : option A :=
  if j_contains j k then j_at j k ≫= get else Some default.

(** [j.at(k).get_to(field)] *)
Definition get_at {A} (get : json → option A) (j : json) (k : string) : option A :=
  j_at j k ≫= get.

(** Integers are cast to the width of the field they go to. *)
Definition get_uint (w : Z) (j : json) : option Z := wrapU w <$> j_get_int j.

Lemma get_at_object {A} (get : json → option A) fs k v x :
  NoDup fs.*1 → (k, v) ∈ fs → get v = Some x → get_at get (j_object fs) k = Some x.
Proof. intros Hnd Hin Hg. unfold get_at. by rewrite (j_at_object fs k v Hnd Hin). Qed.

Lemma get_or_object {A} (get : json → option A) d fs k v x :
  NoDup fs.*1 → (k, v) ∈ fs → get v = Some x → get_or get d (j_object fs) k = Some x.
Proof.
  intros Hnd Hin Hg. unfold get_or. rewrite (j_contains_object fs k v Hin).
  by apply get_at_object with v.
Qed.

Lemma get_uint_int w z : inU w z → get_uint w (j_int z) = Some z.
Proof. intros Hz. unfold get_uint. rewrite j_get_int_int. cbn. by rewrite wrapU_id. Qed.

Lemma mapM_fmap_id {A B} (f : A → B) (g : B → option A) (l : list A) :
  Forall (λ x, g (f x) = Some x) l → mapM g (f <$> l) = Some l.
Proof. intros Hl. apply mapM_Some. induction Hl; by constructor. Qed.
End members.

#[export] Hint Resolve get_uint_int : chronos.

(** Find the member an accessor asks for in an object literal. *)
Ltac json_member :=
  first [eapply get_at_object | eapply get_or_object];
    [assumption | repeat (apply elem_of_cons; (left; reflexivity) || right) | ].

(** ** A concrete instance *)

Inductive json_ref :=
  | JString (s : string) | JInt (z : Z) | JDouble (d : double) | JBool (b : bool)
  | JArray (l : list json_ref) | JObject (fs : list (string * json_ref)) | JNull.

Definition JsonRef : JsonOps := {|
  json := json_ref;
  j_string := JString; j_int := JInt; j_double := JDouble; j_bool := JBool;
  j_array := JArray; j_object := JObject;
  j_is_array j := match j with JArray _ => true | _ => false end;
  j_elements j := match j with JArray l => l | _ => [] end;
  j_contains j k := match j with JObject fs => bool_decide (k ∈ fs.*1) | _ => false end;
  j_at j k := match j with JObject fs => list_to_map (M := gmap string json_ref) fs !! k | _ => None end;
  j_get_string j := match j with JString s => Some s | _ => None end;
  j_get_int j := match j with JInt z => Some z | _ => None end;
  j_get_double j := match j with JDouble d => Some d | _ => None end;
  j_get_bool j := match j with JBool b => Some b | _ => None end;
  j_get_array j := match j with JArray l => Some l | _ => None end;
|}.

#[export] Instance JsonRef_laws : JsonLaws JsonRef.
Proof.
  split; cbn; try done.
  - intros fs k v Hin. apply bool_decide_eq_true. apply list_elem_of_fmap. by exists (k, v).
  - intros fs k v Hnd Hin. by apply elem_of_list_to_map_1.
Qed.
