(* ===== verification/JsonText.v ===== *)
(** The text of JSON documents: nlohmann's [dump] and [parse], which the library's
    documentation describes and the program relies on when it keeps a document in a file.

    [writes_as j j'] says what [dump] makes of a document [j]: a text that reads as
    [j'], which is [j] but for the numbers JSON has no text for: an infinity or a
    NaN is written as [null]. A document with a string that is not UTF-8 has no text:
    [dump] throws. *)
From S2P Require Import Prelude.
From S2P Require Import FixedPoint.
From S2P Require Import Json.
From Stdlib Require Import Ascii SpecFloat.

(** ** UTF-8 (RFC 3629), the check [dump] makes on every string *)

Definition byte_in (lo hi : Z) (a : ascii) : bool := (lo <=? Z.of_N (N_of_ascii a)) && (Z.of_N (N_of_ascii a) <=? hi).

(** How many continuation bytes follow, and the range of the first of them. *)
Definition utf8_lead (a : ascii) : option (nat * Z * Z) :=
  if byte_in 0x00 0x7F a then Some (0%nat, 0, 0)
  else if byte_in 0xC2 0xDF a then Some (1%nat, 0x80, 0xBF)
  else if byte_in 0xE0 0xE0 a then Some (2%nat, 0xA0, 0xBF)
  else if byte_in 0xED 0xED a then Some (2%nat, 0x80, 0x9F)
  else if byte_in 0xE1 0xEF a then Some (2%nat, 0x80, 0xBF)
  else if byte_in 0xF0 0xF0 a then Some (3%nat, 0x90, 0xBF)
  else if byte_in 0xF1 0xF3 a then Some (3%nat, 0x80, 0xBF)
  else if byte_in 0xF4 0xF4 a then Some (3%nat, 0x80, 0x8F)
  else None.

(** [more] continuation bytes are due, the next one between [lo] and [hi]. *)
Fixpoint utf8_from (more : nat) (lo hi : Z) (s : string) : bool :=
  match s with
  | EmptyString => (more =? 0)%nat
  | String a s =>
      match more with
      | O => match utf8_lead a with
             | Some (more, lo, hi) => utf8_from more lo hi s
             | None => false
             end
      | S more => byte_in lo hi a && utf8_from more 0x80 0xBF s
      end
  end.

Definition utf8_valid : string → bool := utf8_from 0 0 0.

Definition d_finite (d : double) : bool :=
  match d with S754_zero _ | S754_finite _ _ _ => true | S754_infinity _ | S754_nan => false end.

(** ** [dump] and [parse] *)

Class JsonText (J : JsonOps) := {
  j_null : json;
  j_dump : Z → json → option string;         (* with the indentation; [None]: an exception *)
  j_parse : string → option json;
}.

Section text.
Context {J : JsonOps} {T : JsonText J}.

Inductive writes_as : json → json → Prop :=
| writes_string s : utf8_valid s = true → writes_as (j_string s) (j_string s)
| writes_int z : inS 64 z ∨ inU 64 z → writes_as (j_int z) (j_int z)
| writes_double d : writes_as (j_double d) (if d_finite d then j_double d else j_null)
| writes_bool b : writes_as (j_bool b) (j_bool b)
| writes_null : writes_as j_null j_null
| writes_array l l' : Forall2 writes_as l l' → writes_as (j_array l) (j_array l')
| writes_object fs fs' :
    Forall2 (λ x y, x.1 = y.1 ∧ utf8_valid x.1 = true ∧ writes_as x.2 y.2) fs fs' →
    writes_as (j_object fs) (j_object fs').

(** Documents without a text. *)
Inductive unwritable : json → Prop :=
| unwritable_string s : utf8_valid s = false → unwritable (j_string s)
| unwritable_array l j : j ∈ l → unwritable j → unwritable (j_array l)
| unwritable_object fs k j : (k, j) ∈ fs → utf8_valid k = false ∨ unwritable j → unwritable (j_object fs).
End text.

Class JsonTextLaws (J : JsonOps) {T : JsonText J} : Prop := {
  j_dump_parse indent j j' : writes_as j j' → ∃ text, j_dump indent j = Some text ∧ j_parse text = Some j';
  j_dump_throws indent j : unwritable j → j_dump indent j = None;
  j_get_double_null : j_get_double j_null = None;
}.

Section members.
Context {J : JsonOps} {HJ : JsonLaws J} {T : JsonText J}.

(** The members of an object literal are read as they are. *)
Lemma get_at_member {A} (get : json → option A) fs k v :
  NoDup fs.*1 → (k, v) ∈ fs → get_at get (j_object fs) k = get v.
Proof. intros Hnd Hin. unfold get_at. by rewrite (j_at_object fs k v Hnd Hin). Qed.

Lemma get_or_member {A} (get : json → option A) d fs k v :
  NoDup fs.*1 → (k, v) ∈ fs → get_or get d (j_object fs) k = get v.
Proof. intros Hnd Hin. unfold get_or. rewrite (j_contains_object fs k v Hin). by apply get_at_member. Qed.

Lemma writes_strings l :
  forallb utf8_valid l = true → writes_as (j_array (j_string <$> l)) (j_array (j_string <$> l)).
Proof.
  intros Hl. apply writes_array, Forall2_same_length_lookup. split; [done|]. intros i x y Hx Hy.
  assert (x = y) as -> by congruence. rewrite list_lookup_fmap in Hy.
  destruct (l !! i) as [s|] eqn:Hi; [|done]. injection Hy as <-. apply writes_string.
  rewrite forallb_forall in Hl. apply Hl, list_elem_of_In, list_elem_of_lookup. by exists i.
Qed.

Lemma writes_ints w l : 0 < w <= 64 → Forall (inU w) l → writes_as (j_array (j_int <$> l)) (j_array (j_int <$> l)).
Proof.
  intros Hw Hl. apply writes_array. induction Hl as [|z l Hz Hl IH]; [constructor|].
  cbn. constructor; [|done]. apply writes_int. right. unfold inU in *.
  pose proof (Z.pow_le_mono_r 2 w 64). lia.
Qed.
End members.

(** ** A concrete instance, for witnesses: [JsonRef] with the document's tree as its text *)

Fixpoint json_ref_written (j : json_ref) : json_ref :=
  match j with
  | JDouble d => if d_finite d then j else JNull
  | JArray l => JArray (json_ref_written <$> l)
  | JObject fs => JObject ((λ '(k, v), (k, json_ref_written v)) <$> fs)
  | _ => j
  end.

Fixpoint json_ref_writable (j : json_ref) : bool :=
  match j with
  | JString s => utf8_valid s
  | JArray l => forallb json_ref_writable l
  | JObject fs => forallb (λ '(k, v), utf8_valid k && json_ref_writable v) fs
  | _ => true
  end.

Abbreviation leaf := (string + (Z + (bool * Z + (positive * Z * bool + bool))))%type.

Definition double_to_leaf (d : double) : leaf :=
  match d with
  | S754_zero s => inr (inr (inl (s, 0)))
  | S754_infinity s => inr (inr (inl (s, 1)))
  | S754_nan => inr (inr (inl (true, 2)))
  | S754_finite s m e => inr (inr (inr (inl (m, e, s))))
  end.

Definition leaf_to_json (x : leaf) : json_ref :=
  match x with
  | inl s => JString s
  | inr (inl z) => JInt z
  | inr (inr (inl (s, 0))) => JDouble (S754_zero s)
  | inr (inr (inl (s, 1))) => JDouble (S754_infinity s)
  | inr (inr (inl (_, _))) => JDouble S754_nan
  | inr (inr (inr (inl (m, e, s)))) => JDouble (S754_finite s m e)
  | inr (inr (inr (inr b))) => JBool b
  end.

Fixpoint json_to_tree (j : json_ref) : gen_tree leaf :=
  match j with
  | JString s => GenLeaf (inl s)
  | JInt z => GenLeaf (inr (inl z))
  | JDouble d => GenLeaf (double_to_leaf d)
  | JBool b => GenLeaf (inr (inr (inr (inr b))))
  | JArray l => GenNode 0 (json_to_tree <$> l)
  | JObject fs => GenNode 1 ((λ '(k, v), GenNode 2 [GenLeaf (inl k); json_to_tree v]) <$> fs)
  | JNull => GenNode 3 []
  end.

Fixpoint tree_to_json (t : gen_tree leaf) : json_ref :=
  match t with
  | GenLeaf x => leaf_to_json x
  | GenNode 0 ts => JArray (tree_to_json <$> ts)
  | GenNode 1 ts =>
      JObject ((λ t, match t with GenNode 2 [GenLeaf (inl k); v] => (k, tree_to_json v) | _ => (EmptyString, JNull) end) <$> ts)
  | GenNode _ _ => JNull
  end.

Section json_ref_ind.
Context (P : json_ref → Prop).
Context (Hstring : ∀ s, P (JString s)) (Hint : ∀ z, P (JInt z)) (Hdouble : ∀ d, P (JDouble d)).
Context (Hbool : ∀ b, P (JBool b)) (Hnull : P JNull).
Context (Harray : ∀ l, Forall P l → P (JArray l)) (Hobject : ∀ fs, Forall (λ x, P x.2) fs → P (JObject fs)).

Fixpoint json_ref_rect' (j : json_ref) : P j :=
  match j with
  | JString s => Hstring s
  | JInt z => Hint z
  | JDouble d => Hdouble d
  | JBool b => Hbool b
  | JNull => Hnull
  | JArray l =>
      Harray l ((fix go l : Forall P l :=
        match l with [] => Forall_nil_2 P | x :: l => Forall_cons_2 P x l (json_ref_rect' x) (go l) end) l)
  | JObject fs =>
      Hobject fs ((fix go fs : Forall (λ x, P x.2) fs :=
        match fs with
        | [] => Forall_nil_2 _
        | x :: fs => Forall_cons_2 (λ x, P x.2) x fs (json_ref_rect' x.2) (go fs)
        end) fs)
  end.
End json_ref_ind.

Lemma tree_json j : tree_to_json (json_to_tree j) = j.
Proof.
  induction j as [s|z|d|b| |l IH|fs IH] using json_ref_rect'; cbn; try done.
  - by destruct d.
  - f_equal. induction IH as [|x l Hx _ IHl]; [done|]. cbn. by rewrite Hx, IHl.
  - f_equal. induction IH as [|[k v] fs Hx _ IHl]; [done|]. cbn in *. by rewrite Hx, IHl.
Qed.

Fixpoint bits_to_string (p : positive) : string :=
  match p with xH => EmptyString | xO p => String "0" (bits_to_string p) | xI p => String "1" (bits_to_string p) end%char.

Fixpoint string_to_bits (s : string) : positive :=
  match s with
  | EmptyString => xH
  | String a s => if Ascii.eqb a "1"%char then xI (string_to_bits s) else xO (string_to_bits s)
  end.

Lemma string_bits p : string_to_bits (bits_to_string p) = p.
Proof. induction p as [p IH|p IH|]; cbn; by rewrite ?IH. Qed.

#[export] Instance JsonTextRef : JsonText JsonRef := {|
  j_null := JNull : json (JsonOps := JsonRef);
  j_dump _ j := if json_ref_writable j then Some (bits_to_string (encode (json_to_tree (json_ref_written j)))) else None;
  j_parse s := tree_to_json <$> decode (string_to_bits s);
|}.

Definition written_ok (j j' : json_ref) : Prop := json_ref_writable j = true ∧ json_ref_written j = j'.

Lemma elements_written (l l' : list json_ref) :
  Forall2 written_ok l l' → forallb json_ref_writable l = true ∧ json_ref_written <$> l = l'.
Proof. induction 1 as [|x y l l' [Hx <-] _ [IH <-]]; [done|]. cbn. by rewrite Hx. Qed.

Lemma members_written (fs fs' : list (string * json_ref)) :
  Forall2 (λ x y, x.1 = y.1 ∧ utf8_valid x.1 = true ∧ written_ok x.2 y.2) fs fs' →
  forallb (λ '(k, v), utf8_valid k && json_ref_writable v) fs = true ∧
  (λ '(k, v), (k, json_ref_written v)) <$> fs = fs'.
Proof.
  induction 1 as [|[k x] [k' y] l l' (Hk & Hu & Hx & Hy) _ [IH <-]]; [done|]. cbn in *. subst. by rewrite Hu, Hx.
Qed.

Lemma json_ref_writes (j j' : json (JsonOps := JsonRef)) : writes_as j j' → written_ok j j'.
Proof.
  revert j'. induction j as [s|z|d|b| |l IH|fs IH] using json_ref_rect'; intros j' H; inversion H; subst; try done.
  - match goal with HF : Forall2 _ l _ |- _ => destruct (elements_written l l') as [E1 <-]; [|by split];
      clear H; induction HF as [|x y l l' Hx _ IHl]; [done|] end.
    apply Forall_cons in IH as [I1 I2]. constructor; [by apply I1|by apply IHl].
  - match goal with HF : Forall2 _ fs _ |- _ => destruct (members_written fs fs') as [E1 <-]; [|by split];
      clear H; induction HF as [|x y l l' (Hk & Hu & Hx) _ IHl]; [done|] end.
    apply Forall_cons in IH as [I1 I2]. constructor; [|by apply IHl]. split_and!; [done..|by apply I1].
Qed.

(** Recursion on the document: the premise of an object is behind a disjunction. *)
Lemma json_ref_unwritable (j : json (JsonOps := JsonRef)) : unwritable j → json_ref_writable j = false.
Proof.
  induction j as [s|z|d|b| |l IH|fs IH] using json_ref_rect'; intros H; inversion H; subst; try done;
    apply not_true_is_false; cbn; rewrite forallb_forall; intros Hall; rewrite Forall_forall in IH.
  - match goal with Hj : _ ∈ l |- _ => pose proof (IH _ Hj ltac:(done)) as E; apply list_elem_of_In, Hall in Hj; congruence end.
  - match goal with Hj : (_, _) ∈ fs, Ho : _ ∨ _ |- _ =>
      pose proof (IH _ Hj) as E; apply list_elem_of_In, Hall in Hj; cbn in Hj;
      apply andb_true_iff in Hj as [Hk Hv]; destruct Ho as [Ho|Ho]; [congruence|apply E in Ho; cbn in Ho; congruence] end.
Qed.

#[export] Instance JsonTextRef_laws : JsonTextLaws JsonRef.
Proof.
  split; cbn.
  - intros _ j j' [-> <-]%json_ref_writes. eexists. split; [done|].
    rewrite string_bits, decode_encode. cbn. by rewrite tree_json.
  - intros _ j H. by rewrite (json_ref_unwritable j H).
  - done.
Qed.
