(* ===== verification/PositionManager.v ===== *)
(** [PositionManager] (include/chronos/trading/position_manager.hpp,
    src/trading/position_manager.cpp): positions with weighted average price,
    realised profit and loss, and the cached total value the risk engine reads.

    [std::unordered_map] is a [gmap]; its iteration order is unspecified, so loops
    over it take the order from the class [IterOrder]. The mutex makes every
    operation atomic. *)
From S2P Require Import Prelude.
From S2P Require Import FixedPoint.
From S2P Require Import Types.
From S2P Require Import Json.

Definition INT64_MAX : Z := 2 ^ 63 - 1.
Definition INT64_MIN : Z := - 2 ^ 63.

(** The order in which iteration visits an [unordered_map]. *)
Class IterOrder := {
  iter : gmap Z Position.t → list (Z * Position.t);
  iter_perm m : iter m ≡ₚ map_to_list m;
}.

(** The order of [map_to_list], for witnesses. *)
Definition iter_default : IterOrder := {| iter := map_to_list; iter_perm _ := reflexivity _ |}.

Record PositionManager := mkPM {
  positions_ : gmap Z Position.t;
  total_value_raw_ : Z;
}.

Definition PositionManager_init : PositionManager := mkPM ∅ 0.

Definition sign_of (v : Z) : Z := if v >? 0 then 1 else if v <? 0 then -1 else 0.

Section pm.
Context {F : FpmOps}.

Definition calcWeightedAverage (old_qty old_avg fill_qty fill_price : Z) : Z :=
  let old_abs := dabs old_qty in
  let new_abs := old_abs ⊞ fill_qty in
  if new_abs =? 0 then 0
  else (old_abs ⊠ old_avg ⊞ fill_qty ⊠ fill_price) ⊘ new_abs.

Definition calcRealizedPnLOnReduce (pos : Position.t) (fill_price reduced_abs : Z) : Z :=
  if Position.quantity pos >? 0
  then reduced_abs ⊠ (fill_price ⊟ Position.average_price pos)
  else reduced_abs ⊠ (Position.average_price pos ⊟ fill_price).

(** *** The total value cache *)

(** Saturating [raw += add]. *)
Definition saturating_add (raw add : Z) : Z :=
  if (add >? 0) && (raw >? INT64_MAX - add) then INT64_MAX
  else if (add <? 0) && (raw <? INT64_MIN - add) then INT64_MIN
  else raw + add.

Definition position_value (pos : Position.t) : Z :=
  dabs (Position.quantity pos) ⊠ Position.average_price pos.

Fixpoint total_value (ps : list (Z * Position.t)) (raw : Z) : Z :=
  match ps with
  | [] => raw
  | (_, pos) :: ps' =>
      if Position.quantity pos =? 0 then total_value ps' raw
      else total_value ps' (saturating_add raw (position_value pos))
  end.

Definition recalcTotalValue `{IterOrder} (s : PositionManager) : PositionManager :=
  s {{ total_value_raw_ := total_value (iter (positions_ s)) 0 }}.

Definition getTotalValueCached (s : PositionManager) : Z := total_value_raw_ s.

(** *** Fills *)

Definition signed_quantity (fill : Fill.t) : Z :=
  match Fill.side fill with
  | OrderSide.SELL => fpm_neg (Fill.fill_quantity fill)
  | OrderSide.BUY => Fill.fill_quantity fill
  end.

(** The position after a fill, [None] when the symbol had none. *)
Definition filled_position (fill : Fill.t) (o : option Position.t) : Position.t :=
  let signed_qty := signed_quantity fill in
  match o with
  | None =>
      Position.mk (Fill.symbol_id fill) signed_qty (Fill.fill_price fill) 0
        (Fill.receive_timestamp_us fill)
  | Some pos =>
      let old_qty := Position.quantity pos in
      let old_sign := sign_of old_qty in
      let fill_sign := sign_of signed_qty in
      if old_sign =? 0 then
        pos {{ Position.quantity := signed_qty; Position.average_price := Fill.fill_price fill;
               Position.last_update_us := Fill.receive_timestamp_us fill }}
      else if old_sign =? fill_sign then
        pos {{ Position.quantity := old_qty ⊞ signed_qty;
               Position.average_price :=
                 calcWeightedAverage old_qty (Position.average_price pos)
                   (Fill.fill_quantity fill) (Fill.fill_price fill);
               Position.last_update_us := Fill.receive_timestamp_us fill }}
      else
        let old_abs := dabs old_qty in
        let signed_abs := dabs signed_qty in
        if signed_abs <=? old_abs then
          let pos' := pos {{ Position.realized_pnl ::= λ r,
                r ⊞ calcRealizedPnLOnReduce pos (Fill.fill_price fill) signed_abs }} in
          let pos' := pos' {{ Position.quantity := old_qty ⊞ signed_qty }} in
          let pos' := if Position.quantity pos' =? 0
                      then pos' {{ Position.average_price := 0 }} else pos' in
          pos' {{ Position.last_update_us := Fill.receive_timestamp_us fill }}
        else
          let pos' := pos {{ Position.realized_pnl ::= λ r,
                r ⊞ calcRealizedPnLOnReduce pos (Fill.fill_price fill) old_abs }} in
          let remaining := signed_abs ⊟ old_abs in
          pos' {{ Position.quantity := if fill_sign >? 0 then remaining else fpm_neg remaining;
                  Position.average_price := Fill.fill_price fill;
                  Position.last_update_us := Fill.receive_timestamp_us fill }}
  end.

(** The returned pointer is the updated position, [None] for [nullptr]. *)
Definition updatePosition `{IterOrder} (fill : Fill.t) (s : PositionManager)
    : option Position.t * PositionManager :=
  if Fill.fill_quantity fill =? 0 then (None, s)
  else
    let pos := filled_position fill (positions_ s !! Fill.symbol_id fill) in
    (Some pos, recalcTotalValue (s {{ positions_ ::= <[Fill.symbol_id fill := pos]> }})).

(** *** Queries *)

Definition getPosition (symbol_id : Z) (s : PositionManager) : option Position.t :=
  positions_ s !! symbol_id.

Definition size `{IterOrder} (s : PositionManager) : nat :=
  length (filter (λ '(_, pos), Position.quantity pos ≠ 0) (iter (positions_ s))).

Definition clear (s : PositionManager) : PositionManager := mkPM ∅ 0.

Definition getAllPositions `{IterOrder} (s : PositionManager) : list Position.t :=
  (iter (positions_ s)).*2.

Fixpoint unrealized (current_prices : gmap Z Z) (ps : list (Z * Position.t)) (total : Z) : Z :=
  match ps with
  | [] => total
  | (symbol_id, pos) :: ps' =>
      let total := match current_prices !! symbol_id with
                   | Some price => if price >? 0
                                   then total ⊞ Position.getUnrealizedPnL pos price else total
                   | None => total
                   end in
      unrealized current_prices ps' total
  end.

Definition getUnrealizedPnL `{IterOrder} (current_prices : gmap Z Z) (s : PositionManager) : Z :=
  unrealized current_prices (iter (positions_ s)) (fpm_of_int 0).

Fixpoint marked_value (current_prices : gmap Z Z) (ps : list (Z * Position.t)) (total : Z) : Z :=
  match ps with
  | [] => total
  | (symbol_id, pos) :: ps' =>
      if Position.quantity pos =? 0 then marked_value current_prices ps' total
      else
        let price := match current_prices !! symbol_id with
                     | Some p => if p >? 0 then p else Position.average_price pos
                     | None => Position.average_price pos
                     end in
        marked_value current_prices ps' (total ⊞ dabs (Position.quantity pos) ⊠ price)
  end.

Definition getTotalValue `{IterOrder} (current_prices : gmap Z Z) (s : PositionManager) : Z :=
  marked_value current_prices (iter (positions_ s)) (fpm_of_int 0).
End pm.

(** ** Persistence *)

Section json.
Context {F : FpmOps} {J : JsonOps} `{IterOrder}.

Definition position_fields (pos : Position.t) : list (string * json) :=
  [("symbol_id", j_int (Position.symbol_id pos));
   ("quantity_raw", j_int (Position.quantity pos));
   ("average_price_raw", j_int (Position.average_price pos));
   ("realized_pnl_raw", j_int (Position.realized_pnl pos));
   ("last_update_us", j_int (Position.last_update_us pos))]%string.

Definition toJson (s : PositionManager) : json :=
  j_array ((λ '(_, pos), j_object (position_fields pos)) <$>
    filter (λ '(_, pos), Position.quantity pos ≠ 0) (iter (positions_ s))).

(** [.get<int64_t>()] *)
Definition get_int64 (j : json) : option Z := s64 <$> j_get_int j.

(** One entry: [Some None] skips it, [None] is an exception from [get]. *)
Definition parse_entry (entry : json) : option (option Position.t) :=
  if negb (j_contains entry "symbol_id") || negb (j_contains entry "quantity_raw") ||
     negb (j_contains entry "average_price_raw") || negb (j_contains entry "realized_pnl_raw")
  then Some None
  else
    symbol_id ← get_at (get_uint 32) entry "symbol_id";
    quantity ← get_at get_int64 entry "quantity_raw";
    average_price ← get_at get_int64 entry "average_price_raw";
    realized_pnl ← get_at get_int64 entry "realized_pnl_raw";
    last_update_us ← get_or (get_uint 64) 0 entry "last_update_us";
    Some (Some (Position.mk symbol_id quantity average_price realized_pnl last_update_us)).

Fixpoint load_entries (entries : list json) (m : gmap Z Position.t) : bool * gmap Z Position.t :=
  match entries with
  | [] => (true, m)
  | entry :: entries' =>
      match parse_entry entry with
      | None => (false, m)
      | Some None => load_entries entries' m
      | Some (Some p) => load_entries entries' (<[Position.symbol_id p := p]> m)
      end
  end.

(** [None] when an exception leaves the function, with what it has changed so far. *)
Definition fromJson (j : json) (s : PositionManager) : option bool * PositionManager :=
  if negb (j_is_array j) then (Some false, s)
  else
    let '(done, m) := load_entries (j_elements j) ∅ in
    if done then (Some true, recalcTotalValue (s {{ positions_ := m }}))
    else (None, s {{ positions_ := m }}).
End json.

(** Files: [None] cannot be opened; the content is [None] when it does not parse. *)
Definition savePositions {J : JsonOps} `{IterOrder} (can_open : bool) (s : PositionManager)
    : bool * option json :=
  let j := toJson s in
  if negb can_open then (false, None) else (true, Some j).

Definition loadPositions {F : FpmOps} {J : JsonOps} `{IterOrder} (file : option (option json))
    (s : PositionManager) : bool * PositionManager :=
  match file with
  | None => (false, s)
  | Some None => (false, s)
  | Some (Some j) =>
      match fromJson j s with
      | (Some b, s') => (b, s')
      | (None, s') => (false, s')
      end
  end.

(** ** Exact arithmetic *)

(** The signed size of a fill, as a number. *)
Definition exact_quantity (fill : Fill.t) : Z :=
  match Fill.side fill with
  | OrderSide.SELL => - Fill.fill_quantity fill
  | OrderSide.BUY => Fill.fill_quantity fill
  end.

(** Total profit and loss marked at [price], in units of 2^-64. *)
Definition exact_pnl (pos : Position.t) (price : Z) : Z :=
  Position.realized_pnl pos * ONE + Position.quantity pos * (price - Position.average_price pos).

(** A fill and a position far enough from the ends of the 64-bit range. *)
Record in_range (fill : Fill.t) (pos : Position.t) : Prop := {
  ir_fill : 0 < Fill.fill_quantity fill;
  ir_quantity : Z.abs (Position.quantity pos) + Fill.fill_quantity fill < 2 ^ 62;
  ir_price : Z.abs (Position.average_price pos) + Z.abs (Fill.fill_price fill) < 2 ^ 62;
  ir_value : (Z.abs (Position.quantity pos) + Fill.fill_quantity fill) *
    (Z.abs (Position.average_price pos) + Z.abs (Fill.fill_price fill)) < 2 ^ 61 * ONE;
  ir_pnl : Z.abs (Position.realized_pnl pos) < 2 ^ 62;
}.

Lemma is_dec_small z : Z.abs z < 2 ^ 63 → is_dec z.
Proof. unfold is_dec, inS. simpl. lia. Qed.

#[export] Hint Resolve is_dec_small : chronos.

Section exact.
Context {F : FpmOps} {HF : FpmLaws F}.

Lemma dabs_abs x : Z.abs x < 2 ^ 63 → dabs x = Z.abs x.
Proof. intros. apply dabs_spec; apply is_dec_small; lia. Qed.

Lemma add_small a b : Z.abs a < 2 ^ 62 → Z.abs b < 2 ^ 62 → a ⊞ b = a + b.
Proof. intros. apply fpm_add_spec; apply is_dec_small; lia. Qed.

Lemma sub_small a b : Z.abs a + Z.abs b < 2 ^ 62 → a ⊟ b = a - b.
Proof. intros. apply fpm_sub_spec; apply is_dec_small; lia. Qed.

Lemma mul_small a b M :
  Z.abs a < 2 ^ 62 → Z.abs b < 2 ^ 62 → Z.abs (a * b) <= M → M < 2 ^ 61 * ONE →
  Z.abs ((a ⊠ b) * ONE - a * b) < ONE ∧ Z.abs (a ⊠ b) <= 2 ^ 61.
Proof.
  intros Ha Hb Hab HM.
  assert (Z.abs ((a ⊠ b) * ONE - a * b) < ONE) as He.
  { apply fpm_mul_spec; [apply is_dec_small; lia..|]. unfold mul_fits, ONE in *. lia. }
  split; [done|]. unfold ONE in *. lia.
Qed.

Lemma signed_quantity_spec fill :
  0 < Fill.fill_quantity fill < 2 ^ 62 → signed_quantity fill = exact_quantity fill.
Proof.
  intros Hf. unfold signed_quantity, exact_quantity. destruct (Fill.side fill); [reflexivity|].
  apply fpm_neg_spec; apply is_dec_small; lia.
Qed.

Lemma exact_quantity_abs fill :
  0 < Fill.fill_quantity fill → Z.abs (exact_quantity fill) = Fill.fill_quantity fill.
Proof. unfold exact_quantity. destruct (Fill.side fill); lia. Qed.

(** The weighted average, to within the rounding of two products and a quotient. *)
Lemma weighted_average_spec q avg f p :
  0 < f → Z.abs q + f < 2 ^ 62 → Z.abs avg + Z.abs p < 2 ^ 62 →
  (Z.abs q + f) * (Z.abs avg + Z.abs p) < 2 ^ 61 * ONE →
  Z.abs (calcWeightedAverage q avg f p * (Z.abs q + f) - (Z.abs q * avg + f * p))
    < 2 * ONE + (Z.abs q + f).
Proof.
  intros Hf Hq Hp Hv. unfold calcWeightedAverage.
  rewrite dabs_abs, add_small by lia. set (n := Z.abs q + f) in *.
  destruct (Z.eqb_spec n 0); [lia|].
  assert (Z.abs (Z.abs q * avg) + Z.abs (f * p) <= n * (Z.abs avg + Z.abs p)) as Hsum
    by (rewrite !Z.abs_mul; unfold n; nia).
  destruct (mul_small (Z.abs q) avg (n * (Z.abs avg + Z.abs p))) as [H1 B1]; [lia..|].
  destruct (mul_small f p (n * (Z.abs avg + Z.abs p))) as [H2 B2]; [lia..|].
  rewrite add_small by lia. set (num := Z.abs q ⊠ avg + f ⊠ p) in *.
  assert (Z.abs (num * ONE) <= n * (Z.abs avg + Z.abs p) + 2 * ONE) as Hnum by (unfold num in *; lia).
  assert (n * (Z.abs avg + Z.abs p) <= n * 2 ^ 62) by (apply Z.mul_le_mono_nonneg_l; lia).
  pose proof (fpm_div_spec num n) as Hdiv.
  assert (Z.abs (num ⊘ n * n - num * ONE) < Z.abs n) as H3.
  { apply Hdiv; [apply is_dec_small; unfold num; lia|apply is_dec_small; lia|].
    split; [lia|]. rewrite (Z.abs_eq n) by lia. unfold ONE in *. lia. }
  unfold num in *. lia.
Qed.

Lemma reduce_spec pos p c :
  0 <= c <= Z.abs (Position.quantity pos) →
  Z.abs (Position.quantity pos) < 2 ^ 62 →
  Z.abs (Position.average_price pos) + Z.abs p < 2 ^ 62 →
  Z.abs (Position.quantity pos) * (Z.abs (Position.average_price pos) + Z.abs p) < 2 ^ 61 * ONE →
  let r := calcRealizedPnLOnReduce pos p c in
  let sgn := if Position.quantity pos >? 0 then 1 else -1 in
  Z.abs (r * ONE - sgn * c * (p - Position.average_price pos)) < ONE ∧ Z.abs r <= 2 ^ 61.
Proof.
  intros Hc Hq Hp Hv. unfold calcRealizedPnLOnReduce. set (avg := Position.average_price pos) in *.
  set (q := Z.abs (Position.quantity pos)) in *.
  assert (∀ d, Z.abs d <= Z.abs avg + Z.abs p → Z.abs (c * d) <= q * (Z.abs avg + Z.abs p)) as Hb
    by (intros d Hd; rewrite Z.abs_mul; nia).
  destruct (Position.quantity pos >? 0); rewrite sub_small by lia.
  - destruct (mul_small c (p - avg) (q * (Z.abs avg + Z.abs p))) as [? ?]; [lia..|apply Hb; lia|exact Hv|].
    split; [|done]. by replace (1 * c * (p - avg)) with (c * (p - avg)) by ring.
  - destruct (mul_small c (avg - p) (q * (Z.abs avg + Z.abs p))) as [? ?]; [lia..|apply Hb; lia|exact Hv|].
    split; [|done]. by replace (-1 * c * (p - avg)) with (c * (avg - p)) by ring.
Qed.

(** *** The branches of [updatePosition] *)

Section branches.
Context (fill : Fill.t) (pos : Position.t) (Hr : in_range fill pos).

Notation q := (Position.quantity pos).
Notation f := (Fill.fill_quantity fill).
Notation avg := (Position.average_price pos).
Notation price := (Fill.fill_price fill).

Lemma branch_signed : signed_quantity fill = exact_quantity fill.
Proof. destruct Hr. apply signed_quantity_spec. lia. Qed.

Lemma branch_flat :
  q = 0 →
  let pos' := filled_position fill (Some pos) in
  Position.quantity pos' = exact_quantity fill ∧ Position.average_price pos' = price ∧
  Position.realized_pnl pos' = Position.realized_pnl pos.
Proof. intros Hq. unfold filled_position. rewrite branch_signed, Hq. done. Qed.

Lemma sign_of_eq x y : sign_of x = sign_of y → (0 < x ∧ 0 < y) ∨ (x < 0 ∧ y < 0) ∨ (x = 0 ∧ y = 0).
Proof.
  unfold sign_of. rewrite !Z.gtb_ltb.
  destruct (Z.ltb_spec 0 x), (Z.ltb_spec x 0), (Z.ltb_spec 0 y), (Z.ltb_spec y 0); lia.
Qed.

Lemma branch_increase :
  0 < q * exact_quantity fill →
  let pos' := filled_position fill (Some pos) in
  Position.quantity pos' = q + exact_quantity fill ∧
  Position.average_price pos' = calcWeightedAverage q avg f price ∧
  Position.realized_pnl pos' = Position.realized_pnl pos.
Proof.
  intros Hs. pose proof (exact_quantity_abs fill (ir_fill _ _ Hr)) as Habs. destruct Hr.
  unfold filled_position. rewrite branch_signed.
  assert (sign_of q ≠ 0 ∧ sign_of q = sign_of (exact_quantity fill)) as [H0 H1].
  { unfold sign_of. rewrite !Z.gtb_ltb. clear -Hs. destruct_ltbs; split; nia. }
  rewrite (proj2 (Z.eqb_neq _ _) H0), (proj2 (Z.eqb_eq _ _) H1). cbn.
  split; [|done]. apply add_small; lia.
Qed.

Lemma branch_opposite :
  q * exact_quantity fill < 0 →
  sign_of q ≠ 0 ∧ sign_of q ≠ sign_of (exact_quantity fill).
Proof. intros Hs. unfold sign_of. rewrite !Z.gtb_ltb. clear -Hs. destruct_ltbs; split; nia. Qed.

Lemma branch_reduce :
  q * exact_quantity fill < 0 → f <= Z.abs q →
  let pos' := filled_position fill (Some pos) in
  Position.quantity pos' = q + exact_quantity fill ∧
  (Position.average_price pos' = if q + exact_quantity fill =? 0 then 0 else avg) ∧
  Position.realized_pnl pos' = Position.realized_pnl pos + calcRealizedPnLOnReduce pos price f.
Proof.
  intros Hs Hle. pose proof (exact_quantity_abs fill (ir_fill _ _ Hr)) as Habs.
  destruct (branch_opposite Hs) as [H0 H1]. destruct Hr as [I1 I2 I3 I4 I5].
  unfold filled_position. rewrite branch_signed.
  rewrite (proj2 (Z.eqb_neq _ _) H0), (proj2 (Z.eqb_neq _ _) H1).
  rewrite !dabs_abs, Habs by lia. rewrite (proj2 (Z.leb_le _ _) Hle).
  assert (q ⊞ exact_quantity fill = q + exact_quantity fill) as Hq by (apply add_small; lia).
  destruct (reduce_spec pos price f) as [_ Hc]; [lia|lia|done|clear -I1 I4; nia|].
  set (c := calcRealizedPnLOnReduce pos price f) in *.
  destruct pos as [sy q0 a0 r0 u0]. cbn [Position.quantity Position.average_price
    Position.realized_pnl] in *. cbn. unfold constant.
  rewrite Hq. destruct (q0 + exact_quantity fill =? 0); cbn; rewrite ?Hq;
    split_and!; try done; apply add_small; lia.
Qed.

Lemma branch_flip :
  q * exact_quantity fill < 0 → Z.abs q < f →
  let pos' := filled_position fill (Some pos) in
  Position.quantity pos' = q + exact_quantity fill ∧ Position.average_price pos' = price ∧
  Position.realized_pnl pos' = Position.realized_pnl pos + calcRealizedPnLOnReduce pos price (Z.abs q).
Proof.
  intros Hs Hlt. pose proof (exact_quantity_abs fill (ir_fill _ _ Hr)) as Habs.
  destruct (branch_opposite Hs) as [H0 H1]. destruct Hr as [I1 I2 I3 I4 I5].
  unfold filled_position. rewrite branch_signed.
  rewrite (proj2 (Z.eqb_neq _ _) H0), (proj2 (Z.eqb_neq _ _) H1).
  rewrite !dabs_abs, Habs by lia. rewrite (proj2 (Z.leb_gt _ _) Hlt).
  destruct (reduce_spec pos price (Z.abs q)) as [_ Hc]; [lia|lia|done|clear -I1 I4; nia|].
  cbn. split_and!; [|done|apply add_small; lia].
  assert ((0 < exact_quantity fill ∧ q < 0) ∨ (exact_quantity fill < 0 ∧ 0 < q)) as Hsg
    by (apply Z.lt_mul_0 in Hs; lia).
  assert ((sign_of (exact_quantity fill) >? 0) = (0 <? exact_quantity fill)) as ->.
  { unfold sign_of. rewrite !Z.gtb_ltb. destruct (Z.ltb_spec 0 (exact_quantity fill)); [done|].
    by destruct (Z.ltb_spec (exact_quantity fill) 0). }
  rewrite sub_small by lia. unfold constant.
  destruct (Z.ltb_spec 0 (exact_quantity fill)); [lia|].
  rewrite fpm_neg_spec by (apply is_dec_small; lia). lia.
Qed.

(** The four ways a fill meets a position. *)
Lemma branch_cases :
  q = 0 ∨ 0 < q * exact_quantity fill ∨
  (q * exact_quantity fill < 0 ∧ f <= Z.abs q) ∨ (q * exact_quantity fill < 0 ∧ Z.abs q < f).
Proof.
  pose proof (exact_quantity_abs fill (ir_fill _ _ Hr)) as Habs. destruct Hr as [I1 _ _ _ _].
  clear Hr. destruct (Z.eq_dec q 0) as [|Hq]; [by left|right].
  assert (exact_quantity fill ≠ 0) by lia.
  assert (q * exact_quantity fill ≠ 0) by nia. lia.
Qed.

Lemma filled_quantity :
  Position.quantity (filled_position fill (Some pos)) = q + exact_quantity fill.
Proof.
  destruct branch_cases as [H|[H|[[H1 H2]|[H1 H2]]]].
  - destruct (branch_flat H) as [-> _]. lia.
  - by destruct (branch_increase H) as [-> _].
  - by destruct (branch_reduce H1 H2) as [-> _].
  - by destruct (branch_flip H1 H2) as [-> _].
Qed.
End branches.
End exact.

(** ** The total value cache *)

(** The value of the non-flat positions of a list, exactly. *)
Definition exact_value {F : FpmOps} (ps : list (Z * Position.t)) : Z :=
  sumZ ((λ '(_, pos), position_value pos) <$> filter (λ '(_, pos), Position.quantity pos ≠ 0) ps).

Lemma total_value_saturates {F : FpmOps} ps raw :
  0 <= raw <= INT64_MAX → Forall (λ '(_, pos), 0 <= position_value pos) ps →
  total_value ps raw = Z.min INT64_MAX (raw + exact_value ps).
Proof.
  intros Hraw Hps. revert raw Hraw.
  induction Hps as [|[s pos] ps Hp Hps IH]; intros raw Hraw; cbn [total_value].
  { unfold exact_value. cbn. lia. }
  unfold exact_value in *. rewrite filter_cons. unfold saturating_add.
  destruct (Z.eqb_spec (Position.quantity pos) 0) as [Hq|Hq].
  - rewrite decide_False by (by intros ?). by apply IH.
  - rewrite decide_True by done. cbn [fmap list_fmap]. rewrite sumZ_cons.
    assert (0 <= sumZ ((λ '(_, pos), position_value pos) <$>
      filter (λ '(_, pos), Position.quantity pos ≠ 0) ps)) as Hrest.
    { apply sumZ_nonneg, Forall_fmap, Forall_forall. intros [sy po] [_ Hin]%list_elem_of_filter.
      rewrite Forall_forall in Hps. exact (Hps _ Hin). }
    rewrite !Z.gtb_ltb. unfold INT64_MAX, INT64_MIN in *.
    destruct (Z.ltb_spec 0 (position_value pos)), (Z.ltb_spec (2 ^ 63 - 1 - position_value pos) raw);
      cbn [andb].
    1: rewrite IH by lia; lia.
    all: destruct (Z.ltb_spec (position_value pos) 0), (Z.ltb_spec raw (- 2 ^ 63 - position_value pos));
      cbn [andb]; try lia; rewrite IH by lia; lia.
Qed.

(** The cache is always what [recalcTotalValue] computes for the positions. *)
Definition cache_ok {F : FpmOps} `{IterOrder} (s : PositionManager) : Prop :=
  total_value_raw_ s = total_value (iter (positions_ s)) 0.

(** ** Sequences of fills *)

Definition apply_fill {F : FpmOps} `{IterOrder} (s : PositionManager) (fill : Fill.t) : PositionManager :=
  (updatePosition fill s).2.

Definition pm_run {F : FpmOps} `{IterOrder} (fills : list Fill.t) : PositionManager :=
  fold_left apply_fill fills PositionManager_init.

Definition quantity_of (sym : Z) (s : PositionManager) : Z :=
  match positions_ s !! sym with Some pos => Position.quantity pos | None => 0 end.

Section runs.
Context {F : FpmOps} {HF : FpmLaws F} `{IterOrder}.

Lemma apply_fill_lookup fill s sym :
  Fill.fill_quantity fill ≠ 0 →
  positions_ (apply_fill s fill) !! sym =
    if decide (Fill.symbol_id fill = sym)
    then Some (filled_position fill (positions_ s !! sym)) else positions_ s !! sym.
Proof.
  intros Hq. unfold apply_fill, updatePosition. rewrite (proj2 (Z.eqb_neq _ _) Hq). cbn.
  case_decide as Hd; [subst sym; apply lookup_insert_eq|by apply lookup_insert_ne].
Qed.

(** A position record is never in an inconsistent shape. *)
Definition position_ok (sym : Z) (pos : Position.t) : Prop :=
  Position.symbol_id pos = sym ∧ (Position.quantity pos = 0 → Position.average_price pos = 0).

Lemma filled_position_ok fill pos :
  in_range fill pos → Position.symbol_id pos = Fill.symbol_id fill →
  position_ok (Fill.symbol_id fill) (filled_position fill (Some pos)).
Proof.
  intros Hr Hsym. split.
  - unfold filled_position. repeat (case_match; try done).
  - rewrite (filled_quantity fill pos Hr). pose proof (exact_quantity_abs fill (ir_fill _ _ Hr)) as Habs.
    pose proof (ir_fill _ _ Hr) as Hf.
    destruct (branch_cases fill pos Hr) as [Hc|[Hc|[[Hc1 Hc2]|[Hc1 Hc2]]]]; intros Hz.
    + lia.
    + exfalso. assert (Position.quantity pos = - exact_quantity fill) as He by lia.
      rewrite He in Hc. clear -Hc. nia.
    + destruct (branch_reduce fill pos Hr Hc1 Hc2) as (_ & -> & _). by rewrite Hz.
    + lia.
Qed.
End runs.

(** ** Properties *)

Section properties.
Context {F : FpmOps} {HF : FpmLaws F}.

(** C2: booking a fill whose amounts are in range ([in_range]: the products and sums fit)
    keeps, in exact numbers and marked at the fill's own price, realised plus unrealised
    profit of the position, whether the fill opens, increases, reduces, closes or flips
    it, up to rounding: less than two roundings of a fixed-point product ([2 * ONE], in
    units of 2^-64) and one raw unit of the average price per raw unit of the quantity held
    afterwards. *)
Theorem fill_preserves_pnl (fill : Fill.t) (pos : Position.t) :
  in_range fill pos →
  let pos' := filled_position fill (Some pos) in
  let price := Fill.fill_price fill in
  Z.abs (exact_pnl pos' price - exact_pnl pos price) < 2 * ONE + Z.abs (Position.quantity pos') + 1.
Proof.
  intros Hr pos' price. pose proof (exact_quantity_abs fill (ir_fill _ _ Hr)) as Habs.
  pose proof Hr as [I1 I2 I3 I4 I5]. unfold exact_pnl. subst pos'.
  assert (∀ c, 0 <= c <= Z.abs (Position.quantity pos) → 
    let r := calcRealizedPnLOnReduce pos price c in
    let sgn := if Position.quantity pos >? 0 then 1 else -1 in
    Z.abs (r * ONE - sgn * c * (price - Position.average_price pos)) < ONE) as Hred.
  { intros c Hc. apply (reduce_spec pos price c Hc); [lia|lia|]. clear -I1 I4. unfold price. nia. }
  destruct (branch_cases fill pos Hr) as [Hc|[Hc|[[Hc1 Hc2]|[Hc1 Hc2]]]].
  - destruct (branch_flat fill pos Hr Hc) as (-> & -> & ->). rewrite Hc. fold price.
    rewrite Z.sub_diag, Z.mul_0_r, Z.mul_0_l. unfold ONE. lia.
  - destruct (branch_increase fill pos Hr Hc) as (-> & -> & ->). fold price.
    pose proof (weighted_average_spec _ _ _ _ I1 I2 I3 I4) as Hw. fold price in Hw.
    set (avg' := calcWeightedAverage _ _ _ _) in *.
    apply Z.lt_0_mul in Hc as [[Hq He]|[Hq He]].
    + assert (exact_quantity fill = Fill.fill_quantity fill) as -> by lia.
      rewrite (Z.abs_eq (Position.quantity pos)) in Hw by lia. clear -Hw Hq I1. lia.
    + assert (exact_quantity fill = - Fill.fill_quantity fill) as -> by lia.
      rewrite (Z.abs_neq (Position.quantity pos)) in Hw by lia. clear -Hw Hq I1. lia.
  - destruct (branch_reduce fill pos Hr Hc1 Hc2) as (-> & Ha & ->). fold price.
    set (c := calcRealizedPnLOnReduce _ _ _).
    specialize (Hred (Fill.fill_quantity fill) ltac:(lia)). fold c in Hred. cbv zeta in Hred.
    assert ((Position.quantity pos + exact_quantity fill) * (price -
        Position.average_price (filled_position fill (Some pos))) =
      (Position.quantity pos + exact_quantity fill) * (price - Position.average_price pos)) as ->.
    { rewrite Ha. destruct (Z.eqb_spec (Position.quantity pos + exact_quantity fill) 0) as [->|]; lia. }
    apply Z.lt_mul_0 in Hc1. rewrite Z.gtb_ltb in Hred.
    destruct (Z.ltb_spec 0 (Position.quantity pos)).
    + replace (exact_quantity fill) with (- Fill.fill_quantity fill) by lia. clear -Hred. lia.
    + replace (exact_quantity fill) with (Fill.fill_quantity fill) by lia. clear -Hred. lia.
  - destruct (branch_flip fill pos Hr Hc1 Hc2) as (-> & -> & ->). fold price.
    set (c := calcRealizedPnLOnReduce _ _ _).
    specialize (Hred (Z.abs (Position.quantity pos)) ltac:(lia)). fold c in Hred. cbv zeta in Hred.
    rewrite Z.sub_diag, Z.mul_0_r. apply Z.lt_mul_0 in Hc1. rewrite Z.gtb_ltb in Hred.
    destruct (Z.ltb_spec 0 (Position.quantity pos)).
    + rewrite (Z.abs_eq (Position.quantity pos)) in Hred by lia. clear -Hred. lia.
    + rewrite (Z.abs_neq (Position.quantity pos)) in Hred by lia. clear -Hred. lia.
Qed.

(** Buy 2 at 100, then sell 5 at 103: the position flips. *)
Definition long_position : Position.t := Position.mk 7 (2 * ONE) (100 * ONE) 0 1.
Definition big_sell : Fill.t :=
  Fill.mk 1 1 1 5 5 (103 * ONE) (5 * ONE) 7 1 1 OrderSide.SELL 0.
End properties.

Lemma fill_preserves_pnl_witness :
  Z.abs (exact_pnl (filled_position (F := FpmRef) big_sell (Some long_position)) (103 * ONE)
         - exact_pnl long_position (103 * ONE)) < 2 * ONE + 3 * ONE + 1.
Proof.
  eapply Z.lt_le_trans; [apply (fill_preserves_pnl (F := FpmRef) big_sell long_position)|];
    [by split; vm_compute|vm_compute; discriminate].
Defined.

Section quantities.
Context {F : FpmOps} {HF : FpmLaws F} `{IterOrder}.

Lemma filled_quantity_exact fill pos :
  0 < Fill.fill_quantity fill → Z.abs (Position.quantity pos) + Fill.fill_quantity fill < 2 ^ 62 →
  Position.quantity (filled_position fill (Some pos)) = Position.quantity pos + exact_quantity fill.
Proof.
  intros Hf Hq. pose proof (exact_quantity_abs fill Hf) as Habs.
  unfold filled_position. rewrite signed_quantity_spec by lia.
  destruct (Z.eqb_spec (sign_of (Position.quantity pos)) 0) as [E0|E0].
  { apply (sign_of_eq (Position.quantity pos) 0) in E0. cbn. unfold constant. lia. }
  destruct (Z.eqb_spec (sign_of (Position.quantity pos)) (sign_of (exact_quantity fill))) as [E1|E1].
  { cbn. apply add_small; lia. }
  rewrite !dabs_abs, Habs by lia. destruct (Z.leb_spec (Fill.fill_quantity fill) (Z.abs (Position.quantity pos))).
  - cbn. unfold constant. rewrite add_small by lia. by destruct (_ =? 0).
  - cbn. unfold constant. rewrite sub_small by lia. revert E0 E1. unfold sign_of. rewrite !Z.gtb_ltb.
    destruct (Z.ltb_spec 0 (Position.quantity pos)), (Z.ltb_spec (Position.quantity pos) 0),
      (Z.ltb_spec 0 (exact_quantity fill)), (Z.ltb_spec (exact_quantity fill) 0);
      intros E0 E1; try lia; cbn [Z.ltb Z.compare]; try lia;
      rewrite fpm_neg_spec by (apply is_dec_small; lia); lia.
Qed.

Lemma pm_run_snoc fills fill : pm_run (fills ++ [fill]) = apply_fill (pm_run fills) fill.
Proof. unfold pm_run. by rewrite fold_left_app. Qed.

Lemma quantity_of_apply sym s fill :
  0 < Fill.fill_quantity fill → Z.abs (quantity_of sym s) + Fill.fill_quantity fill < 2 ^ 62 →
  quantity_of sym (apply_fill s fill) =
    quantity_of sym s + if decide (Fill.symbol_id fill = sym) then exact_quantity fill else 0.
Proof.
  intros Hf Hq. unfold quantity_of in *. rewrite apply_fill_lookup by lia.
  case_decide; [|destruct (positions_ s !! sym); lia].
  destruct (positions_ s !! sym) as [pos|].
  - by rewrite filled_quantity_exact.
  - cbn. by rewrite signed_quantity_spec by lia.
Qed.

Lemma run_quantity_bound fills sym :
  Forall (λ f, 0 < Fill.fill_quantity f) fills →
  sumZ (Fill.fill_quantity <$> fills) < 2 ^ 62 →
  quantity_of sym (pm_run fills) =
    sumZ (exact_quantity <$> filter (λ f, Fill.symbol_id f = sym) fills) ∧
  Z.abs (quantity_of sym (pm_run fills)) <= sumZ (Fill.fill_quantity <$> fills).
Proof.
  induction fills as [|fill fills IH] using rev_ind; intros Hpos Hsum.
  { unfold quantity_of. cbn. rewrite lookup_empty. cbn. lia. }
  rewrite fmap_app, sumZ_app in *. cbn [fmap list_fmap] in *. rewrite sumZ_cons in *.
  apply Forall_app in Hpos as [Hpos [Hf _]%Forall_cons].
  change (sumZ []) with 0 in *. destruct (IH Hpos ltac:(lia)) as [Heq Hb].
  rewrite pm_run_snoc, quantity_of_apply by lia.
  pose proof (exact_quantity_abs fill Hf) as Habs.
  rewrite filter_app, filter_cons, filter_nil, fmap_app, sumZ_app.
  case_decide; cbn [fmap list_fmap]; rewrite ?sumZ_cons; change (sumZ []) with 0; lia.
Qed.

(** C8: quantities are conserved: after any sequence of positive fills (in total less
    than 2^62 raw units) the position in a symbol is exactly the sum of its signed
    fills, however often it was reduced, closed or flipped on the way. *)
Theorem quantity_conserved (fills : list Fill.t) (sym : Z) :
  Forall (λ f, 0 < Fill.fill_quantity f) fills →
  sumZ (Fill.fill_quantity <$> fills) < 2 ^ 62 →
  quantity_of sym (pm_run fills) =
    sumZ (exact_quantity <$> filter (λ f, Fill.symbol_id f = sym) fills).
Proof. intros. by apply run_quantity_bound. Qed.

Lemma exact_value_perm ps1 ps2 : ps1 ≡ₚ ps2 → exact_value ps1 = exact_value ps2.
Proof. intros HP. unfold exact_value. by rewrite HP. Qed.

(** C9: the lock-free total the risk engine reads is, after every fill, the sum of
    |quantity| * average price over the open positions, saturated at the top of the
    64-bit range instead of wrapping, whatever order the hash map iterates in. *)
Theorem cached_total_value (s : PositionManager) (fill : Fill.t) :
  Fill.fill_quantity fill ≠ 0 →
  (∀ sym pos, positions_ (apply_fill s fill) !! sym = Some pos → 0 <= position_value pos) →
  getTotalValueCached (apply_fill s fill) =
    Z.min INT64_MAX (exact_value (map_to_list (positions_ (apply_fill s fill)))).
Proof.
  intros Hq Hval. unfold getTotalValueCached.
  assert (total_value_raw_ (apply_fill s fill) = total_value (iter (positions_ (apply_fill s fill))) 0)
    as ->.
  { unfold apply_fill, updatePosition. by rewrite (proj2 (Z.eqb_neq _ _) Hq). }
  set (m := positions_ (apply_fill s fill)) in *.
  rewrite total_value_saturates.
  - by rewrite (exact_value_perm _ _ (iter_perm m)).
  - unfold INT64_MAX. lia.
  - rewrite (iter_perm m). apply Forall_forall. intros [sym pos] Hin%elem_of_map_to_list.
    by eapply Hval.
Qed.
End quantities.

Lemma quantity_conserved_witness :
  quantity_of 7 (pm_run (H := iter_default) (F := FpmRef)
    [Fill.mk 1 1 1 5 5 (100 * ONE) (2 * ONE) 7 1 1 OrderSide.BUY 0; big_sell]) = - 3 * ONE.
Proof.
  etrans; [apply (quantity_conserved (F := FpmRef)); [by repeat constructor|reflexivity]|reflexivity].
Defined.

Lemma cached_total_value_witness :
  getTotalValueCached (apply_fill (F := FpmRef) (H := iter_default) PositionManager_init big_sell)
    = 515 * ONE.
Proof.
  etrans; [apply (cached_total_value (F := FpmRef) (H := iter_default) PositionManager_init big_sell)|
    reflexivity]; [done|].
  intros sym pos Hl. rewrite apply_fill_lookup in Hl by done. case_decide; [|done].
  injection Hl as <-. vm_compute. discriminate.
Defined.

(** *** Persistence *)

Section persistence.
Context {F : FpmOps} {J : JsonOps} {HJ : JsonLaws J} `{IterOrder}.

(** Field values that survive the casts of [fromJson], under their own key. *)
Definition storable (m : gmap Z Position.t) : Prop :=
  ∀ sym pos, m !! sym = Some pos →
    Position.symbol_id pos = sym ∧ inU 32 sym ∧ is_dec (Position.quantity pos) ∧
    is_dec (Position.average_price pos) ∧ is_dec (Position.realized_pnl pos) ∧
    inU 64 (Position.last_update_us pos).

Lemma get_int64_int z : is_dec z → get_int64 (j_int z) = Some z.
Proof. intros Hz. unfold get_int64. rewrite j_get_int_int. cbn. by rewrite s64_id. Qed.

Lemma parse_entry_fields pos :
  inU 32 (Position.symbol_id pos) → is_dec (Position.quantity pos) →
  is_dec (Position.average_price pos) → is_dec (Position.realized_pnl pos) →
  inU 64 (Position.last_update_us pos) →
  parse_entry (j_object (position_fields pos)) = Some (Some pos).
Proof.
  intros H1 H2 H3 H4 H5. unfold parse_entry.
  assert (NoDup (position_fields pos).*1) as Hnd by (cbn; repeat constructor; set_solver).
  assert (∀ k v, (k, v) ∈ position_fields pos → j_contains (j_object (position_fields pos)) k = true)
    as Hc by apply j_contains_object.
  rewrite (Hc "symbol_id" (j_int (Position.symbol_id pos)))%string by (repeat constructor).
  rewrite (Hc "quantity_raw" (j_int (Position.quantity pos)))%string by (repeat constructor).
  rewrite (Hc "average_price_raw" (j_int (Position.average_price pos)))%string by (repeat constructor).
  rewrite (Hc "realized_pnl_raw" (j_int (Position.realized_pnl pos)))%string by (repeat constructor).
  cbn [negb orb].
  erewrite (get_at_object (get_uint 32)); [|done|by repeat constructor|by apply get_uint_int].
  erewrite (get_at_object get_int64 _ "quantity_raw"); [|done|by repeat constructor|by apply get_int64_int].
  erewrite (get_at_object get_int64 _ "average_price_raw"); [|done|by repeat constructor|by apply get_int64_int].
  erewrite (get_at_object get_int64 _ "realized_pnl_raw"); [|done|by repeat constructor|by apply get_int64_int].
  erewrite (get_or_object (get_uint 64)); [|done|by repeat constructor|by apply get_uint_int].
  by destruct pos.
Qed.

Lemma load_entries_ok ps m :
  NoDup ps.*1 →
  Forall (λ '(sym, pos), Position.symbol_id pos = sym ∧
    parse_entry (j_object (position_fields pos)) = Some (Some pos)) ps →
  load_entries ((λ '(_, pos), j_object (position_fields pos)) <$> ps) m
    = (true, list_to_map ps ∪ m).
Proof.
  intros Hnd Hps. revert m Hnd. induction Hps as [|[sym pos] ps [Hsym Hparse] Hps IH]; intros m Hnd.
  { cbn. by rewrite (left_id_L ∅ (∪)). }
  cbn [fmap list_fmap load_entries]. rewrite Hparse. cbn in Hnd. apply NoDup_cons in Hnd as [Hin Hnd].
  rewrite IH by done. rewrite Hsym. cbn. f_equal.
  rewrite <-insert_union_l, <-insert_union_r; [done|].
  by apply not_elem_of_list_to_map_1.
Qed.

Lemma NoDup_fst_filter (P : Z * Position.t → Prop) `{∀ x, Decision (P x)} ps :
  NoDup ps.*1 → NoDup (filter P ps).*1.
Proof.
  induction ps as [|[k p] ps IH]; intros Hnd; [done|]. cbn in Hnd. apply NoDup_cons in Hnd as [Hin Hnd].
  rewrite filter_cons. case_decide; [|by apply IH]. cbn. apply NoDup_cons. split; [|by apply IH].
  intros ([k' p'] & -> & Hp)%list_elem_of_fmap. apply list_elem_of_filter in Hp as [_ Hp].
  apply Hin. apply list_elem_of_fmap. by exists (k', p').
Qed.

(** C29: saving and loading keeps every open position exactly; positions that are flat,
    and with them their realised profit and loss, are not restored. *)
Theorem json_roundtrip (s s0 : PositionManager) :
  storable (positions_ s) →
  ∃ s', fromJson (toJson s) s0 = (Some true, s') ∧
    positions_ s' = filter (λ '(_, pos), Position.quantity pos ≠ 0) (positions_ s) ∧
    total_value_raw_ s' = total_value (iter (positions_ s')) 0.
Proof.
  intros Hst. unfold fromJson, toJson. rewrite j_is_array_array, j_elements_array. cbn [negb].
  assert (NoDup (filter (λ '(_, pos), Position.quantity pos ≠ 0) (iter (positions_ s))).*1) as Hnd.
  { apply NoDup_fst_filter. rewrite (iter_perm (positions_ s)). apply NoDup_fst_map_to_list. }
  rewrite load_entries_ok; [|done|].
  - eexists. split_and!; [done| |done]. cbn [positions_ recalcTotalValue].
    cbn. unfold constant. rewrite (right_id_L ∅ (∪)).
    rewrite (list_to_map_proper _ (filter (λ '(_, pos), Position.quantity pos ≠ 0)
      (map_to_list (positions_ s)))); [by rewrite map_filter_alt|done|]. by rewrite (iter_perm (positions_ s)).
  - apply Forall_forall. intros [sym pos] [_ Hin]%list_elem_of_filter.
    rewrite (iter_perm (positions_ s)), elem_of_map_to_list in Hin.
    destruct (Hst sym pos Hin) as (<- & ?). split; [done|]. naive_solver auto using parse_entry_fields.
Qed.
End persistence.

Lemma json_roundtrip_witness :
  ∃ s', fromJson (F := FpmRef) (J := JsonRef) (H := iter_default)
      (toJson (H := iter_default) (mkPM {[7 := long_position; 8 := Position.mk 8 0 0 5 3]} 0))
      PositionManager_init = (Some true, s') ∧
    positions_ s' = {[7 := long_position]}.
Proof.
  destruct (json_roundtrip (F := FpmRef) (J := JsonRef) (H := iter_default)
    (mkPM {[7 := long_position; 8 := Position.mk 8 0 0 5 3]} 0) PositionManager_init)
    as (s' & Hj & Hp & _).
  { intros sym pos Hl. cbn [positions_] in Hl.
    apply lookup_insert_Some in Hl as [[<- <-]|[_ [<- <-]%lookup_singleton_Some]];
      split_and!; by vm_compute. }
  exists s'. split; [exact Hj|]. rewrite Hp. vm_compute. reflexivity.
Defined.
