(* ===== verification/Config.v ===== *)
(** Configuration (include/chronos/core/config.hpp, src/core/config.cpp): the
    structures with their defaults, validation, the JSON form and the file it is kept in. *)
From S2P Require Import Prelude.
From S2P Require Import FixedPoint.
From S2P Require Import Json.
From S2P Require Import JsonText.
From Stdlib Require Import SpecFloat.

Definition d0 : double := d_of_Z 0.

(** [a > b] on doubles *)
Definition dgtb (a b : double) : bool := dltb b a.

Definition non_empty (s : string) : bool := negb (String.eqb s EmptyString).

(** [x == 0 || x > hi], the range check of the integer settings. *)
Definition out_of_range (x hi : Z) : bool := (x =? 0) || (x >? hi).

Section config.
Context {J : JsonOps}.

Record ExchangeConfig := mkExchangeConfig {
  ex_name : string;
  websocket_url : string;
  rest_url : string;
  user_stream_url : string;
  proxy_host : string;
  proxy_port : Z;
  api_key : string;
  api_secret : string;
  symbols : list string;
  reconnect_interval_ms : Z;
  heartbeat_interval_ms : Z;
  timeout_ms : Z;
}.

Definition ExchangeConfig_default : ExchangeConfig :=
  mkExchangeConfig EmptyString EmptyString EmptyString EmptyString EmptyString 0 EmptyString EmptyString [] 5000 30000 10000.

Definition validate_exchange (c : ExchangeConfig) : bool :=
  if negb (non_empty (ex_name c)) then false
  else if negb (non_empty (websocket_url c)) then false
  else if bool_decide (symbols c = []) then false
  else if out_of_range (reconnect_interval_ms c) 60000 then false
  else if out_of_range (heartbeat_interval_ms c) 120000 then false
  else if out_of_range (timeout_ms c) 60000 then false
  else true.

Record StrategyConfig := mkStrategyConfig {
  st_name : string;
  library_path : string;
  parameters : json;
  symbol_ids : list Z;
  enabled : bool;
}.

Definition validate_strategy (c : StrategyConfig) : bool :=
  if negb (non_empty (st_name c)) then false
  else if bool_decide (symbol_ids c = []) then false
  else true.

Record RiskParameters := mkRiskParameters {
  max_order_value : double;
  max_position_value : double;
  max_orders_per_second : Z;
  max_total_position_value : double;
  min_available_capital : double;
  max_drawdown_percent : double;
}.

Definition RiskParameters_default : RiskParameters :=
  mkRiskParameters (d_of_Z 100000) (d_of_Z 500000) 100 (d_of_Z 1000000) (d_of_Z 10000) (d_of_Z 20).

Definition validate_risk (p : RiskParameters) : bool :=
  if dleb (max_order_value p) d0 then false
  else if dleb (max_position_value p) d0 then false
  else if out_of_range (max_orders_per_second p) 10000 then false
  else if dleb (max_total_position_value p) d0 then false
  else if dltb (min_available_capital p) d0 then false
  else if dleb (max_drawdown_percent p) d0 || dgtb (max_drawdown_percent p) (d_of_Z 100) then false
  else if dgtb (max_order_value p) (max_position_value p) then false
  else if dgtb (max_position_value p) (max_total_position_value p) then false
  else true.

Record LogConfig := mkLogConfig {
  log_dir : string;
  buffer_size : Z;
  flush_interval_ms : Z;
  retention_days : Z;
  compress_old_logs : bool;
  enable_tick_logging : bool;
  enable_order_logging : bool;
  enable_fill_logging : bool;
  enable_snapshot_logging : bool;
}.

Definition LogConfig_default : LogConfig :=
  mkLogConfig "./logs" 65536 100 30 true true true true false.

Definition validate_log (c : LogConfig) : bool :=
  if negb (non_empty (log_dir c)) then false
  else if out_of_range (buffer_size c) 10485760 then false
  else if out_of_range (flush_interval_ms c) 10000 then false
  else if out_of_range (retention_days c) 3650 then false
  else true.

Record ZMQConfig := mkZMQConfig {
  publish_endpoint : string;
  high_water_mark : Z;
  linger_ms : Z;
}.

Definition ZMQConfig_default : ZMQConfig := mkZMQConfig "tcp://*:5555" 10000 1000.

Definition validate_zmq (c : ZMQConfig) : bool :=
  if negb (non_empty (publish_endpoint c)) then false
  else if out_of_range (high_water_mark c) 1000000 then false
  else if linger_ms c >? 30000 then false
  else true.

Record MonitoringConfig := mkMonitoringConfig {
  enable_metrics : bool;
  metrics_port : Z;
  enable_health_check : bool;
  health_check_port : Z;
  metrics_update_interval_ms : Z;
}.

Definition MonitoringConfig_default : MonitoringConfig := mkMonitoringConfig true 9090 true 8080 1000.

Definition validate_monitoring (c : MonitoringConfig) : bool :=
  if enable_metrics c && out_of_range (metrics_port c) 65535 then false
  else if enable_health_check c && out_of_range (health_check_port c) 65535 then false
  else if enable_metrics c && enable_health_check c && (metrics_port c =? health_check_port c) then false
  else if out_of_range (metrics_update_interval_ms c) 60000 then false
  else true.

Record SystemConfig := mkSystemConfig {
  exchanges : list ExchangeConfig;
  strategies : list StrategyConfig;
  risk_parameters : RiskParameters;
  log_config : LogConfig;
  zmq_config : ZMQConfig;
  monitoring_config : MonitoringConfig;
  initial_capital : double;
  state_file : string;
}.

Definition SystemConfig_default : SystemConfig :=
  mkSystemConfig [] [] RiskParameters_default LogConfig_default ZMQConfig_default
    MonitoringConfig_default (d_of_Z 1000000) "./state/system_state.json".

(** The loops stop at the first element that does not validate. *)
Definition validate (c : SystemConfig) : bool :=
  if dleb (initial_capital c) d0 then false
  else if negb (non_empty (state_file c)) then false
  else if bool_decide (length (exchanges c) = 0%nat) then false
  else if negb (forallb validate_exchange (exchanges c)) then false
  else if bool_decide (length (strategies c) = 0%nat) then false
  else if negb (forallb validate_strategy (strategies c)) then false
  else if negb (validate_risk (risk_parameters c)) then false
  else if negb (validate_log (log_config c)) then false
  else if negb (validate_zmq (zmq_config c)) then false
  else if negb (validate_monitoring (monitoring_config c)) then false
  else true.

(** ** JSON

    [from_json] starts from the defaults; [None] is an exception. *)

Definition exchange_to_json (c : ExchangeConfig) : json :=
  j_object [("name", j_string (ex_name c)); ("websocket_url", j_string (websocket_url c));
    ("rest_url", j_string (rest_url c)); ("user_stream_url", j_string (user_stream_url c));
    ("proxy_host", j_string (proxy_host c)); ("proxy_port", j_int (proxy_port c));
    ("api_key", j_string (api_key c)); ("api_secret", j_string (api_secret c));
    ("symbols", j_array (j_string <$> symbols c));
    ("reconnect_interval_ms", j_int (reconnect_interval_ms c));
    ("heartbeat_interval_ms", j_int (heartbeat_interval_ms c));
    ("timeout_ms", j_int (timeout_ms c))]%string.

(** [get_to] of a vector. *)
Definition get_vector {A} (get : json → option A) (j : json) : option (list A) :=
  j_get_array j ≫= mapM get.

Definition exchange_from_json (j : json) : option ExchangeConfig :=
  let d := ExchangeConfig_default in
  name ← get_at j_get_string j "name";
  ws ← get_at j_get_string j "websocket_url";
  key ← get_at j_get_string j "api_key";
  secret ← get_at j_get_string j "api_secret";
  syms ← get_at (get_vector j_get_string) j "symbols";
  rest ← get_or j_get_string (rest_url d) j "rest_url";
  user ← get_or j_get_string (user_stream_url d) j "user_stream_url";
  phost ← get_or j_get_string (proxy_host d) j "proxy_host";
  pport ← get_or (get_uint 16) (proxy_port d) j "proxy_port";
  rec_ms ← get_or (get_uint 32) (reconnect_interval_ms d) j "reconnect_interval_ms";
  hb_ms ← get_or (get_uint 32) (heartbeat_interval_ms d) j "heartbeat_interval_ms";
  to_ms ← get_or (get_uint 32) (timeout_ms d) j "timeout_ms";
  Some (mkExchangeConfig name ws rest user phost pport key secret syms rec_ms hb_ms to_ms).

Definition strategy_to_json (c : StrategyConfig) : json :=
  j_object [("name", j_string (st_name c)); ("library_path", j_string (library_path c));
    ("parameters", parameters c); ("symbol_ids", j_array (j_int <$> symbol_ids c));
    ("enabled", j_bool (enabled c))]%string.

Definition strategy_from_json (j : json) : option StrategyConfig :=
  name ← get_at j_get_string j "name";
  lib ← get_at j_get_string j "library_path";
  params ← get_at Some j "parameters";
  ids ← get_at (get_vector (get_uint 32)) j "symbol_ids";
  en ← get_or j_get_bool true j "enabled";
  Some (mkStrategyConfig name lib params ids en).

Definition risk_to_json (p : RiskParameters) : json :=
  j_object [("max_order_value", j_double (max_order_value p));
    ("max_position_value", j_double (max_position_value p));
    ("max_orders_per_second", j_int (max_orders_per_second p));
    ("max_total_position_value", j_double (max_total_position_value p));
    ("min_available_capital", j_double (min_available_capital p));
    ("max_drawdown_percent", j_double (max_drawdown_percent p))]%string.

Definition risk_from_json (j : json) : option RiskParameters :=
  ov ← get_at j_get_double j "max_order_value";
  pv ← get_at j_get_double j "max_position_value";
  ops ← get_at (get_uint 32) j "max_orders_per_second";
  tv ← get_at j_get_double j "max_total_position_value";
  mc ← get_at j_get_double j "min_available_capital";
  dd ← get_at j_get_double j "max_drawdown_percent";
  Some (mkRiskParameters ov pv ops tv mc dd).

Definition log_to_json (c : LogConfig) : json :=
  j_object [("log_dir", j_string (log_dir c)); ("buffer_size", j_int (buffer_size c));
    ("flush_interval_ms", j_int (flush_interval_ms c));
    ("retention_days", j_int (retention_days c));
    ("compress_old_logs", j_bool (compress_old_logs c));
    ("enable_tick_logging", j_bool (enable_tick_logging c));
    ("enable_order_logging", j_bool (enable_order_logging c));
    ("enable_fill_logging", j_bool (enable_fill_logging c));
    ("enable_snapshot_logging", j_bool (enable_snapshot_logging c))]%string.

Definition log_from_json (j : json) : option LogConfig :=
  let d := LogConfig_default in
  dir ← get_at j_get_string j "log_dir";
  buf ← get_or (get_uint 64) (buffer_size d) j "buffer_size";
  fl ← get_or (get_uint 32) (flush_interval_ms d) j "flush_interval_ms";
  ret ← get_or (get_uint 32) (retention_days d) j "retention_days";
  comp ← get_or j_get_bool (compress_old_logs d) j "compress_old_logs";
  et ← get_or j_get_bool (enable_tick_logging d) j "enable_tick_logging";
  eo ← get_or j_get_bool (enable_order_logging d) j "enable_order_logging";
  ef ← get_or j_get_bool (enable_fill_logging d) j "enable_fill_logging";
  es ← get_or j_get_bool (enable_snapshot_logging d) j "enable_snapshot_logging";
  Some (mkLogConfig dir buf fl ret comp et eo ef es).

Definition zmq_to_json (c : ZMQConfig) : json :=
  j_object [("publish_endpoint", j_string (publish_endpoint c));
    ("high_water_mark", j_int (high_water_mark c)); ("linger_ms", j_int (linger_ms c))]%string.

Definition zmq_from_json (j : json) : option ZMQConfig :=
  let d := ZMQConfig_default in
  ep ← get_at j_get_string j "publish_endpoint";
  hwm ← get_or (get_uint 32) (high_water_mark d) j "high_water_mark";
  lg ← get_or (get_uint 32) (linger_ms d) j "linger_ms";
  Some (mkZMQConfig ep hwm lg).

Definition monitoring_to_json (c : MonitoringConfig) : json :=
  j_object [("enable_metrics", j_bool (enable_metrics c)); ("metrics_port", j_int (metrics_port c));
    ("enable_health_check", j_bool (enable_health_check c));
    ("health_check_port", j_int (health_check_port c));
    ("metrics_update_interval_ms", j_int (metrics_update_interval_ms c))]%string.

Definition monitoring_from_json (j : json) : option MonitoringConfig :=
  let d := MonitoringConfig_default in
  em ← get_or j_get_bool (enable_metrics d) j "enable_metrics";
  mp ← get_or (get_uint 16) (metrics_port d) j "metrics_port";
  eh ← get_or j_get_bool (enable_health_check d) j "enable_health_check";
  hp ← get_or (get_uint 16) (health_check_port d) j "health_check_port";
  ui ← get_or (get_uint 32) (metrics_update_interval_ms d) j "metrics_update_interval_ms";
  Some (mkMonitoringConfig em mp eh hp ui).

Definition to_json (c : SystemConfig) : json :=
  j_object [("exchanges", j_array (exchange_to_json <$> exchanges c));
    ("strategies", j_array (strategy_to_json <$> strategies c));
    ("risk_parameters", risk_to_json (risk_parameters c));
    ("log_config", log_to_json (log_config c)); ("zmq_config", zmq_to_json (zmq_config c));
    ("monitoring_config", monitoring_to_json (monitoring_config c));
    ("initial_capital", j_double (initial_capital c));
    ("state_file", j_string (state_file c))]%string.

Definition from_json (j : json) : option SystemConfig :=
  let d := SystemConfig_default in
  ex ← get_at (get_vector exchange_from_json) j "exchanges";
  st ← get_at (get_vector strategy_from_json) j "strategies";
  ri ← get_at risk_from_json j "risk_parameters";
  lo ← get_at log_from_json j "log_config";
  zm ← get_or zmq_from_json (zmq_config d) j "zmq_config";
  mo ← get_or monitoring_from_json (monitoring_config d) j "monitoring_config";
  ic ← get_or j_get_double (initial_capital d) j "initial_capital";
  sf ← get_or j_get_string (state_file d) j "state_file";
  Some (mkSystemConfig ex st ri lo zm mo ic sf).

(** *** [toJson] and [fromJson], which every configuration has *)

Class Serialized (T : Type) := {
  toJson : T → json;
  fromJson : json → option T;
}.

Definition ExchangeConfig_json : Serialized ExchangeConfig := {| toJson := exchange_to_json; fromJson := exchange_from_json |}.
Definition StrategyConfig_json : Serialized StrategyConfig := {| toJson := strategy_to_json; fromJson := strategy_from_json |}.
Definition RiskParameters_json : Serialized RiskParameters := {| toJson := risk_to_json; fromJson := risk_from_json |}.
Definition LogConfig_json : Serialized LogConfig := {| toJson := log_to_json; fromJson := log_from_json |}.
Definition ZMQConfig_json : Serialized ZMQConfig := {| toJson := zmq_to_json; fromJson := zmq_from_json |}.
Definition MonitoringConfig_json : Serialized MonitoringConfig := {| toJson := monitoring_to_json; fromJson := monitoring_from_json |}.
Definition SystemConfig_json : Serialized SystemConfig := {| toJson := to_json; fromJson := from_json |}.
#[export] Existing Instances ExchangeConfig_json StrategyConfig_json RiskParameters_json LogConfig_json ZMQConfig_json MonitoringConfig_json SystemConfig_json.

(** [loadFromFile] of the text in the file, [None] when it cannot be opened. Every
    failure is an exception. *)
Definition loadFromFile {T : JsonText J} (file : option string) : option SystemConfig :=
  text ← file; j ← j_parse text; config ← from_json j;
  if validate config then Some config else None.

(** [saveToFile]: the result, [None] for an exception, and what the file holds
    afterwards, [None] when it was not touched. [write] is the output stream: [good()]
    after a text, and what has reached the file. Opening the file empties it. *)
Definition saveToFile {T : JsonText J} (can_open : bool) (write : string → bool * string) (c : SystemConfig)
    : option bool * option string :=
  if negb (validate c) then (Some false, None)
  else if negb can_open then (Some false, None)
  else match j_dump 4 (to_json c) with
       | None => (None, Some EmptyString)
       | Some text => let '(good, stored) := write text in (Some good, Some stored)
       end.

(** ** Round trip *)

(** Settings within the width of their fields. *)
Definition exchange_fits (c : ExchangeConfig) : Prop :=
  inU 16 (proxy_port c) ∧ inU 32 (reconnect_interval_ms c) ∧ inU 32 (heartbeat_interval_ms c) ∧
  inU 32 (timeout_ms c).
Definition strategy_fits (c : StrategyConfig) : Prop := Forall (inU 32) (symbol_ids c).
Definition log_fits (c : LogConfig) : Prop :=
  inU 64 (buffer_size c) ∧ inU 32 (flush_interval_ms c) ∧ inU 32 (retention_days c).
Definition zmq_fits (c : ZMQConfig) : Prop := inU 32 (high_water_mark c) ∧ inU 32 (linger_ms c).
Definition monitoring_fits (c : MonitoringConfig) : Prop :=
  inU 16 (metrics_port c) ∧ inU 16 (health_check_port c) ∧ inU 32 (metrics_update_interval_ms c).
Definition config_fits (c : SystemConfig) : Prop :=
  Forall exchange_fits (exchanges c) ∧ Forall strategy_fits (strategies c) ∧
  inU 32 (max_orders_per_second (risk_parameters c)) ∧ log_fits (log_config c) ∧
  zmq_fits (zmq_config c) ∧ monitoring_fits (monitoring_config c).

(** The strings are UTF-8. *)
Definition all_utf8 (l : list string) : Prop := forallb utf8_valid l = true.
Definition exchange_utf8 (c : ExchangeConfig) : Prop :=
  all_utf8 [ex_name c; websocket_url c; rest_url c; user_stream_url c; proxy_host c; api_key c; api_secret c] ∧
  all_utf8 (symbols c).
(** The parameters of a strategy are any document: one that keeps its text. *)
Definition strategy_utf8 {T : JsonText J} (c : StrategyConfig) : Prop :=
  all_utf8 [st_name c; library_path c] ∧ writes_as (parameters c) (parameters c).
Definition config_utf8 {T : JsonText J} (c : SystemConfig) : Prop :=
  Forall exchange_utf8 (exchanges c) ∧ Forall strategy_utf8 (strategies c) ∧
  all_utf8 [log_dir (log_config c); publish_endpoint (zmq_config c); state_file c].

(** The amounts are numbers. *)
Definition risk_finite (p : RiskParameters) : bool :=
  forallb d_finite [max_order_value p; max_position_value p; max_total_position_value p;
                    min_available_capital p; max_drawdown_percent p].
Definition config_finite (c : SystemConfig) : bool :=
  risk_finite (risk_parameters c) && d_finite (initial_capital c).
End config.

(** The keys of an object literal are distinct. *)
Ltac distinct_keys :=
  lazymatch goal with
  | |- context [j_object ?fs] =>
      assert (NoDup fs.*1) by (apply (bool_decide_unpack _); vm_compute; exact I)
  end.

(** Read back the members of an object literal one after the other. *)
Ltac read_members :=
  repeat lazymatch goal with
  | |- context [get_at ?g (j_object ?fs) ?k] =>
      erewrite (get_at_object g fs k); [|assumption|by repeat constructor|eauto with chronos]; cbn [mbind option_bind]
  | |- context [get_or ?g ?d (j_object ?fs) ?k] =>
      erewrite (get_or_object g d fs k); [|assumption|by repeat constructor|eauto with chronos]; cbn [mbind option_bind]
  end.

Section roundtrip.
Context {J : JsonOps} {HJ : JsonLaws J}.

Lemma strings_roundtrip l : get_vector j_get_string (j_array (j_string <$> l)) = Some l.
Proof.
  unfold get_vector. rewrite j_get_array_array. cbn. apply mapM_fmap_id.
  apply Forall_true. apply j_get_string_string.
Qed.

Lemma ids_roundtrip w l : Forall (inU w) l → get_vector (get_uint w) (j_array (j_int <$> l)) = Some l.
Proof.
  intros Hl. unfold get_vector. rewrite j_get_array_array. cbn. apply mapM_fmap_id.
  eapply Forall_impl; [done|]. intros z. apply get_uint_int.
Qed.

Hint Resolve strings_roundtrip ids_roundtrip : chronos.
Hint Resolve j_get_string_string j_get_bool_bool j_get_double_double : chronos.

Lemma exchange_roundtrip c : exchange_fits c → exchange_from_json (exchange_to_json c) = Some c.
Proof.
  intros (? & ? & ? & ?). unfold exchange_from_json, exchange_to_json.
  distinct_keys. read_members. by destruct c.
Qed.

Lemma strategy_roundtrip c : strategy_fits c → strategy_from_json (strategy_to_json c) = Some c.
Proof.
  intros ?. unfold strategy_from_json, strategy_to_json. unfold strategy_fits in *.
  distinct_keys. read_members. by destruct c.
Qed.

Lemma risk_roundtrip p : inU 32 (max_orders_per_second p) → risk_from_json (risk_to_json p) = Some p.
Proof.
  intros ?. unfold risk_from_json, risk_to_json. distinct_keys. read_members. by destruct p.
Qed.

Lemma log_config_roundtrip c : log_fits c → log_from_json (log_to_json c) = Some c.
Proof.
  intros (? & ? & ?). unfold log_from_json, log_to_json. distinct_keys. read_members. by destruct c.
Qed.

Lemma zmq_roundtrip c : zmq_fits c → zmq_from_json (zmq_to_json c) = Some c.
Proof.
  intros (? & ?). unfold zmq_from_json, zmq_to_json. distinct_keys. read_members. by destruct c.
Qed.

Lemma monitoring_roundtrip c :
  monitoring_fits c → monitoring_from_json (monitoring_to_json c) = Some c.
Proof.
  intros (? & ? & ?). unfold monitoring_from_json, monitoring_to_json.
  distinct_keys. read_members. by destruct c.
Qed.

Lemma vector_roundtrip {A} (f : A → json) (g : json → option A) P l :
  (∀ x, P x → g (f x) = Some x) → Forall P l → get_vector g (j_array (f <$> l)) = Some l.
Proof.
  intros Hfg Hl. unfold get_vector. rewrite j_get_array_array. cbn. apply mapM_fmap_id.
  by eapply Forall_impl.
Qed.

Lemma config_roundtrip c : config_fits c → from_json (to_json c) = Some c.
Proof.
  intros (He & Hs & Hr & Hl & Hz & Hm).
  pose proof (vector_roundtrip _ _ _ _ exchange_roundtrip He).
  pose proof (vector_roundtrip _ _ _ _ strategy_roundtrip Hs).
  pose proof (risk_roundtrip _ Hr). pose proof (log_config_roundtrip _ Hl).
  pose proof (zmq_roundtrip _ Hz). pose proof (monitoring_roundtrip _ Hm).
  unfold from_json, to_json. distinct_keys. read_members. by destruct c.
Qed.

(** What [toJson] promises: the values [fits] describes come back. *)
Class SerializedLaws (T : Type) `{Serialized T} := {
  fits : T → Prop;
  fromJson_toJson c : fits c → fromJson (toJson c) = Some c;
}.

#[export] Instance ExchangeConfig_laws : SerializedLaws ExchangeConfig := {| fits := exchange_fits; fromJson_toJson := exchange_roundtrip |}.
#[export] Instance StrategyConfig_laws : SerializedLaws StrategyConfig := {| fits := strategy_fits; fromJson_toJson := strategy_roundtrip |}.
#[export] Instance RiskParameters_laws : SerializedLaws RiskParameters :=
  {| fits p := inU 32 (max_orders_per_second p); fromJson_toJson := risk_roundtrip |}.
#[export] Instance LogConfig_laws : SerializedLaws LogConfig := {| fits := log_fits; fromJson_toJson := log_config_roundtrip |}.
#[export] Instance ZMQConfig_laws : SerializedLaws ZMQConfig := {| fits := zmq_fits; fromJson_toJson := zmq_roundtrip |}.
#[export] Instance MonitoringConfig_laws : SerializedLaws MonitoringConfig := {| fits := monitoring_fits; fromJson_toJson := monitoring_roundtrip |}.
#[export] Instance SystemConfig_laws : SerializedLaws SystemConfig := {| fits := config_fits; fromJson_toJson := config_roundtrip |}.

(** Two values whose JSON is the same are the same: nothing is lost. *)
Lemma toJson_inj {T} `{SerializedLaws T} (c d : T) : fits c → fits d → toJson c = toJson d → c = d.
Proof. intros Hc Hd He. apply (inj Some). rewrite <-(fromJson_toJson c Hc), <-(fromJson_toJson d Hd). by rewrite He. Qed.

(** ** The text of a configuration

    What is read back: the document of [toJson], with [null] for every amount that is not a number. *)

Context {T : JsonText J} {HT : JsonTextLaws J}.

Definition double_text (d : double) : json := if d_finite d then j_double d else j_null.

Definition risk_text (p : RiskParameters) : json :=
  j_object [("max_order_value", double_text (max_order_value p));
    ("max_position_value", double_text (max_position_value p));
    ("max_orders_per_second", j_int (max_orders_per_second p));
    ("max_total_position_value", double_text (max_total_position_value p));
    ("min_available_capital", double_text (min_available_capital p));
    ("max_drawdown_percent", double_text (max_drawdown_percent p))]%string.

Definition config_text (c : SystemConfig) : json :=
  j_object [("exchanges", j_array (exchange_to_json <$> exchanges c));
    ("strategies", j_array (strategy_to_json <$> strategies c));
    ("risk_parameters", risk_text (risk_parameters c));
    ("log_config", log_to_json (log_config c)); ("zmq_config", zmq_to_json (zmq_config c));
    ("monitoring_config", monitoring_to_json (monitoring_config c));
    ("initial_capital", double_text (initial_capital c));
    ("state_file", j_string (state_file c))]%string.

(** *** Writing *)

Lemma writes_uint w z : 0 < w <= 64 → inU w z → writes_as (j_int z) (j_int z).
Proof. intros Hw Hz. apply writes_int. right. unfold inU in *. pose proof (Z.pow_le_mono_r 2 w 64). lia. Qed.

Lemma all_utf8_cons s l : all_utf8 (s :: l) → writes_as (j_string s) (j_string s) ∧ all_utf8 l.
Proof. unfold all_utf8. cbn. intros [H1 H2]%andb_true_iff. split; [by apply writes_string|done]. Qed.

Lemma writes_vector {A} (f : A → json) l :
  Forall (λ x, writes_as (f x) (f x)) l → writes_as (j_array (f <$> l)) (j_array (f <$> l)).
Proof. intros Hl. apply writes_array. induction Hl; cbn; by constructor. Qed.

Ltac split_utf8 :=
  repeat match goal with
  | H : all_utf8 (_ :: _) |- _ => let H' := fresh in destruct (all_utf8_cons _ _ H) as [? H']; clear H
  end.

Ltac write_members :=
  apply writes_object;
  repeat match goal with
  | |- Forall2 _ (_ :: _) _ => constructor; [split_and!; cbn [fst snd]; [reflexivity|reflexivity|]|]
  | |- Forall2 _ [] _ => constructor
  end;
  try first [done | apply writes_bool | apply writes_double
    | match goal with H : inU ?w ?z |- writes_as (j_int ?z) _ => apply (writes_uint w z ltac:(lia) H) end].

Lemma exchange_writes c :
  exchange_fits c → exchange_utf8 c → writes_as (exchange_to_json c) (exchange_to_json c).
Proof.
  intros (? & ? & ? & ?) [Hu Hs]. split_utf8. write_members. by apply writes_strings.
Qed.

Lemma strategy_writes c :
  strategy_fits c → strategy_utf8 c → writes_as (strategy_to_json c) (strategy_to_json c).
Proof. intros ? [Hu ?]. split_utf8. write_members. apply (writes_ints 32); [lia|done]. Qed.

Lemma risk_writes p : inU 32 (max_orders_per_second p) → writes_as (risk_to_json p) (risk_text p).
Proof. intros ?. write_members. Qed.

Lemma log_writes c : log_fits c → utf8_valid (log_dir c) = true → writes_as (log_to_json c) (log_to_json c).
Proof. intros (? & ? & ?) ?. write_members. by apply writes_string. Qed.

Lemma zmq_writes c : zmq_fits c → utf8_valid (publish_endpoint c) = true → writes_as (zmq_to_json c) (zmq_to_json c).
Proof. intros (? & ?) ?. write_members. by apply writes_string. Qed.

Lemma monitoring_writes c : monitoring_fits c → writes_as (monitoring_to_json c) (monitoring_to_json c).
Proof. intros (? & ? & ?). write_members. Qed.

Lemma config_writes c : config_fits c → config_utf8 c → writes_as (to_json c) (config_text c).
Proof.
  intros (He & Hs & Hr & Hl & Hz & Hm) (Ue & Us & U).
  unfold all_utf8 in U. cbn in U. rewrite !andb_true_iff in U. destruct U as (U1 & U2 & U3 & _).
  write_members.
  - apply writes_vector, Forall_forall. intros x Hx. rewrite Forall_forall in He, Ue. by apply exchange_writes; auto.
  - apply writes_vector, Forall_forall. intros x Hx. rewrite Forall_forall in Hs, Us. by apply strategy_writes; auto.
  - by apply risk_writes.
  - by apply log_writes.
  - by apply zmq_writes.
  - by apply monitoring_writes.
  - by apply writes_string.
Qed.

(** *** Reading back *)

Lemma double_text_get d : j_get_double (double_text d) = if d_finite d then Some d else None.
Proof. unfold double_text. destruct (d_finite d); [apply j_get_double_double|apply j_get_double_null]. Qed.

Ltac read_member fs k :=
  first [erewrite (get_at_member _ fs k)|erewrite (get_or_member _ _ fs k)]; [|assumption|by repeat constructor].

Ltac read_texts :=
  repeat lazymatch goal with
  | |- context [get_at ?g (j_object ?fs) ?k] => read_member fs k
  | |- context [get_or ?g ?d (j_object ?fs) ?k] => read_member fs k
  end.

Lemma risk_text_read p :
  inU 32 (max_orders_per_second p) → risk_from_json (risk_text p) = if risk_finite p then Some p else None.
Proof.
  intros ?. unfold risk_from_json, risk_text, risk_finite. distinct_keys. read_texts.
  rewrite !double_text_get, get_uint_int by done. cbn [forallb].
  repeat match goal with
  | |- context [if d_finite ?d then Some ?d else None] => destruct (d_finite d); cbn [mbind option_bind andb]; [|done]
  end. by destruct p.
Qed.

Lemma config_text_read c :
  config_fits c → from_json (config_text c) = if config_finite c then Some c else None.
Proof.
  intros (He & Hs & Hr & Hl & Hz & Hm). unfold from_json, config_text, config_finite. distinct_keys. read_texts.
  rewrite (vector_roundtrip _ _ _ _ exchange_roundtrip He), (vector_roundtrip _ _ _ _ strategy_roundtrip Hs),
    risk_text_read, log_config_roundtrip, zmq_roundtrip, monitoring_roundtrip, double_text_get, j_get_string_string by done.
  cbn [mbind option_bind]. destruct (risk_finite _); [|done]. destruct (d_finite _); [|done].
  cbn [mbind option_bind andb]. by destruct c.
Qed.

(** A string that is not UTF-8: [dump] throws when the file has been emptied. *)
Lemma save_empties_file write (c : SystemConfig) :
  validate c = true → utf8_valid (state_file c) = false → saveToFile true write c = (None, Some EmptyString).
Proof.
  intros Hv Hu. unfold saveToFile. rewrite Hv. cbn [negb]. rewrite j_dump_throws; [done|].
  unfold to_json. eapply unwritable_object; [|right; by apply unwritable_string]. by repeat constructor.
Qed.

(** ** Properties *)

(** C28: a valid configuration whose strings are UTF-8, written to a file that takes the
    whole text, is loaded back unchanged: every field of every exchange, strategy and section survives
    the text, and what was saved validates when it is loaded. That is, if the amounts are finite:
    an infinity or a NaN, which validation lets through, is saved as [null], with success
    reported, and loading the file throws. *)
Theorem save_load_roundtrip write (c : SystemConfig) :
  validate c = true → config_fits c → config_utf8 c → (∀ text, write text = (true, text)) →
  ∃ text, saveToFile true write c = (Some true, Some text) ∧
    loadFromFile (Some text) = if config_finite c then Some c else None.
Proof.
  intros Hv Hf Hu Hw. destruct (j_dump_parse 4 _ _ (config_writes c Hf Hu)) as (text & Hd & Hp).
  exists text. unfold saveToFile, loadFromFile. rewrite Hv, Hd. cbn [negb]. rewrite Hw. split; [done|].
  cbn [mbind option_bind]. rewrite Hp. cbn [mbind option_bind]. rewrite config_text_read by done.
  destruct (config_finite c); [|done]. cbn [mbind option_bind]. by rewrite Hv.
Qed.
End roundtrip.

Definition sample_config {J : JsonOps} : SystemConfig :=
  SystemConfig_default {{
    exchanges := [ExchangeConfig_default {{ ex_name := "binance"%string;
      websocket_url := "wss://x"%string; symbols := ["BTCUSDT"%string] }}];
    strategies := [mkStrategyConfig "grid" EmptyString (j_int 1) [1; 2] true] }}.

(** The same with a capital that is not a number: it validates too. *)
Definition capital_nan {J : JsonOps} : SystemConfig := sample_config {{ initial_capital := S754_nan }}.

Lemma sample_fits {J : JsonOps} : config_fits sample_config ∧ config_fits capital_nan.
Proof. split; repeat split; repeat constructor; vm_compute; (done || discriminate). Qed.

Lemma sample_utf8 {J : JsonOps} {T : JsonText J} : config_utf8 sample_config ∧ config_utf8 capital_nan.
Proof.
  split; (split_and!; [by repeat constructor| |reflexivity]); (apply Forall_cons; split; [|constructor]);
    (split; [reflexivity|apply writes_int; left; unfold inS; cbn; lia]).
Qed.

Lemma save_load_roundtrip_witness :
  (∃ text, saveToFile (J := JsonRef) true (pair true) sample_config = (Some true, Some text) ∧
    loadFromFile (J := JsonRef) (Some text) = Some sample_config) ∧
  (∃ text, saveToFile (J := JsonRef) true (pair true) capital_nan = (Some true, Some text) ∧
    loadFromFile (J := JsonRef) (Some text) = None).
Proof.
  destruct (sample_fits (J := JsonRef)) as [F1 F2]. destruct (sample_utf8 (J := JsonRef)) as [U1 U2].
  split.
  - apply (save_load_roundtrip (J := JsonRef) (pair true) sample_config); [vm_compute; reflexivity|exact F1|exact U1|reflexivity].
  - apply (save_load_roundtrip (J := JsonRef) (pair true) capital_nan); [vm_compute; reflexivity|exact F2|exact U2|reflexivity].
Defined.
