(* ===== verification/RiskEngine.v ===== *)
(** [RiskEngine] (include/chronos/risk/risk_engine.hpp, src/risk/risk_engine.cpp):
    the pre-trade checks, the rate limiter, parameter publication and statistics.

    Wall-clock readings are arguments: [now_us] in microseconds and [latency_ns],
    the duration of a check. One thread at a time is modelled here; the versioned
    read of the hot parameters is the bounded one of [Seqlock.v]. *)
From Stdlib Require Import Ascii.
From stdpp Require Import pretty.
From S2P Require Import Prelude.
From S2P Require Import FixedPoint.
From S2P Require Import Types.
From S2P Require Import PositionManager.
From S2P Require Import Config.

Module RiskCheckResult.
Record t := mk { passed : bool; rejection_reason : string; check_timestamp_us : Z }.
Definition accept : t := mk true EmptyString 0.
Definition reject (reason : string) : t := mk false reason 0.
End RiskCheckResult.

Module Statistics.
Record t := mk {
  total_checks : Z;
  accepted : Z;
  rejected : Z;
  rate_limit_rejects : Z;
  order_value_rejects : Z;
  position_limit_rejects : Z;
  total_position_rejects : Z;
  capital_rejects : Z;
  avg_check_latency : Z;
}.
Definition init : t := mk 0 0 0 0 0 0 0 0 0.
End Statistics.

Module HotParams.
Record t := mk {
  max_order_value : Z;
  max_position_value : Z;
  max_total_position_value : Z;
  min_available_capital : Z;
  max_orders_per_second : Z;
  version : Z;
}.
Definition init : t := mk 0 0 0 0 100 0.
(** [memcpy(&dst, &src, offsetof(HotParams, version))]: everything but the version. *)
Definition copy_params (dst src : t) : t :=
  mk (max_order_value src) (max_position_value src) (max_total_position_value src)
     (min_available_capital src) (max_orders_per_second src) (version dst).
End HotParams.

Module ColdParams.
Record t := mk { params : RiskParameters; hot : HotParams.t; update_time_us : Z }.
Definition init : t := mk RiskParameters_default HotParams.init 0.
End ColdParams.

Record RiskEngine := mkRiskEngine {
  hot_params_ : HotParams.t;
  cold_buffers_ : ColdParams.t * ColdParams.t;
  active_cold_ : bool;              (* which buffer the pointer designates *)
  write_idx_ : bool;
  current_second_ : Z;
  orders_this_second_ : Z;
  available_capital_raw_ : Z;
  stats_ : Statistics.t;
}.

Definition buffer (i : bool) (s : RiskEngine) : ColdParams.t :=
  if i then (cold_buffers_ s).2 else (cold_buffers_ s).1.
Definition set_buffer (i : bool) (c : ColdParams.t) (s : RiskEngine) : RiskEngine :=
  s {{ cold_buffers_ := if i then ((cold_buffers_ s).1, c) else (c, (cold_buffers_ s).2) }}.

Definition getReadBuffer (s : RiskEngine) : ColdParams.t := buffer (active_cold_ s) s.
Definition getWriteBuffer (s : RiskEngine) : ColdParams.t := buffer (write_idx_ s) s.

Section engine.
Context {F : FpmOps} {U : CastUB}.

Definition buildHot (c : ColdParams.t) : ColdParams.t :=
  let p := ColdParams.params c in
  c {{ ColdParams.hot := HotParams.mk (toDecimal (max_order_value p)) (toDecimal (max_position_value p))
         (toDecimal (max_total_position_value p)) (toDecimal (min_available_capital p))
         (max_orders_per_second p) (HotParams.version (ColdParams.hot c)) }}.

(** [active_cold_] starts on buffer 0, [write_idx_] on buffer 1. *)
Definition RiskEngine_init : RiskEngine :=
  let c := buildHot ColdParams.init in
  mkRiskEngine (HotParams.copy_params HotParams.init (ColdParams.hot c)) (c, c) false true 0 0
    (toDecimal (max_total_position_value RiskParameters_default)) Statistics.init.

(** *** Parameters *)

Definition swapColdBuffers (s : RiskEngine) : RiskEngine :=
  let s := s {{ active_cold_ := write_idx_ s }} in
  let s := s {{ write_idx_ ::= negb }} in
  let next := getWriteBuffer s in
  set_buffer (write_idx_ s)
    (next {{ ColdParams.hot := HotParams.copy_params (ColdParams.hot next) (hot_params_ s) }}) s.

Definition publishParams (s : RiskEngine) : RiskEngine :=
  let dark := buildHot (getWriteBuffer s) in
  let dark := dark {{ ColdParams.hot -> HotParams.version := inc64 (HotParams.version (hot_params_ s)) }} in
  let s := set_buffer (write_idx_ s) dark s in
  let s := s {{ hot_params_ -> HotParams.version ::= inc64 }} in
  let s := s {{ hot_params_ ::= λ h, HotParams.copy_params h (ColdParams.hot dark) }} in
  let s := s {{ hot_params_ -> HotParams.version ::= inc64 }} in
  swapColdBuffers s.

Definition updateParameters (now_us : Z) (params : RiskParameters) (s : RiskEngine) : RiskEngine :=
  let dark := getWriteBuffer s in
  let dark := dark {{ ColdParams.params := params; ColdParams.update_time_us := now_us }} in
  publishParams (set_buffer (write_idx_ s) dark s).

Definition getParameters (s : RiskEngine) : RiskParameters := ColdParams.params (getReadBuffer s).

(** *** Rate limiter *)

Definition current_second_since_epoch (now_us : Z) : Z := wrapU 32 (now_us / 1000000).

Definition checkRateLimitInternal (now_us : Z) (s : RiskEngine) : bool * RiskEngine :=
  let now_sec := current_second_since_epoch now_us in
  let prev_sec := current_second_ s in
  let s := if negb (prev_sec =? now_sec)
           then s {{ current_second_ := now_sec; orders_this_second_ := 0 }} else s in
  let max_ops := HotParams.max_orders_per_second (hot_params_ s) in
  let count := orders_this_second_ s in
  let s := s {{ orders_this_second_ := wrapU 32 (count + 1) }} in
  (count <? max_ops, s).

Definition checkRateLimit := checkRateLimitInternal.

(** *** Statistics *)

(** [reason.find(needle) != npos] *)
Fixpoint contains (needle s : string) : bool :=
  String.prefix needle s ||
  match s with EmptyString => false | String _ s' => contains needle s' end.

(** [(avg * 7 + latency) / 8] on signed 64-bit counts, which truncates towards zero. *)
Definition ema_s64 (avg latency : Z) : Z :=
  if avg =? 0 then latency else Z.quot (s64 (avg * 7 + latency)) 8.

Definition updateStats (passed : bool) (reason : string) (latency_ns : Z) (st : Statistics.t)
    : Statistics.t :=
  let st := st {{ Statistics.total_checks ::= inc64 }} in
  let st :=
    if passed then st {{ Statistics.accepted ::= inc64 }}
    else
      let st := st {{ Statistics.rejected ::= inc64 }} in
      if contains "Rate limit" reason then st {{ Statistics.rate_limit_rejects ::= inc64 }}
      else if contains "Order value" reason then st {{ Statistics.order_value_rejects ::= inc64 }}
      else if contains "Position" reason then st {{ Statistics.position_limit_rejects ::= inc64 }}
      else if contains "Total position" reason then st {{ Statistics.total_position_rejects ::= inc64 }}
      else if contains "capital" reason || contains "Capital" reason
           then st {{ Statistics.capital_rejects ::= inc64 }}
      else st in
  st {{ Statistics.avg_check_latency ::= λ avg, ema_s64 avg latency_ns }}.

(** *** The checks *)

(** [std::to_string] of a [uint32_t]. *)
Definition to_string (n : Z) : string := pretty (Z.to_N n).

Definition order_value (order : OrderRequest.t) : Z :=
  dabs (OrderRequest.price order ⊠ OrderRequest.quantity order).

Definition projected_value (order : OrderRequest.t) (pm : PositionManager) : Z :=
  let existing_qty := match getPosition (OrderRequest.symbol_id order) pm with
                      | Some p => Position.quantity p
                      | None => 0
                      end in
  let signed_qty := match OrderRequest.side order with
                    | OrderSide.SELL => fpm_neg (OrderRequest.quantity order)
                    | OrderSide.BUY => OrderRequest.quantity order
                    end in
  dabs (existing_qty ⊞ signed_qty) ⊠ OrderRequest.price order.

(** The five checks in order; a failed check skips the rest. Only the rate limiter
    changes state, and only when the order value check passed. *)
Definition run_checks (now_us : Z) (order : OrderRequest.t) (pm : PositionManager) (s : RiskEngine)
    : RiskCheckResult.t * RiskEngine :=
  let order_value_abs := order_value order in
  let info := hot_params_ s in
  let result := RiskCheckResult.accept {{ RiskCheckResult.check_timestamp_us := now_us }} in
  let result := if order_value_abs >? HotParams.max_order_value info
                then RiskCheckResult.reject "Order value exceeds limit" else result in
  let '(result, s) :=
    if RiskCheckResult.passed result then
      let '(ok, s) := checkRateLimitInternal now_us s in
      (if ok then result else RiskCheckResult.reject "Rate limit exceeded", s)
    else (result, s) in
  let result :=
    if RiskCheckResult.passed result then
      if projected_value order pm >? HotParams.max_position_value info
      then RiskCheckResult.reject ("Position value for symbol " ++
             to_string (OrderRequest.symbol_id order) ++ " would exceed limit")%string
      else result
    else result in
  let result :=
    if RiskCheckResult.passed result then
      if getTotalValueCached pm >? HotParams.max_total_position_value info
      then RiskCheckResult.reject "Total position value exceeds limit" else result
    else result in
  let result :=
    if RiskCheckResult.passed result then
      if available_capital_raw_ s ⊟ order_value_abs <? HotParams.min_available_capital info
      then RiskCheckResult.reject "Insufficient available capital" else result
    else result in
  (result, s).

Definition checkOrder (now_us latency_ns : Z) (order : OrderRequest.t) (pm : PositionManager)
    (s : RiskEngine) : RiskCheckResult.t * RiskEngine :=
  let '(result, s) := run_checks now_us order pm s in
  (result, s {{ stats_ ::= updateStats (RiskCheckResult.passed result)
                             (RiskCheckResult.rejection_reason result) latency_ns }}).

(** *** The checks while other threads change the configuration

    [checkOrder] holds no lock: it reads four limits, the rate limit and the capital one
    after the other, and other threads may change any of them in between. [meanwhile k] is
    what they change right before the [k]-th of these reads. Each limit has a read of its
    own: this covers the retries of the versioned read as well as the
    unprotected read it falls back to, which can mix two publications. *)
Inductive change := ChangeParameters (now_us : Z) (p : RiskParameters) | ChangeCapital (capital : Z).

Definition apply_change (s : RiskEngine) (c : change) : RiskEngine :=
  match c with
  | ChangeParameters now_us p => updateParameters now_us p s
  | ChangeCapital capital => s {{ available_capital_raw_ := capital }}
  end.
Definition apply_changes (cs : list change) (s : RiskEngine) : RiskEngine := fold_left apply_change cs s.

Definition run_checks_among (meanwhile : nat → list change) (now_us : Z) (order : OrderRequest.t) (pm : PositionManager)
    (s : RiskEngine) : RiskCheckResult.t * RiskEngine :=
  let order_value_abs := order_value order in
  let s := apply_changes (meanwhile 0%nat) s in
  let max_order_value := HotParams.max_order_value (hot_params_ s) in
  let s := apply_changes (meanwhile 1%nat) s in
  let max_position_value := HotParams.max_position_value (hot_params_ s) in
  let s := apply_changes (meanwhile 2%nat) s in
  let max_total_position_value := HotParams.max_total_position_value (hot_params_ s) in
  let s := apply_changes (meanwhile 3%nat) s in
  let min_available_capital := HotParams.min_available_capital (hot_params_ s) in
  let result := RiskCheckResult.accept {{ RiskCheckResult.check_timestamp_us := now_us }} in
  let result := if order_value_abs >? max_order_value
                then RiskCheckResult.reject "Order value exceeds limit" else result in
  let s := apply_changes (meanwhile 4%nat) s in
  let '(result, s) :=
    if RiskCheckResult.passed result then
      let '(ok, s) := checkRateLimitInternal now_us s in
      (if ok then result else RiskCheckResult.reject "Rate limit exceeded", s)
    else (result, s) in
  let result :=
    if RiskCheckResult.passed result then
      if projected_value order pm >? max_position_value
      then RiskCheckResult.reject ("Position value for symbol " ++
             to_string (OrderRequest.symbol_id order) ++ " would exceed limit")%string
      else result
    else result in
  let result :=
    if RiskCheckResult.passed result then
      if getTotalValueCached pm >? max_total_position_value
      then RiskCheckResult.reject "Total position value exceeds limit" else result
    else result in
  let s := apply_changes (meanwhile 5%nat) s in
  let result :=
    if RiskCheckResult.passed result then
      if available_capital_raw_ s ⊟ order_value_abs <? min_available_capital
      then RiskCheckResult.reject "Insufficient available capital" else result
    else result in
  (result, s).

Definition checkOrder_among (meanwhile : nat → list change) (now_us latency_ns : Z) (order : OrderRequest.t)
    (pm : PositionManager) (s : RiskEngine) : RiskCheckResult.t * RiskEngine :=
  let '(result, s) := run_checks_among meanwhile now_us order pm s in
  (result, s {{ stats_ ::= updateStats (RiskCheckResult.passed result)
                             (RiskCheckResult.rejection_reason result) latency_ns }}).

(** Nobody changes anything. *)
Definition no_changes : nat → list change := λ _, [].

Lemma checkOrder_alone now_us latency_ns order pm s :
  checkOrder_among no_changes now_us latency_ns order pm s = checkOrder now_us latency_ns order pm s.
Proof. done. Qed.

(** *** Capital and statistics access *)

Definition setAvailableCapital (capital : Z) (s : RiskEngine) : RiskEngine :=
  s {{ available_capital_raw_ := capital }}.
Definition getAvailableCapital (s : RiskEngine) : Z := available_capital_raw_ s.
Definition getStatistics (s : RiskEngine) : Statistics.t := stats_ s.
Definition resetStatistics (s : RiskEngine) : RiskEngine := s {{ stats_ := Statistics.init }}.
End engine.

(** ** Substring search *)

Fixpoint occurs (c : Ascii.ascii) (s : string) : bool :=
  match s with EmptyString => false | String c' s' => Ascii.eqb c c' || occurs c s' end.

Lemma contains_occurs c needle s : occurs c s = false → contains (String c needle) s = false.
Proof.
  induction s as [|c' s IH]; intros Ho; [done|].
  cbn [occurs] in Ho. apply orb_false_iff in Ho as [Hc Ho].
  change (contains (String c needle) (String c' s))
    with (String.prefix (String c needle) (String c' s) || contains (String c needle) s).
  rewrite (IH Ho), orb_false_r. cbn. destruct (Ascii.ascii_dec c c') as [->|]; [|done].
  by rewrite Ascii.eqb_refl in Hc.
Qed.

Lemma occurs_app c s1 s2 : occurs c (s1 ++ s2)%string = occurs c s1 || occurs c s2.
Proof.
  induction s1 as [|c' s1 IH]; [done|].
  change (String c' s1 ++ s2)%string with (String c' (s1 ++ s2)%string).
  cbn [occurs]. by rewrite IH, orb_assoc.
Qed.

Definition is_decimal (c : Ascii.ascii) : bool :=
  match c with
  | "0" | "1" | "2" | "3" | "4" | "5" | "6" | "7" | "8" | "9" => true
  | _ => false
  end%char.

Lemma pretty_N_char_digit x : is_decimal (pretty_N_char x) = true.
Proof.
  destruct x as [|x]; [done|].
  destruct x as [[[[]|[]|]|[[]|[]|]|]|[[[]|[]|]|[[]|[]|]|]|]; reflexivity.
Qed.

Lemma occurs_pretty c n : is_decimal c = false → occurs c (pretty (A := N) n) = false.
Proof.
  intros Hc. unfold pretty, pretty_N. case_decide; [by destruct c as [[] [] [] [] [] [] [] []]|].
  assert (∀ s, occurs c s = false → occurs c (pretty_N_go n s) = false) as Hgo; [|by apply Hgo].
  clear H. induction (N.lt_wf_0 n) as [n _ IH]. intros s Hs.
  destruct (decide (n = 0%N)) as [->|Hn]; [by rewrite pretty_N_go_0|].
  rewrite pretty_N_go_step by lia. apply IH; [apply N.div_lt; lia|].
  cbn. rewrite Hs, orb_false_r. apply Ascii.eqb_neq. intros ->.
  by rewrite pretty_N_char_digit in Hc.
Qed.

(** ** Rejections *)

(** The number of orders already counted in the second of [now_us]. *)
Definition rate_count (now_us : Z) (s : RiskEngine) : Z :=
  if current_second_ s =? current_second_since_epoch now_us then orders_this_second_ s else 0.

Section proofs.
Context {F : FpmOps} {U : CastUB}.

(** The first check an order fails, in the order the engine performs them. *)
Inductive failure := OrderValue | RateLimit | PositionLimit | TotalPosition | Capital.

Definition first_failure (now_us : Z) (order : OrderRequest.t) (pm : PositionManager) (s : RiskEngine)
    : option failure :=
  let info := hot_params_ s in
  if order_value order >? HotParams.max_order_value info then Some OrderValue
  else if negb (rate_count now_us s <? HotParams.max_orders_per_second info) then Some RateLimit
  else if projected_value order pm >? HotParams.max_position_value info then Some PositionLimit
  else if getTotalValueCached pm >? HotParams.max_total_position_value info then Some TotalPosition
  else if available_capital_raw_ s ⊟ order_value order <? HotParams.min_available_capital info
       then Some Capital
  else None.

Definition failure_reason (order : OrderRequest.t) (f : failure) : string :=
  match f with
  | OrderValue => "Order value exceeds limit"
  | RateLimit => "Rate limit exceeded"
  | PositionLimit => "Position value for symbol " ++ to_string (OrderRequest.symbol_id order)
                     ++ " would exceed limit"
  | TotalPosition => "Total position value exceeds limit"
  | Capital => "Insufficient available capital"
  end%string.

Definition failure_counter (f : failure) (st : Statistics.t) : Z :=
  match f with
  | OrderValue => Statistics.order_value_rejects st
  | RateLimit => Statistics.rate_limit_rejects st
  | PositionLimit => Statistics.position_limit_rejects st
  | TotalPosition => Statistics.total_position_rejects st
  | Capital => Statistics.capital_rejects st
  end.

Lemma rate_limit_spec now s :
  let '(ok, s') := checkRateLimitInternal now s in
  ok = (rate_count now s <? HotParams.max_orders_per_second (hot_params_ s)) ∧
  rate_count now s' = wrapU 32 (rate_count now s + 1) ∧
  hot_params_ s' = hot_params_ s ∧ available_capital_raw_ s' = available_capital_raw_ s ∧
  stats_ s' = stats_ s.
Proof.
  destruct s as [h c a w cs os av st]. unfold checkRateLimitInternal, rate_count. cbn [current_second_].
  destruct (Z.eqb_spec cs (current_second_since_epoch now)) as [->|]; cbn -[wrapU].
  - by rewrite Z.eqb_refl.
  - by rewrite Z.eqb_refl.
Qed.

Lemma run_checks_spec now order pm s :
  let '(r, s') := run_checks now order pm s in
  r = match first_failure now order pm s with
      | None => RiskCheckResult.mk true EmptyString now
      | Some f => RiskCheckResult.reject (failure_reason order f)
      end ∧
  stats_ s' = stats_ s ∧ hot_params_ s' = hot_params_ s ∧
  rate_count now s' = (if order_value order >? HotParams.max_order_value (hot_params_ s)
                       then rate_count now s else wrapU 32 (rate_count now s + 1)).
Proof.
  unfold run_checks, first_failure.
  change (RiskCheckResult.accept {{ RiskCheckResult.check_timestamp_us := now }})
    with (RiskCheckResult.mk true EmptyString now).
  destruct (order_value order >? _); [done|]. cbn [RiskCheckResult.passed].
  pose proof (rate_limit_spec now s) as Hrl.
  destruct (checkRateLimitInternal now s) as [ok s1]. destruct Hrl as (-> & Hrc & Hh & Ha & Hst).
  rewrite Ha. destruct (rate_count now s <? _); cbn [RiskCheckResult.passed negb]; [|done].
  destruct (projected_value order pm >? _); cbn [RiskCheckResult.passed]; [done|].
  destruct (getTotalValueCached pm >? _); cbn [RiskCheckResult.passed]; [done|].
  by destruct (_ <? HotParams.min_available_capital _).
Qed.

(** Every reason is counted in the counter of its failure and in no other. *)
Lemma contains_false c needle s : occurs c s = false → contains (String c needle) s = false.
Proof. apply contains_occurs. Qed.

Lemma position_reason_class id :
  let r := ("Position value for symbol " ++ to_string id ++ " would exceed limit")%string in
  contains "Rate limit" r = false ∧ contains "Order value" r = false ∧ contains "Position" r = true.
Proof.
  cbv zeta. split_and!; [| |done].
  - apply contains_false. rewrite !occurs_app. unfold to_string. by rewrite occurs_pretty.
  - apply contains_false. rewrite !occurs_app. unfold to_string. by rewrite occurs_pretty.
Qed.

Lemma updateStats_failure order f lat st :
  let st' := updateStats false (failure_reason order f) lat st in
  Statistics.total_checks st' = inc64 (Statistics.total_checks st) ∧
  Statistics.accepted st' = Statistics.accepted st ∧
  Statistics.rejected st' = inc64 (Statistics.rejected st) ∧
  ∀ g, failure_counter g st' =
    match g, f with
    | OrderValue, OrderValue | RateLimit, RateLimit | PositionLimit, PositionLimit
    | TotalPosition, TotalPosition | Capital, Capital => inc64 (failure_counter g st)
    | _, _ => failure_counter g st
    end.
Proof.
  destruct (position_reason_class (OrderRequest.symbol_id order)) as (H1 & H2 & H3).
  destruct st. unfold updateStats.
  destruct f; cbn [failure_reason]; [| |rewrite H1, H2, H3| |]; split_and!; try done;
    by intros [].
Qed.

Lemma updateStats_accept lat st :
  let st' := updateStats true EmptyString lat st in
  Statistics.total_checks st' = inc64 (Statistics.total_checks st) ∧
  Statistics.accepted st' = inc64 (Statistics.accepted st) ∧
  Statistics.rejected st' = Statistics.rejected st ∧
  ∀ g, failure_counter g st' = failure_counter g st.
Proof. destruct st. split_and!; done. Qed.

(** *** Sequences of checks *)

(** A check with its clock readings and the positions it sees. *)
Definition check_input : Type := Z * Z * OrderRequest.t * PositionManager.

Definition do_check (s : RiskEngine) (i : check_input) : RiskEngine :=
  let '(now, lat, order, pm) := i in (checkOrder now lat order pm s).2.

Definition stats_ok (n : nat) (st : Statistics.t) : Prop :=
  Statistics.total_checks st = Z.of_nat n ∧
  Statistics.total_checks st = Statistics.accepted st + Statistics.rejected st ∧
  Statistics.rejected st =
    failure_counter OrderValue st + failure_counter RateLimit st + failure_counter PositionLimit st +
    failure_counter TotalPosition st + failure_counter Capital st ∧
  0 <= Statistics.accepted st ∧ ∀ g, 0 <= failure_counter g st.

(** What a check answers when it fails at [f], or nowhere. *)
Definition verdict (now_us : Z) (order : OrderRequest.t) (f : option failure) : RiskCheckResult.t :=
  match f with
  | None => RiskCheckResult.mk true EmptyString now_us
  | Some f => RiskCheckResult.reject (failure_reason order f)
  end.

(** One more check is counted, as accepted exactly when it passes. *)
Lemma stats_ok_verdict n now order f lat st :
  Z.of_nat (S n) < 2 ^ 64 → stats_ok n st →
  let r := verdict now order f in
  let st' := updateStats (RiskCheckResult.passed r) (RiskCheckResult.rejection_reason r) lat st in
  stats_ok (S n) st' ∧ Statistics.accepted st' = Statistics.accepted st + (if RiskCheckResult.passed r then 1 else 0).
Proof.
  intros Hn (H1 & H2 & H3 & H4 & H5).
  pose proof (H5 OrderValue) as B1. pose proof (H5 RateLimit) as B2. pose proof (H5 PositionLimit) as B3.
  pose proof (H5 TotalPosition) as B4. pose proof (H5 Capital) as B5.
  destruct f as [f|]; cbn [verdict RiskCheckResult.passed RiskCheckResult.rejection_reason RiskCheckResult.reject].
  - destruct (updateStats_failure order f lat st) as (E1 & E2 & E3 & Hg).
    unfold stats_ok. rewrite E1, E2, E3, !Hg. split_and!; [rewrite inc64_id; lia|..| |lia].
    + rewrite !inc64_id by lia. lia.
    + destruct f; rewrite !inc64_id by lia; lia.
    + lia.
    + intros g. rewrite Hg. specialize (H5 g).
      assert (failure_counter g st < 2 ^ 64 - 1) by (destruct g; lia).
      destruct g, f; rewrite ?inc64_id by lia; lia.
  - destruct (updateStats_accept lat st) as (E1 & E2 & E3 & Hg).
    unfold stats_ok. rewrite E1, E2, E3, !Hg. split_and!; [rewrite inc64_id; lia|..| |].
    + rewrite !inc64_id by lia. lia.
    + done.
    + rewrite inc64_id; lia.
    + intros g. by rewrite Hg.
    + rewrite inc64_id; lia.
Qed.

Lemma stats_ok_step n s i :
  Z.of_nat (S n) < 2 ^ 64 → stats_ok n (stats_ s) → stats_ok (S n) (stats_ (do_check s i)).
Proof.
  intros Hn Hok. destruct i as [[[now lat] order] pm].
  unfold do_check, checkOrder. pose proof (run_checks_spec now order pm s) as Hr.
  destruct (run_checks now order pm s) as [r s']. destruct Hr as (Hr & Hst & _ & _).
  change (r = verdict now order (first_failure now order pm s)) in Hr. subst r. cbn [snd].
  destruct (stats_ok_verdict n now order (first_failure now order pm s) lat (stats_ s) Hn Hok) as [Hs _].
  rewrite <-Hst in Hs. by destruct s'.
Qed.

(** *** Changes in between *)

(** The limits are those of parameters in [P], the capital is in [C]. *)
Record limits_among (P : RiskParameters → Prop) (C : Z → Prop) (s : RiskEngine) : Prop := {
  among_limits : ∃ p, P p ∧ HotParams.max_order_value (hot_params_ s) = toDecimal (max_order_value p) ∧
                      HotParams.min_available_capital (hot_params_ s) = toDecimal (min_available_capital p);
  among_capital : C (available_capital_raw_ s);
}.

Definition change_in (P : RiskParameters → Prop) (C : Z → Prop) (c : change) : Prop :=
  match c with ChangeParameters _ p => P p | ChangeCapital capital => C capital end.

Lemma updateParameters_hot now p s :
  let s' := updateParameters now p s in
  HotParams.max_order_value (hot_params_ s') = toDecimal (max_order_value p) ∧
  HotParams.min_available_capital (hot_params_ s') = toDecimal (min_available_capital p) ∧
  available_capital_raw_ s' = available_capital_raw_ s ∧ stats_ s' = stats_ s.
Proof. by destruct s as [[] [[] []] [] [] ? ? ? ?]. Qed.

Lemma apply_changes_among P C cs s :
  Forall (change_in P C) cs → limits_among P C s → limits_among P C (apply_changes cs s) .
Proof.
  intros Hc. revert s. induction Hc as [|c cs Hc _ IH]; intros s Hs; [done|]. cbn. apply IH.
  destruct Hs as [H1 H2]. destruct c as [now p|capital]; cbn [apply_change change_in] in *.
  - destruct (updateParameters_hot now p s) as (E1 & E2 & E3 & _). split; [by exists p|by rewrite E3].
  - split; [|done]. by destruct s.
Qed.

Lemma apply_changes_stats cs s : stats_ (apply_changes cs s) = stats_ s.
Proof.
  revert s. induction cs as [|c cs IH]; intros s; [done|].
  change (stats_ (apply_changes cs (apply_change s c)) = stats_ s). rewrite IH. destruct c as [now p|capital]; [|by destruct s].
  by destruct (updateParameters_hot now p s) as (_ & _ & _ & ?).
Qed.

Lemma rate_limit_among P C now s : limits_among P C s → limits_among P C (checkRateLimitInternal now s).2.
Proof.
  pose proof (rate_limit_spec now s) as H. destruct (checkRateLimitInternal now s) as [ok s']. destruct H as (_ & _ & E1 & E2 & _).
  intros []. cbn [snd]. split; by rewrite ?E1, ?E2.
Qed.

(** An order is within the limits: its value within one, the capital left within another. *)
Definition within_limits (P : RiskParameters → Prop) (C : Z → Prop) (order : OrderRequest.t) : Prop :=
  ∃ p p' c, P p ∧ P p' ∧ C c ∧ order_value order <= toDecimal (max_order_value p) ∧
            toDecimal (min_available_capital p') <= c ⊟ order_value order.

Lemma run_checks_among_ok P C w now order pm s :
  (∀ k, Forall (change_in P C) (w k)) → limits_among P C s →
  let '(r, s') := run_checks_among w now order pm s in
  limits_among P C s' ∧ (RiskCheckResult.passed r = true → within_limits P C order).
Proof.
  intros Hw Hs. unfold run_checks_among.
  pose proof (apply_changes_among P C _ _ (Hw 0%nat) Hs) as H0. set (s0 := apply_changes (w 0%nat) s) in *.
  pose proof (apply_changes_among P C _ _ (Hw 1%nat) H0) as H1. set (s1 := apply_changes (w 1%nat) s0) in *.
  pose proof (apply_changes_among P C _ _ (Hw 2%nat) H1) as H2. set (s2 := apply_changes (w 2%nat) s1) in *.
  pose proof (apply_changes_among P C _ _ (Hw 3%nat) H2) as H3. set (s3 := apply_changes (w 3%nat) s2) in *.
  pose proof (apply_changes_among P C _ _ (Hw 4%nat) H3) as H4. set (s4 := apply_changes (w 4%nat) s3) in *.
  destruct H0 as [(p & Hp & Ep & _) _], H3 as [(p' & Hp' & _ & Ep') _]. rewrite Ep, Ep'. clearbody s0 s1 s2 s3 s4.
  rewrite !Z.gtb_ltb. destruct (Z.ltb_spec (toDecimal (max_order_value p)) (order_value order)) as [_|Hv];
    cbn [RiskCheckResult.passed RiskCheckResult.reject RiskCheckResult.accept].
  { split; [by apply apply_changes_among|done]. }
  pose proof (rate_limit_among P C now s4 H4) as H5. destruct (checkRateLimitInternal now s4) as [ok s5]. cbn [snd] in H5.
  pose proof (apply_changes_among P C _ _ (Hw 5%nat) H5) as H6.
  pose proof (among_capital _ _ _ H6) as Hc. destruct ok; cbn -[apply_changes]; [|by split].
  revert H6 Hc. generalize (apply_changes (w 5%nat) s5). intros s6 H6 Hc.
  destruct (HotParams.max_position_value _ <? _); cbn; [by split|].
  destruct (HotParams.max_total_position_value _ <? _); cbn; [by split|].
  destruct (Z.ltb_spec (available_capital_raw_ s6 ⊟ order_value order) (toDecimal (min_available_capital p'))); cbn; [by split|].
  split; [done|]. intros _. by exists p, p', (available_capital_raw_ s6).
Qed.

Lemma run_checks_among_verdict w now order pm s :
  let '(r, s') := run_checks_among w now order pm s in stats_ s' = stats_ s ∧ ∃ f, r = verdict now order f.
Proof.
  unfold run_checks_among. set (s4 := apply_changes (w 4%nat) _).
  assert (stats_ s4 = stats_ s) as E4 by (subst s4; by rewrite !apply_changes_stats). clearbody s4.
  repeat match goal with |- context [HotParams.max_order_value ?h] => set (HotParams.max_order_value h) end.
  destruct (order_value order >? _); cbn [RiskCheckResult.passed RiskCheckResult.reject RiskCheckResult.accept].
  { rewrite apply_changes_stats. split; [done|by exists (Some OrderValue)]. }
  cbn [constant].
  pose proof (rate_limit_spec now s4) as H5. destruct (checkRateLimitInternal now s4) as [ok s5]. destruct H5 as (_ & _ & _ & _ & E5).
  assert (stats_ (apply_changes (w 5%nat) s5) = stats_ s) as E6 by (by rewrite apply_changes_stats, E5).
  destruct ok; cbn -[apply_changes]; (split; [exact E6|]); [|by exists (Some RateLimit)].
  destruct (projected_value order pm >? _); cbn; [by exists (Some PositionLimit)|].
  destruct (getTotalValueCached pm >? _); cbn; [by exists (Some TotalPosition)|].
  destruct (_ <? _); cbn; [by exists (Some Capital)|by exists None].
Qed.

(** A check counts as accepted exactly when it passes, whatever is changed meanwhile. *)
Lemma checkOrder_stats n w now lat order pm s :
  Z.of_nat (S n) < 2 ^ 64 → stats_ok n (stats_ s) →
  let '(r, s') := checkOrder_among w now lat order pm s in
  stats_ok (S n) (stats_ s') ∧
  Statistics.accepted (stats_ s') =
    Statistics.accepted (stats_ s) + (if RiskCheckResult.passed r then 1 else 0).
Proof.
  intros Hn Hok. unfold checkOrder_among. pose proof (run_checks_among_verdict w now order pm s) as Hr.
  destruct (run_checks_among w now order pm s) as [r s']. destruct Hr as (Hst & f & ->).
  pose proof (stats_ok_verdict n now order f lat (stats_ s) Hn Hok) as H. rewrite <-Hst in H |- *. by destruct s'.
Qed.
End proofs.

(** Buys count up, sells count down. *)
Definition exact_signed (order : OrderRequest.t) : Z :=
  match OrderRequest.side order with
  | OrderSide.BUY => OrderRequest.quantity order
  | OrderSide.SELL => - OrderRequest.quantity order
  end.

Section properties.
Context {F : FpmOps} {U : CastUB}.

(** C3: [checkOrder] accepts an order exactly when all five limits hold, a rejection
    names the first limit that fails, and the rate budget of the second is used up
    by one exactly when the order value check passed. *)
Theorem checkOrder_decides now lat order pm s :
  let '(r, s') := checkOrder now lat order pm s in
  let info := hot_params_ s in
  (RiskCheckResult.passed r = true ↔
     order_value order <= HotParams.max_order_value info ∧
     rate_count now s < HotParams.max_orders_per_second info ∧
     projected_value order pm <= HotParams.max_position_value info ∧
     getTotalValueCached pm <= HotParams.max_total_position_value info ∧
     HotParams.min_available_capital info <= available_capital_raw_ s ⊟ order_value order) ∧
  RiskCheckResult.rejection_reason r =
    match first_failure now order pm s with
    | Some f => failure_reason order f | None => EmptyString
    end ∧
  rate_count now s' = (if order_value order >? HotParams.max_order_value info
                       then rate_count now s else wrapU 32 (rate_count now s + 1)).
Proof.
  unfold checkOrder. pose proof (run_checks_spec now order pm s) as Hr.
  destruct (run_checks now order pm s) as [r s']. destruct Hr as (-> & _ & _ & Hrc).
  split_and!; [|by destruct (first_failure _ _ _ _)|by destruct s'].
  unfold first_failure. rewrite !Z.gtb_ltb.
  repeat match goal with
  | |- context [?a <? ?b] => destruct (Z.ltb_spec a b); cbn [negb RiskCheckResult.passed RiskCheckResult.reject]
  end; split; try done; lia.
Qed.

(** The decimals of an order behave like numbers: they and what the checks compute
    from them are representable. *)
Record checkable (order : OrderRequest.t) (held : Z) : Prop := {
  checkable_price : is_dec (OrderRequest.price order);
  checkable_quantity : is_dec (OrderRequest.quantity order) ∧ is_dec (- OrderRequest.quantity order);
  checkable_value : mul_fits (OrderRequest.price order) (OrderRequest.quantity order);
  checkable_projected : is_dec (held + exact_signed order) ∧ is_dec (- (held + exact_signed order));
  checkable_projected_value : mul_fits (Z.abs (held + exact_signed order)) (OrderRequest.price order);
}.

Definition held_quantity (sym : Z) (pm : PositionManager) : Z :=
  match getPosition sym pm with Some p => Position.quantity p | None => 0 end.

Lemma order_value_close {HF : FpmLaws F} order held :
  checkable order held →
  0 <= order_value order ∧
  Z.abs (order_value order * ONE - Z.abs (OrderRequest.price order * OrderRequest.quantity order)) < ONE.
Proof.
  intros [Hp [Hq _] Hm _ _]. unfold order_value.
  pose proof (fpm_mul_spec _ _ Hp Hq Hm) as Hv. pose proof (fpm_mul_dec (OrderRequest.price order) (OrderRequest.quantity order)) as Hd.
  set (v := _ ⊠ _) in *. assert (is_dec (- v)) as Hn.
  { unfold is_dec, inS, mul_fits, ONE in *. simpl in *. lia. }
  rewrite dabs_spec by done. unfold ONE in *. lia.
Qed.

Lemma projected_value_close {HF : FpmLaws F} order pm :
  let held := held_quantity (OrderRequest.symbol_id order) pm in
  checkable order held → is_dec held →
  Z.abs (projected_value order pm * ONE - Z.abs (held + exact_signed order) * OrderRequest.price order) < ONE.
Proof.
  intros held [Hp [Hq Hnq] _ [Hs Hns] Hm] Hh. unfold projected_value. fold (held_quantity (OrderRequest.symbol_id order) pm). fold held.
  assert ((match OrderRequest.side order with
    | OrderSide.BUY => OrderRequest.quantity order | OrderSide.SELL => fpm_neg (OrderRequest.quantity order) end) = exact_signed order) as ->.
  { unfold exact_signed. destruct (OrderRequest.side order); [done|by apply fpm_neg_spec]. }
  assert (is_dec (exact_signed order)) as He by (unfold exact_signed; by destruct (OrderRequest.side order)).
  rewrite fpm_add_spec, dabs_spec by done. apply fpm_mul_spec; [|done..].
  unfold is_dec, inS in *. lia.
Qed.

(** C27: what an accepted order guarantees about money: as long as the products fit in a
    [Decimal], the exact value of the order, the exact value of the position it
    leads to at the order's price, and the capital it leaves are within one unit of the last
    place of the configured limits. *)
Theorem accepted_order_within_limits {HF : FpmLaws F} now lat order pm s :
  let held := held_quantity (OrderRequest.symbol_id order) pm in
  let info := hot_params_ s in
  let value := Z.abs (OrderRequest.price order * OrderRequest.quantity order) in
  checkable order held → is_dec held →
  0 <= available_capital_raw_ s < 2 ^ 63 →
  RiskCheckResult.passed (checkOrder now lat order pm s).1 = true →
  value < (HotParams.max_order_value info + 1) * ONE ∧
  Z.abs (held + exact_signed order) * OrderRequest.price order < (HotParams.max_position_value info + 1) * ONE ∧
  getTotalValueCached pm <= HotParams.max_total_position_value info ∧
  (HotParams.min_available_capital info - 1) * ONE < available_capital_raw_ s * ONE - value.
Proof.
  intros held info value Hc Hh Hcap Hp.
  pose proof (order_value_close order held Hc) as [Hv0 Hv]. pose proof (projected_value_close order pm Hc Hh) as Hpv.
  pose proof (dabs_dec (OrderRequest.price order ⊠ OrderRequest.quantity order) (fpm_mul_dec _ _)) as Hvd.
  fold (order_value order) in Hvd. fold value in Hv.
  unfold checkOrder in Hp. pose proof (run_checks_spec now order pm s) as Hr.
  destruct (run_checks now order pm s) as [r s']. destruct Hr as (-> & _). cbn [fst] in Hp.
  unfold first_failure in Hp. fold info in Hp. rewrite !Z.gtb_ltb in Hp.
  repeat match type of Hp with context [?a <? ?b] => destruct (Z.ltb_spec a b); cbn [negb RiskCheckResult.passed RiskCheckResult.reject] in Hp; [try discriminate Hp|try discriminate Hp] end.
  rewrite fpm_sub_spec in * by (unfold is_dec, inS in *; simpl in *; lia).
  unfold ONE in *. split_and!; lia.
Qed.

(** However checks are mixed, the statistics add up: every check is counted, as
    accepted or as rejected, and every rejection in exactly one of the five causes,
    although the cause is recovered by searching the text of the reason, which
    contains the symbol's number. *)
Lemma statistics_add_up (inputs : list check_input) (s : RiskEngine) :
  Z.of_nat (length inputs) < 2 ^ 64 →
  stats_ok (length inputs) (stats_ (fold_left do_check inputs (resetStatistics s))).
Proof.
  set (s0 := resetStatistics s).
  assert (stats_ok 0 (stats_ s0)) as H0 by (subst s0; unfold resetStatistics; cbn; split_and!; try done; by intros []).
  induction inputs as [|i inputs IH] using rev_ind; intros Hn; [done|].
  rewrite fold_left_app, length_app, Nat.add_1_r in *. cbn [fold_left length] in *.
  apply stats_ok_step; [done|]. apply IH. lia.
Qed.

(** The rate limiter admits exactly the first [max_orders_per_second] of the
    checks that fall into one second, for up to 2^32 checks in that second (after
    which the 32-bit counter would start over). *)
Lemma rate_limit_exact (times : list Z) (now : Z) (s : RiskEngine) :
  rate_count now s = 0 → Z.of_nat (length times) <= 2 ^ 32 →
  Forall (λ t, current_second_since_epoch t = current_second_since_epoch now) times →
  let run := fold_left (λ '(oks, s) t, let '(ok, s) := checkRateLimit t s in (oks ++ [ok], s)) times ([], s) in
  run.1 = (λ i, Z.of_nat i <? HotParams.max_orders_per_second (hot_params_ s)) <$> seq 0 (length times).
Proof.
  intros H0 Hn Ht.
  cut (let run := fold_left (λ '(oks, s) t, let '(ok, s) := checkRateLimit t s in (oks ++ [ok], s)) times ([], s) in
    run.1 = ((λ i, Z.of_nat i <? HotParams.max_orders_per_second (hot_params_ s)) <$> seq 0 (length times)) ∧
    hot_params_ run.2 = hot_params_ s ∧ rate_count now run.2 = wrapU 32 (Z.of_nat (length times))); [intros Hcut; exact (proj1 Hcut)|].
  induction times as [|t times IH] using rev_ind; [done|].
  rewrite length_app, Nat.add_1_r in *. apply Forall_app in Ht as [Ht [Heq _]%Forall_cons].
  cbn [length] in *. destruct IH as (Hr & Hh & Hc); [lia|done|].
  rewrite fold_left_app. cbn [fold_left].
  destruct (fold_left _ times ([], s)) as [oks s1]. cbn [fst snd] in Hr, Hh, Hc.
  pose proof (rate_limit_spec t s1) as Hs. unfold checkRateLimit.
  destruct (checkRateLimitInternal t s1) as [ok s2]. destruct Hs as (-> & Hc' & Hh' & _).
  unfold rate_count in Hc, Hc'. rewrite Heq in Hc'. cbn [fst snd].
  rewrite Hh in Hh'. unfold rate_count at 1. rewrite Heq, Hc, Hh.
  rewrite (wrapU_id 32 (Z.of_nat (length times))) by (unfold inU; lia).
  split_and!; [|done|].
  - by rewrite Hr, seq_S, fmap_app.
  - unfold rate_count. rewrite Hc', Hc, (wrapU_id 32 (Z.of_nat (length times))) by (unfold inU; lia).
    f_equal. lia.
Qed.

(** [updateParameters] takes effect for all readers: the parameters read back are
    the ones given, the hot limits are their fixed-point conversions, the version
    has advanced by one whole write (it keeps its parity), and capital, statistics
    and the rate limiter are untouched. *)
Lemma parameters_published now (p : RiskParameters) (s : RiskEngine) :
  let s' := updateParameters now p s in
  getParameters s' = p ∧
  hot_params_ s' = HotParams.mk (toDecimal (max_order_value p)) (toDecimal (max_position_value p))
    (toDecimal (max_total_position_value p)) (toDecimal (min_available_capital p))
    (max_orders_per_second p) (inc64 (inc64 (HotParams.version (hot_params_ s)))) ∧
  Z.odd (HotParams.version (hot_params_ s')) = Z.odd (HotParams.version (hot_params_ s)) ∧
  available_capital_raw_ s' = available_capital_raw_ s ∧ stats_ s' = stats_ s ∧
  orders_this_second_ s' = orders_this_second_ s.
Proof.
  destruct s as [[] [c0 c1] a w cs os av st]. cbv zeta.
  split_and!; try (by destruct w, c0, c1).
  etrans; [|by rewrite <-(negb_involutive (Z.odd _)), <-!inc64_odd].
  destruct w, c0, c1; reflexivity.
Qed.

(** A market order carries no price, and a zero price disarms three of the five
    limits: whatever its quantity, an order with price zero is rejected for its
    order value, its projected position or the available capital only if the limits
    themselves are negative or the capital is already below the minimum. *)
Theorem zero_price_unchecked {HF : FpmLaws F} now order pm s :
  OrderRequest.price order = 0 → is_dec (OrderRequest.quantity order) →
  is_dec (available_capital_raw_ s) →
  0 <= HotParams.max_order_value (hot_params_ s) → 0 <= HotParams.max_position_value (hot_params_ s) →
  HotParams.min_available_capital (hot_params_ s) <= available_capital_raw_ s →
  first_failure now order pm s = None ∨ first_failure now order pm s = Some RateLimit ∨
  first_failure now order pm s = Some TotalPosition.
Proof.
  intros Hp Hq Hc H1 H2 H3. unfold first_failure, order_value, projected_value. rewrite Hp.
  rewrite fpm_mul_0_l by done.
  assert (dabs 0 = 0) as -> by done.
  set (x := dabs _). assert (x ⊠ 0 = 0) as ->.
  { apply fpm_mul_exact; [subst x; apply dabs_dec, fpm_add_dec|by vm_compute|..|lia].
    unfold mul_fits, ONE. lia. }
  rewrite fpm_sub_spec, Z.sub_0_r by (rewrite ?Z.sub_0_r; done || by vm_compute).
  rewrite !Z.gtb_ltb.
  repeat match goal with |- context [?a <? ?b] => destruct (Z.ltb_spec a b); cbn [negb] end; auto; lia.
Qed.
End properties.

Definition market_order : OrderRequest.t :=
  OrderRequest.mk 1 5 0 (1000000 * ONE) 0 0 7 1 1 OrderSide.BUY OrderType.MARKET TimeInForce.IOC 0.

Lemma zero_price_unchecked_witness :
  let s := RiskEngine_init (U := CastX86) in
  first_failure (F := FpmRef) 5 market_order PositionManager_init s = None ∨
  first_failure (F := FpmRef) 5 market_order PositionManager_init s = Some RateLimit ∨
  first_failure (F := FpmRef) 5 market_order PositionManager_init s = Some TotalPosition.
Proof.
  apply (zero_price_unchecked (F := FpmRef)); [reflexivity|..]; vm_compute; done || split; discriminate.
Defined.

Lemma statistics_add_up_witness :
  stats_ok 2 (stats_ (fold_left (do_check (F := FpmRef))
    [(5, 10, market_order, PositionManager_init); (6, 10, market_order, PositionManager_init)]
    (resetStatistics (RiskEngine_init (U := CastX86))))).
Proof.
  apply (statistics_add_up (F := FpmRef)
    [(5, 10, market_order, PositionManager_init); (6, 10, market_order, PositionManager_init)]).
  reflexivity.
Defined.

Lemma rate_limit_exact_witness :
  (fold_left (λ '(oks, s) t, let '(ok, s) := checkRateLimit t s in (oks ++ [ok], s)) [7000001; 7000002; 7999999]
    ([], RiskEngine_init (U := CastX86))).1 = [true; true; true].
Proof.
  etrans; [apply (rate_limit_exact [7000001; 7000002; 7999999] 7000001); [reflexivity|vm_compute; discriminate|
    by repeat constructor]|reflexivity].
Defined.

Lemma accepted_order_within_limits_witness :
  let s := RiskEngine_init (U := CastX86) in
  let order := OrderRequest.mk 1 5 (100 * ONE) (2 * ONE) 0 0 7 1 1 OrderSide.BUY OrderType.LIMIT TimeInForce.GTC 0 in
  100 * ONE * (2 * ONE) < (HotParams.max_order_value (hot_params_ s) + 1) * ONE.
Proof.
  intros s order. apply (accepted_order_within_limits (F := FpmRef) 5 10 order PositionManager_init s).
  - split; repeat split; vm_compute; (reflexivity || discriminate).
  - split; vm_compute; (reflexivity || discriminate).
  - split; vm_compute; (reflexivity || discriminate).
  - vm_compute. reflexivity.
Defined.

(** Beyond a [Decimal] the checks say nothing: an order for 65536 units at 65536 each is
    worth 2^32, its raw value 2^64 wraps to zero, and with the default limits of 10^5
    and less it passes all five checks. *)
Definition wrapping_order : OrderRequest.t :=
  OrderRequest.mk 1 5 (65536 * ONE) (65536 * ONE) 0 0 7 1 1 OrderSide.BUY OrderType.LIMIT TimeInForce.GTC 0.

Lemma wrapped_value_accepted :
  order_value (F := FpmRef) wrapping_order = 0 ∧
  RiskCheckResult.passed (checkOrder (F := FpmRef) 5 10 wrapping_order PositionManager_init (RiskEngine_init (U := CastX86))).1 = true.
Proof. split; vm_compute; reflexivity. Qed.
