(* ===== verification/RateLimiter.v ===== *)
(** [RiskEngine::checkRateLimitInternal] (src/risk/risk_engine.cpp) called by any number
    of threads at once.

    RiskEngine.v models one call as one step. Here a step of a thread is one atomic
    access of the code: the reading of the clock, the load of [current_second_], the
    strong compare-and-swap that detects a new second, the store that resets
    [orders_this_second_], the fetch-and-add that counts the order. The clock moves
    between any two steps, so a call may go on with the second it read long ago.
    [counts] is ghost state: what the fetch-and-adds returned, in order; a call is
    admitted when its count is below the limit. Memory is sequentially consistent, and the
    parameters stay as they are. *)
From S2P Require Import Prelude FixedPoint Types.
From S2P Require RiskEngine.

Section limiter.
(** [max_orders_per_second]. *)
Context (max_ops : Z).

(** Where a thread is in [checkRateLimitInternal], with the second it read and what it loaded. *)
Inductive pc :=
| Idle
| AtLoad (now_sec : Z)
| AtCas (now_sec prev_sec : Z)
| AtReset
| AtCount.

#[export] Instance pc_eq_dec : EqDecision pc.
Proof. solve_decision. Defined.

Record state := State {
  clock_ : Z;
  current_second_ : Z;
  orders_this_second_ : Z;
  pcs : list pc;
  counts : list Z;
}.

(** An access of thread [i]. *)
Inductive step (i : nat) : state → state → Prop :=
| step_call t cs os ps l :
    ps !! i = Some Idle → step i (State t cs os ps l) (State t cs os (<[i := AtLoad t]> ps) l)
| step_same t now_sec os ps l :
    ps !! i = Some (AtLoad now_sec) →
    step i (State t now_sec os ps l) (State t now_sec os (<[i := AtCount]> ps) l)
| step_other t now_sec cs os ps l :
    ps !! i = Some (AtLoad now_sec) → cs ≠ now_sec →
    step i (State t cs os ps l) (State t cs os (<[i := AtCas now_sec cs]> ps) l)
| step_cas_ok t now_sec prev os ps l :
    ps !! i = Some (AtCas now_sec prev) →
    step i (State t prev os ps l) (State t now_sec os (<[i := AtReset]> ps) l)
| step_cas_fail t now_sec prev cs os ps l :
    ps !! i = Some (AtCas now_sec prev) → cs ≠ prev →
    step i (State t cs os ps l) (State t cs os (<[i := AtCount]> ps) l)
| step_reset t cs os ps l :
    ps !! i = Some AtReset → step i (State t cs os ps l) (State t cs 0 (<[i := AtCount]> ps) l)
| step_count t cs os ps l :
    ps !! i = Some AtCount →
    step i (State t cs os ps l) (State t cs (wrapU 32 (os + 1)) (<[i := Idle]> ps) (l ++ [os])).

(** Steps within one second, and with the clock moving. *)
Definition second_step (s s' : state) : Prop := ∃ i, step i s s'.
Inductive any_step : state → state → Prop :=
| any_thread s s' : second_step s s' → any_step s s'
| any_tick t t' cs os ps l : any_step (State t cs os ps l) (State t' cs os ps l).

(** The same steps as a function of who moves, to run schedules. *)
Definition step_fn (i : nat) (s : state) : state :=
  let '(State t cs os ps l) := s in
  match ps !! i with
  | None => s
  | Some Idle => State t cs os (<[i := AtLoad t]> ps) l
  | Some (AtLoad now_sec) => if cs =? now_sec then State t cs os (<[i := AtCount]> ps) l
              else State t cs os (<[i := AtCas now_sec cs]> ps) l
  | Some (AtCas now_sec prev) => if cs =? prev then State t now_sec os (<[i := AtReset]> ps) l
                  else State t cs os (<[i := AtCount]> ps) l
  | Some AtReset => State t cs 0 (<[i := AtCount]> ps) l
  | Some AtCount => State t cs (wrapU 32 (os + 1)) (<[i := Idle]> ps) (l ++ [os])
  end.

Lemma limiter_fn_step i s : is_Some (pcs s !! i) → step i s (step_fn i s).
Proof.
  destruct s as [t cs os ps l]. cbn. intros [p Hi]. rewrite Hi. destruct p as [|now|now prev| |]; [by constructor| | |by constructor..].
  - destruct (Z.eqb_spec cs now) as [->|]; by constructor.
  - destruct (Z.eqb_spec cs prev) as [<-|]; by econstructor.
Qed.

Definition run_schedule (schedule : list nat) (s : state) : state := fold_left (λ s i, step_fn i s) schedule s.

Lemma step_fn_threads i s : length (pcs (step_fn i s)) = length (pcs s).
Proof.
  destruct s as [t cs os ps l]. cbn. destruct (ps !! i) as [[]|]; cbn; repeat case_match; cbn; by rewrite ?length_insert.
Qed.

Lemma run_schedule_steps schedule s :
  Forall (λ i, (i < length (pcs s))%nat) schedule → rtc second_step s (run_schedule schedule s).
Proof.
  revert s. induction schedule as [|i schedule IH]; intros s Hs; [done|]. apply Forall_cons in Hs as [Hi Hs]. cbn.
  eapply rtc_l; [exists i; by apply limiter_fn_step, lookup_lt_is_Some|]. apply IH. by rewrite step_fn_threads.
Qed.

(** [n] threads, no call under way. *)
Definition init (n : nat) (t cs os : Z) : state := State t cs os (replicate n Idle) [].

(** The answers of the calls that have counted: [count < max_ops]. *)
Definition answers (s : state) : list bool := (λ c, c <? max_ops) <$> counts s.
Definition below (l : list Z) : nat := length (filter (λ c : Z, c < max_ops) l).
Definition admitted (s : state) : nat := below (counts s).

(** ** The counts handed out

    [emitted os0 l r os]: a 32-bit counter that starts at [os0], is set to zero [r] times
    and stands at [os] has handed out [l]. *)
Inductive emitted (os0 : Z) : list Z → nat → Z → Prop :=
| emitted_none : emitted os0 [] 0 os0
| emitted_count l r os : emitted os0 l r os → emitted os0 (l ++ [os]) r (wrapU 32 (os + 1))
| emitted_reset l r os : emitted os0 l r os → emitted os0 l (S r) 0.

(** No more than the limit between two resets. *)
Lemma emitted_below os0 l r os :
  emitted os0 l r os → 0 <= os0 → 0 <= max_ops → os0 + Z.of_nat (length l) < 2 ^ 32 →
  0 <= os <= os0 + Z.of_nat (length l) ∧
  Z.of_nat (below l) + Z.max 0 (max_ops - os) <= Z.max 0 (max_ops - os0) + Z.of_nat r * max_ops.
Proof.
  intros He H0 Hm. induction He as [|l r os He IH|l r os He IH]; intros Hl.
  - unfold below. cbn. lia.
  - rewrite length_app in *. cbn [length] in *. destruct IH as [IH1 IH2]; [lia|].
    rewrite wrapU_id by (unfold inU; lia). split; [lia|]. unfold below in *. rewrite filter_app, length_app, filter_cons, filter_nil.
    case_decide; cbn [length]; lia.
  - destruct IH as [IH1 IH2]; [lia|]. split; lia.
Qed.

(** ** How often the counter is reset in one second *)

(** The calls under way. *)
Definition in_flight (s : state) : nat := length (filter (λ p, p ≠ Idle) (pcs s)).

(** The resets a call can still cause in second [t]: one of its own, and one of the
    call that swaps [t] back in when this one has swapped in another second. *)
Definition weight (t : Z) (p : pc) : nat :=
  match p with
  | Idle | AtCount => 0
  | AtLoad now_sec | AtCas now_sec _ => if now_sec =? t then 0 else 2
  | AtReset => 1
  end.
Definition old_second (t cs : Z) : nat := if cs =? t then 0 else 1.
Definition potential (s : state) : nat := sum_list_with (weight (clock_ s)) (pcs s) + old_second (clock_ s) (current_second_ s).

(** A call that is about to swap has seen another second than its own. *)
Definition swaps_ok (s : state) : Prop := Forall (λ p, match p with AtCas now_sec prev => prev ≠ now_sec | _ => True end) (pcs s).

Lemma weight_insert t (ps : list pc) i p q :
  ps !! i = Some p → (sum_list_with (weight t) (<[i := q]> ps) + weight t p = sum_list_with (weight t) ps + weight t q)%nat.
Proof.
  intros Hi. destruct (list_elem_of_split_length _ _ _ Hi) as (l1 & l2 & -> & ->). rewrite insert_app_r_alt by lia.
  rewrite Nat.sub_diag. cbn. rewrite !sum_list_with_app. cbn. lia.
Qed.

Lemma weight_in_flight t (ps : list pc) : (sum_list_with (weight t) ps <= 2 * length (filter (λ p, p ≠ Idle) ps))%nat.
Proof.
  induction ps as [|p ps IH]; [done|]. rewrite filter_cons. cbn [sum_list_with].
  destruct p; cbn [weight]; case_decide as Hd; (done || (by destruct Hd) || (cbn [length]; repeat case_match; lia)).
Qed.

Lemma swaps_step s s' : swaps_ok s → any_step s s' → swaps_ok s'.
Proof.
  intros Hs Hst. destruct Hst as [s s' [i Hi]|]; [|exact Hs]. unfold swaps_ok in *. destruct Hi; cbn in *; apply Forall_insert; try done; congruence.
Qed.

Lemma swaps_reachable n t cs os s : rtc any_step (init n t cs os) s → swaps_ok s.
Proof.
  intros Hs. revert s Hs. apply (rtc_ind_r swaps_ok (init n t cs os)).
  - unfold swaps_ok, init. cbn. by apply Forall_replicate.
  - intros s1 s2 _ H12 H1. by eapply swaps_step.
Qed.

(** A step within the second hands out the count, resets the counter, or neither; a
    reset uses up potential. *)
Lemma emitted_step os0 s s' l0 l r :
  swaps_ok s → second_step s s' → counts s = l0 ++ l → emitted os0 l r (orders_this_second_ s) →
  ∃ l' r', counts s' = l0 ++ l' ∧ emitted os0 l' r' (orders_this_second_ s') ∧ clock_ s' = clock_ s ∧
    (r' + potential s' <= r + potential s)%nat.
Proof.
  intros Hw [i Hs] Hc He. unfold potential, old_second.
  destruct Hs as [t cs os ps l1 Hi|t now os ps l1 Hi|t now cs os ps l1 Hi Hne|t now prev os ps l1 Hi|t now prev cs os ps l1 Hi Hne|t cs os ps l1 Hi|t cs os ps l1 Hi];
    cbn [clock_ current_second_ orders_this_second_ pcs counts] in *;
    match goal with |- context [<[i := ?q]> ps] => pose proof (weight_insert t ps i _ q Hi) as Hq end; cbn [weight] in Hq.
  - exists l, r. rewrite Z.eqb_refl in Hq. split_and!; [done..|lia].
  - exists l, r. split_and!; [done..|lia].
  - exists l, r. split_and!; [done..|lia].
  - exists l, r. split_and!; [done..|]. pose proof (proj1 (Forall_lookup _ _) Hw i _ Hi) as Hne. cbn in Hne.
    destruct (Z.eqb_spec now t) as [->|]; [rewrite (proj2 (Z.eqb_neq prev t)) by done|]; repeat case_match; lia.
  - exists l, r. split_and!; [done..|lia].
  - exists l, (S r). split_and!; [done|by econstructor|done|lia].
  - exists (l ++ [os]), r. rewrite Hc, <-app_assoc. split_and!; [done|by constructor|done|lia].
Qed.

Lemma emitted_run s0 s :
  swaps_ok s0 → rtc second_step s0 s →
  ∃ l r, counts s = counts s0 ++ l ∧ emitted (orders_this_second_ s0) l r (orders_this_second_ s) ∧
    swaps_ok s ∧ clock_ s = clock_ s0 ∧ (r + potential s <= potential s0)%nat.
Proof.
  intros Hw Hs. revert s Hs. apply (rtc_ind_r (λ s, ∃ l r, counts s = counts s0 ++ l ∧ emitted (orders_this_second_ s0) l r (orders_this_second_ s) ∧
    swaps_ok s ∧ clock_ s = clock_ s0 ∧ (r + potential s <= potential s0)%nat) s0).
  - exists [], 0%nat. rewrite app_nil_r. split_and!; [done|constructor|done|done|lia].
  - intros s1 s2 _ H12 (l & r & H1 & H2 & H3 & H4 & H5).
    destruct (emitted_step _ s1 s2 (counts s0) l r H3 H12 H1 H2) as (l' & r' & E1 & E2 & E3 & E4).
    exists l', r'. split_and!; [done|done|by eapply swaps_step; [|left]|congruence|lia].
Qed.

(** *** One thread at a time

    A whole call without interruption is [RiskEngine.checkRateLimitInternal]. *)
Definition whole_call (i : nat) (s : state) : state :=
  let s := step_fn i (step_fn i s) in
  match pcs s !! i with
  | Some (AtCas _ _) => step_fn i (step_fn i (step_fn i s))
  | _ => step_fn i s
  end.

Definition abstracts (s : state) (r : RiskEngine.RiskEngine) : Prop :=
  RiskEngine.current_second_ r = current_second_ s ∧ RiskEngine.orders_this_second_ r = orders_this_second_ s ∧
  RiskEngine.HotParams.max_orders_per_second (RiskEngine.hot_params_ r) = max_ops.

Lemma whole_call_refines i s r now_us :
  pcs s !! i = Some Idle → abstracts s r → RiskEngine.current_second_since_epoch now_us = clock_ s →
  let '(ok, r') := RiskEngine.checkRateLimitInternal now_us r in
  abstracts (whole_call i s) r' ∧ answers (whole_call i s) = answers s ++ [ok] ∧ pcs (whole_call i s) !! i = Some Idle.
Proof.
  destruct s as [t cs os ps l], r as [hp cb ac wi rcs ros av st]. intros Hi (H1 & H2 & H3) Hn. cbn in Hi, H1, H2, H3, Hn. subst rcs ros.
  pose proof (lookup_lt_Some _ _ _ Hi) as Hlt.
  unfold RiskEngine.checkRateLimitInternal, whole_call, abstracts, answers. rewrite Hn. cbn. rewrite Hi. cbn.
  assert (∀ (ps : list pc) p, (i < length ps)%nat → <[i := p]> ps !! i = Some p) as Hins by (intros; by apply list_lookup_insert_eq).
  destruct (Z.eqb_spec cs t) as [->|Hne]; cbn;
    repeat (rewrite ?Hins, ?Z.eqb_refl, ?(proj2 (Z.eqb_neq _ _) Hne) by (rewrite ?length_insert; done); cbn);
    rewrite fmap_app, H3; by split_and!.
Qed.
End limiter.

(** ** Properties *)

(** C25: the limit of a second under any interleaving of any number of threads and of
    the clock. From a moment at which [k] calls are under way, calls that read any second,
    until the clock shows the next second, the counts handed out are those of a counter
    that is reset at most [2 * k] times, and once more when the second is not yet
    swapped in; so at most that many times the limit, and the limit once more, is
    admitted (as long as the 32-bit counter does not start over). A call that goes on with
    a second it read before swaps the old second in again: this is how a limit can be
    exceeded. When no call is under way, at most twice the limit
    is admitted, and no more than the limit if the second has begun. *)
Theorem concurrent_rate_limit max_ops n t cs os s0 s :
  rtc any_step (init n t cs os) s0 → rtc second_step s0 s → 0 <= max_ops →
  0 <= orders_this_second_ s0 → orders_this_second_ s0 + Z.of_nat (length (counts s)) < 2 ^ 32 →
  let k := in_flight s0 in
  let begun := current_second_ s0 =? clock_ s0 in
  ∃ l r, counts s = counts s0 ++ l ∧ emitted (orders_this_second_ s0) l r (orders_this_second_ s) ∧
    (r <= 2 * k + (if begun then 0 else 1))%nat ∧
    Z.of_nat (below max_ops l) <= (2 * Z.of_nat k + (if begun then 1 else 2)) * max_ops.
Proof.
  intros H0 Hs Hm Ho Hn k begun. destruct (emitted_run s0 s) as (l & r & H1 & H2 & _ & _ & H3); [by eapply swaps_reachable|done|].
  exists l, r. split; [done|]. split; [done|].
  assert (r <= 2 * k + (if begun then 0 else 1))%nat as Hr.
  { pose proof (weight_in_flight (clock_ s0) (pcs s0)). unfold potential, old_second in H3. fold begun in H3. subst k. unfold in_flight. lia. }
  split; [done|]. rewrite H1, length_app in Hn.
  destruct (emitted_below max_ops _ _ _ _ H2 Ho Hm) as [_ Hb]; [lia|].
  assert (Z.of_nat r * max_ops <= (2 * Z.of_nat k + (if begun then 0 else 1)) * max_ops) by (apply Z.mul_le_mono_nonneg_r; destruct begun; lia).
  destruct begun; lia.
Qed.

(** Limit 1. Thread 0 reads second 6 and stalls; in second 7 thread 1 is admitted, then thread
    0 swaps 6 in again and is admitted after its reset, then thread 1 swaps 7 in and is
    admitted once more. *)
Definition second_six : state := run_schedule [0]%nat (init 2 6 5 0).
Definition second_seven : state := let '(State _ cs os ps l) := second_six in State 7 cs os ps l.
Definition stalling : list nat := [1; 1; 1; 1; 1;  0; 0; 0; 0;  1; 1; 1; 1; 1]%nat.
Definition overshot : state := run_schedule stalling second_seven.

Lemma second_seven_reachable : rtc any_step (init 2 6 5 0) second_seven.
Proof.
  eapply rtc_l; [left; exists 0%nat; apply limiter_fn_step; by eexists|]. apply rtc_once. apply (any_tick 6 7).
Qed.

Lemma concurrent_rate_limit_witness :
  in_flight second_seven = 1%nat ∧ answers 1 overshot = [true; true; true] ∧
  Z.of_nat (below 1 (counts overshot)) <= (2 * 1 + 2) * 1.
Proof.
  split; [reflexivity|]. split; [reflexivity|].
  destruct (concurrent_rate_limit 1 2 6 5 0 second_seven overshot second_seven_reachable) as (l & r & E1 & _ & _ & E2);
    [apply run_schedule_steps; repeat constructor|lia|vm_compute; discriminate|vm_compute; reflexivity|].
  rewrite E1. exact E2.
Defined.

(** The limit is overshot: three orders are admitted in a second whose limit is one. *)
Lemma rate_limit_overshot :
  rtc second_step second_seven overshot ∧ clock_ overshot = 7 ∧ answers 1 overshot = [true; true; true].
Proof. split; [apply run_schedule_steps; repeat constructor|by vm_compute]. Qed.
