(* ===== verification/SpinLock.v ===== *)
(** The spin locks: [spin_acquire] and [spin_release] around the statistics of
    [RiskEngine] (src/risk/risk_engine.cpp), [lockHotData] and [unlockHotData] of
    [OrderBook] (src/market_data/orderbook.cpp). First the lock over any data and any
    operations made of atomic accesses, for any number of threads; then the
    statistics, whose operations RiskEngine.v models as one step each. A thread
    that spins may spin for ever: nothing is said about fairness. *)
From stdpp Require Import functions.
From S2P Require Import Prelude FixedPoint Types.
From S2P Require Import RiskEngine.

(** ** The lock *)

(** One turn of [while (lock.test_and_set()) {}]: [None] to spin once more. *)
Definition spin_acquire (locked : bool) : option bool := if locked then None else Some true.
Definition spin_release (locked : bool) : bool := false.
Definition lockHotData : bool → option bool := spin_acquire.
Definition unlockHotData : bool → bool := spin_release.

Section lock.
(** Calls [C] whose bodies access data [D], one access at a time, with a local
    variable [L] that is also what they return. *)
Context {C D L : Type} (body : C → list (D → L → D * L)) (local0 : L).

Inductive pc :=
| Idle
| Spinning (c : C)
| Holding (c : C) (rest : list (D → L → D * L)) (l : L).

Record state := State {
  locked : bool;
  data : D;
  pcs : nat → pc;
  log : list (C * L);     (* ghost: the calls finished and what they returned *)
}.

Inductive step (i : nat) : state → state → Prop :=
| step_call c b d ps lg :
    ps i = Idle → step i (State b d ps lg) (State b d (<[i := Spinning c]> ps) lg)
| step_spin c b d ps lg :
    ps i = Spinning c → spin_acquire b = None → step i (State b d ps lg) (State b d ps lg)
| step_acquire c b b' d ps lg :
    ps i = Spinning c → spin_acquire b = Some b' →
    step i (State b d ps lg) (State b' d (<[i := Holding c (body c) local0]> ps) lg)
| step_access c a rest l b d ps lg :
    ps i = Holding c (a :: rest) l →
    step i (State b d ps lg) (State b (a d l).1 (<[i := Holding c rest (a d l).2]> ps) lg)
| step_release c l b d ps lg :
    ps i = Holding c [] l →
    step i (State b d ps lg) (State (spin_release b) d (<[i := Idle]> ps) (lg ++ [(c, l)])).

Definition any_step (s s' : state) : Prop := ∃ i, step i s s'.

Definition init (d : D) : state := State false d (λ _, Idle) [].

(** The same steps as a function of who moves and what it calls next, to run schedules. *)
Definition step_fn (ic : nat * C) (s : state) : state :=
  let '(i, c) := ic in
  let '(State b d ps lg) := s in
  match ps i with
  | Idle => State b d (<[i := Spinning c]> ps) lg
  | Spinning c' => match spin_acquire b with
                   | None => s
                   | Some b' => State b' d (<[i := Holding c' (body c') local0]> ps) lg
                   end
  | Holding c' (a :: rest) l => State b (a d l).1 (<[i := Holding c' rest (a d l).2]> ps) lg
  | Holding c' [] l => State (spin_release b) d (<[i := Idle]> ps) (lg ++ [(c', l)])
  end.

Lemma lock_fn_step ic s : step ic.1 s (step_fn ic s).
Proof.
  destruct ic as [i c], s as [b d ps lg]. cbn [step_fn fst]. destruct (ps i) as [|c'|c' [|a rest] l] eqn:Hi; try by constructor.
  destruct (spin_acquire b) eqn:Hb; by econstructor.
Qed.

Definition run_schedule (schedule : list (nat * C)) (s : state) : state := fold_left (λ s ic, step_fn ic s) schedule s.

Lemma lock_run_steps schedule s : rtc any_step s (run_schedule schedule s).
Proof.
  revert s. induction schedule as [|ic schedule IH]; intros s; [done|]. cbn.
  eapply rtc_l; [exists ic.1; apply lock_fn_step|apply IH].
Qed.

(** *** Calls in one piece *)

Fixpoint run_accesses (accesses : list (D → L → D * L)) (d : D) (l : L) : D * L :=
  match accesses with
  | [] => (d, l)
  | a :: rest => run_accesses rest (a d l).1 (a d l).2
  end.

Definition run_call (c : C) (d : D) : D * L := run_accesses (body c) d local0.

(** The calls of a log one after the other, each whole; the data after them, and
    whether each returned what the log says. *)
Definition data_after (d : D) (lg : list (C * L)) : D := fold_left (λ d c, (run_call c d).1) lg.*1 d.

Definition sequential (d : D) (lg : list (C * L)) : Prop :=
  ∀ before c l after, lg = before ++ (c, l) :: after → l = (run_call c (data_after d before)).2.

Lemma sequential_snoc d lg c :
  sequential d lg → sequential d (lg ++ [(c, (run_call c (data_after d lg)).2)]).
Proof.
  intros Hs before c' l' after H. destruct after as [|x after _] using rev_ind.
  - apply app_inj_tail in H as [<- [= <- <-]]. done.
  - rewrite app_comm_cons, app_assoc in H. apply app_inj_tail in H as [H _]. by eapply Hs.
Qed.

Lemma data_after_snoc d lg c l : data_after d (lg ++ [(c, l)]) = (run_call c (data_after d lg)).1.
Proof. unfold data_after. by rewrite fmap_app, fold_left_app. Qed.

(** *** The invariant *)

Definition holds (p : pc) : Prop := match p with Holding _ _ _ => True | _ => False end.

(** A free lock guards the data of the finished calls; behind a taken one exactly one
    thread is on its way from there to the end of its call. *)
Definition inv (d : D) (s : state) : Prop :=
  sequential d (log s) ∧
  if locked s then
    ∃ i c rest l, pcs s i = Holding c rest l ∧ (∀ j, holds (pcs s j) → j = i) ∧
      run_accesses rest (data s) l = run_call c (data_after d (log s))
  else (∀ j, ¬ holds (pcs s j)) ∧ data s = data_after d (log s).

Lemma inv_init d : inv d (init d).
Proof. split; [by intros [|? ?] ? ? ? ?|]. cbn. split; [by intros j []|done]. Qed.

(** Changing a thread that does not hold the lock into one that does not. *)
Lemma other_unlocked (ps : nat → pc) i p j : ¬ holds p → ¬ holds (ps j) → ¬ holds (<[i := p]> ps j).
Proof. intros Hp Hj. destruct (decide (i = j)) as [->|]; [by rewrite fn_lookup_insert|by rewrite fn_lookup_insert_ne]. Qed.

Lemma other_locked (ps : nat → pc) i p k :
  ¬ holds p → (∀ j, holds (ps j) → j = k) → ∀ j, holds (<[i := p]> ps j) → j = k.
Proof. intros Hp H j. destruct (decide (i = j)) as [->|]; [by rewrite fn_lookup_insert|rewrite fn_lookup_insert_ne by done; apply H]. Qed.

Lemma inv_step d s s' : inv d s → any_step s s' → inv d s'.
Proof.
  intros [Hs Hi] [i Hstep].
  destruct Hstep as [c b dt ps lg Hp|c b dt ps lg Hp Hb|c b b' dt ps lg Hp Hb|c a rest l b dt ps lg Hp|c l b dt ps lg Hp];
    cbn [log locked data pcs] in Hs, Hi; split; cbn [log locked data pcs].
  - done.
  - destruct b.
    + destruct Hi as (k & c' & rest & l & Hk & Hu & Hr). exists k, c', rest, l. split_and!; [|by apply other_locked; [cbn; auto|]|done].
      rewrite fn_lookup_insert_ne; [done|]. intros ->. congruence.
    + destruct Hi as [Hn Hd]. split; [|done]. intros j. by apply other_unlocked; [cbn; auto|].
  - done.
  - by destruct b.
  - done.
  - destruct b; cbn in Hb; [done|]. injection Hb as <-. destruct Hi as [Hn ->].
    exists i, c, (body c), local0. rewrite fn_lookup_insert. split_and!; [done| |done].
    intros j. destruct (decide (i = j)) as [->|]; [done|]. rewrite fn_lookup_insert_ne by done. by intros ?%Hn.
  - done.
  - destruct b; [|by destruct Hi as [Hn _]; destruct (Hn i); rewrite Hp].
    destruct Hi as (k & c' & rest' & l' & Hk & Hu & Hr). assert (i = k) as <- by (apply Hu; by rewrite Hp).
    rewrite Hp in Hk. injection Hk as <- <- <-. exists i, c, rest, (a dt l).2. rewrite fn_lookup_insert. split_and!; [done| |done].
    intros j. destruct (decide (i = j)) as [->|]; [done|]. rewrite fn_lookup_insert_ne by done. apply Hu.
  - destruct b; [|by destruct Hi as [Hn _]; destruct (Hn i); rewrite Hp].
    destruct Hi as (k & c' & rest' & l' & Hk & Hu & Hr). assert (i = k) as <- by (apply Hu; by rewrite Hp).
    rewrite Hp in Hk. injection Hk as <- <- <-. cbn [run_accesses data] in Hr.
    replace l with (run_call c (data_after d lg)).2 by (by rewrite <-Hr). by apply sequential_snoc.
  - destruct b; [|by destruct Hi as [Hn _]; destruct (Hn i); rewrite Hp].
    destruct Hi as (k & c' & rest' & l' & Hk & Hu & Hr). assert (i = k) as <- by (apply Hu; by rewrite Hp).
    rewrite Hp in Hk. injection Hk as <- <- <-. cbn [run_accesses data] in Hr. rewrite data_after_snoc, <-Hr. split; [|done].
    intros j. destruct (decide (i = j)) as [->|]; [rewrite fn_lookup_insert; by intros []|]. rewrite fn_lookup_insert_ne by done.
    intros ?%Hu. congruence.
Qed.

Lemma reachable_inv d s : rtc any_step (init d) s → inv d s.
Proof.
  revert s. apply (rtc_ind_r (R := any_step) (inv d) (init d)); [apply inv_init|].
  intros s1 s2 _ H12 H1. by eapply inv_step.
Qed.

(** At most one thread is between acquire and release. *)
Lemma mutual_exclusion d s i j : rtc any_step (init d) s → holds (pcs s i) → holds (pcs s j) → i = j.
Proof.
  intros [_ Hi]%reachable_inv H1 H2. destruct (locked s).
  - destruct Hi as (k & ? & ? & ? & _ & Hu & _). by rewrite (Hu i H1), (Hu j H2).
  - by destruct Hi as [Hn _]; destruct (Hn i).
Qed.
End lock.

(** ** The statistics of [RiskEngine] *)

Inductive stat_call :=
| UpdateStats (passed : bool) (reason : string) (latency_ns : Z)
| GetStatistics
| ResetStatistics.

Abbreviation access := (Statistics.t → Statistics.t → Statistics.t * Statistics.t).

(** [++] of a counter: a load and a store under the lock, as one access. *)
Definition bump (f : Statistics.t → Statistics.t) : access := λ d l, (f d, l).

(** The counter of a rejection, found by searching the text. *)
Definition cause_access (reason : string) : list access :=
  if contains "Rate limit" reason then [bump (λ d, d {{ Statistics.rate_limit_rejects ::= inc64 }})]
  else if contains "Order value" reason then [bump (λ d, d {{ Statistics.order_value_rejects ::= inc64 }})]
  else if contains "Position" reason then [bump (λ d, d {{ Statistics.position_limit_rejects ::= inc64 }})]
  else if contains "Total position" reason then [bump (λ d, d {{ Statistics.total_position_rejects ::= inc64 }})]
  else if contains "capital" reason || contains "Capital" reason
       then [bump (λ d, d {{ Statistics.capital_rejects ::= inc64 }})]
  else [].

(** The accesses of a call under the lock; the local is the [copy] of [getStatistics],
    whose last field also holds the average between its load and its store. *)
Definition stat_body (c : stat_call) : list access :=
  match c with
  | UpdateStats passed reason latency_ns =>
      bump (λ d, d {{ Statistics.total_checks ::= inc64 }}) ::
      (if passed then [bump (λ d, d {{ Statistics.accepted ::= inc64 }})]
       else bump (λ d, d {{ Statistics.rejected ::= inc64 }}) :: cause_access reason) ++
      [ (λ d l, (d, l {{ Statistics.avg_check_latency := Statistics.avg_check_latency d }}));
        (λ d l, (d {{ Statistics.avg_check_latency := ema_s64 (Statistics.avg_check_latency l) latency_ns }}, l)) ]
  | GetStatistics =>
      [ (λ d l, (d, l {{ Statistics.total_checks := Statistics.total_checks d }}));
        (λ d l, (d, l {{ Statistics.accepted := Statistics.accepted d }}));
        (λ d l, (d, l {{ Statistics.rejected := Statistics.rejected d }}));
        (λ d l, (d, l {{ Statistics.rate_limit_rejects := Statistics.rate_limit_rejects d }}));
        (λ d l, (d, l {{ Statistics.order_value_rejects := Statistics.order_value_rejects d }}));
        (λ d l, (d, l {{ Statistics.position_limit_rejects := Statistics.position_limit_rejects d }}));
        (λ d l, (d, l {{ Statistics.total_position_rejects := Statistics.total_position_rejects d }}));
        (λ d l, (d, l {{ Statistics.capital_rejects := Statistics.capital_rejects d }}));
        (λ d l, (d, l {{ Statistics.avg_check_latency := Statistics.avg_check_latency d }})) ]
  | ResetStatistics =>
      [ (λ d l, (d {{ Statistics.total_checks := 0 }}, l));
        (λ d l, (d {{ Statistics.accepted := 0 }}, l));
        (λ d l, (d {{ Statistics.rejected := 0 }}, l));
        (λ d l, (d {{ Statistics.rate_limit_rejects := 0 }}, l));
        (λ d l, (d {{ Statistics.order_value_rejects := 0 }}, l));
        (λ d l, (d {{ Statistics.position_limit_rejects := 0 }}, l));
        (λ d l, (d {{ Statistics.total_position_rejects := 0 }}, l));
        (λ d l, (d {{ Statistics.capital_rejects := 0 }}, l));
        (λ d l, (d {{ Statistics.avg_check_latency := 0 }}, l)) ]
  end.

(** What RiskEngine.v says the calls do in one step. *)
Definition stat_effect (st : Statistics.t) (c : stat_call) : Statistics.t :=
  match c with
  | UpdateStats passed reason latency_ns => updateStats passed reason latency_ns st
  | GetStatistics => st
  | ResetStatistics => Statistics.init
  end.

Lemma stat_body_effect c st : (run_call stat_body Statistics.init c st).1 = stat_effect st c.
Proof.
  destruct c as [passed reason lat| |]; destruct st; [|done..].
  unfold run_call, stat_body, stat_effect, updateStats, cause_access.
  destruct passed; [done|].
  do 4 (match goal with |- context [if contains ?n reason then _ else _] => destruct (contains n reason); [done|] end).
  by destruct (contains "capital" reason || contains "Capital" reason).
Qed.

Lemma copy_whole st : (run_call stat_body Statistics.init GetStatistics st).2 = st.
Proof. by destruct st. Qed.

Lemma effects_fold lg st :
  data_after stat_body Statistics.init st lg = fold_left stat_effect lg.*1 st.
Proof.
  unfold data_after. generalize (lg.*1). intros cs. revert st. induction cs as [|c cs IH]; intros st; [done|].
  cbn [fold_left]. by rewrite stat_body_effect.
Qed.

(** C24: the spin lock makes the statistics atomic: however the single accesses of any
    number of threads that update, read and reset them interleave, what
    [getStatistics] returns is exactly the statistics after the calls finished before
    it, each applied whole and in one order for all threads; so is what the lock
    guards whenever it is free; and no two threads are ever inside at once. *)
Theorem statistics_atomic st0 s :
  rtc (any_step stat_body Statistics.init) (init st0) s →
  (∀ before copy after, log s = before ++ (GetStatistics, copy) :: after →
     copy = fold_left stat_effect before.*1 st0) ∧
  (locked s = false → data s = fold_left stat_effect (log s).*1 st0) ∧
  (∀ i j, holds (pcs s i) → holds (pcs s j) → i = j).
Proof.
  intros Hr. destruct (reachable_inv _ _ _ _ Hr) as [Hs Hi]. split_and!.
  - intros before copy after H. apply Hs in H as ->. by rewrite copy_whole, effects_fold.
  - intros Hf. rewrite Hf in Hi. destruct Hi as [_ ->]. apply effects_fold.
  - intros i j. by eapply mutual_exclusion.
Qed.

(** A reader that arrives while an update is under way spins until it is whole. *)
Definition sample_calls : list (nat * stat_call) :=
  let u := (0%nat, UpdateStats false "Rate limit exceeded" 80) in
  let r := (1%nat, GetStatistics) in
  [u; u; u; r; r; u; r; u; u; u; u] ++ replicate 11 r.

Abbreviation sample_stats := (run_schedule stat_body Statistics.init sample_calls (init Statistics.init)).

Lemma sample_log :
  log sample_stats = [(UpdateStats false "Rate limit exceeded" 80, Statistics.init);
                      (GetStatistics, Statistics.mk 1 0 1 1 0 0 0 0 80)].
Proof. vm_compute. reflexivity. Qed.

Lemma statistics_atomic_witness :
  Statistics.mk 1 0 1 1 0 0 0 0 80 =
    fold_left stat_effect [UpdateStats false "Rate limit exceeded" 80] Statistics.init ∧ locked sample_stats = false.
Proof.
  split; [|vm_compute; reflexivity].
  apply (proj1 (statistics_atomic Statistics.init sample_stats (lock_run_steps _ _ sample_calls _))
    [(UpdateStats false "Rate limit exceeded" 80, Statistics.init)] (Statistics.mk 1 0 1 1 0 0 0 0 80) []).
  exact sample_log.
Defined.
