(* ===== verification/CpuAffinity.v ===== *)
(** [setCpuAffinity] and [numCores] (include/chronos/utils/cpu_affinity.hpp), the branch
    for Linux. What the system answers is a parameter: [nprocs] is
    [sysconf(_SC_NPROCESSORS_ONLN)], [set_affinity] says whether
    [pthread_setaffinity_np] accepts a set of cores for the calling thread. [cpuRelax] is a hint to the
    processor and changes nothing. *)
From S2P Require Import Prelude.

(** The size of glibc's [cpu_set_t]; [CPU_SET] ignores a core beyond it. *)
Definition CPU_SETSIZE : Z := 1024.
Definition CPU_SET (cpu : Z) (cpuset : gset Z) : gset Z :=
  if cpu <? CPU_SETSIZE then {[cpu]} ∪ cpuset else cpuset.

Section affinity.
Context (nprocs : Z) (set_affinity : gset Z → bool).

(** The set asked for: one core, or all of them for a negative number. *)
Definition requested (cpu : Z) : gset Z :=
  if cpu >=? 0 then CPU_SET cpu ∅
  else fold_left (λ s i, CPU_SET i s) (seqZ 0 (if nprocs >? 0 then nprocs else CPU_SETSIZE)) ∅.

Definition setCpuAffinity (cpu : Z) : bool := set_affinity (requested cpu).

Definition numCores : Z := if nprocs >? 0 then wrapS 32 nprocs else 1.

Lemma fold_CPU_SET l s i :
  Forall (λ j, j < CPU_SETSIZE) l → i ∈ fold_left (λ s i, CPU_SET i s) l s ↔ i ∈ l ∨ i ∈ s.
Proof.
  intros Hl. revert s. induction Hl as [|j l Hj _ IH]; intros s; cbn [fold_left]; [set_solver|].
  rewrite IH. unfold CPU_SET. rewrite (proj2 (Z.ltb_lt _ _)) by done. set_solver.
Qed.

(** A core that exists is pinned alone, a negative number releases the thread to every
    core [numCores] counts, and a number no [cpu_set_t] holds asks for no core
    at all. *)
Lemma requested_cores cpu i :
  nprocs <= CPU_SETSIZE →
  i ∈ requested cpu ↔
    if decide (0 <= cpu) then i = cpu ∧ cpu < CPU_SETSIZE
    else 0 <= i < (if decide (0 < nprocs) then numCores else CPU_SETSIZE).
Proof.
  intros Hn. unfold requested, numCores. rewrite Z.geb_leb, !Z.gtb_ltb. case_decide.
  - rewrite (proj2 (Z.leb_le _ _)) by done. unfold CPU_SET. destruct (Z.ltb_spec cpu CPU_SETSIZE); set_solver by lia.
  - rewrite (proj2 (Z.leb_gt _ _)) by lia. rewrite fold_CPU_SET.
    + rewrite elem_of_seqZ. case_decide as Hp.
      * rewrite (proj2 (Z.ltb_lt _ _)) by done. rewrite wrapS_id; [set_solver by lia|lia|unfold inS, CPU_SETSIZE in *; lia].
      * rewrite (proj2 (Z.ltb_ge _ _)) by lia. set_solver by lia.
    + apply Forall_forall. intros j Hj%elem_of_seqZ. destruct (Z.ltb_spec 0 nprocs); lia.
Qed.
End affinity.
