(* ===== verification/StrategyEngine.v ===== *)
(** [OrderIDGenerator], [StrategyContext] and [StrategyEngine]
    (include/chronos/trading/order_id_generator.hpp, strategy.hpp,
    strategy_engine.hpp, src/trading/strategy_engine.cpp).

    A strategy is foreign code that reaches the engine only through its context, so a
    callback is a program over the context's methods ([prog]); strategies may do
    whatever such programs can do. The engine thread runs one iteration of its loop
    at a time; ticks, fills and the gateway's polls come from other threads. The
    polls may also fall between two context calls of a callback: the environment
    [env] says, for the n-th context call, how many polls came just before it, what the
    clock read, and what other threads changed of the limits and the capital while the call's
    risk check read them. [delivered_] is ghost state: the orders the gateway has taken. *)
From S2P Require Import Prelude FixedPoint Types BookSpec.
From S2P Require OrderBookV2.
From S2P Require Import MpmcQueue PositionManager RiskEngine.

(** ** Strategies *)

(** The methods of [StrategyContext]. *)
Inductive call : Type → Type :=
| GetBestBid (symbol_id : Z) : call (option Z)
| GetBestAsk (symbol_id : Z) : call (option Z)
| GetMidPrice (symbol_id : Z) : call (option Z)
| GetTop5Bids (symbol_id : Z) : call (list PriceLevel.t)
| GetTop5Asks (symbol_id : Z) : call (list PriceLevel.t)
| GetPosition (symbol_id : Z) : call (option Position.t)
| GetAvailableCapital : call Z
| CurrentTimestampUs : call Z
| SubmitOrder (order : OrderRequest.t) : call Z
| CancelOrder (order_id : Z) : call bool.

Inductive prog (A : Type) : Type :=
| Ret (a : A)
| Call {X : Type} (c : call X) (k : X → prog A).
Arguments Ret {A} a.
Arguments Call {A X} c k.

(** At most [n] context calls on every path. *)
Inductive within {A} : nat → prog A → Prop :=
| within_ret n a : within n (Ret a)
| within_call n X (c : call X) k : (∀ x, within n (k x)) → within (S n) (Call c k).

(** The callbacks take and return the strategy's own state. *)
Record Strategy (St : Type) := mkStrategy {
  symbols : list Z;
  onLoad : St → prog St;
  onUnload : St → prog St;
  onTick : Tick.t → St → prog St;
  onFill : Fill.t → St → prog St;
  onTimer : Z → St → prog St;
}.
Arguments mkStrategy {St}.
Arguments symbols {St}.
Arguments onLoad {St}.
Arguments onUnload {St}.
Arguments onTick {St}.
Arguments onFill {St}.
Arguments onTimer {St}.

Record StrategyEntry (St : Type) := mkEntry {
  id : Z;
  strategy : Strategy St;
  self : St;
  entry_symbols : gset Z;
  is_wildcard : bool;
}.
Arguments mkEntry {St}.
Arguments id {St}.
Arguments strategy {St}.
Arguments self {St}.
Arguments entry_symbols {St}.
Arguments is_wildcard {St}.

(** What the environment does around one context call. *)
Record reading := mkReading {
  gateway_polls : nat;
  clock_us : Z;
  check_latency_ns : Z;
  meanwhile : nat → list RiskEngine.change;
}.

(** Capacity 1024 of the three queues. *)
Abbreviation queue_bits := 10.


Record StrategyEngine (St : Type) := mkEngine {
  position_manager_ : PositionManager;
  order_id_gen_ : Z;
  risk_engine_ : RiskEngine.RiskEngine;
  order_books_ : gmap Z OrderBookV2.OrderBookV2;
  strategies_ : list (StrategyEntry St);
  strategy_by_id_ : gmap Z nat;
  tick_queue_ : @MPMCQueue Tick.t;
  order_queue_ : @MPMCQueue OrderRequest.t;
  fill_queue_ : @MPMCQueue Fill.t;
  timestamp_us_ : Z;
  current_strategy_id_ : Z;
  running_ : bool;
  ticks_processed_ : Z;
  fills_processed_ : Z;
  orders_submitted_ : Z;
  orders_risk_rejected_ : Z;
  orders_queue_dropped_ : Z;
  calls_ : nat;
  delivered_ : list OrderRequest.t;
}.
Arguments mkEngine {St}.
Arguments position_manager_ {St}.
Arguments order_id_gen_ {St}.
Arguments risk_engine_ {St}.
Arguments order_books_ {St}.
Arguments strategies_ {St}.
Arguments strategy_by_id_ {St}.
Arguments tick_queue_ {St}.
Arguments order_queue_ {St}.
Arguments fill_queue_ {St}.
Arguments timestamp_us_ {St}.
Arguments current_strategy_id_ {St}.
Arguments running_ {St}.
Arguments ticks_processed_ {St}.
Arguments fills_processed_ {St}.
Arguments orders_submitted_ {St}.
Arguments orders_risk_rejected_ {St}.
Arguments orders_queue_dropped_ {St}.
Arguments calls_ {St}.
Arguments delivered_ {St}.

Section engine.
Context {F : FpmOps} {U : CastUB} {IO : IterOrder} {St : Type} (env : nat → reading).

Notation Engine := (StrategyEngine St).

Definition StrategyEngine_init : Engine :=
  mkEngine PositionManager_init 1 RiskEngine_init ∅ [] ∅
    (MPMCQueue_init queue_bits) (MPMCQueue_init queue_bits) (MPMCQueue_init queue_bits)
    0 0 false 0 0 0 0 0 0 [].

(** *** OrderIDGenerator: id 0 is reserved *)

Definition generate (e : Engine) : Z * Engine :=
  (order_id_gen_ e, e {{ order_id_gen_ ::= inc64 }}).

Definition getCurrentID (e : Engine) : Z := order_id_gen_ e.

(** *** The queues *)

Definition pushTick (tick : Tick.t) (e : Engine) : option (bool * Engine) :=
  '(ok, q) ← try_push queue_bits tick (tick_queue_ e); Some (ok, e {{ tick_queue_ := q }}).

Definition pushFill (fill : Fill.t) (e : Engine) : option (bool * Engine) :=
  '(ok, q) ← try_push queue_bits fill (fill_queue_ e); Some (ok, e {{ fill_queue_ := q }}).

Definition popOrder (e : Engine) : option (option OrderRequest.t * Engine) :=
  '(r, q) ← try_pop queue_bits (order_queue_ e);
  Some (r, e {{ order_queue_ := q; delivered_ ::= λ l, l ++ option_list r }}).

(** [n] polls of the gateway. *)
Fixpoint popOrders (n : nat) (e : Engine) : option Engine :=
  match n with
  | O => Some e
  | S n' => '(_, e) ← popOrder e; popOrders n' e
  end.

(** *** StrategyContext *)

(** [order_books_->find]; [missing] is returned for a symbol without a book. *)
Definition with_book {X} (missing : X) (read : OrderBookV2.OrderBookV2 → option X) (symbol_id : Z)
    (e : Engine) : option X :=
  match order_books_ e !! symbol_id with
  | None => Some missing
  | Some book => read book
  end.

Definition getBestBid := with_book None OrderBookV2.getBestBid.
Definition getBestAsk := with_book None OrderBookV2.getBestAsk.
Definition getMidPrice := with_book None OrderBookV2.getMidPrice.
Definition getTop5Bids := with_book (replicate 5 PriceLevel.default) OrderBookV2.getTop5Bids.
Definition getTop5Asks := with_book (replicate 5 PriceLevel.default) OrderBookV2.getTop5Asks.

Definition submitOrder (now lat : Z) (w : nat → list RiskEngine.change) (order : OrderRequest.t) (e : Engine) : option (Z * Engine) :=
  let '(result, risk) := checkOrder_among w now lat order (position_manager_ e) (risk_engine_ e) in
  let e := e {{ risk_engine_ := risk }} in
  if RiskCheckResult.passed result then
    let '(order_id, e) := generate e in
    let validated := order {{ OrderRequest.order_id := order_id;
                              OrderRequest.timestamp_us := timestamp_us_ e;
                              OrderRequest.strategy_id := current_strategy_id_ e }} in
    '(ok, q) ← try_push queue_bits validated (order_queue_ e);
    let e := e {{ order_queue_ := q }} in
    Some (if ok : bool then (order_id, e {{ orders_submitted_ ::= inc64 }})
          else (0, e {{ orders_queue_dropped_ ::= inc64 }}))
  else Some (0, e {{ orders_risk_rejected_ ::= inc64 }}).

(** The request the engine queues to cancel [order_id]. *)
Definition cancel_request (order_id timestamp_us : Z) : OrderRequest.t :=
  OrderRequest.default {{ OrderRequest.order_id := order_id; OrderRequest.quantity := 0;
                          OrderRequest.timestamp_us := timestamp_us }}.

Definition cancelOrder (order_id : Z) (e : Engine) : option (bool * Engine) :=
  '(ok, q) ← try_push queue_bits (cancel_request order_id (timestamp_us_ e)) (order_queue_ e);
  Some (ok, e {{ order_queue_ := q }}).

(** One context call, with the reading the environment supplies. *)
Definition handle {X} (r : reading) (c : call X) (e : Engine) : option (X * Engine) :=
  match c in call X return option (X * Engine) with
  | GetBestBid s => x ← getBestBid s e; Some (x, e)
  | GetBestAsk s => x ← getBestAsk s e; Some (x, e)
  | GetMidPrice s => x ← getMidPrice s e; Some (x, e)
  | GetTop5Bids s => x ← getTop5Bids s e; Some (x, e)
  | GetTop5Asks s => x ← getTop5Asks s e; Some (x, e)
  | GetPosition s => Some (getPosition s (position_manager_ e), e)
  | GetAvailableCapital => Some (getAvailableCapital (risk_engine_ e), e)
  | CurrentTimestampUs => Some (timestamp_us_ e, e)
  | SubmitOrder order => submitOrder (clock_us r) (check_latency_ns r) (meanwhile r) order e
  | CancelOrder order_id => cancelOrder order_id e
  end.

Fixpoint interp {A} (p : prog A) (e : Engine) : option (A * Engine) :=
  match p with
  | Ret a => Some (a, e)
  | Call c k =>
      let r := env (calls_ e) in
      e ← popOrders (gateway_polls r) (e {{ calls_ ::= S }});
      '(x, e) ← handle r c e;
      interp (k x) e
  end.

(** *** Strategy management *)

Definition registerStrategy (strategy : Strategy St) (self : St) (e : Engine) : Engine :=
  let syms := symbols strategy in
  let id := wrapU 32 (wrapU 32 (Z.of_nat (length (strategies_ e))) + 1) in
  e {{ strategies_ ::= λ l, l ++ [mkEntry id strategy self (list_to_set syms)
                                    (match syms with [] => true | _ => false end)];
       strategy_by_id_ ::= <[id := length (strategies_ e)]> }}.

(** Runs the callback [ev] of entry [i]. *)
Definition run_callback (ev : Strategy St → St → prog St) (i : nat) (e : Engine) : option Engine :=
  match strategies_ e !! i with
  | None => Some e
  | Some entry =>
      '(s, e) ← interp (ev (strategy entry) (self entry)) e;
      Some (e {{ strategies_ ::= <[i := entry {{ self := s }}]> }})
  end.

(** [for (auto& entry : strategies_)] over the selected entries; [stamp] says whether
    the loop sets [ctx_.current_strategy_id_]. *)
Fixpoint for_each (stamp : bool) (sel : StrategyEntry St → bool) (ev : Strategy St → St → prog St)
    (idx : list nat) (e : Engine) : option Engine :=
  match idx with
  | [] => Some e
  | i :: idx' =>
      e ← match strategies_ e !! i with
          | Some entry =>
              if sel entry
              then run_callback ev i (if stamp then e {{ current_strategy_id_ := id entry }} else e)
              else Some e
          | None => Some e
          end;
      for_each stamp sel ev idx' e
  end.

Definition all_entries (e : Engine) : list nat := seq 0 (length (strategies_ e)).

Definition start (e : Engine) : option Engine :=
  if running_ e then Some e
  else e ← for_each false (λ _, true) onLoad (all_entries e) e; Some (e {{ running_ := true }}).

(** The worker has been joined when [onUnload] runs. *)
Definition stop (e : Engine) : option Engine :=
  if running_ e
  then let e := e {{ running_ := false }} in for_each false (λ _, true) onUnload (all_entries e) e
  else Some e.

(** *** The dispatch loop *)

Definition TIMER_INTERVAL_US : Z := 100000.

(** [last_timer_us] is a local of [run]; [last_idle_timer] is a function-local
    static: a steady clock reading in nanoseconds. *)
Record Loop := mkLoop { last_timer_us : Z; last_idle_timer : Z }.

Definition subscribed (symbol_id : Z) (entry : StrategyEntry St) : bool :=
  is_wildcard entry || bool_decide (symbol_id ∈ entry_symbols entry).

Definition update_book (tick : Tick.t) (e : Engine) : Engine :=
  let book := default OrderBookV2.OrderBookV2_init (order_books_ e !! Tick.symbol_id tick) in
  e {{ order_books_ ::= <[Tick.symbol_id tick := OrderBookV2.update tick book]> }}.

Definition process_tick (tick : Tick.t) (l : Loop) (e : Engine) : option (Loop * Engine) :=
  let e := e {{ ticks_processed_ ::= inc64; timestamp_us_ := Tick.receive_timestamp_us tick }} in
  let e := update_book tick e in
  e ← for_each true (subscribed (Tick.symbol_id tick)) (λ s, onTick s tick) (all_entries e) e;
  if u64 (Tick.receive_timestamp_us tick - last_timer_us l) >? TIMER_INTERVAL_US then
    e ← for_each true (λ _, true) (λ s, onTimer s (Tick.receive_timestamp_us tick)) (all_entries e) e;
    Some (l {{ last_timer_us := Tick.receive_timestamp_us tick }}, e)
  else Some (l, e).

Definition process_fill (fill : Fill.t) (e : Engine) : option Engine :=
  let e := e {{ fills_processed_ ::= inc64; timestamp_us_ := Fill.receive_timestamp_us fill;
                position_manager_ ::= λ pm, (updatePosition fill pm).2 }} in
  match strategy_by_id_ e !! Fill.strategy_id fill with
  | Some i =>
      run_callback (λ s, onFill s fill) i (e {{ current_strategy_id_ := Fill.strategy_id fill }})
  | None => Some e
  end.

Definition idle_timer (now_ns : Z) (l : Loop) (e : Engine) : option (Loop * Engine) :=
  let elapsed_ms := Z.quot (now_ns - last_idle_timer l) 1000000 in
  if elapsed_ms >=? 100 then
    let now_us := u64 (Z.quot now_ns 1000) in
    e ← for_each true (λ _, true) (λ s, onTimer s now_us) (all_entries e) e;
    Some (l {{ last_idle_timer := now_ns }}, e)
  else Some (l, e).

(** One turn of the loop of [run]; [now_ns] is the clock of the idle timer. *)
Definition iteration (now_ns : Z) (l : Loop) (e : Engine) : option (Loop * Engine) :=
  '(t, q) ← try_pop queue_bits (tick_queue_ e);
  let e := e {{ tick_queue_ := q }} in
  '(l, e) ← match t with Some tick => process_tick tick l e | None => Some (l, e) end;
  '(f, q) ← try_pop queue_bits (fill_queue_ e);
  let e := e {{ fill_queue_ := q }} in
  e ← match f with Some fill => process_fill fill e | None => Some e end;
  match t, f with
  | None, None => idle_timer now_ns l e
  | _, _ => Some (l, e)
  end.

(** *** Configuration *)

Definition getRiskParameters (e : Engine) : Config.RiskParameters := RiskEngine.getParameters (risk_engine_ e).
Definition updateRiskParameters (now_us : Z) (p : Config.RiskParameters) (e : Engine) : Engine :=
  e {{ risk_engine_ ::= updateParameters now_us p }}.
Definition setAvailableCapital (capital : Z) (e : Engine) : Engine :=
  e {{ risk_engine_ ::= RiskEngine.setAvailableCapital capital }}.

Record Stats := mkStats {
  ticks_processed : Z;
  fills_processed : Z;
  orders_submitted : Z;
  orders_risk_rejected : Z;
  orders_queue_dropped : Z;
}.

Definition getStats (e : Engine) : Stats :=
  mkStats (ticks_processed_ e) (fills_processed_ e) (orders_submitted_ e)
    (orders_risk_rejected_ e) (orders_queue_dropped_ e).

(** *** The engine among its threads

    An event is an operation of a market data, execution or gateway thread, a change
    of the risk configuration, or a turn of the engine's loop. [pushed_ticks] and [pushed_fills] are what the queues took. *)
Inductive event :=
| PushTick (tick : Tick.t)
| PushFill (fill : Fill.t)
| PopOrder
| Iterate (now_ns : Z)
| UpdateRiskParameters (now_us : Z) (p : Config.RiskParameters)
| SetAvailableCapital (capital : Z).

Record World := mkWorld {
  locals : Loop;
  engine : Engine;
  pushed_ticks : list Tick.t;
  pushed_fills : list Fill.t;
}.

Definition run_event (ev : event) (w : World) : option World :=
  match ev with
  | PushTick t =>
      '(ok, e) ← pushTick t (engine w);
      Some (mkWorld (locals w) e (pushed_ticks w ++ if ok : bool then [t] else []) (pushed_fills w))
  | PushFill f =>
      '(ok, e) ← pushFill f (engine w);
      Some (mkWorld (locals w) e (pushed_ticks w) (pushed_fills w ++ if ok : bool then [f] else []))
  | PopOrder => '(_, e) ← popOrder (engine w);
                Some (mkWorld (locals w) e (pushed_ticks w) (pushed_fills w))
  | Iterate now => '(l, e) ← iteration now (locals w) (engine w);
                   Some (mkWorld l e (pushed_ticks w) (pushed_fills w))
  | UpdateRiskParameters now p =>
      Some (mkWorld (locals w) (updateRiskParameters now p (engine w)) (pushed_ticks w) (pushed_fills w))
  | SetAvailableCapital capital =>
      Some (mkWorld (locals w) (setAvailableCapital capital (engine w)) (pushed_ticks w) (pushed_fills w))
  end.

Fixpoint run_events (evs : list event) (w : World) : option World :=
  match evs with
  | [] => Some w
  | ev :: evs' => w ← run_event ev w; run_events evs' w
  end.

(** Register the strategies, start the engine at clock [now_ns], let the events happen. *)
Definition run (now_ns : Z) (strategies : list (Strategy St * St)) (evs : list event) : option World :=
  e ← start (fold_left (λ e '(s, st), registerStrategy s st e) strategies StrategyEngine_init);
  run_events evs (mkWorld (mkLoop 0 now_ns) e [] []).
End engine.

(** ** The invariant of the order path *)

(** The ids of the orders of a stream of requests: a request without a quantity is a
    cancellation, as the gateway sees it. *)
Definition submitted_ids (l : list OrderRequest.t) : list Z :=
  OrderRequest.order_id <$> filter (λ o, OrderRequest.quantity o ≠ 0) l.

Definition ids_ok (next : Z) (l : list OrderRequest.t) : Prop :=
  StronglySorted Z.lt (submitted_ids l) ∧ Forall (λ i, 0 < i < next) (submitted_ids l).

Lemma StronglySorted_snoc l x :
  StronglySorted Z.lt l → Forall (λ y, y < x) l → StronglySorted Z.lt (l ++ [x]).
Proof.
  induction 1 as [|y l Hs IH Hy]; intros Hf; cbn; [repeat constructor|].
  apply Forall_cons in Hf as [? Hf]. constructor; [by apply IH|].
  apply Forall_app. by repeat constructor.
Qed.

Lemma ids_ok_mono n n' l : n <= n' → ids_ok n l → ids_ok n' l.
Proof. intros Hn [Hs Hf]. split; [done|]. eapply Forall_impl; [exact Hf|]. cbn. lia. Qed.

Lemma ids_ok_snoc n l o :
  0 < n → OrderRequest.order_id o = n ∨ OrderRequest.quantity o = 0 →
  ids_ok n l → ids_ok (n + 1) (l ++ [o]).
Proof.
  intros Hn Ho H. unfold ids_ok, submitted_ids. rewrite filter_app, fmap_app, filter_cons.
  case_decide as Hd; cbn [fmap list_fmap filter list_filter].
  - destruct Ho as [Ho|Ho]; [|done]. rewrite Ho. destruct H as [Hs Hf]. split.
    + apply StronglySorted_snoc; [done|]. eapply Forall_impl; [exact Hf|]. cbn. lia.
    + apply Forall_app. split; [eapply Forall_impl; [exact Hf|]; cbn; lia|]. repeat constructor; lia.
  - rewrite app_nil_r. by apply (ids_ok_mono n); [lia|].
Qed.

Lemma ids_ok_cancel n l o : OrderRequest.quantity o = 0 → ids_ok n l → ids_ok n (l ++ [o]).
Proof.
  intros Ho H. unfold ids_ok, submitted_ids. rewrite filter_app, fmap_app, filter_cons.
  rewrite decide_False by tauto. by rewrite app_nil_r.
Qed.

Section proofs.
Context {F : FpmOps} {U : CastUB} {IO : IterOrder} {St : Type} (env : nat → reading).

Notation Engine := (StrategyEngine St).

Definition checks (e : Engine) : Z :=
  orders_submitted_ e + orders_queue_dropped_ e + orders_risk_rejected_ e.

(** What holds between any two context calls, after at most [n] of them. *)
Record core (n : nat) (e : Engine) : Prop := {
  core_orders : ∃ queued, rep queue_bits (order_queue_ e) queued ∧
    tail_ (order_queue_ e) = Z.of_nat (length (delivered_ e)) ∧
    (length (delivered_ e ++ queued) <= n)%nat ∧
    ids_ok (order_id_gen_ e) (delivered_ e ++ queued);
  core_gen : order_id_gen_ e = 1 + orders_submitted_ e + orders_queue_dropped_ e;
  core_counts : 0 <= orders_submitted_ e ∧ 0 <= orders_queue_dropped_ e ∧
    0 <= orders_risk_rejected_ e ∧ checks e <= Z.of_nat n;
  core_risk : stats_ok (Z.to_nat (checks e)) (stats_ (risk_engine_ e)) ∧
    Statistics.accepted (stats_ (risk_engine_ e)) = orders_submitted_ e + orders_queue_dropped_ e;
  core_books sym b : order_books_ e !! sym = Some b → OrderBookV2.v2_inv b;
}.

Lemma core_mono n n' e : (n <= n')%nat → core n e → core n' e.
Proof.
  intros Hn [(queued & Hq & Ht & Hl & Hids) Hg Hc Hr Hb]. split; try done; [|lia].
  exists queued. split_and!; try done. lia.
Qed.

(** What context calls leave alone. *)
Record frame (e e' : Engine) : Prop := {
  frame_tick_queue : tick_queue_ e' = tick_queue_ e;
  frame_fill_queue : fill_queue_ e' = fill_queue_ e;
  frame_books : order_books_ e' = order_books_ e;
  frame_positions : position_manager_ e' = position_manager_ e;
  frame_ticks : ticks_processed_ e' = ticks_processed_ e;
  frame_fills : fills_processed_ e' = fills_processed_ e;
  frame_by_id : strategy_by_id_ e' = strategy_by_id_ e;
  frame_strategies : strategy <$> strategies_ e' = strategy <$> strategies_ e;
}.

#[export] Instance frame_preorder : PreOrder frame.
Proof.
  split.
  - intros e. by split.
  - intros e1 e2 e3 [] []. split; congruence.
Qed.

Lemma queue_small : 1 <= queue_bits < 62. Proof. lia. Qed.

(** Few enough calls that no counter wraps. *)
Definition in_budget (n : nat) : Prop := Z.of_nat n <= 2 ^ 62.

Lemma in_budget_le m n : (m <= n)%nat → in_budget n → in_budget m.
Proof. unfold in_budget. lia. Qed.

Lemma popOrder_ok n e :
  core n e → in_budget n → ∃ r e', popOrder e = Some (r, e') ∧ core n e' ∧ frame e e'.
Proof.
  intros [(queued & Hq & Ht & Hl & Hids) Hg Hc Hr Hb] Hn.
  pose proof (rep_head _ _ _ Hq) as Hh. rewrite length_app in Hl. unfold in_budget in Hn.
  destruct (try_pop_ok queue_bits queue_small _ _ 0 Hq) as (q' & _ & Hpop).
  { unfold bounded. change (N queue_bits) with 1024. lia. }
  unfold popOrder.
  destruct queued as [|o queued]; destruct Hpop as [Hpop Hq']; rewrite Hpop; cbn [mbind option_bind];
    (eexists _, _; split; [reflexivity|]).
  - subst q'. destruct e; cbn in *. split; [|by split].
    split; cbn; unfold constant; try done. exists []. rewrite !app_nil_r in *. split_and!; try done. lia.
  - pose proof (try_pop_head _ _ _ _ Hpop) as Hh'. pose proof (rep_head _ _ _ Hq') as Hh2.
    destruct e; cbn in *. split; [|by split].
    split; cbn; unfold constant; try done. exists queued. rewrite <-app_assoc. split_and!; try done.
    + rewrite length_app. cbn. lia.
    + rewrite length_app. cbn. lia.
Qed.

Lemma popOrders_ok m n e :
  core n e → in_budget n → ∃ e', popOrders m e = Some e' ∧ core n e' ∧ frame e e'.
Proof.
  revert e. induction m as [|m IH]; intros e He Hb; cbn [popOrders]; [by exists e|].
  destruct (popOrder_ok n e He Hb) as (r & e1 & -> & H1 & F1). cbn [mbind option_bind].
  destruct (IH e1 H1 Hb) as (e2 & -> & H2 & F2). exists e2. split_and!; [done..|by etrans].
Qed.

(** Queueing a request: a cancellation, or an order with the next id. *)
Lemma queue_request n e o next :
  core n e → in_budget (S n) → order_id_gen_ e <= next →
  OrderRequest.quantity o = 0 ∨ (OrderRequest.order_id o = order_id_gen_ e ∧ order_id_gen_ e < next) →
  ∃ ok q', try_push queue_bits o (order_queue_ e) = Some (ok, q') ∧
    ∃ queued, rep queue_bits q' queued ∧ tail_ q' = Z.of_nat (length (delivered_ e)) ∧
      (length (delivered_ e ++ queued) <= S n)%nat ∧ ids_ok next (delivered_ e ++ queued).
Proof.
  intros [(queued & Hq & Ht & Hl & Hids) Hg Hc Hr _] Hn Hnext Ho.
  pose proof (rep_head _ _ _ Hq) as Hh. unfold in_budget in Hn.
  assert (ids_ok next (delivered_ e ++ queued)) as Hids' by by eapply ids_ok_mono.
  destruct (try_push_ok queue_bits queue_small _ _ 0 o Hq) as (q' & _ & Hpush).
  { unfold bounded. change (N queue_bits) with 1024. rewrite length_app in Hl. lia. }
  destruct (_ <? _)%nat; destruct Hpush as [Hpush Hq']; rewrite Hpush; eexists _, _; (split; [done|]).
  - exists (queued ++ [o]). rewrite (try_push_tail _ _ _ _ _ Hpush), app_assoc, length_app. cbn [length].
    split_and!; [done..|lia|].
    destruct Ho as [Ho|[Ho Hlt']]; [by apply ids_ok_cancel|].
    apply (ids_ok_mono (order_id_gen_ e + 1)); [lia|]. apply ids_ok_snoc; [lia|by left|done].
  - subst q'. exists queued. split_and!; try done. lia.
Qed.

Lemma cancelOrder_ok n e order_id :
  core n e → in_budget (S n) →
  ∃ r e', cancelOrder order_id e = Some (r, e') ∧ core (S n) e' ∧ frame e e'.
Proof.
  intros He Hn. unfold cancelOrder.
  destruct (queue_request n e (cancel_request order_id (timestamp_us_ e)) (order_id_gen_ e) He Hn)
    as (ok & q' & -> & Hq); [lia|by left|].
  cbn [mbind option_bind]. eexists _, _. split; [reflexivity|].
  destruct He as [_ Hg Hc Hr Hb]. destruct e; cbn in *. split; [|by split].
  split; cbn; unfold constant; try done. unfold checks in *. cbn in *. lia.
Qed.

(** The three outcomes of [submitOrder]. *)
Lemma submitOrder_ok now lat w n e order :
  core n e → in_budget (S n) →
  ∃ r e', submitOrder now lat w order e = Some (r, e') ∧ core (S n) e' ∧ frame e e' ∧
    ((r = 0 ∧ orders_submitted_ e' = orders_submitted_ e) ∨
     (r = order_id_gen_ e ∧ orders_submitted_ e' = orders_submitted_ e + 1)).
Proof.
  intros He Hn. unfold submitOrder.
  pose proof (core_counts _ _ He) as Hc. pose proof (core_gen _ _ He) as Hg.
  destruct (core_risk _ _ He) as [Hok Hacc]. unfold in_budget in Hn.
  pose proof (checkOrder_stats (Z.to_nat (checks e)) w now lat order (position_manager_ e)
    (risk_engine_ e) ltac:(lia) Hok) as Hs.
  destruct (checkOrder_among w now lat order (position_manager_ e) (risk_engine_ e)) as [res risk].
  destruct Hs as [Hok' Hacc'].
  destruct (RiskCheckResult.passed res) eqn:Hp.
  - set (o := order {{ OrderRequest.order_id := order_id_gen_ e;
      OrderRequest.timestamp_us := timestamp_us_ e; OrderRequest.strategy_id := current_strategy_id_ e }}).
    destruct (queue_request n e o (order_id_gen_ e + 1) He Hn) as (ok & q' & Hpush & Hq);
      [lia|right; split; [by destruct order|lia]|].
    assert (inc64 (order_id_gen_ e) = order_id_gen_ e + 1) as Hinc by (apply inc64_id; unfold checks in *; lia).
    pose proof (core_books _ _ He) as Hb. clear He.
    destruct e as [pm gen re ob ss bi tq oq fq ts cs ru tp fp su rj dr ca dl]; unfold checks in *; cbn in *. unfold constant in *.
    subst o. rewrite Hpush. cbn [mbind option_bind].
    exists (if ok then gen else 0), (mkEngine pm (gen + 1) risk ob ss bi tq q' fq ts cs ru tp fp
      (if ok then su + 1 else su) rj (if ok then dr else dr + 1) ca dl).
    split_and!.
    + rewrite Hinc. destruct ok; cbn; unfold constant; rewrite inc64_id by lia; reflexivity.
    + split; cbn; try done; unfold checks; cbn; [destruct ok; lia..|].
      replace (Z.to_nat _) with (S (Z.to_nat (su + dr + rj))) by (destruct ok; lia).
      split; [done|]. destruct ok; lia.
    + by split.
    + destruct ok; [right|left]; done.
  - destruct He as [Ho _ _ _ Hb].
    destruct e as [pm gen re ob ss bi tq oq fq ts cs ru tp fp su rj dr ca dl]; unfold checks in *; cbn in *.
    exists 0, (mkEngine pm gen risk ob ss bi tq oq fq ts cs ru tp fp su (rj + 1) dr ca dl).
    split_and!.
    + unfold constant. rewrite inc64_id by lia. reflexivity.
    + split; cbn; try done; unfold checks; cbn; [|lia|].
      * destruct Ho as (queued & ? & ? & ? & ?). exists queued. split_and!; try done. lia.
      * replace (Z.to_nat _) with (S (Z.to_nat (su + dr + rj))) by lia. split; [done|lia].
    + by split.
    + by left.
Qed.

Lemma with_book_ok {X} (e : Engine) (missing : X) (func : OrderBookV2.HotData.t → X) sym :
  (∀ sym b, order_books_ e !! sym = Some b → OrderBookV2.v2_inv b) →
  ∃ x, with_book missing (OrderBookV2.readHotDataOptimistic func) sym e = Some x.
Proof.
  intros He. unfold with_book. destruct (order_books_ e !! sym) as [b|] eqn:Hb; [|by eexists].
  apply He, OrderBookV2.v2_even in Hb.
  unfold OrderBookV2.readHotDataOptimistic. rewrite Hb. by eexists.
Qed.

Lemma handle_ok {X} r (c : call X) n e :
  core n e → in_budget (S n) → ∃ x e', handle r c e = Some (x, e') ∧ core (S n) e' ∧ frame e e'.
Proof.
  intros He Hn. assert (core (S n) e) as He' by (eapply core_mono; [|exact He]; lia).
  destruct c; cbn [handle].
  1-5: match goal with |- ∃ _ _, mbind _ ?r = _ ∧ _ =>
         assert (∃ x, r = Some x) as [x ->] by exact (with_book_ok e _ _ symbol_id (core_books _ _ He)) end;
       by exists x, e.
  1-3: by eexists _, e.
  - destruct (submitOrder_ok (clock_us r) (check_latency_ns r) (meanwhile r) n e order He Hn)
      as (x & e' & H1 & H2 & H3 & _). by exists x, e'.
  - by apply cancelOrder_ok.
Qed.

Lemma interp_ok {A} m (p : prog A) n e :
  within m p → core n e → in_budget (n + m) →
  ∃ a e', interp env p e = Some (a, e') ∧ core (n + m) e' ∧ frame e e'.
Proof.
  intros Hw. revert n e. induction Hw as [m a|m X c k Hk IH]; intros n e He Hn; cbn [interp].
  - exists a, e. split_and!; [done|eapply core_mono; [|done]; lia|done].
  - set (e0 := e {{ calls_ ::= S }}).
    assert (core n e0 ∧ frame e e0) as [H0 F0].
    { subst e0. destruct e. split; [|by split]. by destruct He; split. }
    destruct (popOrders_ok (gateway_polls (env (calls_ e))) n e0) as (e1 & Hpop & H1 & F1);
      [done|eapply in_budget_le, Hn; lia|].
    rewrite Hpop. cbn [mbind option_bind].
    destruct (handle_ok (env (calls_ e)) c n e1) as (x & e2 & Hh & H2 & F2);
      [done|eapply in_budget_le, Hn; lia|].
    rewrite Hh. cbn [mbind option_bind].
    destruct (IH x (S n) e2) as (a & e3 & H3 & Hc & F3); [done|by rewrite Nat.add_succ_comm|].
    exists a, e3. rewrite <-Nat.add_succ_comm. split_and!; [done..|]. by do 3 (etrans; [done|]).
Qed.

(** ** Dispatch *)

Definition obeys (m : nat) (s : Strategy St) : Prop :=
  ∀ st, within m (onLoad s st) ∧ within m (onUnload s st) ∧
    (∀ t, within m (onTick s t st)) ∧ (∀ f, within m (onFill s f st)) ∧
    ∀ t, within m (onTimer s t st).

Definition all_obey (m : nat) (e : Engine) : Prop := Forall (obeys m) (strategy <$> strategies_ e).

Lemma frame_obey m e e' : frame e e' → all_obey m e → all_obey m e'.
Proof. intros F0. unfold all_obey. by rewrite (frame_strategies _ _ F0). Qed.

Lemma run_callback_ok m ev i n e :
  all_obey m e → (∀ s st, obeys m s → within m (ev s st)) → core n e → in_budget (n + m) →
  ∃ e', run_callback env ev i e = Some e' ∧ core (n + m) e' ∧ frame e e'.
Proof.
  intros Hob Hev He Hn. unfold run_callback. destruct (strategies_ e !! i) as [en|] eqn:Hi.
  - destruct (interp_ok m (ev (strategy en) (self en)) n e) as (st & e1 & -> & H1 & F1); [|done..|].
    { apply Hev. eapply Forall_lookup_1; [exact Hob|]. by rewrite list_lookup_fmap, Hi. }
    cbn [mbind option_bind]. eexists. split; [reflexivity|].
    pose proof (frame_strategies _ _ F1) as Hs.
    assert ((strategy <$> <[i := en {{ self := st }}]> (strategies_ e1)) = strategy <$> strategies_ e) as Hs'.
    { rewrite list_fmap_insert, Hs. apply list_insert_id. rewrite list_lookup_fmap, Hi. by destruct en. }
    destruct e1. split; [by destruct H1; split|]. by destruct F1; split.
  - exists e. split_and!; [done|eapply core_mono; [|done]; lia|done].
Qed.

Lemma for_each_ok m stamp sel ev idx n e :
  all_obey m e → (∀ s st, obeys m s → within m (ev s st)) → core n e →
  in_budget (n + length idx * m) →
  ∃ e', for_each env stamp sel ev idx e = Some e' ∧ core (n + length idx * m) e' ∧ frame e e'.
Proof.
  intros Hob Hev. revert n e Hob. induction idx as [|i idx IH]; intros n e Hob He Hn; cbn [for_each length] in *.
  - exists e. by rewrite Nat.add_0_r.
  - assert (∃ e1, match strategies_ e !! i with
      | Some entry => if sel entry
          then run_callback env ev i (if stamp then e {{ current_strategy_id_ := id entry }} else e)
          else Some e
      | None => Some e end = Some e1 ∧ core (n + m) e1 ∧ frame e e1) as (e1 & -> & H1 & F1).
    { assert (core (n + m) e) as He' by (eapply core_mono, He; lia).
      destruct (strategies_ e !! i) as [en|]; [|by exists e]. destruct (sel en); [|by exists e].
      destruct stamp.
      - set (e0 := e {{ current_strategy_id_ := id en }}).
        assert (core n e0 ∧ frame e e0) as [H0 F0].
        { subst e0. destruct e. split; [|by split]. by destruct He; split. }
        destruct (run_callback_ok m ev i n e0) as (e1 & -> & H1 & F1);
          [by eapply frame_obey|done..|eapply in_budget_le, Hn; lia|].
        exists e1. split_and!; [done..|by etrans].
      - apply run_callback_ok; try done. eapply in_budget_le, Hn; lia. }
    cbn [mbind option_bind].
    destruct (IH (n + m)%nat e1) as (e2 & -> & H2 & F2);
      [by eapply frame_obey|done|eapply in_budget_le, Hn; lia|].
    exists e2. split_and!; [done| |by etrans]. eapply core_mono, H2. lia.
Qed.

(** ** The feeds *)

Definition book_of (sym : Z) (ts : list Tick.t) : option OrderBookV2.OrderBookV2 :=
  match filter (λ t, Tick.symbol_id t = sym) ts with
  | [] => None
  | ts => Some (ob_run ts)
  end.

Definition positions_of (fs : list Fill.t) : PositionManager :=
  fold_left (λ pm f, (updatePosition f pm).2) fs PositionManager_init.

Lemma book_of_snoc sym ts t :
  book_of sym (ts ++ [t]) =
    if decide (Tick.symbol_id t = sym)
    then Some (OrderBookV2.update t (default OrderBookV2.OrderBookV2_init (book_of sym ts)))
    else book_of sym ts.
Proof.
  unfold book_of. rewrite filter_app, filter_cons. case_decide as Hd.
  - cbn [filter list_filter]. destruct (filter _ ts) as [|t0 l]; [done|].
    cbn [app]. f_equal. unfold ob_run. rewrite app_comm_cons, fold_left_app. done.
  - by rewrite app_nil_r.
Qed.

Lemma book_of_inv sym ts b : book_of sym ts = Some b → OrderBookV2.v2_inv b.
Proof.
  unfold book_of. destruct (filter _ ts); [done|]. intros [= <-].
  exact (proj1 (ob_run_ok (B := OrderBookV2.OrderBookV2) _)).
Qed.

Abbreviation queue_state := (MpmcQueue.queue_state queue_bits).

Record feeds (e : Engine) (pt td : list Tick.t) (pf fd : list Fill.t) : Prop := {
  feeds_ticks : queue_state (tick_queue_ e) pt td;
  feeds_tick_count : ticks_processed_ e = Z.of_nat (length td);
  feeds_books sym : order_books_ e !! sym = book_of sym td;
  feeds_fills : queue_state (fill_queue_ e) pf fd;
  feeds_fill_count : fills_processed_ e = Z.of_nat (length fd);
  feeds_positions : position_manager_ e = positions_of fd;
}.

Lemma frame_feeds e e' pt td pf fd : frame e e' → feeds e pt td pf fd → feeds e' pt td pf fd.
Proof.
  intros [H1 H2 H3 H4 H5 H6 _ _] []. split; rewrite ?H1, ?H2, ?H3, ?H4, ?H5, ?H6; done.
Qed.

(** What a tick does before any strategy sees it. *)
Lemma update_book_feeds n e pt td pf fd t q ts :
  core n e → feeds e pt td pf fd → queue_state q pt (td ++ [t]) → Z.of_nat (length pt) < 2 ^ 62 →
  let e' := update_book t (e {{ tick_queue_ := q; ticks_processed_ ::= inc64; timestamp_us_ := ts }}) in
  core n e' ∧ feeds e' pt (td ++ [t]) pf fd ∧ strategies_ e' = strategies_ e.
Proof.
  intros He Hf Hq Hn e'. pose proof (queue_state_done queue_bits _ _ _ Hq) as Hlen. rewrite length_app in Hlen.
  destruct Hf as [_ H2 H3 H4 H5 H6].
  assert (∀ sym, order_books_ e' !! sym = book_of sym (td ++ [t])) as Hb.
  { intros sym. rewrite book_of_snoc, <-H3. subst e'. destruct e; cbn in *. case_decide as Hd.
    - subst sym. by rewrite lookup_insert_eq.
    - by rewrite lookup_insert_ne. }
  split_and!.
  - destruct He. subst e'. destruct e; split; try done. intros sym b Hs.
    eapply book_of_inv. rewrite <-Hb. exact Hs.
  - split; [by subst e'; destruct e| |done|by subst e'; destruct e..].
    subst e'. destruct e; cbn in *. subst. rewrite inc64_id by (cbn in Hlen; lia). rewrite length_app. cbn. lia.
  - subst e'. by destruct e.
Qed.

Lemma update_positions_feeds n e pt td pf fd f q ts :
  core n e → feeds e pt td pf fd → queue_state q pf (fd ++ [f]) → Z.of_nat (length pf) < 2 ^ 62 →
  let e' := e {{ fill_queue_ := q; fills_processed_ ::= inc64; timestamp_us_ := ts;
                 position_manager_ ::= λ pm, (updatePosition f pm).2 }} in
  core n e' ∧ feeds e' pt td pf (fd ++ [f]) ∧ strategies_ e' = strategies_ e.
Proof.
  intros He Hf Hq Hn e'. pose proof (queue_state_done queue_bits _ _ _ Hq) as Hlen. rewrite length_app in Hlen.
  destruct Hf as [H1 H2 H3 _ H5 H6]. split_and!.
  - destruct He. subst e'. by destruct e; split.
  - subst e'. destruct e; cbn in *; split; try done; cbn.
    + subst. unfold constant. rewrite inc64_id by (cbn in Hlen; lia). rewrite length_app. cbn. lia.
    + subst. unfold positions_of. by rewrite fold_left_app.
  - subst e'. by destruct e.
Qed.

(** ** The loop *)

(** The strategies registered, each callback making at most [m] context calls. *)
Definition crew (m : nat) (ss : list (Strategy St)) (e : Engine) : Prop :=
  strategy <$> strategies_ e = ss ∧ Forall (obeys m) ss.

Lemma crew_length m ss e : crew m ss e → length (all_entries e) = length ss.
Proof. intros [<- _]. unfold all_entries. by rewrite length_seq, length_fmap. Qed.

Lemma frame_crew m ss e e' : frame e e' → crew m ss e → crew m ss e'.
Proof. intros F0 [<- ?]. split; [|done]. apply F0. Qed.

(** A state reached with at most [n] context calls. *)
Definition engine_ok (n m : nat) (ss : list (Strategy St)) (e : Engine)
    (pt td : list Tick.t) (pf fd : list Fill.t) : Prop :=
  core n e ∧ crew m ss e ∧ feeds e pt td pf fd.

Lemma frame_ok n n' m ss e e' pt td pf fd :
  frame e e' → core n' e' → engine_ok n m ss e pt td pf fd → engine_ok n' m ss e' pt td pf fd.
Proof. intros F0 H' (_ & ? & ?). split_and!; [done|by eapply frame_crew|by eapply frame_feeds]. Qed.

Lemma engine_ok_mono n n' m ss e pt td pf fd :
  (n <= n')%nat → engine_ok n m ss e pt td pf fd → engine_ok n' m ss e pt td pf fd.
Proof. intros Hn (? & ? & ?). split_and!; try done. by eapply core_mono. Qed.

Lemma for_all_ok stamp sel ev n m ss e pt td pf fd :
  engine_ok n m ss e pt td pf fd → (∀ s st, obeys m s → within m (ev s st)) →
  in_budget (n + length ss * m) →
  ∃ e', for_each env stamp sel ev (all_entries e) e = Some e' ∧
    engine_ok (n + length ss * m) m ss e' pt td pf fd.
Proof.
  intros He Hev Hn. pose proof He as (H1 & H2 & _). rewrite <-(crew_length _ _ _ H2) in *.
  destruct (for_each_ok m stamp sel ev (all_entries e) n e) as (e' & Hf & H3 & F3);
    [by destruct H2 as [<- ?]|done..|].
  exists e'. split; [done|]. by eapply frame_ok.
Qed.

Lemma process_tick_ok n m ss l e pt td pf fd t q :
  engine_ok n m ss e pt td pf fd → queue_state q pt (td ++ [t]) →
  Z.of_nat (length pt) < 2 ^ 62 → in_budget (n + 2 * (length ss * m)) →
  ∃ l' e', process_tick env t l (e {{ tick_queue_ := q }}) = Some (l', e') ∧
    engine_ok (n + 2 * (length ss * m)) m ss e' pt (td ++ [t]) pf fd.
Proof.
  intros (H1 & H2 & H3) Hq Hpt Hn. unfold process_tick.
  destruct (update_book_feeds n e pt td pf fd t q (Tick.receive_timestamp_us t) H1 H3 Hq Hpt)
    as (H4 & H5 & Hs). set (e1 := update_book t _) in *.
  assert (engine_ok n m ss e1 pt (td ++ [t]) pf fd) as H6.
  { split_and!; [done| |done]. unfold crew. by rewrite Hs. }
  match goal with |- context [for_each env true (subscribed _) _ _ ?x] => change x with e1 end.
  destruct (for_all_ok true (subscribed (Tick.symbol_id t)) (λ s, onTick s t) _ _ _ _ _ _ _ _ H6) as (e2 & -> & H7);
    [intros s st Ho; apply Ho|eapply in_budget_le, Hn; lia|].
  cbn [mbind option_bind]. destruct (_ >? _).
  - destruct (for_all_ok true (λ _, true) (λ s, onTimer s (Tick.receive_timestamp_us t)) _ _ _ _ _ _ _ _ H7)
      as (e3 & -> & H8); [intros s st Ho; apply Ho|eapply in_budget_le, Hn; lia|].
    cbn [mbind option_bind]. eexists _, _. split; [reflexivity|]. eapply engine_ok_mono, H8. lia.
  - eexists _, _. split; [reflexivity|]. eapply engine_ok_mono, H7. lia.
Qed.

Lemma process_fill_ok n m ss e pt td pf fd f q :
  engine_ok n m ss e pt td pf fd → queue_state q pf (fd ++ [f]) →
  Z.of_nat (length pf) < 2 ^ 62 → in_budget (n + m) →
  ∃ e', process_fill env f (e {{ fill_queue_ := q }}) = Some e' ∧
    engine_ok (n + m) m ss e' pt td pf (fd ++ [f]).
Proof.
  intros (H1 & H2 & H3) Hq Hpf Hn. unfold process_fill.
  destruct (update_positions_feeds n e pt td pf fd f q (Fill.receive_timestamp_us f) H1 H3 Hq Hpf)
    as (H4 & H5 & Hs). cbv zeta in *.
  match type of H4 with core _ ?x => set (e1 := x) in * end.
  assert (engine_ok n m ss e1 pt td pf (fd ++ [f])) as H6.
  { split_and!; [done| |done]. unfold crew. by rewrite Hs. }
  match goal with |- context [strategy_by_id_ ?x] => change x with e1 end.
  destruct (strategy_by_id_ e1 !! _) as [i|].
  - set (e2 := e1 {{ current_strategy_id_ := Fill.strategy_id f }}).
    assert (core n e2 ∧ frame e1 e2) as [H7 F7].
    { clearbody e1. subst e2. destruct e1. split; [|by split]. by destruct H4; split. }
    destruct (run_callback_ok m (λ s, onFill s f) i n e2) as (e3 & -> & H8 & F8).
    + eapply frame_obey; [exact F7|]. by destruct H6 as (_ & [<- ?] & _).
    + intros s st Ho. apply Ho.
    + done.
    + done.
    + exists e3. split; [done|]. eapply (frame_ok n _ _ _ e1); [by etrans|done|done].
  - exists e1. split; [done|]. eapply engine_ok_mono, H6. lia.
Qed.

Lemma idle_timer_ok now l n m ss e pt td pf fd :
  engine_ok n m ss e pt td pf fd → in_budget (n + length ss * m) →
  ∃ l' e', idle_timer env now l e = Some (l', e') ∧ engine_ok (n + length ss * m) m ss e' pt td pf fd.
Proof.
  intros He Hn. unfold idle_timer. destruct (_ >=? 100).
  - destruct (for_all_ok true (λ _, true) (λ s, onTimer s (u64 (Z.quot now 1000))) _ _ _ _ _ _ _ _ He)
      as (e' & -> & H'); [intros s st Ho; apply Ho|done|].
    cbn [mbind option_bind]. by eexists _, _.
  - eexists _, _. split; [reflexivity|]. eapply engine_ok_mono, He. lia.
Qed.

(** One turn costs at most this many context calls. *)
Definition turn_calls (m : nat) (ss : list (Strategy St)) : nat := ((2 * length ss + 1) * m)%nat.

Lemma iteration_ok now l n m ss e pt td pf fd :
  engine_ok n m ss e pt td pf fd → Z.of_nat (length pt) < 2 ^ 62 → Z.of_nat (length pf) < 2 ^ 62 →
  in_budget (n + turn_calls m ss) →
  ∃ l' e' td' fd', iteration env now l e = Some (l', e') ∧
    engine_ok (n + turn_calls m ss) m ss e' pt td' pf fd'.
Proof.
  intros He Hpt Hpf Hn. unfold iteration, turn_calls in *.
  destruct (queue_state_pop queue_bits queue_small _ _ _ (feeds_ticks _ _ _ _ _ (proj2 (proj2 He))) Hpt) as (t & q & -> & Hq).
  cbn [mbind option_bind].
  assert (∃ l1 e1 td1, match t with
    | Some tick => process_tick env tick l (e {{ tick_queue_ := q }})
    | None => Some (l, e {{ tick_queue_ := q }}) end = Some (l1, e1) ∧
    engine_ok (n + 2 * (length ss * m)) m ss e1 pt td1 pf fd ∧
    (t = None → engine_ok n m ss e1 pt td1 pf fd)) as (l1 & e1 & td1 & -> & H1 & H1').
  { destruct t as [t|].
    - destruct (process_tick_ok n m ss l e pt td pf fd t q) as (l1 & e1 & ? & ?);
        [done..|eapply in_budget_le, Hn; lia|]. by exists l1, e1, (td ++ [t]).
    - exists l, (e {{ tick_queue_ := q }}), td. cbn [option_list] in Hq. rewrite app_nil_r in Hq.
      assert (engine_ok n m ss (e {{ tick_queue_ := q }}) pt td pf fd) as H0.
      { destruct He as (H1 & H2 & H3). split_and!.
        - destruct e. by destruct H1; split.
        - by destruct e.
        - destruct e. by destruct H3; split. }
      split_and!; [done|eapply engine_ok_mono, H0; lia|done]. }
  cbn [mbind option_bind].
  destruct (queue_state_pop queue_bits queue_small _ _ _ (feeds_fills _ _ _ _ _ (proj2 (proj2 H1))) Hpf) as (f & q2 & -> & Hq2).
  cbn [mbind option_bind]. destruct f as [f|].
  - destruct (process_fill_ok (n + 2 * (length ss * m)) m ss e1 pt td1 pf fd f q2) as (e2 & -> & H2);
      [done..|eapply in_budget_le, Hn; lia|].
    cbn [mbind option_bind]. exists l1, e2, td1, (fd ++ [f]). split; [by destruct t|].
    eapply engine_ok_mono, H2. lia.
  - cbn [option_list] in Hq2. rewrite app_nil_r in Hq2. cbn [mbind option_bind].
    assert (∀ k, engine_ok k m ss e1 pt td1 pf fd → engine_ok k m ss (e1 {{ fill_queue_ := q2 }}) pt td1 pf fd) as H2.
    { intros k (H3 & H4 & H5). split_and!.
      - destruct e1. by destruct H3; split.
      - by destruct e1.
      - destruct e1. by destruct H5; split. }
    destruct t as [t|].
    + exists l1, (e1 {{ fill_queue_ := q2 }}), td1, fd. split; [done|]. eapply engine_ok_mono, H2, H1. lia.
    + destruct (idle_timer_ok now l1 n m ss (e1 {{ fill_queue_ := q2 }}) pt td1 pf fd)
        as (l2 & e2 & -> & H3); [by apply H2, H1'|eapply in_budget_le, Hn; lia|].
      exists l2, e2, td1, fd. split; [done|]. eapply engine_ok_mono, H3. lia.
Qed.

(** ** Runs *)

Definition world_ok (k m : nat) (ss : list (Strategy St)) (w : World) : Prop :=
  ∃ td fd, engine_ok (S k * turn_calls m ss) m ss (engine w) (pushed_ticks w) td (pushed_fills w) fd ∧
    (length (pushed_ticks w) <= k)%nat ∧ (length (pushed_fills w) <= k)%nat.

Definition calls_of (k m : nat) (ss : list (Strategy St)) : nat := (S k * S (turn_calls m ss))%nat.

Lemma calls_of_budget k m ss :
  in_budget (calls_of k m ss) → Z.of_nat k < 2 ^ 62 ∧ in_budget (S k * turn_calls m ss).
Proof. unfold in_budget, calls_of. generalize (turn_calls m ss) as c. clear. intros c Hn. nia. Qed.

(** A change of the risk configuration that leaves the statistics alone. *)
Lemma reconfigured_ok n m ss e pt td pf fd f :
  stats_ (f (risk_engine_ e)) = stats_ (risk_engine_ e) →
  engine_ok n m ss e pt td pf fd → engine_ok n m ss (e {{ risk_engine_ ::= f }}) pt td pf fd.
Proof.
  intros Hf (H1 & H2 & H3). split_and!; destruct e; [|exact H2|by destruct H3; split].
  cbn in Hf. destruct H1 as [O1 O2 O3 [O4 O5] O6]. split; try done. cbn in *. unfold checks in *. cbn in *. by rewrite Hf.
Qed.

Lemma updateParameters_stats now p (s : RiskEngine.RiskEngine) : stats_ (updateParameters now p s) = stats_ s.
Proof. destruct s as [? [? ?] [] [] ? ? ? ?]; reflexivity. Qed.

Lemma run_event_ok k m ss ev w :
  world_ok k m ss w → in_budget (calls_of (S k) m ss) →
  ∃ w', run_event env ev w = Some w' ∧ world_ok (S k) m ss w'.
Proof.
  intros (td & fd & He & Hpt & Hpf) Hn. apply calls_of_budget in Hn as [Hk Hn].
  pose proof He as (H1 & H2 & H3).
  assert (Z.of_nat (length (pushed_ticks w)) < 2 ^ 62) as Hpt' by lia.
  assert (Z.of_nat (length (pushed_fills w)) < 2 ^ 62) as Hpf' by lia.
  destruct ev as [t|f| |now|now p|capital]; cbn [run_event].
  - destruct (queue_state_push queue_bits queue_small _ _ _ t (feeds_ticks _ _ _ _ _ H3) Hpt') as (ok & q & Hp & Hq).
    unfold pushTick. rewrite Hp. cbn [mbind option_bind]. eexists. split; [reflexivity|].
    exists td, fd. cbn [engine pushed_ticks pushed_fills]. split; [|rewrite length_app; destruct ok; cbn; lia].
    apply (engine_ok_mono (S k * turn_calls m ss)); [lia|].
    destruct w as [l e pt pf]; cbn in *. split_and!; destruct e; [by destruct H1; split|exact H2|by destruct H3; split].
  - destruct (queue_state_push queue_bits queue_small _ _ _ f (feeds_fills _ _ _ _ _ H3) Hpf') as (ok & q & Hp & Hq).
    unfold pushFill. rewrite Hp. cbn [mbind option_bind]. eexists. split; [reflexivity|].
    exists td, fd. cbn [engine pushed_ticks pushed_fills]. split; [|rewrite length_app; destruct ok; cbn; lia].
    apply (engine_ok_mono (S k * turn_calls m ss)); [lia|].
    destruct w as [l e pt pf]; cbn in *. split_and!; destruct e; [by destruct H1; split|exact H2|by destruct H3; split].
  - destruct (popOrder_ok _ _ H1) as (r & e' & -> & H4 & F4); [eapply in_budget_le, Hn; lia|].
    cbn [mbind option_bind]. eexists. split; [reflexivity|]. exists td, fd. cbn [engine pushed_ticks pushed_fills]. split; [|lia].
    apply (engine_ok_mono (S k * turn_calls m ss)); [lia|]. by eapply frame_ok.
  - destruct (iteration_ok now (locals w) _ m ss (engine w) _ td _ fd He Hpt' Hpf')
      as (l' & e' & td' & fd' & -> & H4); [eapply in_budget_le, Hn; lia|].
    cbn [mbind option_bind]. eexists. split; [reflexivity|]. exists td', fd'. cbn [engine pushed_ticks pushed_fills]. split; [|lia].
    eapply engine_ok_mono, H4. lia.
  - eexists. split; [reflexivity|]. exists td, fd. cbn [engine pushed_ticks pushed_fills]. split; [|lia].
    apply (engine_ok_mono (S k * turn_calls m ss)); [lia|]. apply (reconfigured_ok _ _ _ _ _ _ _ _ _ (updateParameters_stats now p _) He).
  - eexists. split; [reflexivity|]. exists td, fd. cbn [engine pushed_ticks pushed_fills]. split; [|lia].
    apply (engine_ok_mono (S k * turn_calls m ss)); [lia|]. by apply (reconfigured_ok _ _ _ _ _ _ _ _ (RiskEngine.setAvailableCapital capital)).
Qed.

Lemma run_events_ok k m ss evs w :
  world_ok k m ss w → in_budget (calls_of (k + length evs) m ss) →
  ∃ w', run_events env evs w = Some w' ∧ world_ok (k + length evs) m ss w'.
Proof.
  revert k w. induction evs as [|ev evs IH]; intros k w Hw Hn; cbn [run_events length] in *.
  - exists w. by rewrite Nat.add_0_r.
  - rewrite <-Nat.add_succ_comm in *.
    destruct (run_event_ok k m ss ev w Hw) as (w1 & -> & H1).
    { eapply in_budget_le, Hn. unfold calls_of. apply Nat.mul_le_mono_r. lia. }
    cbn [mbind option_bind]. by apply IH.
Qed.

Lemma init_core : core 0 StrategyEngine_init ∧ feeds StrategyEngine_init [] [] [] [].
Proof.
  split.
  - split; cbn; try done.
    + exists []. split_and!; try done; [by apply init_rep|]. by split; constructor.
    + split; [|done]. split_and!; try done. by intros [].
  - split; cbn; try done; exists []; split_and!; try done; by apply init_rep.
Qed.

Lemma register_ok s st e :
  core 0 e → feeds e [] [] [] [] →
  core 0 (registerStrategy s st e) ∧ feeds (registerStrategy s st e) [] [] [] [] ∧
  strategy <$> strategies_ (registerStrategy s st e) = (strategy <$> strategies_ e) ++ [s].
Proof.
  intros H1 H2. split_and!; destruct e; [by destruct H1; split|by destruct H2; split|].
  cbn. by rewrite fmap_app.
Qed.

Lemma registered_ok (strats : list (Strategy St * St)) e :
  core 0 e → feeds e [] [] [] [] →
  let e' := fold_left (λ e '(s, st), registerStrategy s st e) strats e in
  core 0 e' ∧ feeds e' [] [] [] [] ∧ strategy <$> strategies_ e' = (strategy <$> strategies_ e) ++ strats.*1.
Proof.
  revert e. induction strats as [|[s st] strats IH]; intros e H1 H2; cbn [fold_left].
  - by rewrite app_nil_r.
  - destruct (register_ok s st e H1 H2) as (H3 & H4 & H5).
    destruct (IH _ H3 H4) as (H6 & H7 & H8). split_and!; [done..|]. by rewrite H8, H5, <-app_assoc.
Qed.

Lemma run_ok now m strats evs :
  Forall (obeys m) strats.*1 → in_budget (calls_of (length evs) m strats.*1) →
  ∃ w, run env now strats evs = Some w ∧ world_ok (length evs) m strats.*1 w.
Proof.
  intros Hob Hn. unfold run. destruct init_core as [H1 H2].
  destruct (registered_ok strats _ H1 H2) as (H3 & H4 & H5).
  set (e0 := fold_left _ strats _) in *. cbn [fmap list_fmap strategies_ StrategyEngine_init app] in H5.
  assert (∃ e1, start env e0 = Some e1 ∧ engine_ok (turn_calls m strats.*1) m strats.*1 e1 [] [] [] [])
    as (e1 & -> & H6).
  { assert (engine_ok 0 m strats.*1 e0 [] [] [] []) as H6 by by split_and!.
    assert (length strats.*1 * m <= turn_calls m strats.*1)%nat as Hle by (unfold turn_calls; lia).
    unfold start. destruct (running_ e0).
    - exists e0. split; [done|]. eapply engine_ok_mono, H6. lia.
    - destruct (for_all_ok false (λ _, true) onLoad _ _ _ _ _ _ _ _ H6) as (e1 & -> & H7).
      + intros s st Ho. apply Ho.
      + eapply in_budget_le, Hn. unfold calls_of. lia.
      + cbn [mbind option_bind]. eexists. split; [reflexivity|].
        eapply (engine_ok_mono (0 + length strats.*1 * m)); [lia|].
        destruct H7 as (H7 & H8 & H9). split_and!; destruct e1; [by destruct H7; split|done|by destruct H9; split]. }
  cbn [mbind option_bind].
  destruct (run_events_ok 0 m strats.*1 evs (mkWorld (mkLoop 0 now) e1 [] [])) as (w & -> & H7);
    [|done|by exists w].
  exists [], []. rewrite Nat.mul_1_l. by split_and!.
Qed.
End proofs.

(** ** Properties *)

Section properties.
Context {F : FpmOps} {U : CastUB} {IO : IterOrder} {St : Type} (env : nat → reading).

(** C10: whatever the strategies do with their context, and however pushes, polls and
    turns of the loop interleave, the engine never gets stuck, and it has applied a
    prefix of the ticks and of the fills its queues accepted, each exactly once and in
    order: the book of every symbol is the book of that symbol's ticks, the positions
    are those of the fills, the counters are the lengths of the prefixes and the rest
    is still queued. *)
Theorem engine_applies_feeds now m (strats : list (Strategy St * St)) evs :
  Forall (obeys m) strats.*1 → in_budget (calls_of (length evs) m strats.*1) →
  ∃ w td tq fd fq, run env now strats evs = Some w ∧
    pushed_ticks w = td ++ tq ∧ pushed_fills w = fd ++ fq ∧
    MpmcQueue.size (tick_queue_ (engine w)) = Z.of_nat (length tq) ∧
    MpmcQueue.size (fill_queue_ (engine w)) = Z.of_nat (length fq) ∧
    ticks_processed (getStats (engine w)) = Z.of_nat (length td) ∧
    fills_processed (getStats (engine w)) = Z.of_nat (length fd) ∧
    (∀ sym, order_books_ (engine w) !! sym = book_of sym td) ∧
    position_manager_ (engine w) = positions_of fd.
Proof.
  intros Hob Hn. destruct (run_ok env now m strats evs Hob Hn) as (w & Hw & td & fd & (H1 & H2 & H3) & Hlt & Hlf).
  destruct H3 as [(tq & Ht1 & Ht2 & Ht3) H4 H5 (fq & Hf1 & Hf2 & Hf3) H6 H7].
  exists w, td, tq, fd, fq. apply calls_of_budget in Hn as [Hk _].
  rewrite Ht1, length_app in Hlt. rewrite Hf1, length_app in Hlf.
  pose proof (rep_head _ _ _ Ht2) as Hh1. pose proof (rep_head _ _ _ Hf2) as Hh2.
  split_and!; try done; eapply (size_ok queue_bits queue_small _ _ 0); try done;
    unfold bounded; change (N queue_bits) with 1024; lia.
Qed.

(** C12: the orders the gateway receives, the requests with a quantity, carry distinct ids in
    increasing order, in the order they arrive, never the reserved id 0 and never an id not yet
    generated, whatever the strategies submit, from [onLoad] or from any other
    callback, and whichever pushes the full queue drops. *)
Theorem orders_numbered now m (strats : list (Strategy St * St)) evs :
  Forall (obeys m) strats.*1 → in_budget (calls_of (length evs) m strats.*1) →
  ∃ w, run env now strats evs = Some w ∧
    StronglySorted Z.lt (submitted_ids (delivered_ (engine w))) ∧
    Forall (λ i, 0 < i < getCurrentID (engine w)) (submitted_ids (delivered_ (engine w))).
Proof.
  intros Hob Hn. destruct (run_ok env now m strats evs Hob Hn) as (w & Hw & td & fd & (H1 & _) & _).
  exists w. split; [done|]. destruct (core_orders _ _ H1) as (queued & _ & _ & _ & Hs & Hf).
  unfold submitted_ids in *. rewrite filter_app, fmap_app in Hs, Hf.
  split; [by eapply StronglySorted_app_1_l|by apply Forall_app in Hf as [? _]].
Qed.

(** The engine's counters and the risk engine's agree at every moment: the checks
    the risk engine accepted are the orders submitted plus those a full queue
    dropped, which are also the ids used up; the ones it rejected are the risk
    rejections. *)
Lemma orders_accounted now m (strats : list (Strategy St * St)) evs :
  Forall (obeys m) strats.*1 → in_budget (calls_of (length evs) m strats.*1) →
  ∃ w, run env now strats evs = Some w ∧
    let st := getStats (engine w) in
    let risk := RiskEngine.getStatistics (risk_engine_ (engine w)) in
    Statistics.accepted risk = orders_submitted st + orders_queue_dropped st ∧
    Statistics.rejected risk = orders_risk_rejected st ∧
    getCurrentID (engine w) = 1 + orders_submitted st + orders_queue_dropped st.
Proof.
  intros Hob Hn. destruct (run_ok env now m strats evs Hob Hn) as (w & Hw & td & fd & (H1 & _) & _).
  exists w. split; [done|]. destruct H1 as [_ Hg Hc [(Ht & Hr & _) Ha] _]. unfold checks in *.
  cbn. unfold RiskEngine.getStatistics. split_and!; [done|lia|done].
Qed.
End properties.

(** *** Witnesses: a strategy that answers every tick with an order and a
    cancellation of the order before, and a gateway that polls now and then. *)

Definition sample_strategy : Strategy Z :=
  mkStrategy [7] (λ s, Ret s) (λ s, Ret s)
    (λ t s, Call (SubmitOrder (OrderRequest.mk 0 0 (100 * ONE) ONE 0 0 7 1 0 OrderSide.BUY
                                 OrderType.LIMIT TimeInForce.GTC 0))
              (λ order_id, Call (CancelOrder s) (λ _, Ret order_id)))
    (λ _ s, Ret s) (λ _ s, Ret s).

Definition sample_env (n : nat) : reading := mkReading (n / 2) (1000000 + Z.of_nat n) 500 no_changes.

Definition sample_tick (sym : Z) : Tick.t := Tick.mk 10 20 1 sym (100 * ONE) (2 * ONE) TickSide.BID 0.
Definition sample_fill : Fill.t := Fill.mk 1 1 1 30 30 (100 * ONE) ONE 7 1 1 OrderSide.BUY 0.

Definition sample_events : list event :=
  [PushTick (sample_tick 7); PushTick (sample_tick 8); PushFill sample_fill; Iterate 5;
   PushTick (sample_tick 7); PopOrder; Iterate 6; Iterate 7; PushTick (sample_tick 7)].

Abbreviation sample_run :=
  (run (F := FpmRef) (U := CastX86) (IO := iter_default) sample_env 0 [(sample_strategy, 0)] sample_events).

Lemma sample_obeys : Forall (obeys 2) [(sample_strategy, 0)].*1.
Proof. repeat constructor. Qed.

Lemma sample_budget : in_budget (calls_of (length sample_events) 2 [(sample_strategy, 0)].*1).
Proof. vm_compute. discriminate. Qed.

Lemma sample_run_result :
  (λ w, (submitted_ids (delivered_ (engine w)), ticks_processed_ (engine w), orders_submitted_ (engine w)))
    <$> sample_run = Some ([1; 2], 3, 2).
Proof. vm_compute. reflexivity. Qed.

Lemma sample_run_facts w : sample_run = Some w →
  submitted_ids (delivered_ (engine w)) = [1; 2] ∧ ticks_processed_ (engine w) = 3 ∧
  orders_submitted_ (engine w) = 2.
Proof.
  pose proof sample_run_result as Hr. destruct sample_run as [w'|]; [|done].
  cbn [fmap option_fmap option_map] in Hr. intros [= ->]. injection Hr as -> -> ->. done.
Qed.

Lemma engine_applies_feeds_witness :
  ∃ w td tq, sample_run = Some w ∧ pushed_ticks w = td ++ tq ∧ Z.of_nat (length td) = 3 ∧
    ∀ sym, order_books_ (engine w) !! sym = book_of sym td.
Proof.
  destruct (engine_applies_feeds (F := FpmRef) (U := CastX86) (IO := iter_default) sample_env 0 2 [(sample_strategy, 0)] sample_events sample_obeys sample_budget)
    as (w & td & tq & fd & fq & Hw & Ht & _ & _ & _ & Hn & _ & Hb & _).
  exists w, td, tq. split; [exact Hw|]. split; [exact Ht|]. split; [|exact Hb].
  rewrite <-Hn. apply (sample_run_facts w Hw).
Defined.

Lemma orders_numbered_witness :
  ∃ w, sample_run = Some w ∧ submitted_ids (delivered_ (engine w)) = [1; 2] ∧
    Forall (λ i, 0 < i < getCurrentID (engine w)) (submitted_ids (delivered_ (engine w))).
Proof.
  destruct (orders_numbered (F := FpmRef) (U := CastX86) (IO := iter_default) sample_env 0 2 [(sample_strategy, 0)] sample_events sample_obeys sample_budget)
    as (w & Hw & _ & Hf).
  exists w. split; [exact Hw|]. split; [|exact Hf]. apply (sample_run_facts w Hw).
Defined.

Lemma orders_accounted_witness :
  ∃ w, sample_run = Some w ∧ orders_submitted_ (engine w) = 2 ∧
    getCurrentID (engine w) = 1 + orders_submitted (getStats (engine w))
                                + orders_queue_dropped (getStats (engine w)).
Proof.
  destruct (orders_accounted (F := FpmRef) (U := CastX86) (IO := iter_default) sample_env 0 2 [(sample_strategy, 0)] sample_events sample_obeys sample_budget)
    as (w & Hw & Hst).
  exists w. split; [exact Hw|]. split; [|apply Hst]. apply (sample_run_facts w Hw).
Defined.
