(* ===== verification/OrderPath.v ===== *)
(** The order path through the engine: what the turns of its loop do to the risk engine,
    the order queue and the orders taken, whatever else they do to the engine.

    A relation between engine states that the gateway's pops, the context calls and changes
    elsewhere respect ([OrderPath]) relates the states before and after anything the
    engine does. Two uses: what was delivered stays delivered, and no order gets to
    the gateway that the risk engine has not let through. *)
From S2P Require Import Prelude FixedPoint Types BookSpec.
From S2P Require Import MpmcQueue PositionManager RiskEngine.
From S2P Require Import StrategyEngine.
From S2P Require Config.
Import Config (RiskParameters, RiskParameters_default, max_order_value, max_total_position_value, min_available_capital).

(** ** Relations along the order path *)

(** [e'] is [e] as far as the order path goes. *)
Definition same_path {St} (e e' : StrategyEngine St) : Prop :=
  order_queue_ e' = order_queue_ e ∧ delivered_ e' = delivered_ e ∧ risk_engine_ e' = risk_engine_ e.

(** [W] are the changes that other threads make in the middle of a check. *)
Class OrderPath {F : FpmOps} {U : CastUB} {St} (W : (nat → list RiskEngine.change) → Prop)
    (R : StrategyEngine St → StrategyEngine St → Prop) : Prop := {
  path_preorder :: PreOrder R;
  path_same e e' : same_path e e' → R e e';
  path_pop e r e' : popOrder e = Some (r, e') → R e e';
  path_submit now lat w o e r e' : W w → submitOrder now lat w o e = Some (r, e') → R e e';
  path_cancel id e r e' : cancelOrder id e = Some (r, e') → R e e';
}.

Section paths.
Context {F : FpmOps} {U : CastUB} {IO : IterOrder} {St : Type} (env : nat → reading).
Context (W : (nat → list RiskEngine.change) → Prop) (HW : ∀ n, W (meanwhile (env n))).
Context (R : StrategyEngine St → StrategyEngine St → Prop) {HR : OrderPath W R}.

Notation Engine := (StrategyEngine St).

Lemma popOrders_path n (e e' : Engine) : popOrders n e = Some e' → R e e'.
Proof.
  revert e. induction n as [|n IH]; intros e; cbn [popOrders]; [by intros [= <-]|].
  destruct (popOrder e) as [[r e1]|] eqn:Hp; cbn [mbind option_bind]; [|done].
  intros H. etrans; [by eapply path_pop|by apply IH].
Qed.

Lemma handle_path {X} r (c : call X) (e e' : Engine) x : W (meanwhile r) → handle r c e = Some (x, e') → R e e'.
Proof.
  intros Hr. destruct c; cbn [handle].
  1-5: match goal with |- mbind _ ?r = _ → _ => destruct r; cbn [mbind option_bind]; [|done]; by intros [= _ <-] end.
  1-3: by intros [= _ <-].
  - by apply path_submit.
  - apply path_cancel.
Qed.

Lemma interp_path {A} (p : prog A) (e e' : Engine) a : interp env p e = Some (a, e') → R e e'.
Proof.
  revert e. induction p as [a0|X c k IH]; intros e; cbn [interp]; [by intros [= _ <-]|].
  destruct (popOrders _ _) as [e1|] eqn:Hp; cbn [mbind option_bind]; [|done].
  destruct (handle _ c e1) as [[x e2]|] eqn:Hh; cbn [mbind option_bind]; [|done].
  intros H. apply popOrders_path in Hp. apply handle_path in Hh; [|apply HW]. apply IH in H.
  etrans; [|etrans; [exact Hp|by etrans]]. apply path_same. by destruct e.
Qed.

Lemma run_callback_path ev i (e e' : Engine) : run_callback env ev i e = Some e' → R e e'.
Proof.
  unfold run_callback. destruct (strategies_ e !! i); [|by intros [= <-]].
  destruct (interp _ _ _) as [[st e1]|] eqn:Hi; cbn [mbind option_bind]; [|done].
  intros [= <-]. apply interp_path in Hi. etrans; [exact Hi|]. apply path_same. by destruct e1.
Qed.

Lemma for_each_path stamp sel ev idx (e e' : Engine) : for_each env stamp sel ev idx e = Some e' → R e e'.
Proof.
  revert e. induction idx as [|i idx IH]; intros e; cbn [for_each]; [by intros [= <-]|].
  destruct (match strategies_ e !! i with Some _ => _ | None => _ end) as [e1|] eqn:H1; cbn [mbind option_bind]; [|done].
  intros H%IH. etrans; [|exact H]. destruct (strategies_ e !! i) as [en|]; [|by injection H1 as <-].
  destruct (sel en); [|by injection H1 as <-]. apply run_callback_path in H1. etrans; [|exact H1].
  apply path_same. destruct stamp; by destruct e.
Qed.

Lemma process_tick_path t l l' (e e' : Engine) : process_tick env t l e = Some (l', e') → R e e'.
Proof.
  unfold process_tick. destruct (for_each _ _ _ _ _ _) as [e1|] eqn:H1; cbn [mbind option_bind]; [|done].
  apply for_each_path in H1. assert (R e e1) as H by (etrans; [|exact H1]; apply path_same; by destruct e). destruct (_ >? _).
  - destruct (for_each _ _ _ _ _ e1) as [e2|] eqn:H2; cbn [mbind option_bind]; [|done].
    intros [= _ <-]. etrans; [exact H|by eapply for_each_path].
  - by intros [= _ <-].
Qed.

Lemma process_fill_path f (e e' : Engine) : process_fill env f e = Some e' → R e e'.
Proof.
  unfold process_fill. destruct (strategy_by_id_ _ !! _).
  - intros H%run_callback_path. etrans; [|exact H]. apply path_same. by destruct e.
  - intros [= <-]. apply path_same. by destruct e.
Qed.

Lemma idle_timer_path now l l' (e e' : Engine) : idle_timer env now l e = Some (l', e') → R e e'.
Proof.
  unfold idle_timer. destruct (_ >=? _); [|by intros [= _ <-]].
  destruct (for_each _ _ _ _ _ _) as [e1|] eqn:H1; cbn [mbind option_bind]; [|done].
  intros [= _ <-]. by eapply for_each_path.
Qed.

Lemma iteration_path now l l' (e e' : Engine) : iteration env now l e = Some (l', e') → R e e'.
Proof.
  unfold iteration. destruct (try_pop _ (tick_queue_ e)) as [[t q]|]; cbn [mbind option_bind]; [|done].
  set (e0 := e {{ tick_queue_ := q }}). assert (R e e0) as H0 by (apply path_same; by destruct e).
  destruct (match t with Some _ => _ | None => _ end) as [[l1 e1]|] eqn:H1; cbn [mbind option_bind]; [|done].
  assert (R e e1) as Ht.
  { etrans; [exact H0|]. destruct t; [by eapply process_tick_path|by injection H1 as _ <-]. }
  destruct (try_pop _ (fill_queue_ e1)) as [[f q2]|]; cbn [mbind option_bind]; [|done].
  set (e2 := e1 {{ fill_queue_ := q2 }}). assert (R e e2) as H2 by (etrans; [exact Ht|]; apply path_same; by destruct e1).
  destruct f as [f|].
  - destruct (process_fill _ _ _) as [e3|] eqn:H3; cbn [mbind option_bind]; [|done].
    apply process_fill_path in H3. destruct t; intros [= _ <-]; by etrans.
  - cbn [mbind option_bind]. destruct t; [by intros [= _ <-]|].
    intros H%idle_timer_path. by etrans.
Qed.

Lemma start_path (e e' : Engine) : start env e = Some e' → R e e'.
Proof.
  unfold start. destruct (running_ e); [by intros [= <-]|].
  destruct (for_each _ _ _ _ _ _) as [e1|] eqn:H1; cbn [mbind option_bind]; [|done].
  intros [= <-]. etrans; [by eapply for_each_path|]. apply path_same. by destruct e1.
Qed.

(** The configuration events are what the path may be sensitive to. *)
Lemma run_event_path ev (w w' : @World St) :
  (∀ now p, ev = UpdateRiskParameters now p → R (engine w) (updateRiskParameters now p (engine w))) →
  (∀ c, ev = SetAvailableCapital c → R (engine w) (StrategyEngine.setAvailableCapital c (engine w))) →
  run_event env ev w = Some w' → R (engine w) (engine w').
Proof.
  intros Hp Hc. destruct ev as [t|f| |now|now p|c]; cbn [run_event].
  1-2: unfold pushTick, pushFill; destruct (try_push _ _ _) as [[ok q]|]; cbn [mbind option_bind]; [|done];
    intros [= <-]; cbn [engine]; apply path_same; by destruct (engine w).
  - destruct (popOrder _) as [[r e]|] eqn:H; cbn [mbind option_bind]; [|done]. intros [= <-]. by eapply path_pop.
  - destruct (iteration _ _ _ _) as [[l e]|] eqn:H; cbn [mbind option_bind]; [|done]. intros [= <-]. by eapply iteration_path.
  - intros [= <-]. by apply Hp.
  - intros [= <-]. by apply Hc.
Qed.
End paths.

(** ** What was delivered stays delivered *)

Definition delivers {St} (e e' : StrategyEngine St) : Prop := delivered_ e `prefix_of` delivered_ e'.

#[export] Instance delivers_path {F : FpmOps} {U : CastUB} {St} W : OrderPath W (@delivers St).
Proof.
  split.
  - unfold delivers. split; [by intros e|by intros e1 e2 e3; etrans].
  - intros e e' (_ & H & _). unfold delivers. by rewrite H.
  - intros e r e'. unfold popOrder. destruct (try_pop _ _) as [[r' q]|]; cbn [mbind option_bind]; [|done].
    intros [= <- <-]. destruct e. by eexists.
  - intros now lat w o e r e' _. unfold submitOrder, delivers.
    destruct (RiskEngine.checkOrder_among _ _ _ _ _ _) as [res risk]. destruct (RiskEngine.RiskCheckResult.passed res).
    + cbn [generate]. destruct (try_push _ _ _) as [[ok q]|]; cbn [mbind option_bind]; [|done].
      intros [= H]. destruct e. destruct ok; by injection H as _ <-.
    + intros [= <- <-]. by destruct e.
  - intros id e r e'. unfold cancelOrder, delivers. destruct (try_push _ _ _) as [[ok q]|]; cbn [mbind option_bind]; [|done].
    intros [= _ <-]. by destruct e.
Qed.

Lemma run_event_delivers {F : FpmOps} {U : CastUB} {IO : IterOrder} {St} env ev (w w' : @World St) :
  run_event env ev w = Some w' → delivers (engine w) (engine w').
Proof.
  apply (run_event_path env (λ _, True)); [done|apply _|..]; intros *; intros _; unfold delivers; by destruct (engine w).
Qed.

(** ** No order without a passed check *)

(** A request that places an order is within limits and a capital that were set; the others are
    cancellations. *)
Definition request_checked {F : FpmOps} {U : CastUB} (P : RiskParameters → Prop) (C : Z → Prop) (o : OrderRequest.t) : Prop :=
  OrderRequest.quantity o = 0 ∨ within_limits P C o.

(** The limits and the capital in force, every slot of the order queue, everything taken from it. *)
Definition path_checked {F : FpmOps} {U : CastUB} {St} (P : RiskParameters → Prop) (C : Z → Prop) (e : StrategyEngine St) : Prop :=
  limits_among P C (risk_engine_ e) ∧
  Forall (request_checked P C) (data_ (order_queue_ e)) ∧ Forall (request_checked P C) (delivered_ e).

Section slots.
Context {F : FpmOps} {U : CastUB} (P : RiskParameters → Prop) (C : Z → Prop).

Lemma push_checked o q ok q' :
  Forall (request_checked P C) (data_ q) → request_checked P C o → try_push queue_bits o q = Some (ok, q') →
  Forall (request_checked P C) (data_ q').
Proof.
  intros Hq Ho. unfold try_push. destruct (_ =? 0); [|destruct (_ <? 0); [by intros [= _ <-]|done]].
  intros [= _ <-]. destruct q. by apply Forall_insert.
Qed.

Lemma pop_checked q r q' :
  Forall (request_checked P C) (data_ q) → try_pop queue_bits q = Some (r, q') →
  Forall (request_checked P C) (option_list r) ∧ Forall (request_checked P C) (data_ q').
Proof.
  intros Hq. unfold try_pop. destruct (_ =? 0); [|destruct (_ <? 0); [intros [= <- <-]; by split; [constructor|]|done]].
  intros [= <- <-]. destruct q as [dt sq hd tl]. cbn [option_list data_]. split; [|done]. constructor; [|constructor].
  rewrite list_lookup_total_alt. destruct (dt !! _) as [o|] eqn:Ho; [|by left].
  by apply (Forall_lookup_1 _ _ _ _ Hq Ho).
Qed.

(** The changes in the middle of a check are to limits in [P] and a capital in [C]. *)
Definition changes_in (w : nat → list RiskEngine.change) : Prop := ∀ k, Forall (change_in P C) (w k).

#[export] Instance checked_path {St} :
  OrderPath changes_in (λ e e' : StrategyEngine St, path_checked P C e → path_checked P C e').
Proof.
  split.
  - split; [by intros e|intros e1 e2 e3 H1 H2 H; by apply H2, H1].
  - intros e e' (H1 & H2 & H3). unfold path_checked. by rewrite H1, H2, H3.
  - intros e r e' Hp (H1 & H2 & H3). unfold popOrder in Hp.
    destruct (try_pop _ _) as [[r' q]|] eqn:Hq; cbn [mbind option_bind] in Hp; [|done]. injection Hp as <- <-.
    destruct (pop_checked _ _ _ H2 Hq) as [Hr Hd]. destruct e. cbn in *. split_and!; [done..|]. by apply Forall_app.
  - intros now lat w o e r e' Hw Hs (H1 & H2 & H3). unfold submitOrder, checkOrder_among in Hs.
    pose proof (run_checks_among_ok P C w now o (position_manager_ e) (risk_engine_ e) Hw H1) as Hin.
    destruct (run_checks_among w now o _ _) as [res risk]. destruct Hin as [Hin Hpass].
    set (risk' := risk {{ stats_ ::= _ }}) in Hs.
    assert (limits_among P C risk') as Hin' by (subst risk'; by destruct risk, Hin). clearbody risk'.
    destruct (RiskCheckResult.passed res).
    + cbn [generate] in Hs. destruct (try_push _ _ _) as [[ok q]|] eqn:Hq; cbn [mbind option_bind] in Hs; [|done].
      apply push_checked in Hq; [|by destruct e|].
      * destruct e. cbn in *. destruct ok; by injection Hs as _ <-.
      * right. specialize (Hpass eq_refl). by destruct o.
    + injection Hs as _ <-. destruct e. cbn in *. done.
  - intros id e r e' Hs (H1 & H2 & H3). unfold cancelOrder in Hs.
    destruct (try_push _ _ _) as [[ok q]|] eqn:Hq; cbn [mbind option_bind] in Hs; [|done]. injection Hs as _ <-.
    apply push_checked in Hq; [|done|by left]. destruct e. cbn in *. by split_and!.
Qed.
End slots.

Section checked.
Context {F : FpmOps} {U : CastUB} {IO : IterOrder} {St : Type} (env : nat → reading).

Lemma engine_events_snoc evs ev (w : @World St) : run_events env (evs ++ [ev]) w = run_events env evs w ≫= run_event env ev.
Proof.
  revert w. induction evs as [|e evs IH]; intros w; cbn [run_events app].
  - cbn [mbind option_bind]. by destruct (run_event env ev w).
  - destruct (run_event env e w); [|done]. cbn [mbind option_bind]. by rewrite IH.
Qed.

Lemma engine_run_snoc now (strats : list (Strategy St * St)) evs ev :
  run env now strats (evs ++ [ev]) = run env now strats evs ≫= run_event env ev.
Proof.
  unfold run. destruct (start env _); [|done]. cbn [mbind option_bind]. apply engine_events_snoc.
Qed.

(** The limits and the capital that are set in a run: at the start, by its events, or in
    the middle of a check. *)
Definition limits_set (evs : list event) (p : RiskParameters) : Prop :=
  p = RiskParameters_default ∨ (∃ now, UpdateRiskParameters now p ∈ evs) ∨
  ∃ n k now, RiskEngine.ChangeParameters now p ∈ meanwhile (env n) k.
Definition capital_set (evs : list event) (c : Z) : Prop :=
  c = toDecimal (max_total_position_value RiskParameters_default) ∨ SetAvailableCapital c ∈ evs ∨
  ∃ n k, RiskEngine.ChangeCapital c ∈ meanwhile (env n) k.

Lemma meanwhile_in evs n : changes_in (limits_set evs) (capital_set evs) (meanwhile (env n)).
Proof.
  intros k. apply Forall_forall. intros [now p|c] Hc; cbn; [right; right|right; right]; by repeat eexists.
Qed.

Lemma run_event_checked P C ev (w w' : @World St) :
  (∀ n, changes_in P C (meanwhile (env n))) →
  (∀ now p, ev = UpdateRiskParameters now p → P p) → (∀ c, ev = SetAvailableCapital c → C c) →
  run_event env ev w = Some w' → path_checked P C (engine w) → path_checked P C (engine w').
Proof.
  intros HW Hp Hc. apply (run_event_path env (changes_in P C) HW _ (HR := checked_path P C)).
  - intros now p -> (H1 & H2 & H3). pose proof (apply_changes_among P C [ChangeParameters now p] _ ltac:(repeat constructor; by eapply Hp) H1).
    by destruct (engine w).
  - intros c -> (H1 & H2 & H3). pose proof (apply_changes_among P C [ChangeCapital c] _ ltac:(repeat constructor; by eapply Hc) H1).
    by destruct (engine w).
Qed.

Lemma run_events_checked P C evs (w w' : @World St) :
  (∀ n, changes_in P C (meanwhile (env n))) →
  (∀ now p, UpdateRiskParameters now p ∈ evs → P p) → (∀ c, SetAvailableCapital c ∈ evs → C c) →
  run_events env evs w = Some w' → path_checked P C (engine w) → path_checked P C (engine w').
Proof.
  intros HW. revert w. induction evs as [|ev evs IH]; intros w Hp Hc; cbn [run_events]; [by intros [= <-]|].
  destruct (run_event env ev w) as [w1|] eqn:H1; cbn [mbind option_bind]; [|done].
  setoid_rewrite elem_of_cons in Hp. setoid_rewrite elem_of_cons in Hc. intros Hr Hw.
  apply (IH w1); [intros; eapply Hp; eauto|intros; eapply Hc; eauto|done|].
  apply (run_event_checked P C ev w w1 HW); [intros; eapply Hp; eauto|intros; eapply Hc; eauto|done..].
Qed.

Lemma registered_path (strats : list (Strategy St * St)) e :
  same_path e (fold_left (λ e '(s, st), registerStrategy s st e) strats e).
Proof.
  revert e. induction strats as [|[s st] strats IH]; intros e; [done|]. cbn [fold_left].
  destruct (IH (registerStrategy s st e)) as (H1 & H2 & H3). unfold same_path. rewrite H1, H2, H3. by destruct e.
Qed.

Lemma run_checked now (strats : list (Strategy St * St)) evs w :
  run env now strats evs = Some w → path_checked (limits_set evs) (capital_set evs) (engine w).
Proof.
  intros Hr. unfold run in Hr. destruct (registered_path strats StrategyEngine_init) as (R1 & R2 & R3).
  destruct (start env _) as [e|] eqn:Hs; cbn [mbind option_bind] in Hr; [|done].
  apply (run_events_checked _ _ evs _ _ (meanwhile_in evs)) in Hr; [done|intros; right; left; eauto|intros; right; left; eauto|].
  apply (start_path env (changes_in _ _) (meanwhile_in evs) _ (HR := checked_path _ _) _ _ Hs).
  unfold path_checked. rewrite R1, R2, R3. split_and!; [|cbn; apply Forall_replicate; by left|constructor].
  split; [exists RiskParameters_default; split; [by left|done]|by left].
Qed.

(** C11: no order reaches the gateway unchecked: whatever the strategies do, however the
    threads interleave, and although other threads change the limits and the capital between
    the turns of the loop and between any two reads of a check, so that an order can be
    checked against values that were never in force together: every request the
    gateway has taken is a cancellation or an order whose value is within a limit, and
    leaves of a capital no less than a reserve, each of which is set at some moment of the run. *)
Theorem delivered_orders_checked now m (strats : list (Strategy St * St)) evs :
  Forall (obeys m) strats.*1 → in_budget (calls_of (length evs) m strats.*1) →
  ∃ w, run env now strats evs = Some w ∧
    ∀ o, o ∈ delivered_ (engine w) → OrderRequest.quantity o ≠ 0 →
      ∃ p p' c, limits_set evs p ∧ limits_set evs p' ∧ capital_set evs c ∧
        order_value o <= toDecimal (max_order_value p) ∧ toDecimal (min_available_capital p') <= c ⊟ order_value o.
Proof.
  intros Hob Hn. destruct (run_ok env now m strats evs Hob Hn) as (w & Hw & _). exists w. split; [done|].
  intros o Ho Hq. destruct (run_checked now strats evs w Hw) as (_ & _ & Hd).
  rewrite Forall_forall in Hd. by destruct (Hd o Ho).
Qed.
End checked.

(** The sample strategy, a gateway that takes its first order, and a thread that changes the capital right
    before each check reads it. *)
Definition checked_events : list event :=
  [PushTick (sample_tick 7); SetAvailableCapital (50000 * ONE); Iterate 5; PopOrder].
Definition racing_env (n : nat) : reading :=
  mkReading (n / 2) (1000000 + Z.of_nat n) 500 (λ k, if (k =? 5)%nat then [RiskEngine.ChangeCapital (40000 * ONE)] else []).

Abbreviation checked_run :=
  (run (F := FpmRef) (U := CastX86) (IO := iter_default) racing_env 0 [(sample_strategy, 0)] checked_events).

Lemma checked_run_result :
  (λ w, ((λ o, (OrderRequest.order_id o, OrderRequest.quantity o)) <$> delivered_ (engine w), available_capital_raw_ (risk_engine_ (engine w))))
    <$> checked_run = Some ([(1, ONE)], 40000 * ONE).
Proof. vm_compute. reflexivity. Qed.

Lemma delivered_orders_checked_witness :
  ∃ w o p, checked_run = Some w ∧ delivered_ (engine w) = [o] ∧ OrderRequest.quantity o = ONE ∧
    limits_set racing_env checked_events p ∧ order_value (F := FpmRef) o <= toDecimal (H := CastX86) (max_order_value p).
Proof.
  destruct (delivered_orders_checked (F := FpmRef) (U := CastX86) (IO := iter_default) racing_env 0 2 [(sample_strategy, 0)]
    checked_events sample_obeys) as (w & Hw & Hd); [vm_compute; discriminate|].
  pose proof checked_run_result as Hr. rewrite Hw in Hr. cbn [fmap option_fmap option_map] in Hr. injection Hr as Hr _.
  destruct (delivered_ (engine w)) as [|o [|? ?]] eqn:Ho; [discriminate Hr| |discriminate Hr]. injection Hr as _ Hq.
  destruct (Hd o) as (p & p' & c & Hp & _ & _ & Hv & _); [apply list_elem_of_singleton; reflexivity|rewrite Hq; discriminate|].
  exists w, o, p. split; [exact Hw|]. split; [exact Ho|]. split; [exact Hq|]. split; [exact Hp|exact Hv].
Defined.
