(* ===== verification/OrderGateway.v ===== *)
(** [OrderGateway] (include/chronos/execution/order_gateway.hpp,
    src/execution/order_gateway.cpp): the orders in flight of one exchange, from the
    queue to the fills and back.

    Each operation runs under the gateway's mutexes and is one step. Outside the
    repository's code are the steady clock ([clock], the n-th reading), the REST
    calls of [BinanceHttpClient] ([http_place], [http_cancel], the n-th call's
    answer) and the JSON library; what the gateway hands out, fills for the callback
    and requests for the exchange, is appended to [fills_out_] and [requests_]. *)
From Stdlib Require Import SpecFloat.
From S2P Require Import Prelude FixedPoint Types Json.
From S2P Require Config.
From S2P Require Import RiskEngine.
From S2P Require StrategyEngine.

(** ** [std::to_string] of a double: printf's [%f], exact and rounded half to even *)

Definition round_even (a b : Z) : Z :=
  let q := a / b in
  let r := a mod b in
  if 2 * r <? b then q else if 2 * r >? b then q + 1 else if Z.even q then q else q + 1.

Definition six_decimals (neg : bool) (micros : Z) : string :=
  let d := to_string (micros mod 1000000) in
  ((if neg then "-" else EmptyString) ++ to_string (micros / 1000000) ++ "." ++
   String.concat EmptyString (replicate (6 - String.length d) "0") ++ d)%string.

Definition to_string_double (d : double) : string :=
  match d with
  | S754_zero s => six_decimals s 0
  | S754_infinity s => if s then "-inf"%string else "inf"%string
  | S754_nan => "nan"%string
  | S754_finite s m e =>
      six_decimals s (if 0 <=? e then Zpos m * 1000000 * 2 ^ e
                      else round_even (Zpos m * 1000000) (2 ^ (- e)))
  end.

Example to_string_double_ex :
  (to_string_double (toDouble ONE), to_string_double (toDouble (- (5 * ONE + 2 ^ 31))),
   to_string_double (toDouble 2000)) = ("1.000000", "-5.500000", "0.000000")%string.
Proof. vm_compute. reflexivity. Qed.

(** ** State *)

Module PendingOrder.
Record t := mk {
  order_id : Z;
  client_order_id : Z;
  submit_timestamp_us : Z;
  symbol_id : Z;
  exchange_id : Z;
  strategy_id : Z;
  side : OrderSide.t;
  type : OrderType.t;
  status : OrderStatus.t;
  original_price : Z;
  original_quantity : Z;
  filled_quantity : Z;
  last_update_us : Z;
}.
End PendingOrder.

Module OrderGatewayStats.
Record t := mk {
  orders_received : Z;
  orders_sent : Z;
  orders_rejected : Z;
  orders_cancelled : Z;
  orders_modified : Z;
  fills_received : Z;
  fill_errors : Z;
  exchange_id_mismatch : Z;
  queue_empty_polls : Z;
  pending_order_count : Z;
  avg_send_latency_us : Z;
}.
Definition init : t := mk 0 0 0 0 0 0 0 0 0 0 0.
End OrderGatewayStats.

(** What goes out to the exchange. *)
Inductive request :=
| Place (symbol side qty price clientOrderId : string)
| CancelAt (symbol : string) (order_id : Z).

Record OrderGateway := mkGateway {
  config_ : Config.ExchangeConfig;
  exchange_id_ : Z;
  exchange_name_ : string;
  has_callback : bool;            (* [fill_callback_] is set *)
  simulate_fills_ : bool;
  has_http_client : bool;         (* [http_client_] is set *)
  running_ : bool;
  pending_orders_ : gmap Z PendingOrder.t;
  exchange_to_local_ : gmap Z Z;
  client_id_to_local_ : gmap string Z;
  stats_ : OrderGatewayStats.t;
  avg_send_latency_us_ : Z;
  readings_ : nat;
  requests_ : list request;
  fills_out_ : list Fill.t;
}.

Definition OrderGateway_init (config : Config.ExchangeConfig) (has_callback : bool) (exchange_id : Z)
    (simulate_fills : bool) : OrderGateway :=
  mkGateway config exchange_id (Config.ex_name config) has_callback simulate_fills false false ∅ ∅ ∅
    OrderGatewayStats.init 0 0 [] [].

Definition setHttpClient (present : bool) (g : OrderGateway) : OrderGateway :=
  g {{ has_http_client := present }}.

Section gateway.
Context {F : FpmOps} {J : JsonOps}.
(** The n-th clock reading; the answer to the n-th REST request: [None] for an empty
    response, [Some None] for a body that is not a JSON object (parsing it, or
    reading a member, throws), [Some (Some j)] for the object [j]. *)
Context (clock : nat → Z) (http_place : nat → option (option json)).

Definition count (f : OrderGatewayStats.t → OrderGatewayStats.t) (g : OrderGateway) : OrderGateway :=
  g {{ stats_ ::= f }}.

Definition now_us (g : OrderGateway) : Z * OrderGateway :=
  (clock (readings_ g), g {{ readings_ ::= S }}).

Definition find_pending (order_id : Z) (g : OrderGateway) : option PendingOrder.t :=
  pending_orders_ g !! order_id.
Abbreviation findPending := find_pending.

Definition pendingCount (g : OrderGateway) : nat := size (pending_orders_ g).

Definition symbolIdToName (symbol_id : Z) (g : OrderGateway) : string :=
  let symbols := Config.symbols (config_ g) in
  if (symbol_id =? 0) || (symbol_id >? Z.of_nat (length symbols)) then EmptyString
  else default EmptyString (symbols !! Z.to_nat (symbol_id - 1)).

(** *** Encoding *)

Definition bar (s t : string) : string := (s ++ "|" ++ t)%string.

Definition encodeOrder (order : OrderRequest.t) : option string :=
  Some (bar "NEW" (bar (to_string (OrderRequest.order_id order))
    (bar (to_string (OrderRequest.symbol_id order))
    (bar (to_string_double (toDouble (OrderRequest.price order)))
    (bar (to_string_double (toDouble (OrderRequest.quantity order)))
    (bar (to_string (OrderSide.to_Z (OrderRequest.side order)))
         (to_string (OrderType.to_Z (OrderRequest.type order)))))))))%string.

Definition encodeCancel (order_id : Z) : option string := Some (bar "CANCEL" (to_string order_id))%string.

Definition encodeModify (order_id new_price new_quantity : Z) : option string :=
  Some (bar "MODIFY" (bar (to_string order_id)
    (bar (to_string_double (toDouble new_price)) (to_string_double (toDouble new_quantity)))))%string.

(** symbol, side, qty, price, clientOrderId *)
Definition encodeOrderJson (order : OrderRequest.t) (g : OrderGateway)
    : option (string * string * string * string * string) * OrderGateway :=
  let symbol := symbolIdToName (OrderRequest.symbol_id order) g in
  if String.eqb symbol EmptyString then (None, g)
  else
    let side := match OrderRequest.side order with OrderSide.BUY => "BUY" | OrderSide.SELL => "SELL" end%string in
    let qty := to_string_double (toDouble (OrderRequest.quantity order)) in
    let price := to_string_double (toDouble (OrderRequest.price order)) in
    let '(now, g) := now_us g in
    let clientOrderId := (to_string (OrderRequest.order_id order) ++ "_" ++ to_string now)%string in
    (Some (symbol, side, qty, price, clientOrderId), g).

(** The message itself goes nowhere; only the latency filter moves. *)
Definition simulateSend (send_time_us : Z) (g : OrderGateway) : OrderGateway :=
  let '(now, g) := now_us g in
  g {{ avg_send_latency_us_ ::= λ avg, ema_u64 avg (u64 (now - send_time_us)) }}.

(** *** Pending orders *)

Definition trackPending (order : OrderRequest.t) (submit_time_us : Z) (g : OrderGateway) : OrderGateway :=
  let po := PendingOrder.mk (OrderRequest.order_id order) (OrderRequest.client_order_id order) submit_time_us
    (OrderRequest.symbol_id order) (OrderRequest.exchange_id order) (OrderRequest.strategy_id order)
    (OrderRequest.side order) (OrderRequest.type order) OrderStatus.PENDING
    (OrderRequest.price order) (OrderRequest.quantity order) 0 submit_time_us in
  g {{ pending_orders_ ::= <[OrderRequest.order_id order := po]> }}.

Definition finalizeOrder (order_id : Z) (g : OrderGateway) : OrderGateway :=
  g {{ pending_orders_ ::= delete order_id }}.

Definition terminal (s : OrderStatus.t) : bool :=
  bool_decide (s ∈ [OrderStatus.FILLED; OrderStatus.CANCELLED; OrderStatus.REJECTED; OrderStatus.EXPIRED]).

Definition updatePendingStatus (order_id : Z) (status : OrderStatus.t) (filled_qty : Z) (g : OrderGateway)
    : OrderGateway :=
  match find_pending order_id g with
  | None => g
  | Some po =>
      let '(now, g) := now_us g in
      let po := po {{ PendingOrder.status := status; PendingOrder.last_update_us := now }} in
      let po := if filled_qty =? 0 then po
                else po {{ PendingOrder.filled_quantity ::= λ q, q ⊞ filled_qty }} in
      if terminal status then finalizeOrder order_id g
      else g {{ pending_orders_ ::= <[order_id := po]> }}
  end.

(** *** Events from the exchange *)

(** The pending order a fill is for: by its own id, else by the exchange's id. *)
Definition fill_target (order_id : Z) (g : OrderGateway) : option (Z * PendingOrder.t) :=
  match find_pending order_id g with
  | Some po => Some (order_id, po)
  | None => local ← exchange_to_local_ g !! order_id; po ← find_pending local g; Some (local, po)
  end.

Definition partially_filled (filled now : Z) (po : PendingOrder.t) : PendingOrder.t :=
  po {{ PendingOrder.filled_quantity := filled; PendingOrder.last_update_us := now;
        PendingOrder.status := OrderStatus.PARTIALLY_FILLED }}.

(** A completely filled order is erased. *)
Definition settle_fill (id : Z) (po : PendingOrder.t) (filled now : Z) (g : OrderGateway) : OrderGateway :=
  if filled >=? PendingOrder.original_quantity po then finalizeOrder id g
  else g {{ pending_orders_ ::= <[id := partially_filled filled now po]> }}.

Definition deliver_fill (enriched : Fill.t) (g : OrderGateway) : OrderGateway :=
  let g := if has_callback g then g {{ fills_out_ ::= λ l, l ++ [enriched] }} else g in
  count (λ s, s {{ OrderGatewayStats.fills_received ::= inc64 }}) g.

Definition injectFill (fill : Fill.t) (g : OrderGateway) : OrderGateway :=
  match fill_target (Fill.order_id fill) g with
  | None => count (λ s, s {{ OrderGatewayStats.fill_errors ::= inc64 }}) g
  | Some (id, po) =>
      let enriched := fill {{ Fill.strategy_id := PendingOrder.strategy_id po;
                              Fill.symbol_id := PendingOrder.symbol_id po }} in
      let filled := PendingOrder.filled_quantity po ⊞ Fill.fill_quantity fill in
      let '(now, g) := now_us g in
      deliver_fill enriched (settle_fill id po filled now g)
  end.

Definition injectOrderAck (ack : OrderAck.t) (g : OrderGateway) : OrderGateway :=
  match find_pending (OrderAck.order_id ack) g with
  | None => g
  | Some po =>
      let g := g {{ pending_orders_ ::= <[OrderAck.order_id ack :=
                      po {{ PendingOrder.status := OrderStatus.ACCEPTED;
                            PendingOrder.last_update_us := OrderAck.timestamp_us ack }}]> }} in
      if OrderAck.exchange_order_id ack =? 0 then g
      else g {{ exchange_to_local_ ::= <[OrderAck.exchange_order_id ack := OrderAck.order_id ack]> }}
  end.

Definition injectOrderReject (reject : OrderReject.t) (g : OrderGateway) : OrderGateway :=
  let g := match find_pending (OrderReject.order_id reject) g with
           | Some _ => finalizeOrder (OrderReject.order_id reject) g
           | None => g
           end in
  count (λ s, s {{ OrderGatewayStats.orders_rejected ::= inc64 }}) g.

Definition resolveByClientOrderId (clientOrderId : string) (g : OrderGateway) : Z :=
  default 0 (client_id_to_local_ g !! clientOrderId).

(** *** Orders from the queue *)

(** The acknowledgement in the answer; [None] when reading it throws. *)
Definition parse_ack (order_id : Z) (j : json) : option OrderAck.t :=
  exchange_order_id ← get_or (get_uint 64) 0 j "orderId";
  update_time ← get_or (get_uint 64) 0 j "updateTime";
  Some (OrderAck.mk order_id exchange_order_id OrderStatus.ACCEPTED (u64 (update_time * 1000))).

Definition realSendWithClientId (order : OrderRequest.t) (symbol side qty price clientOrderId : string)
    (g : OrderGateway) : bool * OrderGateway :=
  if negb (has_http_client g) then (false, g)
  else
    let resp := http_place (length (requests_ g)) in
    let g := g {{ requests_ ::= λ l, l ++ [Place symbol side qty price clientOrderId] }} in
    match resp with
    | None => (false, g)
    | Some body =>
        (true, match body ≫= parse_ack (OrderRequest.order_id order) with
               | Some ack => injectOrderAck ack g
               | None => g
               end)
    end.

Definition send_cancel (symbol_id order_id : Z) (g : OrderGateway) : OrderGateway :=
  let sym := symbolIdToName symbol_id g in
  if String.eqb sym EmptyString then g
  else g {{ requests_ ::= λ l, l ++ [CancelAt sym order_id] }}.

Definition live (g : OrderGateway) : bool := negb (simulate_fills_ g) && has_http_client g.

Definition reject_order (g : OrderGateway) : OrderGateway :=
  count (λ s, s {{ OrderGatewayStats.orders_rejected ::= inc64 }}) g.

Definition process_cancel (order : OrderRequest.t) (g : OrderGateway) : OrderGateway :=
  let cancel_id := OrderRequest.order_id order in
  let '(send_time, g) := now_us g in
  let finish g :=
    let g := match find_pending cancel_id g with Some _ => finalizeOrder cancel_id g | None => g end in
    count (λ s, s {{ OrderGatewayStats.orders_cancelled ::= inc64 }}) g in
  if live g then finish (send_cancel (OrderRequest.symbol_id order) cancel_id g)
  else match encodeCancel cancel_id with
       | None => reject_order g
       | Some _ => finish (simulateSend send_time g)
       end.

(** A pending order with the id that is still open is modified. *)
Definition modifiable (po : PendingOrder.t) : bool :=
  bool_decide (PendingOrder.status po ∈
    [OrderStatus.PENDING; OrderStatus.ACCEPTED; OrderStatus.PARTIALLY_FILLED]).

Definition process_modify (order : OrderRequest.t) (po : PendingOrder.t) (g : OrderGateway) : OrderGateway :=
  match encodeModify (OrderRequest.order_id order) (OrderRequest.price order) (OrderRequest.quantity order) with
  | None => reject_order g
  | Some _ =>
      let '(send_time, g) := now_us g in
      let g := simulateSend send_time g in
      let g := g {{ pending_orders_ ::= <[OrderRequest.order_id order :=
                      po {{ PendingOrder.original_price := OrderRequest.price order;
                            PendingOrder.original_quantity := OrderRequest.quantity order;
                            PendingOrder.last_update_us := send_time }}]> }} in
      count (λ s, s {{ OrderGatewayStats.orders_modified ::= inc64 }}) g
  end.

Definition process_new_live (order : OrderRequest.t) (send_time : Z) (g : OrderGateway) : OrderGateway :=
  match encodeOrderJson order g with
  | (None, g) => reject_order g
  | (Some (symbol, side, qty, price, clientOrderId), g) =>
      let g := g {{ client_id_to_local_ ::= <[clientOrderId := OrderRequest.order_id order]> }} in
      let g := trackPending order send_time g in
      let '(sent, g) := realSendWithClientId order symbol side qty price clientOrderId g in
      count (λ s, if sent : bool then s {{ OrderGatewayStats.orders_sent ::= inc64 }}
                  else s {{ OrderGatewayStats.orders_rejected ::= inc64 }}) g
  end.

Definition simulated_fill (order : OrderRequest.t) (send_time : Z) : Fill.t :=
  Fill.default {{ Fill.order_id := OrderRequest.order_id order;
                  Fill.symbol_id := OrderRequest.symbol_id order;
                  Fill.fill_price := OrderRequest.price order;
                  Fill.fill_quantity := OrderRequest.quantity order;
                  Fill.side := OrderRequest.side order;
                  Fill.exchange_id := OrderRequest.exchange_id order;
                  Fill.strategy_id := OrderRequest.strategy_id order;
                  Fill.exchange_timestamp_us := send_time;
                  Fill.receive_timestamp_us := send_time }}.

Definition process_new_simulated (order : OrderRequest.t) (send_time : Z) (g : OrderGateway) : OrderGateway :=
  match encodeOrder order with
  | None => reject_order g
  | Some _ =>
      let g := simulateSend send_time g in
      let g := trackPending order send_time g in
      let g := if simulate_fills_ g && has_callback g
               then injectFill (simulated_fill order send_time) g else g in
      count (λ s, s {{ OrderGatewayStats.orders_sent ::= inc64 }}) g
  end.

Definition processOrder (order : OrderRequest.t) (g : OrderGateway) : OrderGateway :=
  let g := count (λ s, s {{ OrderGatewayStats.orders_received ::= inc64 }}) g in
  if negb (OrderRequest.exchange_id order =? exchange_id_ g)
  then count (λ s, s {{ OrderGatewayStats.exchange_id_mismatch ::= inc64 }}) g
  else if OrderRequest.quantity order =? 0 then process_cancel order g
  else
    let new g :=
      let '(send_time, g) := now_us g in
      if live g then process_new_live order send_time g else process_new_simulated order send_time g in
    match find_pending (OrderRequest.order_id order) g with
    | Some po => if modifiable po then process_modify order po g else new g
    | None => new g
    end.

(** One turn of the I/O loop: everything queued, or an idle poll. *)
Definition drain (orders : list OrderRequest.t) (g : OrderGateway) : OrderGateway :=
  match orders with
  | [] => count (λ s, s {{ OrderGatewayStats.queue_empty_polls ::= inc64 }}) g
  | _ => fold_left (λ g o, processOrder o g) orders g
  end.

(** *** Shutdown and statistics *)

(** [ids] is the order in which iteration visits the pending orders. *)
Definition cancel_pending_one (g : OrderGateway) (id : Z) : OrderGateway :=
  let cancelled g := count (λ s, s {{ OrderGatewayStats.orders_cancelled ::= inc64 }}) g in
  let erase g := match find_pending id g with Some _ => finalizeOrder id g | None => g end in
  if live g then
    match find_pending id g with
    | None => g
    | Some po => cancelled (erase (send_cancel (PendingOrder.symbol_id po) id g))
    end
  else cancelled (erase g).

Definition cancelAllPending (ids : list Z) (g : OrderGateway) : OrderGateway :=
  fold_left cancel_pending_one ids g.

Definition start (g : OrderGateway) : OrderGateway := if running_ g then g else g {{ running_ := true }}.

(** The I/O thread drains the queue once more before it ends. *)
Definition stop (rest : list OrderRequest.t) (ids : OrderGateway → list Z) (g : OrderGateway) : OrderGateway :=
  if running_ g then
    let g := fold_left (λ g o, processOrder o g) rest (g {{ running_ := false }}) in
    cancelAllPending (ids g) g
  else g.

Definition getStats (g : OrderGateway) : OrderGatewayStats.t :=
  (stats_ g) {{ OrderGatewayStats.pending_order_count := Z.of_nat (pendingCount g);
                OrderGatewayStats.avg_send_latency_us := avg_send_latency_us_ g }}.

Definition resetStats (g : OrderGateway) : OrderGateway :=
  g {{ stats_ := OrderGatewayStats.init; avg_send_latency_us_ := 0 }}.
End gateway.

(** ** Runs *)

Inductive event :=
| Process (order : OrderRequest.t)
| InjectFill (fill : Fill.t)
| InjectAck (ack : OrderAck.t)
| InjectReject (reject : OrderReject.t)
| IdlePoll.

Section proofs.
Context {F : FpmOps} {J : JsonOps}.
Context (clock : nat → Z) (http_place : nat → option (option json)).

Notation now_us := (now_us clock).
Notation simulateSend := (simulateSend clock).
Notation injectFill := (injectFill clock).
Notation processOrder := (processOrder clock http_place).

Definition handle (ev : event) (g : OrderGateway) : OrderGateway :=
  match ev with
  | Process order => processOrder order g
  | InjectFill fill => injectFill fill g
  | InjectAck ack => injectOrderAck ack g
  | InjectReject reject => injectOrderReject reject g
  | IdlePoll => drain clock http_place [] g
  end.

Definition gw_run (evs : list event) (g : OrderGateway) : OrderGateway :=
  fold_left (λ g ev, handle ev g) evs g.

(** *** Every pending order is open *)

Definition open_order (xid k : Z) (po : PendingOrder.t) : Prop :=
  PendingOrder.order_id po = k ∧ modifiable po = true ∧ PendingOrder.exchange_id po = xid.

Definition pending_ok (xid : Z) (g : OrderGateway) : Prop :=
  exchange_id_ g = xid ∧ map_Forall (open_order xid) (pending_orders_ g).

(** Operations that leave the pending orders alone. *)
Lemma pending_ok_same xid g g' :
  exchange_id_ g' = exchange_id_ g → pending_orders_ g' = pending_orders_ g →
  pending_ok xid g → pending_ok xid g'.
Proof. unfold pending_ok. by intros -> ->. Qed.

Lemma pending_ok_delete xid k g : pending_ok xid g → pending_ok xid (finalizeOrder k g).
Proof. intros [H1 H2]. destruct g. split; [done|]. by apply map_Forall_delete. Qed.

Lemma pending_ok_insert xid k po g g' :
  exchange_id_ g' = exchange_id_ g → pending_orders_ g' = <[k := po]> (pending_orders_ g) →
  open_order xid k po → pending_ok xid g → pending_ok xid g'.
Proof. intros H1 H2 Hp [H3 H4]. split; [congruence|]. rewrite H2. by apply map_Forall_insert_2. Qed.

Lemma simulateSend_pending xid t g : pending_ok xid g → pending_ok xid (simulateSend t g).
Proof. apply pending_ok_same; by destruct g. Qed.

Lemma fill_target_lookup k g k' po : fill_target k g = Some (k', po) → pending_orders_ g !! k' = Some po.
Proof.
  unfold fill_target, find_pending. destruct (pending_orders_ g !! k) as [po0|] eqn:Hk.
  - by intros [= <- <-].
  - destruct (exchange_to_local_ g !! k) as [l|]; cbn; [|done].
    destruct (pending_orders_ g !! l) as [po1|] eqn:Hl; cbn; [|done]. by intros [= <- <-].
Qed.

Lemma settle_pending xid k po filled now g :
  open_order xid k po → pending_ok xid g → pending_ok xid (settle_fill k po filled now g).
Proof.
  intros Hp Hg. unfold settle_fill. destruct (_ >=? _); [by apply pending_ok_delete|].
  eapply (pending_ok_insert xid k (partially_filled filled now po)), Hg; [by destruct g..|].
  destruct Hp as (H1 & H2 & H3). by destruct po.
Qed.

Lemma injectFill_pending xid f g : pending_ok xid g → pending_ok xid (injectFill f g).
Proof.
  intros Hg. unfold OrderGateway.injectFill.
  destruct (fill_target (Fill.order_id f) g) as [[k po]|] eqn:Ht.
  - apply fill_target_lookup in Ht as Hk. pose proof Hg as [_ Hm].
    cbn [OrderGateway.now_us]. set (g1 := g {{ readings_ ::= S }}).
    assert (pending_ok xid g1) as H1 by by destruct g.
    apply (settle_pending xid k po (PendingOrder.filled_quantity po ⊞ Fill.fill_quantity f) (clock (readings_ g)))
      in H1; [|by apply Hm].
    eapply pending_ok_same, H1; destruct (settle_fill _ _ _ _ _) as [? ? ? hc]; by destruct hc.
  - by destruct g.
Qed.

Lemma ack_pending xid a g : pending_ok xid g → pending_ok xid (injectOrderAck a g).
Proof.
  intros Hg. unfold injectOrderAck, find_pending.
  destruct (pending_orders_ g !! OrderAck.order_id a) as [po|] eqn:Hk; [|done].
  pose proof Hg as [_ Hm]. destruct (Hm _ _ Hk) as (H1 & H2 & H3).
  set (po' := po {{ PendingOrder.status := OrderStatus.ACCEPTED;
                    PendingOrder.last_update_us := OrderAck.timestamp_us a }}).
  apply (pending_ok_insert xid (OrderAck.order_id a) po' g); [| |by destruct po|done];
    destruct g, (OrderAck.exchange_order_id a =? 0); reflexivity.
Qed.

Lemma track_pending xid o t g :
  OrderRequest.exchange_id o = xid → pending_ok xid g → pending_ok xid (trackPending o t g).
Proof. intros Hx Hg. eapply pending_ok_insert, Hg; [by destruct g..|]. by destruct o. Qed.

Lemma finish_cancel_pending xid k g :
  pending_ok xid g → pending_ok xid match find_pending k g with Some _ => finalizeOrder k g | None => g end.
Proof. intros Hg. destruct (find_pending k g); [by apply pending_ok_delete|done]. Qed.

Lemma processOrder_pending xid o g : pending_ok xid g → pending_ok xid (processOrder o g).
Proof.
  intros Hg. unfold OrderGateway.processOrder.
  set (g0 := count _ g). assert (pending_ok xid g0) as H0 by by destruct g.
  clearbody g0. clear Hg g. destruct (Z.eqb_spec (OrderRequest.exchange_id o) (exchange_id_ g0)) as [Hx|];
    cbn [negb]; [|by destruct g0].
  rewrite (proj1 H0) in Hx.
  destruct (_ =? 0).
  { unfold process_cancel. cbn [OrderGateway.now_us encodeCancel].
    set (g1 := g0 {{ readings_ ::= S }}). assert (pending_ok xid g1) as H1 by by destruct g0.
    destruct (live g1).
    - eapply pending_ok_same, (finish_cancel_pending xid (OrderRequest.order_id o)),
        (pending_ok_same xid g1 (send_cancel _ _ g1)), H1; [| |unfold send_cancel; destruct (String.eqb _ _)..];
        by destruct g1.
    - eapply pending_ok_same, (finish_cancel_pending xid (OrderRequest.order_id o)),
        simulateSend_pending, H1; by destruct g1. }
  assert (pending_ok xid (let '(send_time, g) := now_us g0 in
    if live g then process_new_live clock http_place o send_time g
    else process_new_simulated clock o send_time g)) as Hnew.
  { cbn [OrderGateway.now_us]. set (g1 := g0 {{ readings_ ::= S }}).
    assert (pending_ok xid g1) as H1 by by destruct g0.
    clearbody g1. generalize (clock (readings_ g0)) as t. intros t. destruct (live g1).
    - unfold process_new_live, encodeOrderJson. destruct (String.eqb _ _); [by destruct g1|].
      cbn [OrderGateway.now_us].
      match goal with |- context [trackPending o t ?x] => set (g2 := trackPending o t x) end.
      assert (pending_ok xid g2) as H2 by (apply track_pending; [done|]; by destruct g1).
      clearbody g2. unfold realSendWithClientId. destruct (negb _); [by destruct g2|].
      match goal with |- context [g2 {{ requests_ ::= ?f }}] => set (g3 := g2 {{ requests_ ::= f }}) end.
      assert (pending_ok xid g3) as H3 by by destruct g2.
      destruct (http_place _) as [body|]; [|by destruct g2].
      destruct (body ≫= _) as [ack|]; [|by destruct g2].
      eapply pending_ok_same, (ack_pending xid ack g3), H3; by destruct (injectOrderAck ack g3).
    - unfold process_new_simulated. cbn [encodeOrder].
      assert (pending_ok xid (trackPending o t (simulateSend t g1))) as H2
        by (apply track_pending; [done|]; by apply simulateSend_pending).
      set (g2 := trackPending _ _ _) in *. clearbody g2. destruct (_ && _); [|by destruct g2].
      eapply pending_ok_same, (injectFill_pending xid (simulated_fill o t)), H2;
        by destruct (injectFill (simulated_fill o t) g2). }
  destruct (find_pending _ g0) as [po|] eqn:Hpo; [|done]. destruct (modifiable po) eqn:Hm; [|done].
  unfold process_modify. cbn [encodeModify OrderGateway.now_us].
  set (g1 := simulateSend _ _). assert (pending_ok xid g1) as H1 by (apply simulateSend_pending; by destruct g0).
  pose proof (proj2 H0 _ _ Hpo) as (E1 & E2 & E3).
  eapply (pending_ok_insert xid (OrderRequest.order_id o) (po {{ PendingOrder.original_price := OrderRequest.price o;
    PendingOrder.original_quantity := OrderRequest.quantity o;
    PendingOrder.last_update_us := clock (readings_ g0) }})), H1; [by destruct g1..|]. by destruct po.
Qed.

Lemma handle_pending xid ev g : pending_ok xid g → pending_ok xid (handle ev g).
Proof.
  intros Hg. destruct ev as [o|f|a|r|]; cbn [handle].
  - by apply processOrder_pending.
  - by apply injectFill_pending.
  - by apply ack_pending.
  - eapply pending_ok_same, (finish_cancel_pending xid (OrderReject.order_id r)), Hg;
      unfold injectOrderReject; destruct (find_pending _ g); by destruct g.
  - by destruct g.
Qed.

Lemma gw_run_pending xid evs g : pending_ok xid g → pending_ok xid (gw_run evs g).
Proof.
  revert g. induction evs as [|ev evs IH]; intros g Hg; [done|]. by apply IH, handle_pending.
Qed.

(** *** Every order is counted once *)

(** The counters of orders; fills and idle polls are counted elsewhere. *)
Definition tally (g : OrderGateway) : OrderGatewayStats.t :=
  (stats_ g) {{ OrderGatewayStats.fills_received := 0; OrderGatewayStats.fill_errors := 0;
                OrderGatewayStats.queue_empty_polls := 0 }}.

Inductive outcome := Sent | Rejected | Cancelled | Modified | Mismatch.

Definition bump (o : outcome) (s : OrderGatewayStats.t) : OrderGatewayStats.t :=
  match o with
  | Sent => s {{ OrderGatewayStats.orders_sent ::= inc64 }}
  | Rejected => s {{ OrderGatewayStats.orders_rejected ::= inc64 }}
  | Cancelled => s {{ OrderGatewayStats.orders_cancelled ::= inc64 }}
  | Modified => s {{ OrderGatewayStats.orders_modified ::= inc64 }}
  | Mismatch => s {{ OrderGatewayStats.exchange_id_mismatch ::= inc64 }}
  end.

Lemma tally_count out g : tally (count (bump out) g) = bump out (tally g).
Proof. by destruct g as [? ? ? ? ? ? ? ? ? ? [] ? ? ? ?], out. Qed.

Lemma injectFill_tally f g : tally (injectFill f g) = tally g.
Proof.
  unfold OrderGateway.injectFill, deliver_fill, settle_fill. destruct (fill_target _ g) as [[k po]|];
    destruct g as [? ? ? hc ? ? ? ? ? ? [] ? ? ? ?]; [|done].
  cbn [OrderGateway.now_us]. destruct (_ >=? _), hc; done.
Qed.

Lemma ack_tally a g : tally (injectOrderAck a g) = tally g.
Proof.
  unfold injectOrderAck. destruct (find_pending _ g); [|done]. by destruct (_ =? 0), g.
Qed.

Lemma send_cancel_tally s k g : tally (send_cancel s k g) = tally g.
Proof. unfold send_cancel. destruct (String.eqb _ _); [done|]. by destruct g. Qed.

Lemma finish_tally k g : tally match find_pending k g with Some _ => finalizeOrder k g | None => g end = tally g.
Proof. destruct (find_pending k g); [|done]. by destruct g. Qed.

Lemma new_live_tally o t g :
  ∃ out, tally (process_new_live clock http_place o t g) = bump out (tally g).
Proof.
  unfold process_new_live, encodeOrderJson. destruct (String.eqb _ _).
  { exists Rejected. apply (tally_count Rejected). }
  cbn [OrderGateway.now_us].
  match goal with |- context [trackPending o t ?x] => set (g1 := trackPending o t x) end.
  assert (tally g1 = tally g) as <- by by destruct g.
  unfold realSendWithClientId. clearbody g1. destruct (negb _).
  { exists Rejected. apply (tally_count Rejected). }
  destruct (http_place _) as [body|].
  - exists Sent. etrans; [apply (tally_count Sent)|]. f_equal.
    destruct (body ≫= _); [rewrite ack_tally|]; by destruct g1.
  - exists Rejected. etrans; [apply (tally_count Rejected)|]. f_equal.
Qed.

Lemma processOrder_tally o g :
  ∃ out, tally (processOrder o g) = bump out ((tally g) {{ OrderGatewayStats.orders_received ::= inc64 }}).
Proof.
  unfold OrderGateway.processOrder. set (g0 := count _ g).
  assert ((tally g) {{ OrderGatewayStats.orders_received ::= inc64 }} = tally g0) as ->
    by by destruct g as [? ? ? ? ? ? ? ? ? ? [] ? ? ? ?].
  clearbody g0. clear g. destruct (negb _); [exists Mismatch; apply (tally_count Mismatch)|].
  destruct (_ =? 0).
  { exists Cancelled. unfold process_cancel. cbn [OrderGateway.now_us encodeCancel].
    destruct (live _); (etrans; [apply (tally_count Cancelled)|]); f_equal; rewrite finish_tally;
      [rewrite send_cancel_tally|]; by destruct g0. }
  assert (∃ out, tally (let '(send_time, g) := now_us g0 in
    if live g then process_new_live clock http_place o send_time g
    else process_new_simulated clock o send_time g) = bump out (tally g0)) as Hnew.
  { cbn [OrderGateway.now_us]. set (g1 := g0 {{ readings_ ::= S }}).
    assert (tally g0 = tally g1) as -> by by destruct g0.
    destruct (live g1); [apply new_live_tally|]. exists Sent. unfold process_new_simulated. cbn [encodeOrder].
    etrans; [apply (tally_count Sent)|]. f_equal.
    destruct (_ && _); [rewrite injectFill_tally|]; by destruct g1. }
  destruct (find_pending _ g0) as [po|]; [|done]. destruct (modifiable po); [|done].
  exists Modified. unfold process_modify. cbn [encodeModify OrderGateway.now_us].
  etrans; [apply (tally_count Modified)|]. f_equal.
Qed.

Definition is_process (ev : event) : bool := match ev with Process _ => true | _ => false end.
Definition is_reject (ev : event) : bool := match ev with InjectReject _ => true | _ => false end.

Definition counted (p : event → bool) (evs : list event) : Z := sumZ (Z.b2z ∘ p <$> evs).

Record balanced (evs : list event) (s : OrderGatewayStats.t) : Prop := {
  bal_received : OrderGatewayStats.orders_received s = counted is_process evs;
  bal_outcomes : OrderGatewayStats.orders_received s + counted is_reject evs =
    OrderGatewayStats.exchange_id_mismatch s + OrderGatewayStats.orders_cancelled s +
    OrderGatewayStats.orders_modified s + OrderGatewayStats.orders_sent s +
    OrderGatewayStats.orders_rejected s;
  bal_nonneg : 0 <= OrderGatewayStats.exchange_id_mismatch s ∧ 0 <= OrderGatewayStats.orders_cancelled s ∧
    0 <= OrderGatewayStats.orders_modified s ∧ 0 <= OrderGatewayStats.orders_sent s ∧
    0 <= OrderGatewayStats.orders_rejected s;
}.

Lemma counted_snoc p evs ev : counted p (evs ++ [ev]) = counted p evs + Z.b2z (p ev).
Proof. unfold counted. rewrite fmap_app, sumZ_app. cbn. lia. Qed.

Lemma counted_nonneg p evs : 0 <= counted p evs.
Proof.
  induction evs as [|ev evs IH] using rev_ind; [done|]. rewrite counted_snoc. destruct (p ev); cbn; lia.
Qed.

Lemma counted_le evs : counted is_process evs + counted is_reject evs <= Z.of_nat (length evs).
Proof.
  induction evs as [|ev evs IH] using rev_ind; [done|]. rewrite !counted_snoc, length_app. cbn [length].
  destruct ev; cbn; lia.
Qed.

Lemma bump_balanced out evs s :
  Z.of_nat (length evs) < 2 ^ 64 - 1 → balanced evs s →
  (∀ o, balanced (evs ++ [Process o]) (bump out (s {{ OrderGatewayStats.orders_received ::= inc64 }}))) ∧
  ∀ r, balanced (evs ++ [InjectReject r]) (bump Rejected s).
Proof.
  intros Hn [H1 H2 H3]. pose proof (counted_le evs) as Hle.
  pose proof (counted_nonneg is_process evs). pose proof (counted_nonneg is_reject evs).
  destruct s; cbn in *. split; intros x; split; rewrite ?counted_snoc; destruct out; cbn; unfold constant;
    rewrite ?inc64_id by lia; lia.
Qed.

Lemma gw_run_balanced evs g :
  balanced [] (tally g) → Z.of_nat (length evs) < 2 ^ 64 → balanced evs (tally (gw_run evs g)).
Proof.
  intros H0. induction evs as [|ev evs IH] using rev_ind; intros Hn; [done|].
  rewrite length_app in Hn. cbn [length] in Hn. unfold gw_run. rewrite fold_left_app. cbn [fold_left].
  fold (gw_run evs g). destruct (bump_balanced Sent evs _ ltac:(lia) (IH ltac:(lia))) as [_ Hrej].
  destruct ev as [o|f|a|r|]; cbn [handle].
  - destruct (processOrder_tally o (gw_run evs g)) as [out ->].
    by apply (bump_balanced out evs _ ltac:(lia) (IH ltac:(lia))).
  - rewrite injectFill_tally. specialize (IH ltac:(lia)). destruct IH as [I1 I2 I3].
    split; rewrite ?counted_snoc; cbn [is_process is_reject Z.b2z]; lia.
  - rewrite ack_tally. specialize (IH ltac:(lia)). destruct IH as [I1 I2 I3].
    split; rewrite ?counted_snoc; cbn [is_process is_reject Z.b2z]; lia.
  - unfold injectOrderReject. rewrite (tally_count Rejected), finish_tally. apply Hrej.
  - assert (tally (drain clock http_place [] (gw_run evs g)) = tally (gw_run evs g)) as ->
      by by destruct (gw_run evs g) as [? ? ? ? ? ? ? ? ? ? [] ? ? ? ?].
    specialize (IH ltac:(lia)). destruct IH as [I1 I2 I3]. split; rewrite ?counted_snoc; cbn [is_process is_reject Z.b2z]; lia.
Qed.

(** *** The life of one order *)

Definition enrich (po : PendingOrder.t) (f : Fill.t) : Fill.t :=
  f {{ Fill.strategy_id := PendingOrder.strategy_id po; Fill.symbol_id := PendingOrder.symbol_id po }}.

(** How many of the fills an order with [rest] left to fill takes. *)
Fixpoint fills_used (rest : Z) (fills : list Fill.t) : nat :=
  match fills with
  | [] => 0
  | f :: fills' =>
      if Fill.fill_quantity f >=? rest then 1
      else S (fills_used (rest - Fill.fill_quantity f) fills')
  end.

Definition inject_all (fills : list Fill.t) (g : OrderGateway) : OrderGateway :=
  fold_left (λ g f, injectFill f g) fills g.

(** An id nobody knows. *)
Definition unknown (k : Z) (g : OrderGateway) : Prop :=
  find_pending k g = None ∧ exchange_to_local_ g !! k = None.

Lemma inject_unknown k fills g :
  unknown k g → Forall (λ f, Fill.order_id f = k) fills →
  let g' := inject_all fills g in
  unknown k g' ∧ fills_out_ g' = fills_out_ g ∧
  OrderGatewayStats.fill_errors (stats_ g') =
    Nat.iter (length fills) inc64 (OrderGatewayStats.fill_errors (stats_ g)).
Proof.
  revert g. induction fills as [|f fills IH]; intros g [H1 H2] Hf; [done|].
  apply Forall_cons in Hf as [Hk Hf]. cbv zeta.
  change (inject_all (f :: fills) g) with (inject_all fills (injectFill f g)).
  assert (injectFill f g = count (λ s, s {{ OrderGatewayStats.fill_errors ::= inc64 }}) g) as ->.
  { unfold OrderGateway.injectFill, fill_target. by rewrite Hk, H1, H2. }
  destruct (IH (count (λ s, s {{ OrderGatewayStats.fill_errors ::= inc64 }}) g)) as (H3 & H4 & H5); [by destruct g|done|].
  split_and!; [done|rewrite H4; by destruct g|].
  etrans; [exact H5|]. cbn [length]. rewrite Nat.iter_succ_r. by destruct g as [? ? ? ? ? ? ? ? ? ? [] ? ? ? ?].
Qed.

Lemma inject_known {HF : FpmLaws F} k po f g :
  find_pending k g = Some po → Fill.order_id f = k → has_callback g = true →
  is_dec (PendingOrder.filled_quantity po) → is_dec (Fill.fill_quantity f) →
  is_dec (PendingOrder.filled_quantity po + Fill.fill_quantity f) →
  let g' := injectFill f g in
  let filled := PendingOrder.filled_quantity po + Fill.fill_quantity f in
  fills_out_ g' = fills_out_ g ++ [enrich po f] ∧ has_callback g' = true ∧
  exchange_to_local_ g' = exchange_to_local_ g ∧
  OrderGatewayStats.fill_errors (stats_ g') = OrderGatewayStats.fill_errors (stats_ g) ∧
  find_pending k g' = (if filled >=? PendingOrder.original_quantity po then None
                       else Some (partially_filled filled (clock (readings_ g)) po)).
Proof.
  intros Hk Hf Hc H1 H2 H3. cbv zeta. unfold OrderGateway.injectFill, fill_target.
  rewrite Hf, Hk, fpm_add_spec by done. cbn [OrderGateway.now_us].
  unfold settle_fill, find_pending in *.
  destruct g as [? ? ? ? ? ? ? ? ? ? [] ? ? ? ?]; cbn in Hk, Hc; subst has_callback0.
  destruct (_ >=? _); cbn; split_and!; try done; [by rewrite lookup_delete_eq|by rewrite lookup_insert_eq].
Qed.

Lemma inject_lifecycle {HF : FpmLaws F} k po fills g :
  find_pending k g = Some po → exchange_to_local_ g !! k = None → has_callback g = true →
  0 <= PendingOrder.filled_quantity po < PendingOrder.original_quantity po →
  Forall (λ f, Fill.order_id f = k ∧ 0 < Fill.fill_quantity f) fills →
  PendingOrder.filled_quantity po + sumZ (Fill.fill_quantity <$> fills) < 2 ^ 63 →
  let g' := inject_all fills g in
  let rest := PendingOrder.original_quantity po - PendingOrder.filled_quantity po in
  let used := fills_used rest fills in
  fills_out_ g' = fills_out_ g ++ (enrich po <$> take used fills) ∧
  (find_pending k g' = None ↔ rest <= sumZ (Fill.fill_quantity <$> fills)) ∧
  OrderGatewayStats.fill_errors (stats_ g') =
    Nat.iter (length fills - used) inc64 (OrderGatewayStats.fill_errors (stats_ g)).
Proof.
  revert po g. induction fills as [|f fills IH]; intros po g Hk Hx Hc Hq Hf Hs; cbv zeta.
  - cbn. rewrite app_nil_r, Hk. split_and!; try done. split; [done|lia].
  - apply Forall_cons in Hf as [[Hfk Hfq] Hf]. cbn [fmap list_fmap] in Hs. rewrite sumZ_cons in Hs.
    assert (0 <= sumZ (Fill.fill_quantity <$> fills)) as Hnn.
    { apply sumZ_nonneg, Forall_fmap. eapply Forall_impl; [exact Hf|]. cbn. intros ? [_ ?]. lia. }
    destruct (inject_known k po f g Hk Hfk Hc) as (G1 & G2 & G3 & G4 & G5); [unfold is_dec, inS; lia..|].
    change (inject_all (f :: fills) g) with (inject_all fills (injectFill f g)).
    cbn [fills_used fmap list_fmap length]. rewrite sumZ_cons.
    rewrite Z.geb_leb in *. destruct (Z.leb_spec (PendingOrder.original_quantity po)
      (PendingOrder.filled_quantity po + Fill.fill_quantity f)) as [Hle|Hlt].
    + rewrite (proj2 (Z.leb_le _ _)) by lia. cbn [Nat.sub take fmap list_fmap].
      destruct (inject_unknown k fills (injectFill f g)) as ([U1 U2] & U3 & U4).
      { split; [done|by rewrite G3]. }
      { eapply Forall_impl; [exact Hf|]. by intros ? [? _]. }
      rewrite U3, U4, G1, G4, Nat.sub_0_r. cbn [take fmap list_fmap].
      split_and!; [done| |done]. split; [intros; lia|done].
    + rewrite (proj2 (Z.leb_gt _ _)) by lia. cbn [Nat.sub take fmap list_fmap].
      destruct (IH _ (injectFill f g) G5) as (U1 & U2 & U3); cbn; unfold constant; try done; try lia.
      * by rewrite G3.
      * destruct po; cbn in *; lia.
      * rewrite U3, G4, U1, G1, <-app_assoc.
        destruct po; cbn in *. unfold constant in *.
        replace (original_quantity - (filled_quantity + Fill.fill_quantity f)) with
          (original_quantity - filled_quantity - Fill.fill_quantity f) in * by lia.
        split_and!; [done| |done]. rewrite U2. lia.
Qed.

(** *** Simulated execution *)

Definition simulating (xid : Z) (g : OrderGateway) : Prop :=
  simulate_fills_ g = true ∧ has_callback g = true ∧ exchange_id_ g = xid.

Lemma simulated_order {HF : FpmLaws F} xid o g :
  simulating xid g → OrderRequest.exchange_id o = xid → OrderRequest.quantity o ≠ 0 →
  is_dec (OrderRequest.quantity o) → pending_orders_ g !! OrderRequest.order_id o = None →
  let g' := processOrder o g in
  simulating xid g' ∧ pending_orders_ g' = pending_orders_ g ∧
  fills_out_ g' = fills_out_ g ++ [simulated_fill o (clock (readings_ g))].
Proof.
  intros (H1 & H2 & H3) Hx Hq Hd Hp. cbv zeta. unfold OrderGateway.processOrder, find_pending.
  destruct g as [cf xi xn hc sf hh ru pe el cl st av re rq fo]; cbn in H1, H2, H3, Hp.
  subst sf hc xi. cbn -[process_new_simulated process_modify modifiable]. rewrite Hx, Z.eqb_refl. cbn [negb].
  rewrite (proj2 (Z.eqb_neq _ _)) by done. rewrite Hp. cbn [live simulate_fills_ negb andb].
  unfold process_new_simulated. cbn [encodeOrder]. unfold OrderGateway.injectFill, fill_target, find_pending.
  cbn. rewrite lookup_insert_eq. cbn. unfold settle_fill. cbn.
  rewrite fpm_add_spec, Z.add_0_l by (rewrite ?Z.add_0_l; first [done|unfold is_dec, inS; lia]).
  rewrite Z.geb_leb, Z.leb_refl. cbn.
  split_and!; [done|by rewrite delete_insert_eq, delete_id|]. unfold constant. by rewrite Hx.
Qed.

Lemma simulated_orders {HF : FpmLaws F} xid orders g :
  simulating xid g → pending_orders_ g = ∅ →
  Forall (λ o, OrderRequest.exchange_id o = xid ∧ OrderRequest.quantity o ≠ 0 ∧
               is_dec (OrderRequest.quantity o)) orders →
  let g' := fold_left (λ g o, processOrder o g) orders g in
  pending_orders_ g' = ∅ ∧
  ∃ fills, fills_out_ g' = fills_out_ g ++ fills ∧ Forall2 (λ f o, ∃ t, f = simulated_fill o t) fills orders.
Proof.
  revert g. induction orders as [|o orders IH]; intros g Hg Hp Ho; cbv zeta.
  - split; [done|]. exists []. by rewrite app_nil_r.
  - apply Forall_cons in Ho as [(Hx & Hq & Hd) Ho]. cbn [fold_left].
    destruct (simulated_order xid o g Hg Hx Hq Hd) as (G1 & G2 & G3); [by rewrite Hp|].
    destruct (IH (processOrder o g) G1) as (G4 & fills & G5 & G6); [congruence|done|].
    split; [done|]. exists (simulated_fill o (clock (readings_ g)) :: fills).
    rewrite G5, G3, <-app_assoc. split; [done|]. constructor; [by eexists|done].
Qed.

(** *** Shutdown *)

Lemma send_cancel_spec sym id g :
  let g' := send_cancel sym id g in
  pending_orders_ g' = pending_orders_ g ∧ live g' = live g ∧ config_ g' = config_ g ∧ stats_ g' = stats_ g ∧
  requests_ g' = requests_ g ++
    (if String.eqb (symbolIdToName sym g) EmptyString then [] else [CancelAt (symbolIdToName sym g) id]).
Proof.
  cbv zeta. unfold send_cancel. destruct (String.eqb _ _); [by rewrite app_nil_r|]. by destruct g.
Qed.

Lemma erase_spec id g po :
  find_pending id g = Some po →
  let g' := count (λ s, s {{ OrderGatewayStats.orders_cancelled ::= inc64 }})
              match find_pending id g with Some _ => finalizeOrder id g | None => g end in
  pending_orders_ g' = delete id (pending_orders_ g) ∧ live g' = live g ∧ config_ g' = config_ g ∧
  requests_ g' = requests_ g ∧
  OrderGatewayStats.orders_cancelled (stats_ g') = inc64 (OrderGatewayStats.orders_cancelled (stats_ g)).
Proof. intros Hk. cbv zeta. rewrite Hk. by destruct g as [? ? ? ? ? ? ? ? ? ? [] ? ? ? ?]. Qed.

Lemma cancel_one_spec id g po :
  find_pending id g = Some po →
  let g' := cancel_pending_one g id in
  pending_orders_ g' = delete id (pending_orders_ g) ∧ live g' = live g ∧ config_ g' = config_ g ∧
  requests_ g' = requests_ g ++
    (if live g && negb (String.eqb (symbolIdToName (PendingOrder.symbol_id po) g) EmptyString)
     then [CancelAt (symbolIdToName (PendingOrder.symbol_id po) g) id] else []) ∧
  OrderGatewayStats.orders_cancelled (stats_ g') = inc64 (OrderGatewayStats.orders_cancelled (stats_ g)).
Proof.
  intros Hk. cbv zeta. unfold cancel_pending_one. destruct (live g) eqn:Hl.
  - rewrite Hk. destruct (send_cancel_spec (PendingOrder.symbol_id po) id g) as (S1 & S2 & S3 & S4 & S5).
    destruct (erase_spec id (send_cancel (PendingOrder.symbol_id po) id g) po) as (E1 & E2 & E3 & E4 & E5).
    { unfold find_pending in *. by rewrite S1. }
    rewrite E1, E2, E3, E4, E5, S1, S2, S3, S4, S5, Hl. split_and!; try done.
    by destruct (String.eqb _ _).
  - destruct (erase_spec id g po Hk) as (E1 & E2 & E3 & E4 & E5).
    rewrite E1, E2, E3, E4, E5, app_nil_r, Hl. by split_and!.
Qed.

(** The cancellations a live gateway sends for the pending orders [ids]. *)
Definition shutdown_requests (g : OrderGateway) (ids : list Z) : list request :=
  if live g then
    ids ≫= λ id, match find_pending id g with
      | Some po => let sym := symbolIdToName (PendingOrder.symbol_id po) g in
                   if String.eqb sym EmptyString then [] else [CancelAt sym id]
      | None => []
      end
  else [].

Lemma cancelAll_spec ids g :
  NoDup ids → (∀ id, id ∈ ids ↔ is_Some (pending_orders_ g !! id)) →
  let g' := cancelAllPending ids g in
  pending_orders_ g' = ∅ ∧ requests_ g' = requests_ g ++ shutdown_requests g ids ∧
  OrderGatewayStats.orders_cancelled (stats_ g') =
    Nat.iter (length ids) inc64 (OrderGatewayStats.orders_cancelled (stats_ g)).
Proof.
  revert g. induction ids as [|id ids IH]; intros g Hnd Hids; cbv zeta.
  - cbn. unfold shutdown_requests. split_and!; [|by destruct (live g); rewrite app_nil_r|done].
    apply map_eq. intros i. rewrite lookup_empty. apply eq_None_not_Some. intros Hi%Hids. set_solver.
  - apply NoDup_cons in Hnd as [Hni Hnd].
    destruct (proj1 (Hids id) ltac:(set_solver)) as [po Hpo].
    destruct (cancel_one_spec id g po Hpo) as (H1 & H2 & H3 & H4 & H5).
    change (cancelAllPending (id :: ids) g) with (cancelAllPending ids (cancel_pending_one g id)).
    destruct (IH (cancel_pending_one g id) Hnd) as (G1 & G2 & G3).
    { intros j. rewrite H1, lookup_delete_is_Some, <-Hids. set_solver. }
    split_and!; [done| |rewrite G3, H5; symmetry; apply Nat.iter_succ_r].
    rewrite G2, H4, <-app_assoc. f_equal. unfold shutdown_requests. rewrite H2.
    destruct (live g); [|done]. cbn [andb mbind list_bind]. unfold find_pending at 2. rewrite Hpo. cbv zeta.
    f_equal; [by destruct (String.eqb _ _)|].
    clear -Hni H1 H3. induction ids as [|j ids IH]; [done|]. apply not_elem_of_cons in Hni as [Hj Hni].
    cbn [mbind list_bind]. rewrite IH by done. f_equal. unfold find_pending, symbolIdToName.
    by rewrite H1, lookup_delete_ne, H3.
Qed.
End proofs.

(** ** Properties *)

Section properties.
Context {F : FpmOps} {J : JsonOps}.
Context (clock : nat → Z) (http_place : nat → option (option json)).

(** C14: whatever orders, fills, acknowledgements and rejections arrive, every pending
    order is stored under its own id, belongs to this gateway's exchange and is still
    open ([PENDING], [ACCEPTED] or [PARTIALLY_FILLED]): a filled, cancelled or
    rejected order is never kept, so a request with its id starts a new order. *)
Theorem pending_orders_open config hc xid sim http evs :
  let g := gw_run clock http_place evs (setHttpClient http (OrderGateway_init config hc xid sim)) in
  map_Forall (open_order xid) (pending_orders_ g) ∧ exchange_id_ g = xid.
Proof.
  cbv zeta. destruct (gw_run_pending clock http_place xid evs
    (setHttpClient http (OrderGateway_init config hc xid sim))) as [H1 H2]; [|done].
  split; [done|apply map_Forall_empty].
Qed.

(** Every request taken from the queue is counted in exactly one of the five
    outcomes: for another exchange, cancelled, modified, sent or rejected (rejections
    reported by the exchange add to the last). *)
Lemma gateway_orders_accounted config hc xid sim http evs :
  Z.of_nat (length evs) < 2 ^ 64 →
  let s := getStats (gw_run clock http_place evs (setHttpClient http (OrderGateway_init config hc xid sim))) in
  OrderGatewayStats.orders_received s = counted is_process evs ∧
  OrderGatewayStats.orders_received s + counted is_reject evs =
    OrderGatewayStats.exchange_id_mismatch s + OrderGatewayStats.orders_cancelled s +
    OrderGatewayStats.orders_modified s + OrderGatewayStats.orders_sent s +
    OrderGatewayStats.orders_rejected s.
Proof.
  intros Hn. cbv zeta. destruct (gw_run_balanced clock http_place evs
    (setHttpClient http (OrderGateway_init config hc xid sim))) as [H1 H2 _]; [by split|done|].
  destruct (gw_run _ _ _ _) as [? ? ? ? ? ? ? ? ? ? [] ? ? ? ?]. by split.
Qed.

(** C13: the life of an order: its fills reach the strategy that placed it, stamped
    with that strategy and symbol, up to and including the one that completes it;
    the order stops being pending exactly when the filled total reaches its
    quantity, and the fills that come later are counted as errors and dropped. *)
Theorem fill_lifecycle {HF : FpmLaws F} k po fills g :
  find_pending k g = Some po → exchange_to_local_ g !! k = None → has_callback g = true →
  0 <= PendingOrder.filled_quantity po < PendingOrder.original_quantity po →
  Forall (λ f, Fill.order_id f = k ∧ 0 < Fill.fill_quantity f) fills →
  PendingOrder.filled_quantity po + sumZ (Fill.fill_quantity <$> fills) < 2 ^ 63 →
  let g' := fold_left (λ g f, injectFill clock f g) fills g in
  let rest := PendingOrder.original_quantity po - PendingOrder.filled_quantity po in
  let used := fills_used rest fills in
  fills_out_ g' = fills_out_ g ++ (enrich po <$> take used fills) ∧
  (find_pending k g' = None ↔ rest <= sumZ (Fill.fill_quantity <$> fills)) ∧
  OrderGatewayStats.fill_errors (getStats g') =
    Nat.iter (length fills - used) inc64 (OrderGatewayStats.fill_errors (getStats g)).
Proof.
  intros. cbv zeta. destruct (inject_lifecycle clock k po fills g) as (H1' & H2' & H3'); try done.
Qed.

(** C31: shutdown terminates with no order pending, whatever the order in which they
    are visited: each one is counted as cancelled, and against a real exchange one
    cancellation is sent for each one whose symbol has a name. *)
Theorem shutdown_cancels_all ids g :
  ids ≡ₚ (map_to_list (pending_orders_ g)).*1 →
  let g' := cancelAllPending ids g in
  pendingCount g' = 0%nat ∧ requests_ g' = requests_ g ++ shutdown_requests g ids ∧
  OrderGatewayStats.orders_cancelled (getStats g') =
    Nat.iter (pendingCount g) inc64 (OrderGatewayStats.orders_cancelled (getStats g)).
Proof.
  intros Hids. cbv zeta.
  destruct (cancelAll_spec ids g) as (H1 & H2 & H3).
  { rewrite Hids. apply NoDup_fst_map_to_list. }
  { intros id. rewrite Hids, list_elem_of_fmap. split.
    - intros ([k po] & -> & Hin%elem_of_map_to_list). by exists po.
    - intros [po Hpo]. exists (id, po). by rewrite elem_of_map_to_list. }
  split_and!; [unfold pendingCount; by rewrite H1|done|].
  assert (pendingCount g = length ids) as ->
    by (unfold pendingCount; by rewrite Hids, length_fmap, length_map_to_list).
  etrans; [|etrans; [exact H3|]]; [by destruct (cancelAllPending ids g) as [? ? ? ? ? ? ? ? ? ? [] ? ? ? ?]|].
  by destruct g as [? ? ? ? ? ? ? ? ? ? [] ? ? ? ?].
Qed.

(** A cancellation a strategy queues never reaches the exchange: [cancelOrder]
    leaves the exchange id 0, and a gateway for any other exchange only counts the
    request as meant for someone else; the order stays pending. *)
Lemma engine_cancels_dropped order_id timestamp_us g :
  exchange_id_ g ≠ 0 →
  let g' := processOrder clock http_place (StrategyEngine.cancel_request order_id timestamp_us) g in
  pending_orders_ g' = pending_orders_ g ∧ requests_ g' = requests_ g ∧
  OrderGatewayStats.orders_cancelled (stats_ g') = OrderGatewayStats.orders_cancelled (stats_ g) ∧
  OrderGatewayStats.exchange_id_mismatch (stats_ g') =
    inc64 (OrderGatewayStats.exchange_id_mismatch (stats_ g)).
Proof.
  intros Hx. cbv zeta. unfold processOrder.
  destruct g as [cf xi xn hc sf hh ru pe el cl [] av re rq fo]; cbn in Hx.
  cbn -[Z.eqb process_cancel]. destruct (Z.eqb_spec 0 xi); [congruence|]. done.
Qed.

(** An order whose REST call failed is counted as rejected, yet it stays pending
    (the exchange may still fill it): only a fill, a rejection, a cancellation or the
    shutdown removes it. *)
Lemma failed_send_stays_pending o g :
  live g = true → OrderRequest.exchange_id o = exchange_id_ g → OrderRequest.quantity o ≠ 0 →
  find_pending (OrderRequest.order_id o) g = None →
  symbolIdToName (OrderRequest.symbol_id o) g ≠ EmptyString →
  http_place (length (requests_ g)) = None →
  let g' := processOrder clock http_place o g in
  OrderGatewayStats.orders_rejected (stats_ g') = inc64 (OrderGatewayStats.orders_rejected (stats_ g)) ∧
  PendingOrder.status <$> find_pending (OrderRequest.order_id o) g' = Some OrderStatus.PENDING.
Proof.
  intros Hl Hx Hq Hp Hs Hh. cbv zeta. unfold processOrder. set (g0 := count _ g).
  assert (live g0 = true ∧ exchange_id_ g0 = exchange_id_ g ∧ pending_orders_ g0 = pending_orders_ g ∧
    config_ g0 = config_ g ∧ requests_ g0 = requests_ g ∧ has_http_client g0 = true ∧
    OrderGatewayStats.orders_rejected (stats_ g0) = OrderGatewayStats.orders_rejected (stats_ g))
    as (L0 & X0 & P0 & C0 & R0 & H0 & J0).
  { unfold live in *. subst g0. destruct g as [? ? ? ? ? ? ? ? ? ? [] ? ? ? ?]. cbn in *.
    by apply andb_prop in Hl as [-> ->]. }
  rewrite X0, Hx, Z.eqb_refl. cbn [negb]. rewrite (proj2 (Z.eqb_neq _ _)) by done.
  unfold find_pending in *. rewrite P0, Hp. cbn [now_us].
  assert (live (g0 {{ readings_ ::= S }}) = true) as -> by by destruct g0.
  unfold process_new_live, encodeOrderJson.
  assert (symbolIdToName (OrderRequest.symbol_id o) (g0 {{ readings_ ::= S }}) =
    symbolIdToName (OrderRequest.symbol_id o) g) as -> by (unfold symbolIdToName; rewrite <-C0; by destruct g0).
  rewrite (proj2 (String.eqb_neq _ _)) by done. cbn [now_us]. unfold realSendWithClientId.
  rewrite <-R0 in Hh. destruct g0 as [? ? ? ? ? ? ? ? ? ? [] ? ? ? ?]; cbn in *. subst.
  cbn. rewrite Hh. cbn. by rewrite lookup_insert_eq.
Qed.
End properties.

(** *** Witnesses *)

Definition sample_config : Config.ExchangeConfig :=
  Config.ExchangeConfig_default {{ Config.ex_name := "binance"%string; Config.symbols := ["BTCUSDT"%string] }}.

Definition sample_order (id : Z) : OrderRequest.t :=
  OrderRequest.mk id 5 (100 * ONE) (2 * ONE) 0 0 1 7 3 OrderSide.BUY OrderType.LIMIT TimeInForce.GTC 0.

Definition sample_clock (n : nat) : Z := 1000 + 10 * Z.of_nat n.

(** A gateway against a real exchange, with one order sent and pending. *)
Definition sample_gateway : OrderGateway :=
  processOrder (F := FpmRef) (J := JsonRef) sample_clock (λ _, Some None) (sample_order 41)
    (setHttpClient true (OrderGateway_init sample_config true 7 false)).

Definition part_fill (qty : Z) : Fill.t := Fill.default {{ Fill.order_id := 41; Fill.fill_quantity := qty }}.

Lemma gateway_orders_accounted_witness :
  OrderGatewayStats.orders_received (getStats (gw_run (F := FpmRef) (J := JsonRef) sample_clock (λ _, None)
    [Process (sample_order 1); IdlePoll; Process (sample_order 2)]
    (setHttpClient false (OrderGateway_init sample_config true 7 true)))) = 2.
Proof.
  apply (gateway_orders_accounted (F := FpmRef) (J := JsonRef) sample_clock (λ _, None) sample_config true 7 true false
    [Process (sample_order 1); IdlePoll; Process (sample_order 2)]). reflexivity.
Defined.

Lemma sample_pending : ∃ po, find_pending 41 sample_gateway = Some po ∧
  PendingOrder.filled_quantity po = 0 ∧ PendingOrder.original_quantity po = 2 * ONE.
Proof. eexists. split; [vm_compute; reflexivity|done]. Qed.

Lemma fill_lifecycle_witness :
  fills_used (2 * ONE) [part_fill ONE; part_fill ONE; part_fill 5] = 2%nat ∧
  find_pending 41 (fold_left (λ g f, injectFill (F := FpmRef) sample_clock f g)
    [part_fill ONE; part_fill ONE; part_fill 5] sample_gateway) = None.
Proof.
  split; [reflexivity|]. destruct sample_pending as (po & Hpo & Hf & Hq).
  refine (proj2 (proj1 (proj2 (fill_lifecycle (F := FpmRef) sample_clock 41 po
    [part_fill ONE; part_fill ONE; part_fill 5] sample_gateway Hpo _ _ _ _ _))) _).
  - reflexivity.
  - reflexivity.
  - rewrite Hf, Hq. unfold ONE. lia.
  - repeat constructor.
  - rewrite Hf. reflexivity.
  - rewrite Hf, Hq. vm_compute. discriminate.
Defined.

Lemma shutdown_cancels_all_witness :
  pendingCount (cancelAllPending [41] sample_gateway) = 0%nat.
Proof. apply (shutdown_cancels_all [41] sample_gateway). vm_compute. reflexivity. Defined.

Lemma engine_cancels_dropped_witness :
  pending_orders_ (processOrder (F := FpmRef) (J := JsonRef) sample_clock (λ _, None)
    (StrategyEngine.cancel_request 41 9) sample_gateway) = pending_orders_ sample_gateway.
Proof.
  apply (engine_cancels_dropped (F := FpmRef) (J := JsonRef) sample_clock (λ _, None) 41 9 sample_gateway).
  vm_compute. discriminate.
Defined.

Lemma failed_send_stays_pending_witness :
  PendingOrder.status <$> find_pending 42 (processOrder (F := FpmRef) (J := JsonRef) sample_clock (λ _, None)
    (sample_order 42) sample_gateway) = Some OrderStatus.PENDING.
Proof.
  apply (failed_send_stays_pending (F := FpmRef) (J := JsonRef) sample_clock (λ _, None) (sample_order 42)
    sample_gateway); try reflexivity; vm_compute; discriminate.
Defined.
