(* ===== verification/ExecutionHandler.v ===== *)
(** [ExecutionHandler] (include/chronos/execution/execution_handler.hpp,
    src/execution/execution_handler.cpp): fills go to the positions and to the
    notifier, acknowledgements and rejections to theirs. The notifiers are foreign
    callbacks; what each one is called with is appended to a list. Then the
    composition with the gateway: what a simulated exchange does to the positions. *)
From S2P Require Import Prelude FixedPoint Types Json PositionManager.
From S2P Require OrderGateway.

Module ExecutionHandlerStats.
Record t := mk {
  fills_processed : Z;
  acks_processed : Z;
  rejects_processed : Z;
  avg_latency_ns : Z;
}.
Definition init : t := mk 0 0 0 0.
End ExecutionHandlerStats.

Record ExecutionHandler := mkHandler {
  pm_ : option PositionManager;     (* [nullptr] or the positions it updates *)
  fill_notifier_ : bool;            (* set or empty *)
  ack_notifier_ : bool;
  reject_notifier_ : bool;
  stats_ : ExecutionHandlerStats.t;
  avg_latency_ns_ : Z;
  fills_notified : list Fill.t;
  acks_notified : list OrderAck.t;
  rejects_notified : list OrderReject.t;
}.

Definition ExecutionHandler_init (pm : option PositionManager) (fill ack reject : bool) : ExecutionHandler :=
  mkHandler pm fill ack reject ExecutionHandlerStats.init 0 [] [] [].

Section handler.
Context {F : FpmOps} {IO : IterOrder}.

(** [t0] and [t1] are the two readings of the steady clock. *)
Definition onFill (t0 t1 : Z) (fill : Fill.t) (h : ExecutionHandler) : ExecutionHandler :=
  let h := h {{ pm_ ::= fmap (λ pm, (updatePosition fill pm).2) }} in
  let h := if fill_notifier_ h then h {{ fills_notified ::= λ l, l ++ [fill] }} else h in
  let elapsed := u64 (t1 - t0) in
  let new_avg := ema_u64 (avg_latency_ns_ h) elapsed in
  h {{ avg_latency_ns_ := new_avg;
       stats_ ::= λ s, s {{ ExecutionHandlerStats.fills_processed ::= inc64;
                            ExecutionHandlerStats.avg_latency_ns := new_avg }} }}.

Definition onOrderAck (ack : OrderAck.t) (h : ExecutionHandler) : ExecutionHandler :=
  let h := if ack_notifier_ h then h {{ acks_notified ::= λ l, l ++ [ack] }} else h in
  h {{ stats_ ::= λ s, s {{ ExecutionHandlerStats.acks_processed ::= inc64 }} }}.

Definition onOrderReject (reject : OrderReject.t) (h : ExecutionHandler) : ExecutionHandler :=
  let h := if reject_notifier_ h then h {{ rejects_notified ::= λ l, l ++ [reject] }} else h in
  h {{ stats_ ::= λ s, s {{ ExecutionHandlerStats.rejects_processed ::= inc64 }} }}.

Definition getStats (h : ExecutionHandler) : ExecutionHandlerStats.t :=
  (stats_ h) {{ ExecutionHandlerStats.avg_latency_ns := avg_latency_ns_ h }}.

Definition resetStats (h : ExecutionHandler) : ExecutionHandler :=
  h {{ stats_ := ExecutionHandlerStats.init; avg_latency_ns_ := 0 }}.

(** ** Runs *)

Inductive report :=
| FillReport (t0 t1 : Z) (fill : Fill.t)
| AckReport (ack : OrderAck.t)
| RejectReport (reject : OrderReject.t).

Definition on_report (h : ExecutionHandler) (r : report) : ExecutionHandler :=
  match r with
  | FillReport t0 t1 fill => onFill t0 t1 fill h
  | AckReport ack => onOrderAck ack h
  | RejectReport reject => onOrderReject reject h
  end.

Definition fills_of (rs : list report) : list Fill.t :=
  omap (λ r, match r with FillReport _ _ f => Some f | _ => None end) rs.
Definition acks_of (rs : list report) : list OrderAck.t :=
  omap (λ r, match r with AckReport a => Some a | _ => None end) rs.
Definition rejects_of (rs : list report) : list OrderReject.t :=
  omap (λ r, match r with RejectReport a => Some a | _ => None end) rs.

Definition handle_all (rs : list report) (h : ExecutionHandler) : ExecutionHandler := fold_left on_report rs h.

(** The state after the reports [rs], apart from the latency filter. *)
Record handled (h : ExecutionHandler) (rs : list report) (h' : ExecutionHandler) : Prop := {
  handled_pm : pm_ h' = (λ pm, fold_left (λ pm f, (updatePosition f pm).2) (fills_of rs) pm) <$> pm_ h;
  handled_fills : fills_notified h' = fills_notified h ++ if fill_notifier_ h then fills_of rs else [];
  handled_acks : acks_notified h' = acks_notified h ++ if ack_notifier_ h then acks_of rs else [];
  handled_rejects : rejects_notified h' = rejects_notified h ++ if reject_notifier_ h then rejects_of rs else [];
  handled_flags : (fill_notifier_ h', ack_notifier_ h', reject_notifier_ h') =
                  (fill_notifier_ h, ack_notifier_ h, reject_notifier_ h);
  handled_counts : ExecutionHandlerStats.fills_processed (stats_ h') =
      Nat.iter (length (fills_of rs)) inc64 (ExecutionHandlerStats.fills_processed (stats_ h)) ∧
    ExecutionHandlerStats.acks_processed (stats_ h') =
      Nat.iter (length (acks_of rs)) inc64 (ExecutionHandlerStats.acks_processed (stats_ h)) ∧
    ExecutionHandlerStats.rejects_processed (stats_ h') =
      Nat.iter (length (rejects_of rs)) inc64 (ExecutionHandlerStats.rejects_processed (stats_ h));
}.

Lemma handled_nil h : handled h [] h.
Proof.
  destruct h as [pm [] [] [] ? ? ? ? ?]; split; cbn; rewrite ?app_nil_r; try done; by destruct pm.
Qed.

Lemma fold_fmap {A B} (o : option A) (f : A → B) (g : B → B) : g <$> (f <$> o) = (λ x, g (f x)) <$> o.
Proof. by destruct o. Qed.

Lemma handled_snoc h rs h' r : handled h rs h' → handled h (rs ++ [r]) (on_report h' r).
Proof.
  intros [H1 H2 H3 H4 H5 (H6 & H7 & H8)]. injection H5 as H5a H5b H5c.
  destruct h' as [pm fn an rn [] av fs acks rejs], h as [pm0 fn0 an0 rn0 st0 av0 fs0 acks0 rejs0].
  cbn in *. subst.
  split; unfold fills_of, acks_of, rejects_of; rewrite ?omap_app;
    destruct r as [t0 t1 f|a|j]; cbn [omap list_omap]; rewrite ?app_nil_r, ?length_app;
    cbn [length]; rewrite ?Nat.add_1_r, ?Nat.iter_succ.
  all: destruct fn0, an0, rn0; cbn; rewrite ?fold_left_app, <-?app_assoc, ?app_nil_r; split_and?; try done;
    by destruct pm0; cbn; rewrite ?fold_left_app.
Qed.

Lemma handle_all_ok rs h : handled h rs (handle_all rs h).
Proof.
  induction rs as [|r rs IH] using rev_ind; [apply handled_nil|].
  unfold handle_all in *. rewrite fold_left_app. by apply handled_snoc.
Qed.
End handler.

(** ** Properties *)

Section properties.
Context {F : FpmOps} {IO : IterOrder}.

(** The handler loses and reorders nothing: after any sequence of reports the
    positions are those of the fills in order, every notifier that is set has been
    called with exactly the reports of its kind in order, and the counters are
    their numbers. *)
Theorem handler_applies_reports pm nf na nr rs :
  let h := handle_all rs (ExecutionHandler_init pm nf na nr) in
  pm_ h = (λ pm, fold_left (λ pm f, (updatePosition f pm).2) (fills_of rs) pm) <$> pm ∧
  fills_notified h = (if nf then fills_of rs else []) ∧
  acks_notified h = (if na then acks_of rs else []) ∧
  rejects_notified h = (if nr then rejects_of rs else []) ∧
  ExecutionHandlerStats.fills_processed (getStats h) = Nat.iter (length (fills_of rs)) inc64 0 ∧
  ExecutionHandlerStats.acks_processed (getStats h) = Nat.iter (length (acks_of rs)) inc64 0 ∧
  ExecutionHandlerStats.rejects_processed (getStats h) = Nat.iter (length (rejects_of rs)) inc64 0.
Proof.
  cbv zeta. destruct (handle_all_ok rs (ExecutionHandler_init pm nf na nr)) as [H1 H2 H3 H4 _ (H5 & H6 & H7)].
  split_and!; try done; by destruct (handle_all rs _) as [? ? ? ? [] ? ? ? ?].
Qed.

(** *** A simulated exchange *)

(** Buys count up, sells count down. *)
Definition signed_order (o : OrderRequest.t) : Z :=
  match OrderRequest.side o with
  | OrderSide.BUY => OrderRequest.quantity o
  | OrderSide.SELL => - OrderRequest.quantity o
  end.

Lemma simulated_quantities fills orders sym :
  Forall2 (λ f o, ∃ t, f = OrderGateway.simulated_fill o t) fills orders →
  (Fill.fill_quantity <$> fills) = OrderRequest.quantity <$> orders ∧
  (exact_quantity <$> filter (λ f, Fill.symbol_id f = sym) fills) =
    (signed_order <$> filter (λ o, OrderRequest.symbol_id o = sym) orders).
Proof.
  induction 1 as [|f o fills orders [t ->] _ [IH1 IH2]]; [done|]. rewrite !filter_cons, !fmap_cons. split.
  - by rewrite IH1.
  - change (Fill.symbol_id (OrderGateway.simulated_fill o t)) with (OrderRequest.symbol_id o).
    case_decide; [|done]. by rewrite !fmap_cons, IH2.
Qed.

Lemma fills_of_reports (times : list (Z * Z)) fills :
  length times = length fills → fills_of (zip_with (λ '(t0, t1) f, FillReport t0 t1 f) times fills) = fills.
Proof.
  revert times. induction fills as [|f fills IH]; intros [|[t0 t1] times] Hlen; try done.
  cbn in *. f_equal. apply IH. lia.
Qed.

(** Trading against the simulated exchange is position keeping: when the gateway's
    fills go to the handler, the position in every symbol is the signed sum of the
    quantities ordered, buys minus sells. *)
Lemma simulated_trading_positions {HF : FpmLaws F} {J : JsonOps} clock http_place xid orders g sym times :
  OrderGateway.simulating xid g → OrderGateway.pending_orders_ g = ∅ → OrderGateway.fills_out_ g = [] →
  Forall (λ o, OrderRequest.exchange_id o = xid ∧ 0 < OrderRequest.quantity o) orders →
  sumZ (OrderRequest.quantity <$> orders) < 2 ^ 62 →
  let g' := fold_left (λ g o, OrderGateway.processOrder clock http_place o g) orders g in
  let reports := zip_with (λ '(t0, t1) f, FillReport t0 t1 f) times (OrderGateway.fills_out_ g') in
  length times = length orders →
  ∃ pm, pm_ (handle_all reports (ExecutionHandler_init (Some PositionManager_init) true false false)) = Some pm ∧
    quantity_of sym pm =
      sumZ (signed_order <$> filter (λ o, OrderRequest.symbol_id o = sym) orders).
Proof.
  intros Hg Hp Hf Ho Hsum g' reports Hlen.
  destruct (OrderGateway.simulated_orders clock http_place xid orders g Hg Hp) as (_ & fills & Hout & Hfills).
  { rewrite Forall_forall in *. intros o Hin. destruct (Ho o Hin) as [? Hq].
    assert (OrderRequest.quantity o <= sumZ (OrderRequest.quantity <$> orders)).
    { apply list_elem_of_split in Hin as (l1 & l2 & ->). rewrite fmap_app, fmap_cons, sumZ_app, sumZ_cons.
      assert (∀ l, (∀ x, x ∈ l → x ∈ l1 ++ o :: l2) → 0 <= sumZ (OrderRequest.quantity <$> l)) as Hnn.
      { intros l Hl. apply sumZ_nonneg, Forall_fmap, Forall_forall. intros x Hx. cbn.
        destruct (Ho x (Hl x Hx)). lia. }
      pose proof (Hnn l1 ltac:(set_solver)). pose proof (Hnn l2 ltac:(set_solver)). lia. }
    split_and!; [done|lia|]. unfold is_dec, inS. lia. }
  fold g' in Hout. rewrite Hf in Hout. cbn [app] in Hout.
  destruct (simulated_quantities fills orders sym Hfills) as [Hq1 Hq2].
  assert (fills_of reports = fills) as Hrep.
  { subst reports. rewrite Hout. apply fills_of_reports. by rewrite Hlen, (Forall2_length _ _ _ Hfills). }
  destruct (handle_all_ok reports (ExecutionHandler_init (Some PositionManager_init) true false false)) as [H1 _ _ _ _ _].
  rewrite Hrep in H1. eexists. split; [exact H1|]. change (quantity_of sym (pm_run fills) =
      sumZ (signed_order <$> filter (λ o, OrderRequest.symbol_id o = sym) orders)).
  rewrite <-Hq2. apply run_quantity_bound.
  - assert (Forall (Z.lt 0) (Fill.fill_quantity <$> fills)) as Hpos.
    { rewrite Hq1. apply Forall_fmap. eapply Forall_impl; [exact Ho|]. by intros o [_ ?]. }
    exact (proj1 (Forall_fmap Fill.fill_quantity (Z.lt 0) fills) Hpos).
  - by rewrite Hq1.
Qed.
End properties.

Lemma simulated_trading_positions_witness :
  ∃ pm, pm_ (handle_all (F := FpmRef) (IO := iter_default)
      (zip_with (λ '(t0, t1) f, FillReport t0 t1 f) [(1, 2); (3, 4)]
         (OrderGateway.fills_out_ (fold_left (λ g o,
            OrderGateway.processOrder (F := FpmRef) (J := JsonRef) OrderGateway.sample_clock (λ _, None) o g)
            [OrderGateway.sample_order 1; OrderGateway.sample_order 2]
            (OrderGateway.OrderGateway_init OrderGateway.sample_config true 7 true))))
      (ExecutionHandler_init (Some PositionManager_init) true false false)) = Some pm ∧
    quantity_of 1 pm = 4 * ONE.
Proof.
  apply (simulated_trading_positions (F := FpmRef) (IO := iter_default) (J := JsonRef) OrderGateway.sample_clock
    (λ _, None) 7 [OrderGateway.sample_order 1; OrderGateway.sample_order 2]
    (OrderGateway.OrderGateway_init OrderGateway.sample_config true 7 true) 1 [(1, 2); (3, 4)]).
  - by split_and!.
  - reflexivity.
  - reflexivity.
  - repeat constructor.
  - reflexivity.
  - reflexivity.
Defined.
