(* ===== verification/ErrorHandler.v ===== *)
(** Error reporting (include/chronos/core/error.hpp, src/core/error.cpp): the [Error]
    record, [ErrorStatistics] and the [ErrorHandler] with its history, a vector used
    as a circular buffer, and its callbacks.

    The handler is a singleton under one mutex, so each operation is one step. The
    callbacks are foreign code whose exceptions are caught; [invoked_] lists the calls
    made, [console_] the lines logged. An access outside the vector is undefined
    behaviour: [None]. The iteration order of the callback maps and the formatting of
    local time are parameters. *)
From stdpp Require Import pretty.
From S2P Require Import Prelude Types.

Module ErrorCategory.
Inductive t :=
| NETWORK | MARKET_DATA | ORDER_EXECUTION | RISK_MANAGEMENT | CONFIGURATION
| PERSISTENCE | SYSTEM | STRATEGY | UNKNOWN.
#[global] Instance eq_dec : EqDecision t. Proof. solve_decision. Defined.
Definition to_nat (c : t) : nat :=
  match c with
  | NETWORK => 0 | MARKET_DATA => 1 | ORDER_EXECUTION => 2 | RISK_MANAGEMENT => 3
  | CONFIGURATION => 4 | PERSISTENCE => 5 | SYSTEM => 6 | STRATEGY => 7 | UNKNOWN => 8
  end.
Definition toString (c : t) : string :=
  match c with
  | NETWORK => "NETWORK" | MARKET_DATA => "MARKET_DATA" | ORDER_EXECUTION => "ORDER_EXECUTION"
  | RISK_MANAGEMENT => "RISK_MANAGEMENT" | CONFIGURATION => "CONFIGURATION"
  | PERSISTENCE => "PERSISTENCE" | SYSTEM => "SYSTEM" | STRATEGY => "STRATEGY" | UNKNOWN => "UNKNOWN"
  end.
End ErrorCategory.

Module RecoveryAction.
Inductive t :=
| NONE | RETRY | RECONNECT | RELOAD_CONFIG | RESTART_COMPONENT | SHUTDOWN | ALERT_OPERATOR.
#[global] Instance eq_dec : EqDecision t. Proof. solve_decision. Defined.
Definition toString (a : t) : string :=
  match a with
  | NONE => "NONE" | RETRY => "RETRY" | RECONNECT => "RECONNECT" | RELOAD_CONFIG => "RELOAD_CONFIG"
  | RESTART_COMPONENT => "RESTART_COMPONENT" | SHUTDOWN => "SHUTDOWN" | ALERT_OPERATOR => "ALERT_OPERATOR"
  end.
End RecoveryAction.

(** ** Errors *)

Module Error.
Record t := mk {
  severity : ErrorSeverity.t;
  category : ErrorCategory.t;
  component : string;
  message : string;
  context : string;
  timestamp_us : Z;
  stack_trace : list string;
  recovery_action : RecoveryAction.t;
  error_code : Z;
}.

(** The constructor; [now_us] is the system clock. *)
Definition make (now_us : Z) (sev : ErrorSeverity.t) (cat : ErrorCategory.t) (comp msg ctx : string)
    (recovery : RecoveryAction.t) (code : Z) : t :=
  mk sev cat comp msg ctx now_us [] recovery code.

Definition isCritical (e : t) : bool := bool_decide (severity e = ErrorSeverity.CRITICAL).

Definition newline : string := String (Ascii.ascii_of_nat 10) EmptyString.

(** [std::setfill('0') << std::setw(6)] of a number. *)
Definition pad6 (n : Z) : string :=
  let d := pretty n in (String.concat EmptyString (replicate (6 - String.length d) "0") ++ d)%string.

(** [local_time] is localtime and strftime of the seconds. *)
Definition toString (local_time : Z → string) (e : t) : string :=
  ("[" ++ local_time (timestamp_us e / 1000000)%Z ++ "." ++ pad6 (timestamp_us e mod 1000000)%Z ++ "] "
   ++ "[" ++ ErrorSeverity.toString (severity e) ++ "] "
   ++ "[" ++ ErrorCategory.toString (category e) ++ "] "
   ++ (if String.eqb (component e) EmptyString then EmptyString else "[" ++ component e ++ "] ")
   ++ message e
   ++ (if String.eqb (context e) EmptyString then EmptyString else " | Context: " ++ context e)
   ++ (if (error_code e =? 0)%Z then EmptyString else " | Code: " ++ pretty (error_code e))
   ++ (if bool_decide (recovery_action e = RecoveryAction.NONE) then EmptyString
       else " | Recovery: " ++ RecoveryAction.toString (recovery_action e))
   ++ match stack_trace e with
      | [] => EmptyString
      | frames => newline ++ "Stack trace:" ++ newline
                  ++ String.concat EmptyString ((λ f, "  " ++ f ++ newline) <$> frames)
      end)%string.

Definition default : t :=
  mk ErrorSeverity.ERROR ErrorCategory.UNKNOWN EmptyString EmptyString EmptyString 0 [] RecoveryAction.NONE 0.
#[global] Instance inhabited : Inhabited t := populate default.
End Error.

(** ** Statistics *)

Module ErrorStatistics.
Record t := mk {
  total_errors : Z;
  errors_by_severity : list Z;      (* 5 *)
  errors_by_category : list Z;      (* 9 *)
  last_error_timestamp_us : Z;
}.
Definition init : t := mk 0 (replicate 5 0) (replicate 9 0) 0.
Definition reset (s : t) : t := mk 0 (replicate 5 0) (replicate 9 0) 0.

Definition recordError (e : Error.t) (s : t) : t :=
  mk (inc64 (total_errors s))
     (alter inc64 (ErrorSeverity.to_nat (Error.severity e)) (errors_by_severity s))
     (alter inc64 (ErrorCategory.to_nat (Error.category e)) (errors_by_category s))
     (Error.timestamp_us e).

Definition line (label : string) (n : Z) : string := (label ++ pretty n ++ Error.newline)%string.

Definition toString (s : t) : string :=
  ("Error Statistics:" ++ Error.newline
   ++ line "  Total Errors: " (total_errors s)
   ++ "  By Severity:" ++ Error.newline
   ++ String.concat EmptyString (zip_with line
        ["    DEBUG:    "; "    INFO:     "; "    WARNING:  "; "    ERROR:    "; "    CRITICAL: "]
        (errors_by_severity s))
   ++ "  By Category:" ++ Error.newline
   ++ String.concat EmptyString (zip_with line
        ["    NETWORK:          "; "    MARKET_DATA:      "; "    ORDER_EXECUTION:  ";
         "    RISK_MANAGEMENT:  "; "    CONFIGURATION:    "; "    PERSISTENCE:      ";
         "    SYSTEM:           "; "    STRATEGY:         "; "    UNKNOWN:          "]
        (errors_by_category s)))%string.
End ErrorStatistics.

(** ** The handler *)

(** The order in which iteration visits the ids of an [unordered_map]. *)
Class IdOrder := {
  visit : gset Z → list Z;
  visit_perm ids : visit ids ≡ₚ elements ids;
}.

Definition id_order_default : IdOrder := {| visit := elements; visit_perm _ := reflexivity _ |}.

Record ErrorHandler := mkErrorHandler {
  callbacks_ : gset Z;
  category_callbacks_ : gmap nat (gset Z);
  statistics_ : ErrorStatistics.t;
  error_history_ : list Error.t;
  history_write_index_ : nat;
  max_history_size_ : nat;
  next_callback_id_ : Z;
  console_logging_enabled_ : bool;
  minimum_severity_ : ErrorSeverity.t;
  console_ : list string;
  invoked_ : list (Z * Error.t);
}.

Definition ErrorHandler_init : ErrorHandler :=
  mkErrorHandler ∅ ∅ ErrorStatistics.init [] 0 1000 1 true ErrorSeverity.DEBUG [] [].

Section handler.
Context {IO : IdOrder} (local_time : Z → string).

Definition addToHistory (error : Error.t) (h : ErrorHandler) : option ErrorHandler :=
  if (length (error_history_ h) <? max_history_size_ h)%nat then
    let h := h {{ error_history_ ::= λ l, l ++ [error] }} in
    Some (h {{ history_write_index_ := length (error_history_ h) }})
  else if (history_write_index_ h <? length (error_history_ h))%nat then
    let h := h {{ error_history_ ::= <[history_write_index_ h := error]> }} in
    Some (h {{ history_write_index_ := (S (history_write_index_ h) mod max_history_size_ h)%nat }})
  else None.

Definition category_ids (c : ErrorCategory.t) (h : ErrorHandler) : gset Z :=
  default ∅ (category_callbacks_ h !! ErrorCategory.to_nat c).

Definition invokeCallbacks (error : Error.t) (h : ErrorHandler) : ErrorHandler :=
  let h := h {{ invoked_ ::= λ l, l ++ ((λ id, (id, error)) <$> visit (callbacks_ h)) }} in
  h {{ invoked_ ::= λ l, l ++ ((λ id, (id, error)) <$> visit (category_ids (Error.category error) h)) }}.

Definition below_minimum (error : Error.t) (h : ErrorHandler) : bool :=
  (ErrorSeverity.to_nat (Error.severity error) <? ErrorSeverity.to_nat (minimum_severity_ h))%nat.

Definition reportError (error : Error.t) (h : ErrorHandler) : option ErrorHandler :=
  if below_minimum error h then Some h
  else
    let h := h {{ statistics_ ::= ErrorStatistics.recordError error }} in
    h ← addToHistory error h;
    let h := if console_logging_enabled_ h
             then h {{ console_ ::= λ l, l ++ [Error.toString local_time error] }} else h in
    Some (invokeCallbacks error h).

(** The overload with separate parameters. *)
Definition reportError_at (now_us : Z) (sev : ErrorSeverity.t) (cat : ErrorCategory.t) (comp msg ctx : string)
    (recovery : RecoveryAction.t) (code : Z) (h : ErrorHandler) : option ErrorHandler :=
  reportError (Error.make now_us sev cat comp msg ctx recovery code) h.

(** The reporting macros, on the one handler [getInstance] returns. [CHRONOS_FATAL] names
    a severity that does not exist and cannot be used. *)
Definition CHRONOS_REPORT (sev : ErrorSeverity.t) (now_us : Z) (cat : ErrorCategory.t) (comp msg : string) (h : ErrorHandler)
    : option ErrorHandler :=
  reportError_at now_us sev cat comp msg EmptyString RecoveryAction.NONE 0 h.
Definition CHRONOS_ERROR := CHRONOS_REPORT ErrorSeverity.ERROR.
Definition CHRONOS_WARNING := CHRONOS_REPORT ErrorSeverity.WARNING.
Definition CHRONOS_CRITICAL := CHRONOS_REPORT ErrorSeverity.CRITICAL.

Definition registerCallback (h : ErrorHandler) : Z * ErrorHandler :=
  let id := next_callback_id_ h in
  (id, h {{ next_callback_id_ ::= inc64; callbacks_ ::= λ ids, {[id]} ∪ ids }}).

Definition unregisterCallback (id : Z) (h : ErrorHandler) : ErrorHandler :=
  h {{ callbacks_ ::= λ ids, ids ∖ {[id]} }}.

Definition registerCategoryCallback (c : ErrorCategory.t) (h : ErrorHandler) : Z * ErrorHandler :=
  let id := next_callback_id_ h in
  (id, h {{ next_callback_id_ ::= inc64;
            category_callbacks_ ::= <[ErrorCategory.to_nat c := {[id]} ∪ category_ids c h]> }}).

Definition unregisterCategoryCallback (c : ErrorCategory.t) (id : Z) (h : ErrorHandler) : ErrorHandler :=
  match category_callbacks_ h !! ErrorCategory.to_nat c with
  | Some ids => h {{ category_callbacks_ ::= <[ErrorCategory.to_nat c := ids ∖ {[id]}]> }}
  | None => h
  end.

Definition getStatistics (h : ErrorHandler) : ErrorStatistics.t := statistics_ h.
Definition resetStatistics (h : ErrorHandler) : ErrorHandler := h {{ statistics_ ::= ErrorStatistics.reset }}.

(** Newest first; the index is computed modulo the size of the vector. *)
Definition getRecentErrors (max_count : nat) (h : ErrorHandler) : list Error.t :=
  let size := length (error_history_ h) in
  let count := (max_count `min` size)%nat in
  omap (λ i, error_history_ h !! ((history_write_index_ h + size - 1 - i) mod size)%nat) (seq 0 count).

Definition clearHistory (h : ErrorHandler) : ErrorHandler :=
  h {{ error_history_ := []; history_write_index_ := 0%nat }}.

Definition setMaxHistorySize (size : nat) (h : ErrorHandler) : ErrorHandler :=
  let h := h {{ max_history_size_ := size }} in
  if (size <? length (error_history_ h))%nat
  then h {{ error_history_ ::= take size; history_write_index_ := 0%nat }} else h.

Definition setConsoleLogging (enabled : bool) (h : ErrorHandler) : ErrorHandler :=
  h {{ console_logging_enabled_ := enabled }}.

Definition setMinimumSeverity (severity : ErrorSeverity.t) (h : ErrorHandler) : ErrorHandler :=
  h {{ minimum_severity_ := severity }}.

(** A sequence of reports. *)
Fixpoint report_all (errors : list Error.t) (h : ErrorHandler) : option ErrorHandler :=
  match errors with
  | [] => Some h
  | e :: errors' => h ← reportError e h; report_all errors' h
  end.
End handler.

(** ** Proofs *)

Section proofs.
Context {IO : IdOrder} (local_time : Z → string).

(** The errors a handler does not ignore. *)
Definition reported (h : ErrorHandler) (errors : list Error.t) : list Error.t :=
  filter (λ e, below_minimum e h = false) errors.

(** The calls one error causes: the global callbacks, then those of its category. *)
Definition calls (h : ErrorHandler) (e : Error.t) : list (Z * Error.t) :=
  ((λ id, (id, e)) <$> visit (callbacks_ h)) ++
  ((λ id, (id, e)) <$> visit (default ∅ (category_callbacks_ h !! ErrorCategory.to_nat (Error.category e)))).

(** The vector has not been wrapped around. *)
Definition unwrapped (h : ErrorHandler) : Prop :=
  history_write_index_ h = length (error_history_ h) ∧ (length (error_history_ h) <= max_history_size_ h)%nat.

(** What reports never change. *)
Definition settings (h : ErrorHandler) :=
  (callbacks_ h, category_callbacks_ h, max_history_size_ h, minimum_severity_ h).

Lemma settings_same h h' errors e :
  settings h' = settings h → reported h' errors = reported h errors ∧ calls h' e = calls h e ∧
  below_minimum e h' = below_minimum e h ∧ max_history_size_ h' = max_history_size_ h.
Proof.
  unfold settings, reported, calls, category_ids, below_minimum. intros [= -> -> -> ->]. done.
Qed.

Lemma reportError_room e h :
  unwrapped h → below_minimum e h = false → (length (error_history_ h) < max_history_size_ h)%nat →
  ∃ h', reportError local_time e h = Some h' ∧ unwrapped h' ∧ settings h' = settings h ∧
    error_history_ h' = error_history_ h ++ [e] ∧
    statistics_ h' = ErrorStatistics.recordError e (statistics_ h) ∧
    invoked_ h' = invoked_ h ++ calls h e.
Proof.
  intros [Hi Hl] Hb Hr. unfold reportError. rewrite Hb. unfold addToHistory.
  destruct h as [cb cc st hist wi mx nx cl ms con inv]; cbn -[Nat.ltb] in *. subst wi.
  rewrite (proj2 (Nat.ltb_lt _ _)) by done. cbn -[Nat.ltb]. eexists. split; [reflexivity|].
  destruct cl; split_and!; try done; try (split; cbn; unfold constant; rewrite ?length_app; cbn; lia);
    cbn; unfold calls, category_ids; cbn; by rewrite <-app_assoc.
Qed.

Lemma reportError_full e h :
  unwrapped h → below_minimum e h = false → length (error_history_ h) = max_history_size_ h →
  reportError local_time e h = None.
Proof.
  intros [Hi Hl] Hb Hr. unfold reportError. rewrite Hb. unfold addToHistory.
  destruct h as [cb cc st hist wi mx nx cl ms con inv]; cbn -[Nat.ltb] in *. subst wi mx.
  by rewrite Nat.ltb_irrefl.
Qed.

Lemma report_all_ok errors h :
  unwrapped h →
  let kept := reported h errors in
  if (length (error_history_ h) + length kept <=? max_history_size_ h)%nat
  then ∃ h', report_all local_time errors h = Some h' ∧ unwrapped h' ∧ settings h' = settings h ∧
         error_history_ h' = error_history_ h ++ kept ∧
         statistics_ h' = fold_left (λ s e, ErrorStatistics.recordError e s) kept (statistics_ h) ∧
         invoked_ h' = invoked_ h ++ (kept ≫= calls h)
  else report_all local_time errors h = None.
Proof.
  revert h. induction errors as [|e errors IH]; intros h Hu; cbv zeta; cbn [report_all reported].
  - unfold reported. rewrite filter_nil. cbn [length]. destruct Hu as [Hi Hl].
    rewrite (proj2 (Nat.leb_le _ _)) by lia. exists h. rewrite !app_nil_r. by split_and!.
  - unfold reported. rewrite filter_cons. fold (reported h errors).
    destruct (below_minimum e h) eqn:Hb.
    + rewrite decide_False by done. unfold reportError at 1 2. rewrite Hb. cbn [mbind option_bind]. by apply IH.
    + rewrite decide_True by done. cbn [length].
      destruct (decide (length (error_history_ h) < max_history_size_ h)%nat) as [Hr|Hr].
      * destruct (reportError_room e h Hu Hb Hr) as (h1 & -> & Hu1 & Hs1 & E1 & E2 & E3).
        cbn [mbind option_bind]. destruct (settings_same h h1 errors e Hs1) as (R1 & _ & _ & M1).
        specialize (IH h1 Hu1). cbv zeta in IH. rewrite R1, M1, E1, length_app in IH. cbn [length] in IH.
        rewrite <-Nat.add_assoc in IH. cbn [Nat.add] in IH.
        destruct (_ <=? _)%nat; [|done]. destruct IH as (h2 & -> & Hu2 & Hs2 & F1 & F2 & F3).
        exists h2. rewrite F1, F2, F3, E2, E3, <-!app_assoc. split_and!; try done; [congruence|].
        rewrite bind_cons. do 2 f_equal. apply list_bind_ext; [|done].
        intros x. by destruct (settings_same h h1 errors x Hs1) as (_ & ? & _).
      * rewrite (proj2 (Nat.leb_gt _ _)) by (destruct Hu; lia).
        by rewrite reportError_full by (try done; destruct Hu; lia).
Qed.

Lemma getRecentErrors_unwrapped k h :
  unwrapped h → getRecentErrors k h = take k (reverse (error_history_ h)).
Proof.
  intros [Hi _]. unfold getRecentErrors. rewrite Hi. set (l := error_history_ h).
  assert (∀ n, (n <= length l)%nat →
    omap (λ i, l !! ((length l + length l - 1 - i) mod length l)%nat) (seq 0 n) = take n (reverse l)) as Hn.
  { intros n. induction n as [|n IH]; intros Hn; [done|].
    rewrite seq_S, omap_app, IH by lia. cbn [omap list_omap Nat.add].
    destruct (lookup_lt_is_Some_2 (reverse l) n) as [x Hx]; [rewrite length_reverse; lia|].
    rewrite (take_S_r _ _ x) by done. f_equal.
    replace (length l + length l - 1 - n)%nat with (length l - 1 - n + 1 * length l)%nat by lia.
    rewrite Nat.Div0.mod_add, Nat.mod_small by lia.
    rewrite reverse_lookup in Hx by lia. replace (length l - 1 - n)%nat with (length l - S n)%nat by lia.
    by rewrite Hx. }
  rewrite Hn by lia. destruct (decide (k <= length l)%nat).
  - by rewrite Nat.min_l by lia.
  - by rewrite Nat.min_r, !take_ge by (rewrite ?length_reverse; lia).
Qed.

(** *** Statistics *)

(** How many of the errors [es] have the kind [k] by [f]. *)
Definition tally {K} `{EqDecision K} (f : Error.t → K) (es : list Error.t) (k : K) : Z :=
  Z.of_nat (length (filter (λ e, f e = k) es)).

Definition severities : list ErrorSeverity.t :=
  [ErrorSeverity.DEBUG; ErrorSeverity.INFO; ErrorSeverity.WARNING; ErrorSeverity.ERROR; ErrorSeverity.CRITICAL].
Definition categories : list ErrorCategory.t :=
  [ErrorCategory.NETWORK; ErrorCategory.MARKET_DATA; ErrorCategory.ORDER_EXECUTION; ErrorCategory.RISK_MANAGEMENT;
   ErrorCategory.CONFIGURATION; ErrorCategory.PERSISTENCE; ErrorCategory.SYSTEM; ErrorCategory.STRATEGY;
   ErrorCategory.UNKNOWN].

(** The statistics of exactly the errors [es]: one counter for each severity and each category, in
    the order of their declarations. *)
Record counted (es : list Error.t) (s : ErrorStatistics.t) : Prop := {
  counted_total : ErrorStatistics.total_errors s = Z.of_nat (length es);
  counted_severity : ErrorStatistics.errors_by_severity s = tally Error.severity es <$> severities;
  counted_category : ErrorStatistics.errors_by_category s = tally Error.category es <$> categories;
  counted_last : ErrorStatistics.last_error_timestamp_us s = from_option Error.timestamp_us 0 (last es);
}.

Lemma tally_snoc {K} `{EqDecision K} (f : Error.t → K) es e k :
  tally f (es ++ [e]) k = tally f es k + if decide (f e = k) then 1 else 0.
Proof. unfold tally. rewrite filter_app, filter_cons, filter_nil, length_app. case_decide; cbn [length]; lia. Qed.

Lemma tally_bounds {K} `{EqDecision K} (f : Error.t → K) es k : 0 <= tally f es k <= Z.of_nat (length es).
Proof. unfold tally. pose proof (length_filter (λ e, f e = k) es). lia. Qed.

(** Counting one more error at the index of its kind. *)
Lemma tally_alter {K} `{EqDecision K} (f : Error.t → K) (kinds : list K) i es e :
  NoDup kinds → kinds !! i = Some (f e) → Z.of_nat (length es) < 2 ^ 64 - 1 →
  alter inc64 i (tally f es <$> kinds) = tally f (es ++ [e]) <$> kinds.
Proof.
  intros Hnd Hi Hn. apply list_eq. intros j. rewrite list_lookup_fmap. destruct (decide (j = i)) as [->|Hj].
  - rewrite list_lookup_alter_eq, list_lookup_fmap, Hi. cbn. pose proof (tally_bounds f es (f e)).
    by rewrite tally_snoc, decide_True, inc64_id by (done || lia).
  - rewrite list_lookup_alter_ne, list_lookup_fmap by done. destruct (kinds !! j) as [k|] eqn:Hk; [|done]. cbn.
    rewrite tally_snoc, decide_False, Z.add_0_r; [done|]. intros <-. by destruct (Hj (NoDup_lookup _ _ _ _ Hnd Hk Hi)).
Qed.

Lemma record_counted es e s :
  counted es s → Z.of_nat (length es) < 2 ^ 64 - 1 → counted (es ++ [e]) (ErrorStatistics.recordError e s).
Proof.
  intros [H1 H2 H3 H4] Hn. unfold ErrorStatistics.recordError. split; cbn [ErrorStatistics.total_errors
    ErrorStatistics.errors_by_severity ErrorStatistics.errors_by_category ErrorStatistics.last_error_timestamp_us].
  - rewrite H1, length_app, inc64_id by lia. cbn [length]. lia.
  - rewrite H2. apply tally_alter; [by apply (bool_decide_unpack _)|by destruct (Error.severity e)|done].
  - rewrite H3. apply tally_alter; [by apply (bool_decide_unpack _)|by destruct (Error.category e)|done].
  - by rewrite last_snoc.
Qed.

Lemma record_all_counted errors es s :
  counted es s → Z.of_nat (length (es ++ errors)) < 2 ^ 64 →
  counted (es ++ errors) (fold_left (λ s e, ErrorStatistics.recordError e s) errors s).
Proof.
  revert s es. induction errors as [|e errors IH]; intros s es Ht Hn; cbn [fold_left]; [by rewrite app_nil_r|].
  rewrite (cons_middle e es errors), (app_assoc es [e] errors) in Hn |- *. apply IH; [|done]. apply record_counted; [done|].
  rewrite !length_app in Hn. cbn [length] in Hn. lia.
Qed.
End proofs.

(** ** Properties *)

Section properties.
Context {IO : IdOrder} (local_time : Z → string).

(** Up to its capacity the history is exact: after the reports [getRecentErrors k]
    returns the [k] latest errors at or above the minimum severity, newest first. The
    first one beyond the capacity is stored one past the end of the vector, because
    the write index is left at the size when the vector fills up instead of at zero:
    undefined behaviour, for every capacity. *)
Lemma history_until_full errors size h :
  error_history_ h = [] → history_write_index_ h = 0%nat →
  let h0 := setMaxHistorySize size h in
  let kept := reported h0 errors in
  ((length kept <= size)%nat → ∃ h', report_all local_time errors h0 = Some h' ∧
     ∀ k, getRecentErrors k h' = take k (reverse kept)) ∧
  ((size < length kept)%nat → report_all local_time errors h0 = None).
Proof.
  intros He Hi h0 kept.
  assert (unwrapped h0 ∧ error_history_ h0 = [] ∧ max_history_size_ h0 = size) as (Hu & He0 & Hm).
  { subst h0. destruct h as [cb cc st hist wi mx nx cl ms con inv]; cbn in *. subst.
    unfold setMaxHistorySize. cbn. destruct (size <? 0)%nat eqn:Hs; [by apply Nat.ltb_lt in Hs; lia|].
    split_and!; [split; cbn; lia|done|done]. }
  pose proof (report_all_ok local_time errors h0 Hu) as Hr. cbv zeta in Hr. fold kept in Hr.
  rewrite He0, Hm in Hr. cbn [length Nat.add app] in Hr. split; intros Hl.
  - rewrite (proj2 (Nat.leb_le _ _)) in Hr by done. destruct Hr as (h' & ? & Hu' & _ & E & _).
    exists h'. split; [done|]. intros k. by rewrite getRecentErrors_unwrapped, E.
  - by rewrite (proj2 (Nat.leb_gt _ _)) in Hr by done.
Qed.

(** C32: while the history holds, the errors at or above the minimum severity are accounted for:
    the total is their number, the counter of each of the five severities is
    the number of those of that severity, the counter of each of the nine categories the
    number of those of that category; the history ends in them, in order; and each reaches every
    callback registered for all errors or for its category, exactly once and in order. The others
    leave no trace. *)
Theorem reports_accounted errors h :
  unwrapped h → statistics_ h = ErrorStatistics.init → invoked_ h = [] →
  let kept := reported h errors in
  (length (error_history_ h) + length kept <= max_history_size_ h)%nat →
  Z.of_nat (length kept) < 2 ^ 64 →
  ∃ h', report_all local_time errors h = Some h' ∧ counted kept (getStatistics h') ∧
    error_history_ h' = error_history_ h ++ kept ∧ invoked_ h' = kept ≫= calls h ∧
    ∀ id e, id ∈ callbacks_ h ∨ id ∈ category_ids (Error.category e) h → e ∈ kept → (id, e) ∈ invoked_ h'.
Proof.
  intros Hu Hs Hi kept Hl Hn. pose proof (report_all_ok local_time errors h Hu) as Hr. cbv zeta in Hr. fold kept in Hr.
  rewrite (proj2 (Nat.leb_le _ _)) in Hr by done. destruct Hr as (h' & Hr & _ & _ & Hh & E & I).
  rewrite Hi in I. exists h'. split_and!; try done.
  - unfold getStatistics. rewrite E, Hs. by apply (record_all_counted kept []).
  - intros id e Hid He. rewrite I. cbn [app]. apply list_elem_of_bind. exists e. split; [|done].
    unfold calls. rewrite elem_of_app, !list_elem_of_fmap.
    destruct Hid as [Hid|Hid]; [left|right]; exists id; (split; [done|]);
      rewrite visit_perm; by apply elem_of_elements.
Qed.
End properties.

Definition sample_error (n : Z) (sev : ErrorSeverity.t) : Error.t :=
  Error.make n sev ErrorCategory.NETWORK "gateway" "timeout" EmptyString RecoveryAction.RETRY 0.

Definition sample_errors : list Error.t :=
  [sample_error 1 ErrorSeverity.ERROR; sample_error 2 ErrorSeverity.DEBUG; sample_error 3 ErrorSeverity.CRITICAL].

Lemma history_until_full_witness :
  report_all (IO := id_order_default) (λ _, EmptyString) sample_errors
    (setMaxHistorySize 2 ErrorHandler_init) = None.
Proof.
  apply (history_until_full (IO := id_order_default) (λ _, EmptyString) sample_errors 2 ErrorHandler_init);
    [reflexivity|reflexivity|vm_compute; lia].
Defined.

Lemma reports_accounted_witness :
  let h := (registerCallback (setMinimumSeverity ErrorSeverity.WARNING ErrorHandler_init)).2 in
  ∃ h', report_all (IO := id_order_default) (λ _, EmptyString) sample_errors h = Some h' ∧
    ErrorStatistics.errors_by_severity (getStatistics h') = [0; 0; 0; 1; 1] ∧
    ErrorStatistics.errors_by_category (getStatistics h') = [2; 0; 0; 0; 0; 0; 0; 0; 0] ∧
    (1, sample_error 3 ErrorSeverity.CRITICAL) ∈ invoked_ h'.
Proof.
  intros h.
  destruct (reports_accounted (IO := id_order_default) (λ _, EmptyString) sample_errors h)
    as (h' & H1 & [_ H2 H2' _] & _ & _ & H3);
    [split; vm_compute; lia|reflexivity|reflexivity|vm_compute; lia|reflexivity|].
  exists h'. split; [exact H1|]. split; [exact H2|]. split; [exact H2'|]. apply H3; [left; by vm_compute|].
  vm_compute. right. left.
Defined.
