(* ===== verification/LogFormat.v ===== *)
(** The binary log format (src/logging/log_writer.cpp, src/logging/log_reader.cpp and
    the record layouts of core/types.hpp): the little-endian bytes of the header and of
    the [Tick], [OrderRequest] and [Fill] objects that the writer copies with memcpy
    and the reader maps back. The interface [LogRecord] is what the writer and the
    reader need of a record type; the three record types are its instances. *)
From coqutil Require Word.LittleEndianList.
From S2P Require Import Prelude FixedPoint Types.

Abbreviation byte := Byte.byte.
Abbreviation le_split := LittleEndianList.le_split.
Abbreviation le_combine := LittleEndianList.le_combine.

(** The [n] bytes at offset [off], as an unsigned and as a signed integer. *)
Definition load (off n : nat) (bs : list byte) : Z := le_combine (take n (drop off bs)).
Definition load_s64 (off : nat) (bs : list byte) : Z := s64 (load off 8 bs).

Lemma load_skip l off n l' : (length l ≤ off)%nat → load off n (l ++ l') = load (off - length l) n l'.
Proof. intros ?. unfold load. by rewrite drop_app_ge. Qed.

Lemma load_here n z l : load 0 n (le_split n z ++ l) = z mod 2 ^ (Z.of_nat n * 8).
Proof.
  unfold load. rewrite drop_0, take_app_length' by (by rewrite LittleEndianList.length_le_split).
  apply LittleEndianList.le_combine_split.
Qed.

Lemma s64_mod z : inS 64 z → s64 (z mod 2 ^ (Z.of_nat 8 * 8)) = z.
Proof.
  intros Hz. unfold wrapS. rewrite Zplus_mod_idemp_l. change (_ * 8) with 64.
  by apply (s64_id z).
Qed.

(** ** Sizes and offsets *)

Definition LOG_MAGIC : Z := 0x01304E4F524843.
Definition LOG_VERSION : Z := 1.
Definition LOG_TYPE_TICK : Z := 0.
Definition LOG_TYPE_ORDER : Z := 1.
Definition LOG_TYPE_FILL : Z := 2.
Definition LOG_TYPE_SNAP : Z := 3.
Definition HEADER_SIZE : nat := 64.

Definition recordSizeForType (log_type : Z) : nat :=
  if log_type =? 0 then 64 else if log_type =? 1 then 128 else if log_type =? 2 then 128 else 0.

Definition timestampOffsetForType (log_type : Z) : nat :=
  if log_type =? 0 then 0 else if log_type =? 1 then 8 else if log_type =? 2 then 24 else 0.

(** [writeFileHeader]; [now] is the clock. *)
Definition file_header (log_type now : Z) : list byte :=
  le_split 8 LOG_MAGIC ++ le_split 4 LOG_VERSION ++ le_split 4 log_type ++ le_split 8 now
  ++ replicate 40 Byte.x00.

(** ** The objects in memory

    [reserved] is the content of the trailing reserved array, which is logged too. *)

Definition tick_bytes (t : Tick.t) (reserved : list byte) : list byte :=
  le_split 8 (Tick.exchange_timestamp_us t) ++ le_split 8 (Tick.receive_timestamp_us t)
  ++ le_split 4 (Tick.exchange_id t) ++ le_split 4 (Tick.symbol_id t)
  ++ le_split 8 (Tick.price t) ++ le_split 8 (Tick.quantity t)
  ++ le_split 1 (TickSide.to_Z (Tick.side t)) ++ le_split 1 (Tick.flags t) ++ reserved.

(** [None] when the side byte is none of the enumerators. *)
Definition tick_of_bytes (bs : list byte) : option Tick.t :=
  side ← TickSide.of_Z (load 40 1 bs);
  Some (Tick.mk (load 0 8 bs) (load 8 8 bs) (load 16 4 bs) (load 20 4 bs)
          (load_s64 24 bs) (load_s64 32 bs) side (load 41 1 bs)).

Definition order_bytes (o : OrderRequest.t) (reserved : list byte) : list byte :=
  le_split 8 (OrderRequest.order_id o) ++ le_split 8 (OrderRequest.timestamp_us o)
  ++ le_split 8 (OrderRequest.price o) ++ le_split 8 (OrderRequest.quantity o)
  ++ le_split 8 (OrderRequest.stop_price o) ++ le_split 8 (OrderRequest.client_order_id o)
  ++ le_split 4 (OrderRequest.symbol_id o) ++ le_split 4 (OrderRequest.exchange_id o)
  ++ le_split 4 (OrderRequest.strategy_id o) ++ le_split 1 (OrderSide.to_Z (OrderRequest.side o))
  ++ le_split 1 (OrderType.to_Z (OrderRequest.type o)) ++ le_split 1 (TimeInForce.to_Z (OrderRequest.tif o))
  ++ le_split 1 (OrderRequest.strategy_flags o) ++ reserved.

Definition order_of_bytes (bs : list byte) : option OrderRequest.t :=
  side ← OrderSide.of_Z (load 60 1 bs);
  type ← OrderType.of_Z (load 61 1 bs);
  tif ← TimeInForce.of_Z (load 62 1 bs);
  Some (OrderRequest.mk (load 0 8 bs) (load 8 8 bs) (load_s64 16 bs) (load_s64 24 bs) (load_s64 32 bs)
          (load 40 8 bs) (load 48 4 bs) (load 52 4 bs) (load 56 4 bs) side type tif (load 63 1 bs)).

Definition fill_bytes (f : Fill.t) (reserved : list byte) : list byte :=
  le_split 8 (Fill.execution_id f) ++ le_split 8 (Fill.fill_id f) ++ le_split 8 (Fill.order_id f)
  ++ le_split 8 (Fill.exchange_timestamp_us f) ++ le_split 8 (Fill.receive_timestamp_us f)
  ++ le_split 8 (Fill.fill_price f) ++ le_split 8 (Fill.fill_quantity f)
  ++ le_split 4 (Fill.symbol_id f) ++ le_split 4 (Fill.exchange_id f) ++ le_split 4 (Fill.strategy_id f)
  ++ le_split 1 (OrderSide.to_Z (Fill.side f)) ++ le_split 1 (Fill.is_maker f) ++ reserved.

Definition fill_of_bytes (bs : list byte) : option Fill.t :=
  side ← OrderSide.of_Z (load 68 1 bs);
  Some (Fill.mk (load 0 8 bs) (load 8 8 bs) (load 16 8 bs) (load 24 8 bs) (load 32 8 bs)
          (load_s64 40 bs) (load_s64 48 bs) (load 56 4 bs) (load 60 4 bs) (load 64 4 bs)
          side (load 69 1 bs)).

(** ** What the writer and the reader need of a record type *)

Class LogRecord (T : Type) := {
  log_type : Z;
  reserved_size : nat;
  encode : T → list byte → list byte;
  decode : list byte → option T;
  stamp : T → Z;
  (** every field is in the range of its C++ type *)
  wf : T → Prop;
  record_size_pos : (0 < recordSizeForType log_type)%nat;
  encode_length t r : length r = reserved_size → length (encode t r) = recordSizeForType log_type;
  encode_stamp t r : wf t → load (timestampOffsetForType log_type) 8 (encode t r) = stamp t;
  decode_encode t r : wf t → decode (encode t r) = Some t;
  encode_app t r tail : encode t r ++ tail = encode t (r ++ tail);
  log_type_known : log_type = LOG_TYPE_TICK ∨ log_type = LOG_TYPE_ORDER ∨ log_type = LOG_TYPE_FILL;
}.

Ltac solve_length := repeat rewrite ?length_app, ?LittleEndianList.length_le_split; intros ->; done.

Definition wf_tick (t : Tick.t) : Prop :=
  inU 64 (Tick.exchange_timestamp_us t) ∧ inU 64 (Tick.receive_timestamp_us t) ∧
  inU 32 (Tick.exchange_id t) ∧ inU 32 (Tick.symbol_id t) ∧
  inS 64 (Tick.price t) ∧ inS 64 (Tick.quantity t) ∧ inU 8 (Tick.flags t).

Definition wf_order (o : OrderRequest.t) : Prop :=
  inU 64 (OrderRequest.order_id o) ∧ inU 64 (OrderRequest.timestamp_us o) ∧
  inS 64 (OrderRequest.price o) ∧ inS 64 (OrderRequest.quantity o) ∧ inS 64 (OrderRequest.stop_price o) ∧
  inU 64 (OrderRequest.client_order_id o) ∧ inU 32 (OrderRequest.symbol_id o) ∧
  inU 32 (OrderRequest.exchange_id o) ∧ inU 32 (OrderRequest.strategy_id o) ∧
  inU 8 (OrderRequest.strategy_flags o).

Definition wf_fill (f : Fill.t) : Prop :=
  inU 64 (Fill.execution_id f) ∧ inU 64 (Fill.fill_id f) ∧ inU 64 (Fill.order_id f) ∧
  inU 64 (Fill.exchange_timestamp_us f) ∧ inU 64 (Fill.receive_timestamp_us f) ∧
  inS 64 (Fill.fill_price f) ∧ inS 64 (Fill.fill_quantity f) ∧
  inU 32 (Fill.symbol_id f) ∧ inU 32 (Fill.exchange_id f) ∧ inU 32 (Fill.strategy_id f) ∧
  inU 8 (Fill.is_maker f).

(** Evaluates the reads of a concatenation of fields of known widths. *)
Ltac solve_decode :=
  let t := fresh "t" in let r := fresh "r" in let H := fresh "H" in
  intros t r H; destruct t;
  unfold wf_tick, wf_order, wf_fill in H; cbn in H; destruct_and!;
  unfold tick_bytes, order_bytes, fill_bytes, tick_of_bytes, order_of_bytes, fill_of_bytes, load_s64; cbn -[load le_split wrapS Z.modulo];
  repeat first [ rewrite load_here
    | rewrite load_skip by (rewrite LittleEndianList.length_le_split; lia);
      rewrite LittleEndianList.length_le_split; cbn [Nat.sub] ];
  rewrite ?s64_mod by done;
  repeat match goal with
  | |- context [?x mod 2 ^ _] => rewrite (Z.mod_small x) by (unfold inU in *; cbn; lia)
  end.

#[export] Instance tick_record : LogRecord Tick.t.
Proof.
  refine {| log_type := LOG_TYPE_TICK; reserved_size := 22; encode := tick_bytes; decode := tick_of_bytes;
            stamp := Tick.exchange_timestamp_us; wf := wf_tick |}.
  - cbn. lia.
  - intros t r. unfold tick_bytes. solve_length.
  - solve_decode. done.
  - solve_decode. by destruct side.
  - intros t r tail. unfold tick_bytes. by rewrite <-!app_assoc.
  - by left.
Defined.

#[export] Instance order_record : LogRecord OrderRequest.t.
Proof.
  refine {| log_type := LOG_TYPE_ORDER; reserved_size := 64; encode := order_bytes; decode := order_of_bytes;
            stamp := OrderRequest.timestamp_us; wf := wf_order |}.
  - cbn. lia.
  - intros t r. unfold order_bytes. solve_length.
  - solve_decode. done.
  - solve_decode. by destruct side, type, tif.
  - intros t r tail. unfold order_bytes. by rewrite <-!app_assoc.
  - by right; left.
Defined.

#[export] Instance fill_record : LogRecord Fill.t.
Proof.
  refine {| log_type := LOG_TYPE_FILL; reserved_size := 58; encode := fill_bytes; decode := fill_of_bytes;
            stamp := Fill.exchange_timestamp_us; wf := wf_fill |}.
  - cbn. lia.
  - intros t r. unfold fill_bytes. solve_length.
  - solve_decode. done.
  - solve_decode. by destruct side.
  - intros t r tail. unfold fill_bytes. by rewrite <-!app_assoc.
  - by right; right.
Defined.

(** The fields read without decoding the record. *)
Lemma tick_loads : ∀ t r, wf_tick t →
  load 0 8 (tick_bytes t r) = Tick.exchange_timestamp_us t ∧ load_s64 24 (tick_bytes t r) = Tick.price t ∧
  load_s64 32 (tick_bytes t r) = Tick.quantity t ∧ load 40 1 (tick_bytes t r) = TickSide.to_Z (Tick.side t).
Proof. solve_decode. split_and!; try done. by destruct side. Qed.

Lemma order_loads : ∀ o r, wf_order o →
  load 0 8 (order_bytes o r) = OrderRequest.order_id o ∧ load 8 8 (order_bytes o r) = OrderRequest.timestamp_us o ∧
  load 60 1 (order_bytes o r) = OrderSide.to_Z (OrderRequest.side o).
Proof. solve_decode. split_and!; try done. by destruct side. Qed.

Lemma fill_loads : ∀ f r, wf_fill f →
  load 16 8 (fill_bytes f r) = Fill.order_id f ∧ load 24 8 (fill_bytes f r) = Fill.exchange_timestamp_us f ∧
  load_s64 40 (fill_bytes f r) = Fill.fill_price f ∧ load_s64 48 (fill_bytes f r) = Fill.fill_quantity f.
Proof. solve_decode. done. Qed.

(** ** A sequence of records *)

Section records.
Context `{LogRecord T}.
Abbreviation size := (recordSizeForType log_type).

(** The records as they are logged, each with its reserved bytes. *)
Definition records_bytes (rs : list (T * list byte)) : list byte :=
  rs ≫= λ '(t, r), encode t r.

Definition wf_entry (e : T * list byte) : Prop := wf e.1 ∧ length e.2 = reserved_size.

Lemma records_app rs1 rs2 : records_bytes (rs1 ++ rs2) = records_bytes rs1 ++ records_bytes rs2.
Proof. apply bind_app. Qed.

Lemma records_length rs : Forall wf_entry rs → length (records_bytes rs) = (length rs * size)%nat.
Proof.
  induction 1 as [|[t r] rs [_ Hr] _ IH]; [done|]. unfold records_bytes in *. cbn [mbind list_bind length].
  rewrite length_app, IH. cbn in Hr. rewrite encode_length by done. lia.
Qed.

(** What a pointer to the [i]-th record points to. *)
Lemma records_lookup rs i t r tail :
  Forall wf_entry rs → rs !! i = Some (t, r) →
  drop (i * size) (records_bytes rs ++ tail) = encode t (r ++ records_bytes (drop (S i) rs) ++ tail).
Proof.
  intros Hw. revert i. induction Hw as [|[t' r'] rs [Hw Hr] _ IH]; intros i Hi; [done|].
  cbn in Hw, Hr. unfold records_bytes in *. cbn [mbind list_bind].
  pose proof (encode_length t' r' Hr) as Hl. rewrite <-app_assoc. destruct i as [|i].
  - injection Hi as -> ->. by rewrite Nat.mul_0_l, drop_0, encode_app.
  - cbn in Hi. rewrite drop_app_ge by (cbn; lia). rewrite Hl.
    replace (S i * size - size)%nat with (i * size)%nat by lia. by apply IH.
Qed.

(** A log file: the header and the records. *)
Definition log_file (now : Z) (rs : list (T * list byte)) : list byte :=
  file_header log_type now ++ records_bytes rs.
End records.
