(* ===== verification/LogWriter.v ===== *)
(** The binary log writer (include/chronos/logging/log_writer.hpp,
    src/logging/log_writer.cpp): a bounded buffer per record type, flushed into an
    append-only file per type and day.

    The file system is the map [disk_] from paths, a directory and a file name, to
    contents; a [FILE] holds the bytes that stdio has not handed over yet. Appends and
    flushes of a buffer exclude each other by its mutex, so each operation is one
    step; a turn of the background thread is [run_turn]. Whether a path can be opened
    and the clock readings are parameters; writes to an open file succeed. *)
From S2P Require Import Prelude Types Config LogFormat.

(** ** The file system *)

Abbreviation path := (string * string)%type.
Abbreviation Disk := (gmap path (list byte)).

Record FILE := mkFILE { f_path : path; f_pending : list byte }.

Definition content (p : path) (d : Disk) : list byte := default [] (d !! p).

Definition fopen_append (can_open : path → bool) (p : path) (d : Disk) : option FILE * Disk :=
  if can_open p then (Some (mkFILE p []), <[p := content p d]> d) else (None, d).
Definition fwrite (bs : list byte) (f : FILE) : FILE := mkFILE (f_path f) (f_pending f ++ bs).
Definition fflush (f : FILE) (d : Disk) : FILE * Disk :=
  (mkFILE (f_path f) [], <[f_path f := content (f_path f) d ++ f_pending f]> d).
Definition fclose (f : FILE) (d : Disk) : Disk := snd (fflush f d).

(** ** State *)

Record LogBuffer := mkLogBuffer { data : list byte; write_pos : nat }.

Record LogWriter := mkLogWriter {
  log_dir_ : string;
  config_ : LogConfig;
  tick_buf_ : LogBuffer;
  order_buf_ : LogBuffer;
  fill_buf_ : LogBuffer;
  running_ : bool;
  current_date_ : string;
  tick_file_ : option FILE;
  order_file_ : option FILE;
  fill_file_ : option FILE;
  ticks_written_ : Z;
  orders_written_ : Z;
  fills_written_ : Z;
  disk_ : Disk;
}.

(** A freshly constructed writer on a given disk. *)
Definition LogWriter_init (d : Disk) : LogWriter :=
  mkLogWriter EmptyString LogConfig_default (mkLogBuffer [] 0) (mkLogBuffer [] 0) (mkLogBuffer [] 0)
    false EmptyString None None None 0 0 0 d.

(** [todayStr()] and the [nowUs()] of the three headers. *)
Record Clock := mkClock { today : string; tick_now : Z; order_now : Z; fill_now : Z }.

(** ** Appending *)

Definition appendToBuffer (record : list byte) (buf : LogBuffer) : bool * LogBuffer :=
  if (length (data buf) <? write_pos buf + length record)%nat then (false, buf)
  else (true, mkLogBuffer (list_inserts (write_pos buf) record (data buf)) (write_pos buf + length record)).

Definition writeTick (t : Tick.t) (reserved : list byte) (w : LogWriter) : bool * LogWriter :=
  let '(ok, buf) := appendToBuffer (encode t reserved) (tick_buf_ w) in
  if negb ok then (false, w)
  else (true, w {{ tick_buf_ := buf }} {{ ticks_written_ ::= inc64 }}).

Definition writeOrder (o : OrderRequest.t) (reserved : list byte) (w : LogWriter) : bool * LogWriter :=
  let '(ok, buf) := appendToBuffer (encode o reserved) (order_buf_ w) in
  if negb ok then (false, w)
  else (true, w {{ order_buf_ := buf }} {{ orders_written_ ::= inc64 }}).

Definition writeFill (f : Fill.t) (reserved : list byte) (w : LogWriter) : bool * LogWriter :=
  let '(ok, buf) := appendToBuffer (encode f reserved) (fill_buf_ w) in
  if negb ok then (false, w)
  else (true, w {{ fill_buf_ := buf }} {{ fills_written_ ::= inc64 }}).

(** ** Flushing *)

(** The block of [flushBuffer] for one buffer and its file. *)
Definition flush_one (buf : LogBuffer) (file : option FILE) (d : Disk) : LogBuffer * option FILE * Disk :=
  match file with
  | Some f =>
      if (0 <? write_pos buf)%nat then
        let '(f', d') := fflush (fwrite (take (write_pos buf) (data buf)) f) d in
        (mkLogBuffer (data buf) 0, Some f', d')
      else (buf, file, d)
  | None => (buf, file, d)
  end.

Definition flushBuffer (w : LogWriter) : LogWriter :=
  let '(tb, tf, d1) := flush_one (tick_buf_ w) (tick_file_ w) (disk_ w) in
  let '(ob, orf, d2) := flush_one (order_buf_ w) (order_file_ w) d1 in
  let '(fb, ff, d3) := flush_one (fill_buf_ w) (fill_file_ w) d2 in
  w {{ tick_buf_ := tb }} {{ order_buf_ := ob }} {{ fill_buf_ := fb }}
    {{ tick_file_ := tf }} {{ order_file_ := orf }} {{ fill_file_ := ff }} {{ disk_ := d3 }}.

Definition flush (w : LogWriter) : LogWriter := flushBuffer w.

(** ** Files *)

Definition file_name (type date : string) : string := (type ++ "_" ++ date ++ ".bin")%string.

Definition header_type (type : string) : Z :=
  if String.eqb type "order" then LOG_TYPE_ORDER else if String.eqb type "fill" then LOG_TYPE_FILL
  else if String.eqb type "snap" then LOG_TYPE_SNAP else LOG_TYPE_TICK.

Definition close_file (file : option FILE) (d : Disk) : Disk :=
  match file with Some f => fclose f d | None => d end.

Definition closeAllFiles (w : LogWriter) : LogWriter :=
  w {{ disk_ := close_file (fill_file_ w) (close_file (order_file_ w) (close_file (tick_file_ w) (disk_ w))) }}
    {{ tick_file_ := None }} {{ order_file_ := None }} {{ fill_file_ := None }}.

Section files.
Context (can_open : path → bool).

Definition openLogFile (now : Z) (dir type date : string) (d : Disk) : option FILE * Disk :=
  match fopen_append can_open (dir, file_name type date) d with
  | (None, d') => (None, d')
  | (Some f, d') =>
      (Some (if (length (content (f_path f) d') =? 0)%nat then fwrite (file_header (header_type type) now) f else f), d')
  end.

(** The files [deleteOldFiles] removes: the cutoff computed from [retention_days] is
    not used. *)
Definition deletable (dir date : string) (p : path) : bool :=
  let '(pdir, fname) := p in
  String.eqb pdir dir &&
  negb (String.length fname <? 13)%nat &&
  Strings.String.ltb (Strings.String.substring (String.length fname - 12) 8 fname) date &&
  (Strings.String.prefix "tick_" fname || Strings.String.prefix "order_" fname || Strings.String.prefix "fill_" fname).

Definition deleteOldFiles (w : LogWriter) : LogWriter :=
  if retention_days (config_ w) =? 0 then w
  else w {{ disk_ ::= filter (λ '(p, _), deletable (log_dir_ w) (current_date_ w) p = false) }}.

Definition open_files (c : Clock) (w : LogWriter) : LogWriter :=
  let w := w {{ current_date_ := today c }} in
  let '(tf, d1) := openLogFile (tick_now c) (log_dir_ w) "tick" (today c) (disk_ w) in
  let '(orf, d2) := openLogFile (order_now c) (log_dir_ w) "order" (today c) d1 in
  let '(ff, d3) := openLogFile (fill_now c) (log_dir_ w) "fill" (today c) d2 in
  w {{ tick_file_ := tf }} {{ order_file_ := orf }} {{ fill_file_ := ff }} {{ disk_ := d3 }}.

Definition rotateFiles (c : Clock) (w : LogWriter) : LogWriter :=
  deleteOldFiles (open_files c (closeAllFiles (flush w))).

Definition rotateNow (c : Clock) (w : LogWriter) : LogWriter :=
  if String.eqb (today c) (current_date_ w) then w else rotateFiles c w.

(** ** Lifecycle *)

(** The body of the loop of the background thread, after its sleep. *)
Definition run_turn (c : Clock) (w : LogWriter) : LogWriter := flushBuffer (rotateNow c w).

Definition resize_buffer (n : nat) (buf : LogBuffer) : LogBuffer :=
  mkLogBuffer (resize n Byte.x00 (data buf)) (write_pos buf).

(** [mkdir_ok]: create_directories reported no error. *)
Definition initialize (mkdir_ok : bool) (c : Clock) (dir : string) (cfg : LogConfig) (w : LogWriter) : bool * LogWriter :=
  let w := w {{ log_dir_ := dir }} {{ config_ := cfg }} in
  if negb mkdir_ok then (false, w) else
  let n := Z.to_nat (buffer_size cfg) in
  let w := w {{ tick_buf_ ::= resize_buffer n }} {{ order_buf_ ::= resize_buffer n }} {{ fill_buf_ ::= resize_buffer n }} in
  let w := open_files c w in
  match tick_file_ w, order_file_ w, fill_file_ w with
  | Some _, Some _, Some _ => (true, (deleteOldFiles w) {{ running_ := true }})
  | _, _, _ => (false, closeAllFiles w)
  end.

Definition stop (w : LogWriter) : LogWriter :=
  if running_ w then closeAllFiles (flush (w {{ running_ := false }})) else w.

(** ** Sessions *)

Inductive op :=
| WriteTick (t : Tick.t) (reserved : list byte)
| WriteOrder (o : OrderRequest.t) (reserved : list byte)
| WriteFill (f : Fill.t) (reserved : list byte)
| Flush
| Turn (c : Clock).

Definition apply (o : op) (w : LogWriter) : bool * LogWriter :=
  match o with
  | WriteTick t r => writeTick t r w
  | WriteOrder o r => writeOrder o r w
  | WriteFill f r => writeFill f r w
  | Flush => (true, flush w)
  | Turn c => (true, run_turn c w)
  end.

(** The operations in order, with their results. *)
Fixpoint run_ops (ops : list op) (w : LogWriter) : list bool * LogWriter :=
  match ops with
  | [] => ([], w)
  | o :: ops => let '(ok, w1) := apply o w in let '(oks, w2) := run_ops ops w1 in (ok :: oks, w2)
  end.
End files.

(** ** The channels of a session

    The three buffers and files behave alike; the lemmas are stated once, for a kind. *)
Inductive kind := Ticks | Orders | Fills.

Definition kind_name (k : kind) : string :=
  match k with Ticks => "tick" | Orders => "order" | Fills => "fill" end.
Definition buf_of (k : kind) (w : LogWriter) : LogBuffer :=
  match k with Ticks => tick_buf_ w | Orders => order_buf_ w | Fills => fill_buf_ w end.
Definition file_of (k : kind) (w : LogWriter) : option FILE :=
  match k with Ticks => tick_file_ w | Orders => order_file_ w | Fills => fill_file_ w end.

Definition buffered (b : LogBuffer) : list byte := take (write_pos b) (data b).

(** What the file of a channel will contain once everything is flushed. *)
Definition logged (k : kind) (w : LogWriter) : list byte :=
  match file_of k w with
  | Some f => content (f_path f) (disk_ w) ++ f_pending f ++ buffered (buf_of k w)
  | None => []
  end.

(** Channel [k] writes to its file in [dir] for [date], within the bounds of its buffer. *)
Definition channel (dir date : string) (w : LogWriter) (k : kind) : Prop :=
  (∃ f, file_of k w = Some f ∧ f_path f = (dir, file_name (kind_name k) date)) ∧
  (write_pos (buf_of k w) ≤ length (data (buf_of k w)))%nat.

Definition channels (dir date : string) (w : LogWriter) : Prop :=
  log_dir_ w = dir ∧ current_date_ w = date ∧ ∀ k, channel dir date w k.

(** A running writer whose files are those of [date] in [dir]. *)
Definition session (dir date : string) (w : LogWriter) : Prop :=
  channels dir date w ∧ running_ w = true.

(** The bytes an accepted operation adds to the log of a kind. *)
Definition op_bytes (k : kind) (o : op) (ok : bool) : list byte :=
  match k, o, ok with
  | Ticks, WriteTick t r, true => encode t r
  | Orders, WriteOrder o r, true => encode o r
  | Fills, WriteFill f r, true => encode f r
  | _, _, _ => []
  end.

(** The accepted records of a session. *)
Definition accepted {A} (sel : op → option A) (ops : list op) (oks : list bool) : list A :=
  zip ops oks ≫= λ '(o, ok), if (ok : bool) then option_list (sel o) else [].
Definition tick_of (o : op) := match o with WriteTick t r => Some (t, r) | _ => None end.
Definition order_of (o : op) := match o with WriteOrder t r => Some (t, r) | _ => None end.
Definition fill_of (o : op) := match o with WriteFill t r => Some (t, r) | _ => None end.

Definition same_day (date : string) (o : op) : Prop :=
  match o with Turn c => today c = date | _ => True end.

Lemma file_name_inj k1 k2 (dir date : string) :
  (dir, file_name (kind_name k1) date) = (dir, file_name (kind_name k2) date) → k1 = k2.
Proof. by destruct k1, k2. Qed.

Lemma content_insert_eq (p : path) (l : list byte) (d : Disk) : content p (<[p := l]> d) = l.
Proof. unfold content. by rewrite lookup_insert_eq. Qed.
Lemma content_insert_ne (p q : path) (l : list byte) (d : Disk) : p ≠ q → content p (<[q := l]> d) = content p d.
Proof. intros ?. unfold content. by rewrite lookup_insert_ne. Qed.

Lemma take_inserts {A} n (l l' : list A) :
  (n + length l ≤ length l')%nat → take (n + length l) (list_inserts n l l') = take n l' ++ l.
Proof.
  intros Hl. apply list_eq. intros i.
  destruct (decide (i < n)%nat); [|destruct (decide (i < n + length l)%nat)].
  - rewrite lookup_take_lt, lookup_app_l, lookup_take_lt by (rewrite ?length_take; lia).
    by rewrite list_lookup_inserts_lt.
  - rewrite lookup_take_lt, lookup_app_r by (rewrite ?length_take; lia).
    rewrite list_lookup_inserts by lia. rewrite length_take. f_equal. lia.
  - rewrite !lookup_ge_None_2; [done| |]; rewrite ?length_take, ?length_app, ?length_take; lia.
Qed.

Lemma appendToBuffer_ok record b b' :
  appendToBuffer record b = (true, b') →
  buffered b' = buffered b ++ record ∧ (write_pos b' ≤ length (data b'))%nat.
Proof.
  unfold appendToBuffer. destruct (_ <? _)%nat eqn:Hl; intros [= <-]. apply Nat.ltb_ge in Hl.
  unfold buffered. cbn. rewrite take_inserts by done. by rewrite length_inserts.
Qed.

Lemma appendToBuffer_refused record b b' : appendToBuffer record b = (false, b') → b' = b.
Proof. unfold appendToBuffer. by destruct (_ <? _)%nat; intros [=]. Qed.

(** Writing out a buffer moves bytes from memory to the file and loses none. *)
Lemma flush_one_spec b f d :
  let '(b', file', d') := flush_one b (Some f) d in
  ∃ f', file' = Some f' ∧ f_path f' = f_path f ∧ write_pos b' = 0%nat ∧
    content (f_path f) d' ++ f_pending f' = content (f_path f) d ++ f_pending f ++ buffered b ∧
    (∀ q, q ≠ f_path f → d' !! q = d !! q).
Proof.
  unfold flush_one. destruct (0 <? write_pos b)%nat eqn:Hb; cbn.
  - eexists. split_and!; try done; cbn.
    + by rewrite content_insert_eq, app_nil_r.
    + intros q ?. by rewrite lookup_insert_ne.
  - apply Nat.ltb_ge in Hb. exists f. split_and!; try done; [lia|].
    unfold buffered. replace (write_pos b) with 0%nat by lia. by rewrite take_0, app_nil_r.
Qed.

Section session.
Context (can_open : path → bool) (dir date : string).

Abbreviation sess := (session dir date).
Abbreviation chan_path k := (dir, file_name (kind_name k) date).

(** Flushing drains the buffers and leaves the logs as they are. *)
Lemma flushBuffer_channels w :
  channels dir date w → channels dir date (flushBuffer w) ∧ (∀ k, logged k (flushBuffer w) = logged k w) ∧
  ∀ k, write_pos (buf_of k (flushBuffer w)) = 0%nat.
Proof.
  intros (Hd & Hc & Hch).
  destruct (Hch Ticks) as [(tf & Et & Pt) _], (Hch Orders) as [(orf & Eo & Po) _], (Hch Fills) as [(ff & Ef & Pf) _].
  destruct w as [ld cfg tb ob fb run cd tf' of' ff' tw ow fw disk]; cbn in *. subst.
  unfold flushBuffer; cbn -[flush_one].
  pose proof (flush_one_spec tb tf disk) as Ht. destruct (flush_one tb _ disk) as [[tb' tf'] d1].
  pose proof (flush_one_spec ob orf d1) as Ho. destruct (flush_one ob _ d1) as [[ob' of'] d2].
  pose proof (flush_one_spec fb ff d2) as Hf. destruct (flush_one fb _ d2) as [[fb' ff'] d3].
  destruct Ht as (tg & -> & Qt & Wt & Ct & Nt), Ho as (og & -> & Qo & Wo & Co & No), Hf as (fg & -> & Qf & Wf & Cf & Nf).
  unfold content in *. rewrite Pt, Po, Pf in *.
  rewrite !Nt in Co by (intros E; by apply (file_name_inj Orders Ticks) in E).
  rewrite No, Nt in Cf by (intros E; (by apply (file_name_inj Fills Ticks) in E) || by apply (file_name_inj Fills Orders) in E).
  unfold constant. split; [|split].
  - unfold channels, channel; cbn. split_and!; try done. intros []; (split; [eauto|cbn; lia]).
  - intros []; unfold logged, buffered, content; cbn; rewrite ?Qt, ?Qo, ?Qf, ?Pt, ?Po, ?Pf, ?Wt, ?Wo, ?Wf, ?take_0, ?app_nil_r.
    + rewrite Nf, No by (intros E; (by apply (file_name_inj Ticks Fills) in E) || by apply (file_name_inj Ticks Orders) in E). done.
    + rewrite Nf by (intros E; by apply (file_name_inj Orders Fills) in E). done.
    + done.
  - by intros [].
Qed.
Lemma flushBuffer_session w :
  sess w → sess (flushBuffer w) ∧ (∀ k, logged k (flushBuffer w) = logged k w).
Proof.
  intros [Hs Hr]. pose proof (flushBuffer_channels w Hs) as (Hf & Hl & _). split; [split; [done|]|done].
  unfold flushBuffer. by repeat destruct (flush_one _ _ _) as [[? ?] ?].
Qed.

Lemma rotateNow_same_day c w : sess w → today c = date → rotateNow can_open c w = w.
Proof. intros [(_ & Hd & _) _] Hc. unfold rotateNow. by rewrite Hd, Hc, String.eqb_refl. Qed.

Lemma apply_session o w :
  sess w → same_day date o →
  let '(ok, w') := apply can_open o w in
  sess w' ∧ ∀ k, logged k w' = logged k w ++ op_bytes k o ok.
Proof.
  intros Hs Ho. pose proof (flushBuffer_session w Hs) as [Hf Hl].
  destruct o as [t r|o r|f r| |c]; cbn.
  4: { split; [done|]. intros k. rewrite Hl. by destruct k; cbn; rewrite app_nil_r. }
  4: { unfold run_turn. rewrite rotateNow_same_day by done. split; [done|].
       intros k. rewrite Hl. by destruct k; cbn; rewrite app_nil_r. }
  all: destruct Hs as [(Hd & Hc & Hch) Hr].
  1: unfold writeTick. 2: unfold writeOrder. 3: unfold writeFill.
  all: destruct (appendToBuffer _ _) as [[] b] eqn:Hb; cbn;
    [|split; [done|]; intros []; cbn; by rewrite app_nil_r].
  all: apply appendToBuffer_ok in Hb as [Hb Hle]; unfold constant; split;
    [split; [split_and!; [done|done|intros k; specialize (Hch k); by destruct k, Hch]|done]|].
  all: intros k; specialize (Hch k) as [(g & Hg & _) _]; destruct w; destruct k; unfold logged in *; cbn in *;
    rewrite ?Hg, ?Hb, ?app_nil_r, ?app_assoc; done.
Qed.

Lemma run_ops_session ops w :
  sess w → Forall (same_day date) ops →
  let '(oks, w') := run_ops can_open ops w in
  sess w' ∧ length oks = length ops ∧
  ∀ k, logged k w' = logged k w ++ (zip ops oks ≫= λ '(o, ok), op_bytes k o ok).
Proof.
  intros Hs Ho. revert w Hs. induction Ho as [|o ops Ho _ IH]; intros w Hs; cbn [run_ops].
  - split_and!; try done. intros k. cbn. by rewrite app_nil_r.
  - pose proof (apply_session o w Hs Ho) as H. destruct (apply can_open o w) as [ok w1].
    destruct H as [Hs1 Hl1]. specialize (IH w1 Hs1). destruct (run_ops can_open ops w1) as [oks w2].
    destruct IH as (Hs2 & Hn & Hl2). split_and!; [done|cbn; by rewrite Hn|].
    intros k. rewrite Hl2, Hl1. cbn. by rewrite app_assoc.
Qed.

(** Stopping hands every byte to the file system. *)
Lemma stop_session w :
  sess w → ∀ k, content (chan_path k) (disk_ (stop w)) = logged k w.
Proof.
  intros [Hs Hr] k. unfold stop. rewrite Hr. unfold flush.
  assert (channels dir date (w {{ running_ := false }})) as Hs' by exact Hs.
  pose proof (flushBuffer_channels _ Hs') as (Hf & Hl & Hw).
  transitivity (logged k (flushBuffer (w {{ running_ := false }}))); [|by rewrite Hl; destruct w, k].
  set (w' := flushBuffer _) in *. clearbody w'. clear Hl Hs Hr Hs'.
  destruct Hf as (_ & _ & Hch).
  destruct (Hch Ticks) as [(tf & Et & Pt) _], (Hch Orders) as [(og & Eo & Po) _], (Hch Fills) as [(ff & Ef & Pf) _].
  specialize (Hw k). unfold closeAllFiles, logged, buffered.
  cbn in Et, Eo, Ef, Pt, Po, Pf |- *. rewrite Et, Eo, Ef. unfold fclose; cbn. rewrite Pt, Po, Pf.
  destruct k; cbn in *; rewrite ?Et, ?Eo, ?Ef, ?Pt, ?Po, ?Pf, Hw, take_0, app_nil_r;
    repeat first [rewrite content_insert_eq | rewrite content_insert_ne by done]; done.
Qed.
End session.

(** ** Opening the files of a day *)

Definition kind_type (k : kind) : Z :=
  match k with Ticks => LOG_TYPE_TICK | Orders => LOG_TYPE_ORDER | Fills => LOG_TYPE_FILL end.
Definition header_now (k : kind) (c : Clock) : Z :=
  match k with Ticks => tick_now c | Orders => order_now c | Fills => fill_now c end.

(** An empty or new file gets a header, an existing one is continued. *)
Definition opened_log (log_type now : Z) (old : list byte) : list byte :=
  if (length old =? 0)%nat then old ++ file_header log_type now else old.

Lemma openLogFile_spec can_open now dir type date d :
  let '(file, d') := openLogFile can_open now dir type date d in
  (∀ q, q ≠ (dir, file_name type date) → d' !! q = d !! q) ∧
  ∀ f, file = Some f →
    f_path f = (dir, file_name type date) ∧
    content (dir, file_name type date) d' ++ f_pending f
      = opened_log (header_type type) now (content (dir, file_name type date) d).
Proof.
  unfold openLogFile, fopen_append. destruct (can_open _); [|done]. cbn.
  split; [intros q ?; by rewrite lookup_insert_ne|].
  unfold opened_log. intros f [= <-].
  rewrite (content_insert_eq (dir, file_name type date) (content (dir, file_name type date) d) d).
  destruct (_ =? _)%nat; cbn; by rewrite ?app_nil_r.
Qed.

(** The date that [deleteOldFiles] reads off one of the file names. *)
Lemma file_name_date k date :
  String.length date = 8%nat →
  Strings.String.substring (String.length (file_name (kind_name k) date) - 12) 8 (file_name (kind_name k) date) = date.
Proof.
  intros Hl. do 8 (destruct date as [|? date]; [done|]). destruct date; [|done]. by destruct k.
Qed.

Lemma string_ltb_irrefl s : Strings.String.ltb s s = false.
Proof.
  unfold Strings.String.ltb. assert (Strings.String.compare s s = Eq) as ->; [|done].
  induction s as [|a s IH]; [done|]. cbn. unfold Ascii.compare. by rewrite N.compare_refl.
Qed.

Lemma deletable_name dir k date today :
  String.length date = 8%nat →
  deletable dir today (dir, file_name (kind_name k) date) = Strings.String.ltb date today.
Proof.
  intros Hl. unfold deletable. rewrite String.eqb_refl, file_name_date by done. cbn [andb].
  assert ((String.length (file_name (kind_name k) date) <? 13)%nat = false) as ->.
  { do 8 (destruct date as [|? date]; [done|]). by destruct date, k. }
  assert (Strings.String.prefix "tick_" (file_name (kind_name k) date) || Strings.String.prefix "order_" (file_name (kind_name k) date)
          || Strings.String.prefix "fill_" (file_name (kind_name k) date) = true) as ->
    by (destruct date; [done|by destruct k]).
  by rewrite andb_true_r.
Qed.

Section opening.
Context (can_open : path → bool).

(** The files of a day once they are open: all three, or initialisation fails. *)
Lemma open_files_logged c w k f :
  file_of k (open_files can_open c w) = Some f →
  let p := (log_dir_ w, file_name (kind_name k) (today c)) in
  f_path f = p ∧
  content p (disk_ (open_files can_open c w)) ++ f_pending f
    = opened_log (kind_type k) (header_now k c) (content p (disk_ w)).
Proof.
  unfold open_files. cbn -[openLogFile].
  pose proof (openLogFile_spec can_open (tick_now c) (log_dir_ w) "tick" (today c) (disk_ w)) as Ht.
  destruct (openLogFile _ _ _ "tick" _ _) as [tf d1] eqn:Et.
  pose proof (openLogFile_spec can_open (order_now c) (log_dir_ w) "order" (today c) d1) as Ho.
  destruct (openLogFile _ _ _ "order" _ _) as [og d2] eqn:Eo.
  pose proof (openLogFile_spec can_open (fill_now c) (log_dir_ w) "fill" (today c) d2) as Hf.
  destruct (openLogFile _ _ _ "fill" _ _) as [ff d3]. clear Et Eo. cbn. unfold constant, content in *.
  destruct Ht as [Nt Ht], Ho as [No Ho], Hf as [Nf Hf].
  destruct k; cbn; intros Hk; [apply Ht in Hk as [-> Hc]|apply Ho in Hk as [-> Hc]|apply Hf in Hk as [-> Hc]];
    (split; [done|]); rewrite ?Nf, ?No, ?Nt in * by done; exact Hc.
Qed.

(** Expiry spares the files of the current day. *)
Lemma deleteOldFiles_content k w :
  String.length (current_date_ w) = 8%nat →
  let p := (log_dir_ w, file_name (kind_name k) (current_date_ w)) in
  content p (disk_ (deleteOldFiles w)) = content p (disk_ w).
Proof.
  intros Hl p. unfold deleteOldFiles. destruct (_ =? _); [done|]. unfold content; cbn. f_equal.
  destruct (disk_ w !! p) as [l|] eqn:Hp.
  - apply map_lookup_filter_Some. split; [done|]. subst p. by rewrite deletable_name, string_ltb_irrefl.
  - apply map_lookup_filter_None. by left.
Qed.

Lemma deleteOldFiles_same w :
  log_dir_ (deleteOldFiles w) = log_dir_ w ∧ current_date_ (deleteOldFiles w) = current_date_ w ∧
  ∀ k, buf_of k (deleteOldFiles w) = buf_of k w ∧ file_of k (deleteOldFiles w) = file_of k w.
Proof. unfold deleteOldFiles. destruct (_ =? _); split_and!; try done; by intros []. Qed.

(** A successful initialisation starts a session whose logs are what is on disk, or
    just a header. *)
Lemma initialize_session mkdir_ok c dir cfg d w :
  String.length (today c) = 8%nat →
  initialize can_open mkdir_ok c dir cfg (LogWriter_init d) = (true, w) →
  session dir (today c) w ∧
  ∀ k, logged k w = opened_log (kind_type k) (header_now k c) (content (dir, file_name (kind_name k) (today c)) d).
Proof.
  intros Hl. unfold initialize. destruct mkdir_ok; [|done]. cbn [negb].
  match goal with |- context [open_files can_open c ?x] => set (w0 := x) end.
  assert (log_dir_ w0 = dir ∧ disk_ w0 = d) as [Hdir Hdisk] by done.
  assert (∀ k, write_pos (buf_of k (open_files can_open c w0)) = 0%nat) as Hw.
  { intros k. unfold open_files. by repeat destruct (openLogFile _ _ _ _ _ _); destruct k. }
  assert (log_dir_ (open_files can_open c w0) = dir ∧ current_date_ (open_files can_open c w0) = today c) as [Hdir1 Hc1].
  { unfold open_files. by repeat destruct (openLogFile _ _ _ _ _ _). }
  pose proof (λ k f, open_files_logged c w0 k f) as Ho. rewrite Hdir, Hdisk in Ho. clearbody w0.
  set (w1 := open_files can_open c w0) in *. clearbody w1.
  destruct (tick_file_ w1) as [tf|] eqn:Et, (order_file_ w1) as [og|] eqn:Eo, (fill_file_ w1) as [ff|] eqn:Ef; intros [= <-].
  pose proof (deleteOldFiles_same w1) as (Hdir2 & Hc2 & Hk).
  assert (∀ k, ∃ f, file_of k w1 = Some f) as Hex by (intros []; eauto).
  split.
  - split; [|done]. split; [etransitivity; [exact Hdir2|done]|].
    split; [etransitivity; [exact Hc2|done]|]. intros k. destruct (Hk k) as [Hb Hf], (Hex k) as [f Hkf].
    destruct (Ho k f Hkf) as [Hp _]. unfold channel.
    change (file_of k _) with (file_of k (deleteOldFiles w1)).
    change (buf_of k _) with (buf_of k (deleteOldFiles w1)). rewrite Hf, Hb, Hw. split; [eauto|lia].
  - intros k. destruct (Hk k) as [Hb Hf], (Hex k) as [f Hkf]. destruct (Ho k f Hkf) as [Hp Hc].
    unfold logged. change (file_of k _) with (file_of k (deleteOldFiles w1)).
    change (buf_of k _) with (buf_of k (deleteOldFiles w1)). cbn [disk_]. rewrite Hf, Hb, Hkf. unfold buffered. rewrite Hw, take_0, app_nil_r.
    rewrite <-Hc, Hp. f_equal. rewrite <-Hdir1, <-Hc1. apply deleteOldFiles_content. by rewrite Hc1.
Qed.

Lemma flush_one_disk b file d b' file' d' q :
  flush_one b file d = (b', file', d') → (∀ f, file = Some f → f_path f ≠ q) → d' !! q = d !! q.
Proof.
  destruct file as [f|]; [|by intros [= _ _ <-]].
  pose proof (flush_one_spec b f d) as H. intros E. rewrite E in H.
  destruct H as (_ & _ & _ & _ & _ & H). intros Hq. apply H. intros ->. by apply (Hq f).
Qed.

Lemma flushBuffer_disk w q :
  (∀ k f, file_of k w = Some f → f_path f ≠ q) → disk_ (flushBuffer w) !! q = disk_ w !! q.
Proof.
  intros Hq. unfold flushBuffer.
  destruct (flush_one (tick_buf_ w) _ _) as [[? ?] d1] eqn:E1. apply (flush_one_disk _ _ _ _ _ _ q) in E1; [|exact (Hq Ticks)].
  destruct (flush_one (order_buf_ w) _ _) as [[? ?] d2] eqn:E2. apply (flush_one_disk _ _ _ _ _ _ q) in E2; [|exact (Hq Orders)].
  destruct (flush_one (fill_buf_ w) _ _) as [[? ?] d3] eqn:E3. apply (flush_one_disk _ _ _ _ _ _ q) in E3; [|exact (Hq Fills)].
  cbn. unfold constant. congruence.
Qed.

(** Rotation leaves no log file of an earlier day. *)
Lemma rotateFiles_deletes c w p :
  retention_days (config_ w) ≠ 0 → deletable (log_dir_ w) (today c) p = true →
  disk_ (rotateFiles can_open c w) !! p = None ∧
  ∀ k f, file_of k (rotateFiles can_open c w) = Some f → f_path f = (log_dir_ w, file_name (kind_name k) (today c)).
Proof.
  intros Hr Hdel. unfold rotateFiles.
  set (w0 := closeAllFiles (flush w)).
  assert (log_dir_ w0 = log_dir_ w ∧ config_ w0 = config_ w) as [Hdir Hcfg].
  { subst w0. unfold flush, flushBuffer. by repeat destruct (flush_one _ _ _) as [[? ?] ?]. }
  assert (log_dir_ (open_files can_open c w0) = log_dir_ w0 ∧ config_ (open_files can_open c w0) = config_ w0
    ∧ current_date_ (open_files can_open c w0) = today c) as (Hdir1 & Hcfg1 & Hc1).
  { unfold open_files. by repeat destruct (openLogFile _ _ _ _ _ _). }
  pose proof (λ k f, open_files_logged c w0 k f) as Ho. rewrite Hdir in Ho. clearbody w0.
  set (w1 := open_files can_open c w0) in *. clearbody w1. split.
  - unfold deleteOldFiles. rewrite (proj2 (Z.eqb_neq _ _)) by congruence. cbn.
    apply map_lookup_filter_None. right. intros l _. rewrite Hc1, Hdir1, Hdir, Hdel. done.
  - intros k f Hf. rewrite (proj2 (proj2 (proj2 (deleteOldFiles_same w1)) k)) in Hf. by apply Ho in Hf as [? _].
Qed.
End opening.

(** ** The records of a session *)

Lemma accepted_bytes `{LogRecord T} k (sel : op → option (T * list byte)) ops oks :
  (∀ o ok, op_bytes k o ok = if (ok : bool) then from_option (λ '(t, r), encode t r) [] (sel o) else []) →
  (zip ops oks ≫= λ '(o, ok), op_bytes k o ok) = records_bytes (accepted sel ops oks).
Proof.
  intros Hsel. unfold accepted. induction (zip ops oks) as [|[o ok] l IH]; [done|].
  cbn. rewrite bind_app, Hsel, IH. f_equal. destruct ok, (sel o) as [[t r]|]; cbn; by rewrite ?app_nil_r.
Qed.

Lemma accepted_ticks ops oks :
  (zip ops oks ≫= λ '(o, ok), op_bytes Ticks o ok) = records_bytes (accepted tick_of ops oks).
Proof. apply accepted_bytes. by intros [] []. Qed.
Lemma accepted_orders ops oks :
  (zip ops oks ≫= λ '(o, ok), op_bytes Orders o ok) = records_bytes (accepted order_of ops oks).
Proof. apply accepted_bytes. by intros [] []. Qed.
Lemma accepted_fills ops oks :
  (zip ops oks ≫= λ '(o, ok), op_bytes Fills o ok) = records_bytes (accepted fill_of ops oks).
Proof. apply accepted_bytes. by intros [] []. Qed.

(** What is on disk after a session of one day: initialisation, any interleaving of
    writes, flushes and turns of the background thread, and [stop]. *)
Lemma session_disk can_open mkdir_ok c dir cfg d w ops :
  String.length (today c) = 8%nat →
  initialize can_open mkdir_ok c dir cfg (LogWriter_init d) = (true, w) →
  Forall (same_day (today c)) ops →
  let '(oks, w') := run_ops can_open ops w in
  ∀ k, content (dir, file_name (kind_name k) (today c)) (disk_ (stop w'))
       = opened_log (kind_type k) (header_now k c) (content (dir, file_name (kind_name k) (today c)) d)
         ++ (zip ops oks ≫= λ '(o, ok), op_bytes k o ok).
Proof.
  intros Hl Hi Ho. apply initialize_session in Hi as [Hs Hlog]; [|done].
  pose proof (run_ops_session can_open dir (today c) ops w Hs Ho) as H.
  destruct (run_ops can_open ops w) as [oks w']. destruct H as (Hs' & _ & Hl'). intros k.
  by rewrite (stop_session dir (today c)), Hl', Hlog.
Qed.

(** ** Properties *)

(** Whatever the retention period, the first turn of the background thread on a
    later day leaves no log file of any earlier day, not even the one it has just
    flushed and closed. *)
Lemma rotation_erases_history can_open c w k old :
  today c ≠ current_date_ w → retention_days (config_ w) ≠ 0 →
  String.length old = 8%nat → String.length (today c) = 8%nat → Strings.String.ltb old (today c) = true →
  disk_ (run_turn can_open c w) !! (log_dir_ w, file_name (kind_name k) old) = None.
Proof.
  intros Hne Hr Hlo Hlt Hlater. unfold run_turn, rotateNow. rewrite (proj2 (String.eqb_neq _ _)) by done.
  assert (deletable (log_dir_ w) (today c) (log_dir_ w, file_name (kind_name k) old) = true) as Hdel
    by by rewrite deletable_name.
  destruct (rotateFiles_deletes can_open c w _ Hr Hdel) as [Hnone Hpaths].
  rewrite flushBuffer_disk; [done|]. intros k' f Hf. rewrite (Hpaths k' f Hf). intros E.
  rewrite <-E, deletable_name, string_ltb_irrefl in Hdel; done.
Qed.

Definition sample_clock (day : string) : Clock := mkClock day 1000 1001 1002.
Definition sample_log_config : LogConfig := mkLogConfig "logs" 160 100 30 true true true true false.
Definition sample_tick (ts : Z) : Tick.t := Tick.mk ts (ts + 1) 1 7 100 (-5) TickSide.ASK 3.
Definition sample_writer : LogWriter :=
  snd (initialize (λ _, true) true (sample_clock "20260101") "logs" sample_log_config (LogWriter_init ∅)).

(** One tick logged on the first of January is on disk that day and gone on the second,
    with a retention period of thirty days. *)
Lemma rotation_erases_history_witness :
  let w := flush (snd (writeTick (sample_tick 5) (replicate 22 Byte.x00) sample_writer)) in
  let p := ("logs", file_name (kind_name Ticks) "20260101") in
  length (content p (disk_ w)) = 128%nat ∧
  disk_ (run_turn (λ _, true) (sample_clock "20260102") w) !! p = None.
Proof.
  intros w p. split; [vm_compute; reflexivity|].
  change p with (log_dir_ w, file_name (kind_name Ticks) "20260101").
  apply (rotation_erases_history (λ _, true) (sample_clock "20260102") w Ticks "20260101");
    [discriminate|discriminate|reflexivity|reflexivity|reflexivity].
Defined.
