(* ===== verification/LogReader.v ===== *)
(** The binary log reader (include/chronos/logging/log_reader.hpp,
    src/logging/log_reader.cpp): opening and checking a log file, access to its records,
    the binary search for a timestamp and the validation of a record; and the round
    trip with the writer.

    The mapped region is the content the file had when it was opened; a pointer into it
    is the rest of the region from there, the null pointer is [None]. *)
From S2P Require Import Prelude Types LogFormat LogWriter.

Module LogFileHeader.
Record t := mk { magic : Z; version : Z; log_type : Z; created_timestamp_us : Z }.
Definition init : t := mk 0 0 0 0.
End LogFileHeader.

Record LogReader := mkLogReader {
  fd_ : bool;                               (* the descriptor is open *)
  mapped_data_ : option (list byte);
  file_size_ : nat;
  record_size_ : nat;
  record_count_ : nat;
  timestamp_offset_ : nat;
  header_ : LogFileHeader.t;
  filename_ : path;
}.

Definition LogReader_init : LogReader :=
  mkLogReader false None 0 0 0 0 LogFileHeader.init (EmptyString, EmptyString).

Definition reset (r : LogReader) : LogReader :=
  mkLogReader false None 0 0 0 0 LogFileHeader.init (filename_ r).

(** The moved-to reader and what is left of the other. *)
Definition moveFrom (other : LogReader) : LogReader * LogReader :=
  (other, reset (other {{ filename_ := (EmptyString, EmptyString) }})).

Definition close (r : LogReader) : LogReader := reset r.
Definition isOpen (r : LogReader) : bool := bool_decide (is_Some (mapped_data_ r)).

(** [mmap_ok]: the mapping succeeded. A file that exists can be opened and sized. *)
Definition open (mmap_ok : bool) (filepath : path) (d : Disk) (r : LogReader) : bool * LogReader :=
  let r := close r in
  match d !! filepath with
  | None => (false, r)
  | Some raw =>
      let r := r {{ file_size_ := length raw }} in
      if (length raw <? HEADER_SIZE)%nat then (false, r)
      else if negb mmap_ok then (false, r)
      else
        let h := LogFileHeader.mk (load 0 8 raw) (load 8 4 raw) (load 12 4 raw) (load 16 8 raw) in
        let r := r {{ fd_ := true }} {{ mapped_data_ := Some raw }} {{ header_ := h }} in
        if negb (LogFileHeader.magic h =? LOG_MAGIC) then (false, close r)
        else
          let size := recordSizeForType (LogFileHeader.log_type h) in
          let r := r {{ record_size_ := size }}
                     {{ timestamp_offset_ := timestampOffsetForType (LogFileHeader.log_type h) }} in
          if (size =? 0)%nat then (false, close r)
          else (true, r {{ record_count_ := ((length raw - HEADER_SIZE) / size)%nat }} {{ filename_ := filepath }})
  end.

Definition recordAt (index : nat) (r : LogReader) : option (list byte) :=
  if (record_count_ r <=? index)%nat then None
  else drop (HEADER_SIZE + index * record_size_ r) <$> mapped_data_ r.

Definition logType (r : LogReader) : Z := LogFileHeader.log_type (header_ r).

Definition tickAt (index : nat) (r : LogReader) : option (list byte) :=
  if logType r =? 0 then recordAt index r else None.
Definition orderAt (index : nat) (r : LogReader) : option (list byte) :=
  if logType r =? 1 then recordAt index r else None.
Definition fillAt (index : nat) (r : LogReader) : option (list byte) :=
  if logType r =? 2 then recordAt index r else None.

Definition timestampAt (index : nat) (r : LogReader) : Z :=
  match recordAt index r with
  | None => 0
  | Some rec => load (timestamp_offset_ r) 8 rec
  end.

Definition seekToTimestamp (timestamp_us : Z) (r : LogReader) : nat :=
  if (record_count_ r =? 0)%nat then 0
  else if timestampAt (record_count_ r - 1) r <? timestamp_us then record_count_ r
  else bsearch (λ mid, timestampAt mid r <? timestamp_us) 0 (record_count_ r).

Definition MAX_TIMESTAMP : Z := 4102444800000000.

(** [None] for a record that passes, otherwise the text left in [error]. *)
Definition validateRecord (index : nat) (r : LogReader) : option string :=
  match recordAt index r with
  | None => Some "index out of bounds"%string
  | Some rec =>
      let ts := load (timestamp_offset_ r) 8 rec in
      if ts =? 0 then Some "timestamp is zero"%string
      else if MAX_TIMESTAMP <? ts then Some "timestamp unreasonably large"%string
      else if logType r =? 0 then
        if (load_s64 24 rec <? 0) || (load_s64 32 rec <? 0) then Some "negative price or quantity in tick"%string
        else if 2 <? load 40 1 rec then Some "invalid tick side"%string
        else None
      else if logType r =? 1 then
        if load 0 8 rec =? 0 then Some "order_id is zero"%string
        else if 1 <? load 60 1 rec then Some "invalid order side"%string
        else None
      else if logType r =? 2 then
        if load 16 8 rec =? 0 then Some "fill order_id is zero"%string
        else if (load_s64 40 rec <? 0) || (load_s64 48 rec <? 0) then Some "negative price or quantity in fill"%string
        else None
      else None
  end.

Record LogFileSet := mkLogFileSet { tick : LogReader; order : LogReader; fill : LogReader }.

Definition openLogDirectory (mmap_ok dir_exists : bool) (todayStr dir date : string) (d : Disk) : LogFileSet :=
  let day := if String.eqb date EmptyString then todayStr else date in
  if negb dir_exists then mkLogFileSet LogReader_init LogReader_init LogReader_init
  else mkLogFileSet (snd (open mmap_ok (dir, file_name "tick" day) d LogReader_init))
                    (snd (open mmap_ok (dir, file_name "order" day) d LogReader_init))
                    (snd (open mmap_ok (dir, file_name "fill" day) d LogReader_init)).

(** ** Reading back a log *)

Section reading.
Context `{LogRecord T}.
Abbreviation size := (recordSizeForType log_type).

Lemma header_length type now : length (file_header type now) = 64%nat.
Proof. unfold file_header. by rewrite !length_app, !LittleEndianList.length_le_split, length_replicate. Qed.

Lemma header_loads type now tail :
  0 ≤ type < 2 ^ 32 →
  load 0 8 (file_header type now ++ tail) = LOG_MAGIC ∧ load 12 4 (file_header type now ++ tail) = type.
Proof.
  intros ?. unfold file_header. rewrite <-!app_assoc. split.
  - by rewrite load_here.
  - rewrite !load_skip by (rewrite ?LittleEndianList.length_le_split; cbn; lia).
    rewrite !LittleEndianList.length_le_split. cbn [Nat.sub]. rewrite load_here. by apply Z.mod_small.
Qed.

Lemma log_type_range : 0 ≤ log_type < 2 ^ 32.
Proof. destruct log_type_known as [-> | [-> | ->]]; done. Qed.

(** [r] reads the records [rs]: a record pointer points to the record, its reserved
    bytes and then to something else. *)
Definition reader_of (rs : list (T * list byte)) (r : LogReader) : Prop :=
  logType r = log_type ∧ record_count_ r = length rs ∧
  timestamp_offset_ r = timestampOffsetForType log_type ∧
  ∃ more, ∀ i, recordAt i r = (λ e, encode e.1 (e.2 ++ more i)) <$> rs !! i.

Lemma open_log d p now rs tail r0 :
  d !! p = Some (log_file now rs ++ tail) → (length tail < size)%nat → Forall wf_entry rs →
  ∃ r, open true p d r0 = (true, r) ∧ filename_ r = p ∧ isOpen r = true ∧ reader_of rs r.
Proof.
  intros Hp Ht Hw. pose proof record_size_pos as Hpos. unfold open, log_file in *. rewrite Hp.
  set (raw := (file_header log_type now ++ records_bytes rs) ++ tail) in *.
  assert (length raw = 64 + length rs * size + length tail)%nat as Hraw.
  { subst raw. rewrite !length_app, header_length, records_length by done. lia. }
  destruct (header_loads log_type now (records_bytes rs ++ tail) log_type_range) as [Hm Hty].
  rewrite app_assoc in Hm, Hty. fold raw in Hm, Hty. rewrite Hm, Hty.
  rewrite (proj2 (Nat.ltb_ge _ _)) by (unfold HEADER_SIZE; lia). cbn -[recordSizeForType timestampOffsetForType Nat.div].
  rewrite (proj2 (Nat.eqb_neq _ _)) by lia.
  eexists. split; [done|].
  assert ((length raw - HEADER_SIZE) / size = length rs)%nat as Hcount.
  { rewrite Hraw. unfold HEADER_SIZE. symmetry. apply (Nat.div_unique _ size (length rs) (length tail)); nia. }
  cbn -[recordSizeForType timestampOffsetForType Nat.div]. unfold constant. rewrite Hcount.
  split; [done|split; [done|]]. unfold reader_of.
  split; [done|split; [done|split; [done|]]]. exists (λ i, records_bytes (drop (S i) rs) ++ tail). intros i.
  unfold recordAt. cbn -[recordSizeForType Nat.add HEADER_SIZE].
  destruct (rs !! i) as [[t res]|] eqn:Hi; cbn -[recordSizeForType Nat.add HEADER_SIZE].
  - apply lookup_lt_Some in Hi as Hlt. rewrite (proj2 (Nat.leb_gt _ _)) by done.
    f_equal. subst raw. unfold HEADER_SIZE. rewrite <-app_assoc, drop_app_ge by (rewrite header_length; lia).
    rewrite header_length. replace (64 + i * size - 64)%nat with (i * size)%nat by lia.
    by apply records_lookup.
  - apply lookup_ge_None in Hi. by rewrite (proj2 (Nat.leb_le _ _)).
Qed.

Lemma reader_decodes rs r i :
  reader_of rs r → Forall wf_entry rs → recordAt i r ≫= decode = fst <$> rs !! i.
Proof.
  intros (_ & _ & _ & more & Hr) Hw. rewrite Hr. destruct (rs !! i) as [[t res]|] eqn:Hi; [|done].
  cbn. apply decode_encode. by apply (Forall_lookup_1 _ _ _ _ Hw Hi).
Qed.

Lemma reader_timestamp rs r i t res :
  reader_of rs r → Forall wf_entry rs → rs !! i = Some (t, res) → timestampAt i r = stamp t.
Proof.
  intros (_ & _ & Ho & more & Hr) Hw Hi. unfold timestampAt. rewrite Hr, Hi, Ho. cbn.
  apply encode_stamp. by apply (Forall_lookup_1 _ _ _ _ Hw Hi).
Qed.

(** What the log file of a day holds before a session: nothing, or records. *)
Definition day_log (d : Disk) (p : path) (rs : list (T * list byte)) : Prop :=
  (content p d = [] ∧ rs = []) ∨ ∃ now, content p d = log_file now rs.

Lemma day_log_continued d d' p rs rs' now :
  day_log d p rs → content p d' = opened_log log_type now (content p d) ++ records_bytes rs' →
  ∃ now', d' !! p = Some (log_file now' (rs ++ rs')).
Proof.
  assert (∀ q l, content q d' = l → l ≠ [] → d' !! q = Some l) as Hsome.
  { intros q l. unfold content. destruct (d' !! q); cbn; congruence. }
  intros [[-> ->]|[now' Hd]] Hc; unfold opened_log in Hc.
  - exists now. by apply Hsome.
  - rewrite Hd in Hc. unfold log_file in Hc |- *. rewrite (proj2 (Nat.eqb_neq _ _)) in Hc
      by (rewrite length_app, header_length; lia).
    exists now'. apply Hsome; [by rewrite Hc, records_app, app_assoc|done].
Qed.
End reading.

(** ** Properties *)

Definition wf_op (o : op) : Prop :=
  match o with
  | WriteTick t r => wf_entry (t, r)
  | WriteOrder o r => wf_entry (o, r)
  | WriteFill f r => wf_entry (f, r)
  | _ => True
  end.

Lemma accepted_wf `{LogRecord T} (sel : op → option (T * list byte)) ops oks :
  (∀ o e, sel o = Some e → wf_op o → wf_entry e) → Forall wf_op ops → Forall wf_entry (accepted sel ops oks).
Proof.
  intros Hsel Hops. unfold accepted. revert oks.
  induction Hops as [|o ops Ho _ IH]; intros [|ok oks]; cbn; try constructor.
  apply Forall_app. split; [|apply IH]. destruct ok; [|constructor].
  destruct (sel o) as [e|] eqn:He; cbn; [|constructor]. constructor; [|constructor]. by apply (Hsel o).
Qed.

(** The accessor [at_] of a reader yields exactly the records [rs], in order. *)
Definition replays `{LogRecord T} (at_ : nat → LogReader → option (list byte))
    (rs : list (T * list byte)) (r : LogReader) : Prop :=
  record_count_ r = length rs ∧ ∀ i, at_ i r ≫= decode = fst <$> rs !! i.

(** One kind of record of a session. *)
Lemma session_replays `{LogRecord T} (at_ : nat → LogReader → option (list byte)) d d' p now rs rs' r0 :
  (∀ i r, logType r = log_type → at_ i r = recordAt i r) →
  day_log d p rs → content p d' = opened_log log_type now (content p d) ++ records_bytes rs' →
  Forall wf_entry rs → Forall wf_entry rs' →
  replays at_ (rs ++ rs') (snd (open true p d' r0)).
Proof.
  intros Hat Hd Hc Hw Hw'. destruct (day_log_continued d d' p rs rs' now Hd Hc) as [now' Hp].
  assert (Forall wf_entry (rs ++ rs')) as Hall by by apply Forall_app.
  destruct (open_log d' p now' (rs ++ rs') [] r0) as (r & -> & _ & _ & Hr);
    [by rewrite app_nil_r|apply record_size_pos|done|].
  split; [apply Hr|]. intros i. rewrite Hat by apply Hr. by apply reader_decodes.
Qed.

(** C15: a logging session within one day ([same_day]: every turn of the background
    thread, which rotates the files, sees the date the log was opened with; a session that crosses
    midnight starts the files anew and is not covered) and its replay: the readers
    opened on the log directory of the day after [stop] yield, per record type, exactly the records the day's files held
    before followed by those whose write was accepted, complete and in the order of the
    writes, whatever the interleaving of the writes with flushes and with the turns of
    the background thread. *)
Theorem log_roundtrip can_open mkdir_ok c dir cfg d w ops ticks orders fills clock :
  String.length (today c) = 8%nat →
  initialize can_open mkdir_ok c dir cfg (LogWriter_init d) = (true, w) →
  Forall (same_day (today c)) ops → Forall wf_op ops →
  day_log d (dir, file_name "tick" (today c)) ticks → Forall wf_entry ticks →
  day_log d (dir, file_name "order" (today c)) orders → Forall wf_entry orders →
  day_log d (dir, file_name "fill" (today c)) fills → Forall wf_entry fills →
  let '(oks, w') := run_ops can_open ops w in
  let files := openLogDirectory true true clock dir (today c) (disk_ (stop w')) in
  replays tickAt (ticks ++ accepted tick_of ops oks) (tick files) ∧
  replays orderAt (orders ++ accepted order_of ops oks) (order files) ∧
  replays fillAt (fills ++ accepted fill_of ops oks) (fill files).
Proof.
  intros Hl Hi Hday Hops Ht Hwt Ho Hwo Hf Hwf.
  pose proof (session_disk can_open mkdir_ok c dir cfg d w ops Hl Hi Hday) as Hdisk.
  destruct (run_ops can_open ops w) as [oks w'].
  pose proof (Hdisk Ticks) as Dt. rewrite accepted_ticks in Dt.
  pose proof (Hdisk Orders) as Do. rewrite accepted_orders in Do.
  pose proof (Hdisk Fills) as Df. rewrite accepted_fills in Df.
  unfold openLogDirectory. assert (String.eqb (today c) EmptyString = false) as -> by by destruct (today c).
  cbn [negb tick order fill]. split_and!.
  - eapply session_replays; [|exact Ht|exact Dt|done|].
    + intros i r E. unfold tickAt. by rewrite E.
    + apply accepted_wf; [|done]. by intros [] e [= <-].
  - eapply session_replays; [|exact Ho|exact Do|done|].
    + intros i r E. unfold orderAt. by rewrite E.
    + apply accepted_wf; [|done]. by intros [] e [= <-].
  - eapply session_replays; [|exact Hf|exact Df|done|].
    + intros i r E. unfold fillAt. by rewrite E.
    + apply accepted_wf; [|done]. by intros [] e [= <-].
Qed.

(** [seekToTimestamp] returns a boundary of any log: the record there, if any, is at
    or after the timestamp and the one before it is earlier. In a log with
    non-decreasing timestamps this is the number of records earlier than the timestamp,
    hence the first one at or after it, or the record count when there is none. *)
Lemma seek_finds_first r ts :
  let s := seekToTimestamp ts r in
  (s ≤ record_count_ r)%nat ∧
  ((s < record_count_ r)%nat → ts ≤ timestampAt s r) ∧
  ((0 < s)%nat → timestampAt (s - 1) r < ts) ∧
  ((∀ i j, (i ≤ j)%nat → (j < record_count_ r)%nat → timestampAt i r ≤ timestampAt j r) →
   ∀ i, (i < record_count_ r)%nat → timestampAt i r < ts ↔ (i < s)%nat).
Proof.
  cbv zeta. set (s := seekToTimestamp ts r).
  assert ((s ≤ record_count_ r)%nat ∧ ((s < record_count_ r)%nat → ts ≤ timestampAt s r) ∧
          ((0 < s)%nat → timestampAt (s - 1) r < ts)) as (Hs & Hge & Hlt).
  { subst s. unfold seekToTimestamp. destruct (Nat.eqb_spec (record_count_ r) 0); [lia|].
    destruct (Z.ltb_spec (timestampAt (record_count_ r - 1) r) ts); [lia|].
    unfold bsearch.
    destruct (bsearch_loop_boundary (record_count_ r - 0) (λ mid, timestampAt mid r <? ts) 0 (record_count_ r))
      as (Hr & Hn & Ht); [lia..|]. split; [lia|]. split.
    - intros E. apply Hn in E. by apply Z.ltb_ge in E.
    - intros E. apply Ht in E. by apply Z.ltb_lt in E. }
  split_and!; try done. intros Hsorted i Hi. split; intros E.
  - destruct (decide (i < s)%nat) as [|Hn]; [done|]. exfalso.
    pose proof (Hsorted s i ltac:(lia) Hi). lia.
  - pose proof (Hsorted i (s - 1)%nat ltac:(lia) ltac:(lia)). specialize (Hlt ltac:(lia)). lia.
Qed.

(** Validation of what was logged: of a log of ticks, orders or fills a record passes
    exactly when its index exists, its timestamp is positive and before the year 2100
    and, for a tick, price and quantity are not negative, for an order the id is not
    zero, for a fill the order id is not zero and price and quantity are not negative;
    the side byte of a record written by the program is always valid. *)
Lemma validate_logged r i :
  (∀ ticks, reader_of ticks r → Forall wf_entry ticks →
    validateRecord i r = None ↔ ∃ t res, ticks !! i = Some (t, res) ∧
      0 < Tick.exchange_timestamp_us t <= MAX_TIMESTAMP ∧ 0 <= Tick.price t ∧ 0 <= Tick.quantity t) ∧
  (∀ orders, reader_of orders r → Forall wf_entry orders →
    validateRecord i r = None ↔ ∃ o res, orders !! i = Some (o, res) ∧
      0 < OrderRequest.timestamp_us o <= MAX_TIMESTAMP ∧ OrderRequest.order_id o ≠ 0) ∧
  (∀ fills, reader_of fills r → Forall wf_entry fills →
    validateRecord i r = None ↔ ∃ f res, fills !! i = Some (f, res) ∧
      0 < Fill.exchange_timestamp_us f <= MAX_TIMESTAMP ∧ Fill.order_id f ≠ 0 ∧
      0 <= Fill.fill_price f ∧ 0 <= Fill.fill_quantity f).
Proof.
  split_and!; intros rs (Hty & _ & Ho & more & Hr) Hw; unfold validateRecord; rewrite Hr, Hty, Ho;
    (destruct (rs !! i) as [[t res]|] eqn:Hi; cbn; [|split; [done|by intros (? & ? & ? & _)]]);
    destruct (Forall_lookup_1 _ _ _ _ Hw Hi) as [Hwf _]; cbn in Hwf.
  - destruct (tick_loads t (res ++ more i) Hwf) as (-> & -> & -> & ->).
    assert ((2 <? TickSide.to_Z (Tick.side t)) = false) as -> by by destruct (Tick.side t).
    unfold wf_tick, inU in Hwf.
    destruct (Z.eqb_spec (Tick.exchange_timestamp_us t) 0); [split; [done|intros (? & ? & [= <- <-] & ?); lia]|].
    destruct_ltbs; cbn; (split; [first [done|intros _; exists t, res; split_and!; try done; lia]
                                |first [done|intros (? & ? & [= <- <-] & ?); lia]]).
  - destruct (order_loads t (res ++ more i) Hwf) as (-> & -> & ->).
    assert ((1 <? OrderSide.to_Z (OrderRequest.side t)) = false) as -> by by destruct (OrderRequest.side t).
    unfold wf_order, inU in Hwf.
    destruct (Z.eqb_spec (OrderRequest.timestamp_us t) 0); [split; [done|intros (? & ? & [= <- <-] & ?); lia]|].
    destruct (Z.eqb_spec (OrderRequest.order_id t) 0);
    destruct_ltbs; cbn; (split; [first [done|intros _; exists t, res; split_and!; try done; lia]
                                |first [done|intros (? & ? & [= <- <-] & ?); lia]]).
  - destruct (fill_loads t (res ++ more i) Hwf) as (-> & -> & -> & ->). unfold wf_fill, inU in Hwf.
    destruct (Z.eqb_spec (Fill.exchange_timestamp_us t) 0); [split; [done|intros (? & ? & [= <- <-] & ?); lia]|].
    destruct (Z.eqb_spec (Fill.order_id t) 0);
    destruct_ltbs; cbn; (split; [first [done|intros _; exists t, res; split_and!; try done; lia]
                                |first [done|intros (? & ? & [= <- <-] & ?); lia]]).
Qed.

Definition sample_reserved (n : nat) : list byte := replicate n Byte.x2a.
Definition sample_log_order : OrderRequest.t :=
  OrderRequest.mk 9 11 (-7) 5 0 42 7 1 3 OrderSide.SELL OrderType.STOP_LIMIT TimeInForce.FOK 1.

(** A session whose last write finds the buffer full. *)
Definition sample_ops : list op :=
  [WriteTick (sample_tick 5) (sample_reserved 22); Flush; WriteOrder sample_log_order (sample_reserved 64);
   Turn (sample_clock "20260101"); WriteTick (sample_tick 6) (sample_reserved 22);
   WriteTick (sample_tick 6) (sample_reserved 22); WriteTick (sample_tick 8) (sample_reserved 22)].

Definition sample_session : list bool * LogWriter := run_ops (λ _, true) sample_ops sample_writer.

(** The accepted ticks and the order come back from disk; the refused tick does not. *)
Lemma log_roundtrip_witness :
  sample_session.1 = [true; true; true; true; true; true; false] ∧
  let files := openLogDirectory true true "20260101" "logs" "20260101" (disk_ (stop sample_session.2)) in
  replays tickAt [(sample_tick 5, sample_reserved 22); (sample_tick 6, sample_reserved 22);
                  (sample_tick 6, sample_reserved 22)] (tick files) ∧
  replays orderAt [(sample_log_order, sample_reserved 64)] (order files).
Proof.
  split; [vm_compute; reflexivity|].
  assert (∀ p, content p ∅ = []) as He by done.
  pose proof (log_roundtrip (λ _, true) true (sample_clock "20260101") "logs" sample_log_config ∅ sample_writer
    sample_ops [] [] [] "20260101" ltac:(reflexivity) ltac:(vm_compute; reflexivity)
    ltac:(repeat constructor) ltac:(unfold sample_ops; repeat constructor; cbn; lia)
    (or_introl (conj (He _) eq_refl)) ltac:(constructor)
    (or_introl (conj (He _) eq_refl)) ltac:(constructor)
    (or_introl (conj (He _) eq_refl)) ltac:(constructor)) as H.
  change (run_ops _ sample_ops sample_writer) with sample_session in H.
  assert (accepted tick_of sample_ops sample_session.1 = [(sample_tick 5, sample_reserved 22);
    (sample_tick 6, sample_reserved 22); (sample_tick 6, sample_reserved 22)]) as Et by (vm_compute; reflexivity).
  assert (accepted order_of sample_ops sample_session.1 = [(sample_log_order, sample_reserved 64)]) as Eo
    by (vm_compute; reflexivity).
  destruct sample_session as [oks w']. cbn [fst snd] in *. destruct H as (Ht & Ho & _).
  rewrite Et in Ht. rewrite Eo in Ho. by split.
Defined.
