(* ===== verification/ReaderHandles.v ===== *)
(** Who owns the descriptors and mappings of [LogReader] (src/logging/log_reader.cpp):
    the operations of LogReader.v again, at the level of the system's resources, over
    any number of reader objects that are constructed, opened, closed, moved and destroyed.
    The system gives out fresh descriptors and regions; closing a descriptor that is not open, or
    unmapping a region that is not mapped or has another length, is an error of the program
    ([None]). *)
From S2P Require Import Prelude Types LogFormat.
From S2P Require LogWriter LogReader.

(** Open descriptors, and mapped regions with their lengths. *)
Record Os := mkOs { fds : gset nat; maps : gmap nat nat }.
Definition Os_init : Os := mkOs ∅ ∅.

(** What a reader owns. *)
Record Handle := mkHandle {
  fd_ : option nat;            (* -1 or a descriptor *)
  mapped_data_ : option nat;   (* the null pointer or a region *)
  file_size_ : nat;
}.
Definition Handle_init : Handle := mkHandle None None 0.

(** *** The system calls *)

Definition sys_open (os : Os) : nat * Os :=
  let f := fresh (fds os) in (f, os {{ fds ::= λ s, {[f]} ∪ s }}).

Definition sys_close (f : nat) (os : Os) : option Os :=
  if decide (f ∈ fds os) then Some (os {{ fds ::= λ s, s ∖ {[f]} }}) else None.

Definition sys_mmap (len : nat) (os : Os) : nat * Os :=
  let m := fresh (dom (maps os)) in (m, os {{ maps ::= <[m := len]> }}).

Definition sys_munmap (m len : nat) (os : Os) : option Os :=
  if decide (maps os !! m = Some len) then Some (os {{ maps ::= delete m }}) else None.

(** *** [LogReader] *)

Definition reset (r : Handle) : Handle := mkHandle None None 0.

Definition close (r : Handle) (os : Os) : option (Handle * Os) :=
  os ← match mapped_data_ r with Some m => sys_munmap m (file_size_ r) os | None => Some os end;
  os ← match fd_ r with Some f => sys_close f os | None => Some os end;
  Some (reset r, os).

(** What the system and the file answer to [open]. *)
Record answers := mkAnswers {
  exists_ : bool;
  size_ : option nat;         (* [fstat] *)
  mmap_ok : bool;
  magic : Z;
  log_type : Z;
}.

Definition open (a : answers) (r : Handle) (os : Os) : option (bool * Handle * Os) :=
  '(r, os) ← close r os;
  if negb (exists_ a) then Some (false, r, os)
  else
    let '(f, os) := sys_open os in
    let bail r os := os ← sys_close f os; Some (false, r {{ fd_ := None }}, os) in
    let r := r {{ fd_ := Some f }} in
    match size_ a with
    | None => bail r os
    | Some n =>
        let r := r {{ file_size_ := n }} in
        if (n <? HEADER_SIZE)%nat then bail r os
        else if negb (mmap_ok a) then bail r os
        else
          let '(m, os) := sys_mmap n os in
          let r := r {{ mapped_data_ := Some m }} in
          if negb (magic a =? LOG_MAGIC) then '(r, os) ← close r os; Some (false, r, os)
          else if (recordSizeForType (log_type a) =? 0)%nat then '(r, os) ← close r os; Some (false, r, os)
          else Some (true, r, os)
    end.

(** The moved-to reader and what is left of the other. *)
Definition moveFrom (other : Handle) : Handle * Handle := (other, reset other).

(** ** Any number of readers *)

Abbreviation Pool := (gmap nat Handle).

Inductive event :=
| Construct (i : nat)
| Open (i : nat) (a : answers)
| Close (i : nat)
| MoveConstruct (i j : nat)     (* LogReader i(std::move(j)) *)
| MoveAssign (i j : nat)        (* i = std::move(j) *)
| Destroy (i : nat).

(** An event that names an object that is not alive, or makes one that is, does nothing. *)
Definition run_event (ev : event) (p : Pool) (os : Os) : option (Pool * Os) :=
  match ev with
  | Construct i => Some (match p !! i with None => <[i := Handle_init]> p | Some _ => p end, os)
  | Open i a =>
      match p !! i with
      | None => Some (p, os)
      | Some r => '(_, r, os) ← open a r os; Some (<[i := r]> p, os)
      end
  | Close i =>
      match p !! i with
      | None => Some (p, os)
      | Some r => '(r, os) ← close r os; Some (<[i := r]> p, os)
      end
  | MoveConstruct i j =>
      match p !! i, p !! j with
      | None, Some o => let '(r, o) := moveFrom o in Some (<[i := r]> (<[j := o]> p), os)
      | _, _ => Some (p, os)
      end
  | MoveAssign i j =>
      match p !! i, p !! j with
      | Some r, Some o =>
          if (i =? j)%nat then Some (p, os)
          else
            '(_, os) ← close r os;
            let '(r, o) := moveFrom o in Some (<[i := r]> (<[j := o]> p), os)
      | _, _ => Some (p, os)
      end
  | Destroy i =>
      match p !! i with
      | None => Some (p, os)
      | Some r => '(_, os) ← close r os; Some (delete i p, os)
      end
  end.

Fixpoint run_events (evs : list event) (p : Pool) (os : Os) : option (Pool * Os) :=
  match evs with
  | [] => Some (p, os)
  | ev :: evs' => '(p, os) ← run_event ev p os; run_events evs' p os
  end.

(** ** Ownership *)

(** The resources in use are exactly those the readers own, each owned by one reader;
    a region is as long as its owner thinks. *)
Record owned (p : Pool) (os : Os) : Prop := {
  owned_fds f : f ∈ fds os ↔ ∃ i r, p !! i = Some r ∧ fd_ r = Some f;
  owned_fd_once i j r o f : p !! i = Some r → p !! j = Some o → fd_ r = Some f → fd_ o = Some f → i = j;
  owned_maps m n : maps os !! m = Some n ↔ ∃ i r, p !! i = Some r ∧ mapped_data_ r = Some m ∧ file_size_ r = n;
  owned_map_once i j r o m : p !! i = Some r → p !! j = Some o → mapped_data_ r = Some m → mapped_data_ o = Some m → i = j;
}.

(** A reader that owns nothing. *)
Definition idle (r : Handle) : Prop := fd_ r = None ∧ mapped_data_ r = None.

Lemma owned_init : owned ∅ Os_init.
Proof. split; cbn; intros *; rewrite ?lookup_empty; set_solver. Qed.

(** The system without what [r] owns. *)
Definition without (r : Handle) (os : Os) : Os :=
  mkOs (match fd_ r with Some f => fds os ∖ {[f]} | None => fds os end)
       (match mapped_data_ r with Some m => delete m (maps os) | None => maps os end).

Definition has (r : Handle) (os : Os) : Prop :=
  (∀ f, fd_ r = Some f → f ∈ fds os) ∧ (∀ m, mapped_data_ r = Some m → maps os !! m = Some (file_size_ r)).

Lemma lookup_insert_cases (p : Pool) i r k x :
  p !! i = None → <[i := r]> p !! k = Some x ↔ (k = i ∧ x = r) ∨ (k ≠ i ∧ p !! k = Some x).
Proof. intros Hi. rewrite lookup_insert_Some. naive_solver. Qed.

Lemma without_fds r os f : f ∈ fds (without r os) ↔ f ∈ fds os ∧ fd_ r ≠ Some f.
Proof. destruct r as [[g|] m n]; cbn; [rewrite elem_of_difference, elem_of_singleton|]; naive_solver. Qed.

Lemma without_maps r os m n : maps (without r os) !! m = Some n ↔ maps os !! m = Some n ∧ mapped_data_ r ≠ Some m.
Proof. destruct r as [f [g|] k]; cbn; [rewrite lookup_delete_Some|]; naive_solver. Qed.

(** A reader and the others share the system's resources between them. *)
Lemma owned_insert p os i r :
  p !! i = None → owned (<[i := r]> p) os ↔ owned p (without r os) ∧ has r os.
Proof.
  intros Hi. assert (∀ k x, p !! k = Some x → k ≠ i) as Hki by (intros k x Hk ->; congruence). split.
  - intros [Hf Hf1 Hm Hm1]. assert (<[i := r]> p !! i = Some r) as Hii by apply lookup_insert_eq.
    assert (∀ k x, p !! k = Some x → <[i := r]> p !! k = Some x) as Hin.
    { intros k x Hk. rewrite lookup_insert_ne; [done|]. symmetry. by eapply Hki. }
    split; [split|split].
    + intros f. rewrite without_fds, Hf. split.
      * intros [(k & x & Hk & Hx) Hne]. apply lookup_insert_cases in Hk as [[-> ->]|[? Hk]]; first [done|by destruct Hne|by eauto].
      * intros (k & x & Hk & Hx). split; [by eauto|]. intros Hr. apply (Hki k x Hk). exact (Hf1 k i x r f (Hin k x Hk) Hii Hx Hr).
    + intros k j x y f Hk Hj. exact (Hf1 k j x y f (Hin k x Hk) (Hin j y Hj)).
    + intros m n. rewrite without_maps, Hm. split.
      * intros [(k & x & Hk & Hx & Hn) Hne]. apply lookup_insert_cases in Hk as [[-> ->]|[? Hk]]; first [done|by destruct Hne|by eauto].
      * intros (k & x & Hk & Hx & Hn). split; [naive_solver|]. intros Hr. apply (Hki k x Hk). exact (Hm1 k i x r m (Hin k x Hk) Hii Hx Hr).
    + intros k j x y m Hk Hj. exact (Hm1 k j x y m (Hin k x Hk) (Hin j y Hj)).
    + intros f Hr. apply Hf. by eauto.
    + intros m Hr. apply Hm. by eauto.
  - intros [[Hf Hf1 Hm Hm1] [Hrf Hrm]]. split.
    + intros f. destruct (decide (fd_ r = Some f)) as [Hr|Hr].
      * split; [intros _; exists i, r; by rewrite lookup_insert_eq|]. intros _. by apply Hrf.
      * assert (f ∈ fds os ↔ f ∈ fds (without r os)) as -> by (rewrite without_fds; naive_solver). rewrite Hf.
        setoid_rewrite (λ k x, lookup_insert_cases p i r k x Hi). naive_solver.
    + intros k j x y f [[-> ->]|[Hk1 Hk]]%lookup_insert_cases [[-> ->]|[Hj1 Hj]]%lookup_insert_cases Hx Hy; try done; [| |by eapply Hf1].
      * assert (f ∈ fds (without r os)) as Hin by (apply Hf; eauto). apply without_fds in Hin as [_ []]. done.
      * assert (f ∈ fds (without r os)) as Hin by (apply Hf; eauto). apply without_fds in Hin as [_ []]. done.
    + intros m n. destruct (decide (mapped_data_ r = Some m)) as [Hr|Hr].
      * rewrite (Hrm m Hr). setoid_rewrite (λ k x, lookup_insert_cases p i r k x Hi). split.
        -- intros [= <-]. exists i, r. auto.
        -- intros (k & x & [[-> ->]|[_ Hk]] & Hx & Hn); [by rewrite Hn|].
           assert (maps (without r os) !! m = Some n) as Hin by (apply Hm; eauto). by apply without_maps in Hin as [_ []].
      * assert (maps os !! m = Some n ↔ maps (without r os) !! m = Some n) as -> by (rewrite without_maps; naive_solver). rewrite Hm.
        setoid_rewrite (λ k x, lookup_insert_cases p i r k x Hi). naive_solver.
    + intros k j x y m [[-> ->]|[Hk1 Hk]]%lookup_insert_cases [[-> ->]|[Hj1 Hj]]%lookup_insert_cases Hx Hy; try done; [| |by eapply Hm1].
      * assert (maps (without r os) !! m = Some (file_size_ y)) as Hin by (apply Hm; eauto). by apply without_maps in Hin as [_ []].
      * assert (maps (without r os) !! m = Some (file_size_ x)) as Hin by (apply Hm; eauto). by apply without_maps in Hin as [_ []].
Qed.

Lemma without_idle r os : idle r → without r os = os ∧ has r os.
Proof. intros [H1 H2]. unfold without, has. rewrite H1, H2. destruct os. done. Qed.

Lemma owned_idle p os i r : p !! i = None → idle r → owned (<[i := r]> p) os ↔ owned p os.
Proof. intros Hi Hr. rewrite owned_insert by done. destruct (without_idle r os Hr) as [-> H]. naive_solver. Qed.

(** [close] never fails on what the reader owns, and leaves it to nobody. *)
Lemma close_has r os : has r os → close r os = Some (reset r, without r os).
Proof.
  intros [Hf Hm]. destruct r as [[f|] [m|] n], os as [s t]; cbn in *; unfold close, sys_munmap, sys_close; cbn.
  - rewrite decide_True by auto. cbn. by rewrite decide_True by auto.
  - by rewrite decide_True by auto.
  - by rewrite decide_True by auto.
  - done.
Qed.

Lemma close_owned p os i r :
  p !! i = None → owned (<[i := r]> p) os → ∃ os', close r os = Some (reset r, os') ∧ owned p os'.
Proof. intros Hi [H1 H2]%owned_insert; [|done]. eexists. by rewrite close_has by done. Qed.

(** What [open] acquires. *)
Lemma open_fd_owned p os i n :
  p !! i = None → owned p os →
  let '(f, os') := sys_open os in owned (<[i := mkHandle (Some f) None n]> p) os' ∧ ∃ os2, sys_close f os' = Some os2 ∧ owned p os2.
Proof.
  intros Hi Ho. cbn. pose proof (is_fresh (fds os)) as Hf. set (f := fresh (fds os)) in *. split.
  - apply owned_insert; [done|]. destruct os as [s t]. cbn in *. split; [|split; cbn; [intros g [= <-]; set_solver|done]].
    unfold without. cbn. replace (({[f]} ∪ s) ∖ {[f]}) with s by set_solver. done.
  - unfold sys_close. cbn. rewrite decide_True by set_solver. eexists. split; [reflexivity|]. destruct os as [s t]. cbn in *.
    replace (({[f]} ∪ s) ∖ {[f]}) with s by set_solver. done.
Qed.

Lemma mmap_owned p os i f n :
  p !! i = None → owned (<[i := mkHandle (Some f) None n]> p) os →
  let '(m, os') := sys_mmap n os in owned (<[i := mkHandle (Some f) (Some m) n]> p) os'.
Proof.
  intros Hi [H1 [H2 H3]]%owned_insert; [|done]. cbn. pose proof (is_fresh (dom (maps os))) as Hm.
  set (m := fresh (dom (maps os))) in *. apply not_elem_of_dom in Hm. apply owned_insert; [done|].
  destruct os as [s t]. unfold without, has in *. cbn in *. split.
  - by rewrite delete_insert_id.
  - split; [done|]. intros k [= <-]. by rewrite lookup_insert_eq.
Qed.

Lemma open_owned a p os i r :
  p !! i = None → owned (<[i := r]> p) os →
  ∃ ok r' os', open a r os = Some (ok, r', os') ∧ owned (<[i := r']> p) os' ∧ (ok = false → idle r').
Proof.
  intros Hi Ho. unfold open. destruct (close_owned p os i r Hi Ho) as (os1 & -> & H1). cbn [mbind option_bind].
  destruct (exists_ a); cbn [negb]; [|eexists _, _, _; split; [reflexivity|]; split; [by apply owned_idle|done]].
  pose proof (open_fd_owned p os1 i) as Hfd.
  destruct (sys_open os1) as [f os2]. assert (∀ r, fd_ r = None ∧ mapped_data_ r = None → ∃ os3, sys_close f os2 = Some os3 ∧ owned (<[i := r]> p) os3) as Hgive.
  { intros r0 Hr0. destruct (Hfd 0%nat Hi H1) as [_ (os3 & -> & H3)]. exists os3. split; [done|]. by apply owned_idle. }
  destruct (size_ a) as [n|]; cbn [reset]. 
  2:{ destruct (Hgive (mkHandle None None 0)) as (os3 & -> & H3); [done|]. cbn. eexists _, _, _. by split. }
  destruct (n <? HEADER_SIZE)%nat.
  { destruct (Hgive (mkHandle None None n)) as (os3 & -> & H3); [done|]. cbn. eexists _, _, _. by split. }
  destruct (mmap_ok a); cbn [negb].
  2:{ destruct (Hgive (mkHandle None None n)) as (os3 & -> & H3); [done|]. cbn. eexists _, _, _. by split. }
  destruct (Hfd n Hi H1) as [H2 _]. apply mmap_owned in H2; [|done]. destruct (sys_mmap n os2) as [m os3].
  destruct (close_owned p os3 i _ Hi H2) as (os4 & Hc & H4).
  destruct (magic a =? LOG_MAGIC); cbn [negb].
  2:{ replace (close _ os3) with (Some (mkHandle None None 0, os4)) by (symmetry; exact Hc). cbn. eexists _, _, _. split; [reflexivity|]. split; [by apply owned_idle|done]. }
  destruct (recordSizeForType (log_type a) =? 0)%nat.
  { replace (close _ os3) with (Some (mkHandle None None 0, os4)) by (symmetry; exact Hc). cbn. eexists _, _, _. split; [reflexivity|]. split; [by apply owned_idle|done]. }
  eexists _, _, _. split; [reflexivity|]. by split.
Qed.

(** *** Events *)

Lemma moved_owned p os i j o :
  p !! i = None → p !! j = Some o → owned p os → owned (<[i := o]> (<[j := reset o]> p)) os.
Proof.
  intros Hi Hj Ho. assert (i ≠ j) as Hij by congruence. set (q := delete j p).
  assert (q !! j = None) as Hqj by apply lookup_delete_eq.
  assert (q !! i = None) as Hqi by (unfold q; by rewrite lookup_delete_ne).
  assert (p = <[j := o]> q) as Hp by (unfold q; by rewrite insert_delete_id).
  rewrite Hp in Ho |- *. rewrite insert_insert_eq, insert_insert_ne by done.
  apply owned_idle; [by rewrite lookup_insert_ne|done|]. apply owned_insert in Ho; [|done]. by apply owned_insert.
Qed.

(** The pool as one reader and the others. *)
Lemma split_pool (p : Pool) i r :
  p !! i = Some r → ∃ q : Pool, q !! i = None ∧ p = <[i := r]> q ∧ (∀ x, <[i := x]> p = <[i := x]> q) ∧ delete i p = q.
Proof.
  intros Hi. exists (delete i p). split_and!; [apply lookup_delete_eq|by rewrite insert_delete_id| |done].
  intros x. by rewrite insert_delete_eq.
Qed.

Lemma run_event_owned ev p os : owned p os → ∃ p' os', run_event ev p os = Some (p', os') ∧ owned p' os'.
Proof.
  intros Ho. destruct ev as [i|i a|i|i j|i j|i]; cbn [run_event].
  - destruct (p !! i) eqn:Hi; eexists _, _; (split; [reflexivity|]); [done|by apply owned_idle].
  - destruct (p !! i) as [r|] eqn:Hi; [|by eexists _, _]. destruct (split_pool p i r Hi) as (q & Hq & -> & Hx & _).
    destruct (open_owned a q os i r Hq Ho) as (ok & r' & os' & -> & H & _). cbn [mbind option_bind].
    eexists _, _. split; [reflexivity|]. by rewrite Hx.
  - destruct (p !! i) as [r|] eqn:Hi; [|by eexists _, _]. destruct (split_pool p i r Hi) as (q & Hq & -> & Hx & _).
    destruct (close_owned q os i r Hq Ho) as (os' & -> & H). cbn [mbind option_bind].
    eexists _, _. split; [reflexivity|]. rewrite Hx. by apply owned_idle.
  - destruct (p !! i) as [r|] eqn:Hi, (p !! j) as [o|] eqn:Hj; try by eexists _, _.
    cbn. eexists _, _. split; [reflexivity|]. by apply moved_owned.
  - destruct (p !! i) as [r|] eqn:Hi, (p !! j) as [o|] eqn:Hj; try by eexists _, _.
    destruct (Nat.eqb_spec i j) as [|Hij]; [by eexists _, _|]. destruct (split_pool p i r Hi) as (q & Hq & -> & Hx & _).
    destruct (close_owned q os i r Hq Ho) as (os' & -> & H). cbn. eexists _, _. split; [reflexivity|].
    rewrite lookup_insert_ne in Hj by done. rewrite (insert_insert_ne _ j i), insert_insert_eq by done.
    by apply moved_owned.
  - destruct (p !! i) as [r|] eqn:Hi; [|by eexists _, _]. destruct (split_pool p i r Hi) as (q & Hq & -> & _ & Hd).
    destruct (close_owned q os i r Hq Ho) as (os' & -> & H). cbn [mbind option_bind].
    eexists _, _. split; [reflexivity|]. by rewrite Hd.
Qed.

Lemma run_events_owned evs p os : owned p os → ∃ p' os', run_events evs p os = Some (p', os') ∧ owned p' os'.
Proof.
  revert p os. induction evs as [|ev evs IH]; intros p os Ho; cbn [run_events]; [by eexists _, _|].
  destruct (run_event_owned ev p os Ho) as (p1 & os1 & -> & H1). cbn [mbind option_bind]. by apply IH.
Qed.

Lemma owned_empty os : owned ∅ os → os = Os_init.
Proof.
  intros [Hf _ Hm _]. destruct os as [s t]. unfold Os_init. cbn in *. f_equal.
  - apply set_eq. intros f. rewrite Hf. split; [|set_solver]. intros (i & r & Hi & _). by rewrite lookup_empty in Hi.
  - apply map_eq. intros m. rewrite lookup_empty. apply eq_None_not_Some. intros [n (i & r & Hi & _)%Hm]. by rewrite lookup_empty in Hi.
Qed.

(** *** The two models of [open] agree *)

Definition disk_answers (mmap_ok : bool) (filepath : LogWriter.path) (d : LogWriter.Disk) : answers :=
  match d !! filepath with
  | None => mkAnswers false None mmap_ok 0 0
  | Some raw => mkAnswers true (Some (length raw)) mmap_ok (load 0 8 raw) (load 12 4 raw)
  end.

(** The handle has what the reader of LogReader.v says it has. *)
Definition describes (h : Handle) (r : LogReader.LogReader) : Prop :=
  (is_Some (fd_ h) ↔ LogReader.fd_ r = true) ∧
  (is_Some (mapped_data_ h) ↔ is_Some (LogReader.mapped_data_ r)) ∧ file_size_ h = LogReader.file_size_ r.

Lemma close_reset r os r' os' : close r os = Some (r', os') → r' = reset r.
Proof.
  unfold close. destruct (match mapped_data_ r with Some _ => _ | None => _ end) as [os1|]; cbn [mbind option_bind]; [|done].
  destruct (match fd_ r with Some _ => _ | None => _ end) as [os2|]; cbn [mbind option_bind]; [|done]. by intros [= <- _].
Qed.

Ltac describe := split; [reflexivity|]; unfold describes; cbn; repeat split; intros Hd; first [done|by destruct Hd|by eexists].

Lemma open_agrees mmap_ok filepath d h r os ok h' os' :
  open (disk_answers mmap_ok filepath d) h os = Some (ok, h', os') →
  ok = (LogReader.open mmap_ok filepath d r).1 ∧ describes h' (LogReader.open mmap_ok filepath d r).2.
Proof.
  unfold open, LogReader.open, disk_answers. destruct (close h os) as [[h1 os1]|] eqn:Hc; cbn [mbind option_bind]; [|done].
  apply close_reset in Hc as ->. destruct (d !! filepath) as [raw|]; cbn [exists_ negb size_].
  2:{ intros [= <- <- <-]. describe. }
  destruct (sys_open os1) as [f os2]. cbn [LogReader.close]. destruct (length raw <? HEADER_SIZE)%nat.
  { destruct (sys_close f os2) as [os3|]; cbn [mbind option_bind]; [|done]. intros [= <- <- <-]. describe. }
  cbn [ReaderHandles.mmap_ok]. destruct mmap_ok; cbn [negb].
  2:{ destruct (sys_close f os2) as [os3|]; cbn [mbind option_bind]; [|done]. intros [= <- <- <-]. describe. }
  destruct (sys_mmap (length raw) os2) as [m os3]. cbn [magic log_type LogReader.LogFileHeader.magic LogReader.LogFileHeader.log_type].
  destruct (load 0 8 raw =? LOG_MAGIC); cbn [negb].
  2:{ destruct (close _ os3) as [[h2 os4]|] eqn:Hc; cbn [mbind option_bind]; [|done]. apply close_reset in Hc as ->.
      intros [= <- <- <-]. describe. }
  destruct (recordSizeForType (load 12 4 raw) =? 0)%nat.
  { destruct (close _ os3) as [[h2 os4]|] eqn:Hc; cbn [mbind option_bind]; [|done]. apply close_reset in Hc as ->.
    intros [= <- <- <-]. describe. }
  intros [= <- <- <-]. describe.
Qed.

(** ** Properties *)

(** C26: the readers own their resources properly: whatever is opened (with whatever
    answers of the system and whatever the file holds), closed, moved, moved onto
    itself and destroyed in whatever order, no descriptor is closed and no region unmapped that is not
    the reader's own, a region is unmapped with the length it was mapped with, the
    resources in use are always exactly those of the readers alive, each owned by one
    reader, and when the readers are gone none is left. *)
Theorem readers_own_resources evs :
  ∃ p os, run_events evs ∅ Os_init = Some (p, os) ∧
    (∀ f, f ∈ fds os ↔ ∃ i r, p !! i = Some r ∧ fd_ r = Some f) ∧
    (∀ m n, maps os !! m = Some n ↔ ∃ i r, p !! i = Some r ∧ mapped_data_ r = Some m ∧ file_size_ r = n) ∧
    (∀ i j r o, p !! i = Some r → p !! j = Some o →
       (is_Some (fd_ r) ∧ fd_ r = fd_ o) ∨ (is_Some (mapped_data_ r) ∧ mapped_data_ r = mapped_data_ o) → i = j) ∧
    (p = ∅ → os = Os_init).
Proof.
  destruct (run_events_owned evs ∅ Os_init owned_init) as (p & os & Hr & Ho). exists p, os. split; [done|].
  pose proof Ho as [H1 H2 H3 H4]. split_and!; [done|done| |].
  - intros i j r o Hi Hj [[[f Hf] He]|[[m Hm] He]]; [by eapply H2; eauto; congruence|by eapply H4; eauto; congruence].
  - intros ->. by apply owned_empty.
Qed.

(** A log is opened, moved and moved back; the readers are destroyed; one open of a
    corrupted file in between. *)
Definition log_answers : answers := mkAnswers true (Some 192%nat) true LOG_MAGIC 0.
Definition sample_events : list event :=
  [Construct 0; Open 0 log_answers; MoveConstruct 1 0; Construct 2; Open 2 (mkAnswers true (Some 192%nat) true 7 0);
   Open 2 log_answers; MoveAssign 2 1; MoveAssign 2 2; Destroy 0; Destroy 1; Destroy 2].

Example sample_events_balanced :
  (λ '(p, os), (size (fds os), size (maps os), size p)) <$> run_events (take 6 sample_events) ∅ Os_init = Some (2, 2, 3)%nat ∧
  run_events sample_events ∅ Os_init = Some (∅, Os_init).
Proof. split; vm_compute; reflexivity. Qed.
