(* ===== verification/TimeReplayer.v ===== *)
(** The replay of logs in time order (include/chronos/backtest/time_replayer.hpp,
    src/backtest/time_replayer.cpp): a merge of log readers through a min-heap that
    holds the next record of every stream that is not used up.

    [std::priority_queue] is the interface [MinHeap]: a multiset whose top is an entry
    with the smallest timestamp; which one, when several streams tie, is a parameter.
    [calls_] lists the callback calls made; the callbacks do not call the replayer.
    The top of an empty heap is undefined behaviour: [None]. *)
From S2P Require Import Prelude FixedPoint Types LogFormat LogReader.

Record StreamPos := mkStreamPos { reader : LogReader; pos : nat }.
Record HeapEntry := mkHeapEntry { timestamp : Z; stream_idx : nat }.
#[export] Instance heap_entry_eq_dec : EqDecision HeapEntry. Proof. solve_decision. Defined.

Class MinHeap := {
  top : list HeapEntry → option HeapEntry;
  top_in h e : top h = Some e → e ∈ h;
  top_min h e e' : top h = Some e → e' ∈ h → timestamp e ≤ timestamp e';
  top_some h : h ≠ [] → is_Some (top h);
}.

(** The pop of the top entry. *)
Fixpoint remove_one (e : HeapEntry) (h : list HeapEntry) : list HeapEntry :=
  match h with
  | [] => []
  | e' :: h => if decide (e = e') then h else e' :: remove_one e h
  end.

Inductive call := OnTick (rec : list byte) | OnOrder (rec : list byte) | OnFill (rec : list byte).

Record TimeReplayer := mkTimeReplayer {
  streams_ : list StreamPos;
  heap_ : list HeapEntry;
  tick_cb_ : bool;
  order_cb_ : bool;
  fill_cb_ : bool;
  current_time_ : Z;
  events_processed_ : nat;
  total_events_ : nat;
  acceleration_ : double;
  paused_ : bool;
  calls_ : list call;
}.

Definition TimeReplayer_init : TimeReplayer :=
  mkTimeReplayer [] [] false false false 0 0 0 (d_of_Z 0) false [].

Definition isExhausted (r : TimeReplayer) : bool := (total_events_ r <=? events_processed_ r)%nat.

Definition setTickCallback (r : TimeReplayer) : TimeReplayer := r {{ tick_cb_ := true }}.
Definition setOrderCallback (r : TimeReplayer) : TimeReplayer := r {{ order_cb_ := true }}.
Definition setFillCallback (r : TimeReplayer) : TimeReplayer := r {{ fill_cb_ := true }}.
Definition setAcceleration (factor : double) (r : TimeReplayer) : TimeReplayer := r {{ acceleration_ := factor }}.
Definition pause (r : TimeReplayer) : TimeReplayer := r {{ paused_ := true }}.
Definition resume (r : TimeReplayer) : TimeReplayer := r {{ paused_ := false }}.

Definition addStream (rd : LogReader) (r : TimeReplayer) : TimeReplayer :=
  if (record_count_ rd =? 0)%nat then r
  else
    let idx := length (streams_ r) in
    r {{ streams_ ::= λ s, s ++ [mkStreamPos rd 0] }}
      {{ total_events_ ::= λ n, (n + record_count_ rd)%nat }}
      {{ heap_ ::= cons (mkHeapEntry (timestampAt 0 rd) idx) }}.

(** The switch of [advanceToNextEvent]: the call made for the record a stream is at. *)
Definition deliver (r : TimeReplayer) (sp : StreamPos) : list call :=
  let rd := reader sp in
  if logType rd =? 0 then
    if tick_cb_ r then option_list (OnTick <$> tickAt (pos sp) rd) else []
  else if logType rd =? 1 then
    if order_cb_ r then option_list (OnOrder <$> orderAt (pos sp) rd) else []
  else if logType rd =? 2 then
    if fill_cb_ r then option_list (OnFill <$> fillAt (pos sp) rd) else []
  else [].

Section replay.
Context {MH : MinHeap}.

Definition advanceToNextEvent (r : TimeReplayer) : option (bool * TimeReplayer) :=
  if paused_ r then Some (false, r)
  else if isExhausted r then Some (false, r)
  else
    entry ← top (heap_ r);
    let heap := remove_one entry (heap_ r) in
    let idx := stream_idx entry in
    sp ← streams_ r !! idx;
    let next := S (pos sp) in
    let rd := reader sp in
    Some (true, r {{ calls_ ::= λ cs, cs ++ deliver r sp }}
                  {{ current_time_ := timestamp entry }}
                  {{ events_processed_ ::= S }}
                  {{ streams_ ::= <[idx := mkStreamPos rd next]> }}
                  {{ heap_ := if (next <? record_count_ rd)%nat
                              then mkHeapEntry (timestampAt next rd) idx :: heap else heap }}).

(** The loops of [advanceTo] and [advanceToEnd]; the events left are fuel enough
    ([advance_while_fuel]). *)
Fixpoint advance_while (go : TimeReplayer → bool) (fuel : nat) (r : TimeReplayer) : option (nat * TimeReplayer) :=
  match fuel with
  | O => Some (O, r)
  | S fuel =>
      if negb (isExhausted r) && go r then
        '(ok, r1) ← advanceToNextEvent r;
        if (ok : bool) then '(n, r2) ← advance_while go fuel r1; Some (S n, r2)
        else Some (O, r1)
      else Some (O, r)
  end.

Definition events_left (r : TimeReplayer) : nat := (total_events_ r - events_processed_ r)%nat.

Definition advanceTo (target_us : Z) (r : TimeReplayer) : option (nat * TimeReplayer) :=
  advance_while (λ r, current_time_ r <? target_us) (events_left r) r.

Definition advanceToEnd (r : TimeReplayer) : option (nat * TimeReplayer) :=
  advance_while (λ _, true) (events_left r) r.

(** The commands of a client once the streams are added. *)
Inductive command := NextEvent | AdvanceTo (target_us : Z) | AdvanceToEnd | Pause | Resume.

Definition run_command (c : command) (r : TimeReplayer) : option TimeReplayer :=
  match c with
  | NextEvent => snd <$> advanceToNextEvent r
  | AdvanceTo t => snd <$> advanceTo t r
  | AdvanceToEnd => snd <$> advanceToEnd r
  | Pause => Some (pause r)
  | Resume => Some (resume r)
  end.

Fixpoint run_commands (cs : list command) (r : TimeReplayer) : option TimeReplayer :=
  match cs with [] => Some r | c :: cs => run_command c r ≫= run_commands cs end.
End replay.

(** A heap that scans for the first entry with the smallest timestamp. *)
Fixpoint first_min (h : list HeapEntry) : option HeapEntry :=
  match h with
  | [] => None
  | e :: h => match first_min h with
              | None => Some e
              | Some e' => Some (if timestamp e' <? timestamp e then e' else e)
              end
  end.

Lemma first_min_spec h :
  match first_min h with
  | None => h = []
  | Some e => e ∈ h ∧ ∀ e', e' ∈ h → timestamp e ≤ timestamp e'
  end.
Proof.
  induction h as [|a h IH]; cbn; [done|]. destruct (first_min h) as [e|].
  - destruct IH as [Hin Hmin]. destruct (Z.ltb_spec (timestamp e) (timestamp a)).
    + split; [by right|]. intros e' [->|He']%elem_of_cons; [lia|by apply Hmin].
    + split; [by left|]. intros e' [->|He']%elem_of_cons; [done|]. specialize (Hmin e' He'). lia.
  - subst h. split; [by left|]. intros e' [->|He']%elem_of_cons; [done|by apply elem_of_nil in He'].
Qed.

Definition first_min_heap : MinHeap.
Proof.
  refine {| top := first_min |}; intros h; pose proof (first_min_spec h) as H; intros.
  - rewrite H0 in H. apply H.
  - rewrite H0 in H. by apply H.
  - destruct (first_min h); [done|by subst].
Defined.

(** ** Invariant *)

(** What the heap has to hold: the next record of every stream with records left. *)
Definition live_one (i : nat) (sp : StreamPos) : list HeapEntry :=
  if (pos sp <? record_count_ (reader sp))%nat then [mkHeapEntry (timestampAt (pos sp) (reader sp)) i] else [].
Definition live (l : list StreamPos) : list HeapEntry := concat (imap live_one l).

(** An event is a stream and an index in it. *)
Definition event : Type := nat * nat.
Definition stamp_of (rs : list LogReader) (x : event) : Z :=
  match rs !! x.1 with Some rd => timestampAt x.2 rd | None => 0 end.
Definition call_of (r : TimeReplayer) (rs : list LogReader) (x : event) : list call :=
  match rs !! x.1 with Some rd => deliver r (mkStreamPos rd x.2) | None => [] end.
Definition in_order (rd : LogReader) : Prop :=
  ∀ i j, (i ≤ j)%nat → (j < record_count_ rd)%nat → timestampAt i rd ≤ timestampAt j rd.

(** The events replayed so far are [done]: of every stream the records before its
    position, in order; in time order if every stream is. *)
Record replayed (rs : list LogReader) (r : TimeReplayer) (done : list event) : Prop := mkReplayed {
  rp_readers : reader <$> streams_ r = rs;
  rp_heap : heap_ r ≡ₚ live (streams_ r);
  rp_total : total_events_ r = sum_list (record_count_ <$> rs);
  rp_count : events_processed_ r = sum_list (pos <$> streams_ r);
  rp_length : length done = events_processed_ r;
  rp_calls : calls_ r = done ≫= call_of r rs;
  rp_known : Forall (λ x : event, x.1 < length rs)%nat done;
  rp_stream i sp : streams_ r !! i = Some sp →
    (pos sp ≤ record_count_ (reader sp))%nat ∧ filter (λ x : event, x.1 = i) done = pair i <$> seq 0 (pos sp);
  rp_sorted : Forall in_order rs →
    StronglySorted (λ x y, stamp_of rs x ≤ stamp_of rs y) done ∧
    ∀ x e, x ∈ done → e ∈ heap_ r → stamp_of rs x ≤ timestamp e;
}.

Lemma remove_one_perm e h : e ∈ h → h ≡ₚ e :: remove_one e h.
Proof.
  induction h as [|a h IH]; [by intros ?%elem_of_nil|]. intros Hin. cbn. case_decide as Hd; [by subst|].
  apply elem_of_cons in Hin as [->|Hin]; [done|]. rewrite (IH Hin) at 1. constructor.
Qed.

(** Moving one stream on by one record. *)
Lemma live_split s1 sp s2 :
  live (s1 ++ sp :: s2) = live s1 ++ live_one (length s1) sp ++ concat (imap (λ i, live_one (length s1 + S i)) s2).
Proof. unfold live. rewrite imap_app, concat_app. cbn. rewrite Nat.add_0_r. done. Qed.

Lemma live_elem l i ts :
  mkHeapEntry ts i ∈ live l → ∃ sp, l !! i = Some sp ∧ (pos sp < record_count_ (reader sp))%nat ∧ ts = timestampAt (pos sp) (reader sp).
Proof.
  unfold live. rewrite list_elem_of_In, List.in_concat. intros (x & Hx & Hin).
  apply list_elem_of_In, elem_of_lookup_imap in Hx as (j & sp & -> & Hj).
  unfold live_one in Hin. destruct (Nat.ltb_spec (pos sp) (record_count_ (reader sp))); [|done].
  destruct Hin as [[= <- <-]|[]]. eauto.
Qed.

Lemma sum_split f (s1 : list StreamPos) sp s2 :
  sum_list (f <$> s1 ++ sp :: s2) = (f sp + sum_list (f <$> s1 ++ s2))%nat.
Proof. rewrite !fmap_app, !fmap_cons. induction s1 as [|a s1 IH]; cbn; lia. Qed.

Lemma insert_split (s1 : list StreamPos) sp s2 sp' :
  <[length s1 := sp']> (s1 ++ sp :: s2) = s1 ++ sp' :: s2.
Proof. by rewrite insert_app_r_alt, Nat.sub_diag by lia. Qed.

(** Popping the entry of a stream and pushing its next one keeps the heap in step. *)
Lemma live_advance st hp idx sp :
  st !! idx = Some sp → (pos sp < record_count_ (reader sp))%nat → hp ≡ₚ live st →
  let next := S (pos sp) in
  let rest := remove_one (mkHeapEntry (timestampAt (pos sp) (reader sp)) idx) hp in
  (if (next <? record_count_ (reader sp))%nat then mkHeapEntry (timestampAt next (reader sp)) idx :: rest else rest)
    ≡ₚ live (<[idx := mkStreamPos (reader sp) next]> st).
Proof.
  intros Hsp Hpos Hp. set (e := mkHeapEntry _ _). cbv zeta.
  apply lookup_lt_Some in Hsp as Hlt. apply take_drop_middle in Hsp.
  set (s1 := take idx st) in *. set (s2 := drop (S idx) st) in *.
  assert (idx = length s1) as Hidx by (subst s1; rewrite length_take; lia). clearbody s1 s2. subst st.
  rewrite live_split in Hp. rewrite Hidx at 2. rewrite insert_split, live_split, <-Hidx in *.
  assert (live_one idx sp = [e]) as He by (unfold live_one; by rewrite (proj2 (Nat.ltb_lt _ _) Hpos)). rewrite He in Hp.
  assert (hp ≡ₚ e :: remove_one e hp) as Hrest.
  { apply remove_one_perm. rewrite Hp, !elem_of_app. right; left. by left. }
  rewrite Hrest in Hp. cbn [app] in Hp. rewrite <-Permutation_middle in Hp. apply Permutation_cons_inv in Hp.
  unfold live_one at 1. cbn [pos reader]. destruct (_ <? _)%nat; rewrite Hp; [|done].
  cbn [app]. by rewrite <-Permutation_middle.
Qed.

Lemma pair_seq_snoc (i n : nat) : pair i <$> seq 0 (S n) = (pair i <$> seq 0 n) ++ [(i, n)].
Proof. by rewrite seq_S, fmap_app. Qed.

Lemma sum_advance st idx sp sp' :
  st !! idx = Some sp → pos sp' = S (pos sp) → sum_list (pos <$> <[idx := sp']> st) = S (sum_list (pos <$> st)).
Proof.
  intros Hsp Hs. apply lookup_lt_Some in Hsp as Hlt. apply take_drop_middle in Hsp. rewrite <-Hsp at 2.
  rewrite insert_take_drop by done. rewrite !sum_split. lia.
Qed.

(** In a stream in time order no entry the heap holds after the step is earlier than
    the one popped. *)
Lemma later_entries hp idx sp :
  let e0 := mkHeapEntry (timestampAt (pos sp) (reader sp)) idx in
  in_order (reader sp) → e0 ∈ hp → (∀ e, e ∈ hp → timestamp e0 ≤ timestamp e) →
  ∀ e, e ∈ (if (S (pos sp) <? record_count_ (reader sp))%nat
            then mkHeapEntry (timestampAt (S (pos sp)) (reader sp)) idx :: remove_one e0 hp else remove_one e0 hp) →
  timestamp e0 ≤ timestamp e.
Proof.
  intros e0 Hord Hin Hmin e He.
  assert (e ∈ hp ∨ e = mkHeapEntry (timestampAt (S (pos sp)) (reader sp)) idx ∧ (S (pos sp) < record_count_ (reader sp))%nat)
    as [?|[-> Hlt]]; [|by apply Hmin|apply Hord; lia].
  rewrite (remove_one_perm _ _ Hin). destruct (Nat.ltb_spec (S (pos sp)) (record_count_ (reader sp)));
    [apply elem_of_cons in He as [->|He]; [by right|]|]; left; by right.
Qed.

(** ** Steps *)

Section proofs.
Context {MH : MinHeap}.

(** An unpaused replayer with events left has one on its heap. *)
Lemma not_exhausted_live rs r done :
  replayed rs r done → isExhausted r = false → heap_ r ≠ [].
Proof.
  intros Hr He Hnil. unfold isExhausted in He. apply Nat.leb_gt in He.
  pose proof (rp_heap _ _ _ Hr) as Hp. rewrite Hnil in Hp. apply Permutation_nil in Hp.
  rewrite (rp_total _ _ _ Hr), (rp_count _ _ _ Hr), <-(rp_readers _ _ _ Hr) in He.
  assert (∀ i sp, streams_ r !! i = Some sp → (record_count_ (reader sp) ≤ pos sp)%nat) as Hle.
  { intros i sp Hi. apply take_drop_middle in Hi. rewrite <-Hi, live_split in Hp.
    apply app_eq_nil in Hp as [_ Hp]. apply app_eq_nil in Hp as [Hp _].
    unfold live_one in Hp. destruct (Nat.ltb_spec (pos sp) (record_count_ (reader sp))); [done|lia]. }
  clear Hp. revert He Hle. induction (streams_ r) as [|sp l IH]; cbn; [lia|]. intros He Hle.
  pose proof (Hle 0%nat sp eq_refl). apply IH; [lia|]. intros i. apply (Hle (S i)).
Qed.

Lemma advance_step rs r done :
  replayed rs r done → paused_ r = false → isExhausted r = false →
  ∃ r' x, advanceToNextEvent r = Some (true, r') ∧ replayed rs r' (done ++ [x]) ∧
    current_time_ r' = stamp_of rs x ∧ call_of r' = call_of r ∧ paused_ r' = false ∧ total_events_ r' = total_events_ r ∧
    events_processed_ r' = S (events_processed_ r).
Proof.
  intros Hr Hpause He. destruct (top_some (heap_ r) (not_exhausted_live _ _ _ Hr He)) as [[ts idx] Htop].
  pose proof (top_in _ _ Htop) as Hin. pose proof (λ e', top_min _ _ e' Htop) as Hmin. cbn in Hmin.
  pose proof Hin as Hlive. rewrite (rp_heap _ _ _ Hr) in Hlive.
  apply live_elem in Hlive as (sp & Hsp & Hpos & Hts).
  destruct (rp_stream _ _ _ Hr idx sp Hsp) as [_ Hfilter].
  assert (rs !! idx = Some (reader sp)) as Hrd by (by rewrite <-(rp_readers _ _ _ Hr), list_lookup_fmap, Hsp).
  unfold advanceToNextEvent. rewrite Hpause, He, Htop. cbn [mbind option_bind stream_idx]. rewrite Hsp.
  eexists _, (idx, pos sp). split; [reflexivity|].
  split; [|split_and!; [rewrite Hts; unfold stamp_of; cbn; by rewrite Hrd|done|exact Hpause|done|done]]. clear Hpause He.
  destruct Hr as [Rr Rh Rt Rc Rl Rca Rk Rs Ro]. destruct r as [st hp tc oc fc ct ep te ac pa cs].
  cbn -[remove_one seq Nat.ltb] in *. unfold constant. subst ts.
  assert ((if (S (pos sp) <? record_count_ (reader sp))%nat
           then mkHeapEntry (timestampAt (S (pos sp)) (reader sp)) idx :: remove_one (mkHeapEntry (timestampAt (pos sp) (reader sp)) idx) hp
           else remove_one (mkHeapEntry (timestampAt (pos sp) (reader sp)) idx) hp)
          ≡ₚ live (<[idx:=mkStreamPos (reader sp) (S (pos sp))]> st)) as Hheap by by apply live_advance.
  constructor; cbn -[remove_one seq Nat.ltb].
  - by rewrite list_fmap_insert, list_insert_id by by rewrite Rr.
  - exact Hheap.
  - done.
  - rewrite (sum_advance _ _ sp) by done. by rewrite <-Rc.
  - rewrite length_app. cbn. lia.
  - rewrite bind_app. f_equal; [exact Rca|]. cbn. unfold call_of. cbn. rewrite Hrd, app_nil_r. by destruct sp.
  - apply Forall_app. split; [done|]. constructor; [|done]. by apply lookup_lt_Some in Hrd.
  - intros i sp' Hi. rewrite filter_app. destruct (decide (i = idx)) as [->|Hne].
    + rewrite list_lookup_insert_eq in Hi by by eapply lookup_lt_Some. injection Hi as <-. cbn [pos reader].
      split; [lia|]. rewrite Hfilter, filter_cons_True, filter_nil by done. by rewrite pair_seq_snoc.
    + rewrite list_lookup_insert_ne in Hi by done. destruct (Rs i sp' Hi) as [? Hf]. split; [done|].
      rewrite filter_cons_False, filter_nil by (cbn; congruence). by rewrite app_nil_r.
  - intros Hsorted. destruct (Ro Hsorted) as [Hs Hle].
    assert (stamp_of rs (idx, pos sp) = timestampAt (pos sp) (reader sp)) as Hstamp by (unfold stamp_of; cbn; by rewrite Hrd).
    pose proof (later_entries hp idx sp (Forall_lookup_1 _ _ _ _ Hsorted Hrd) Hin Hmin) as Hnew. cbn [timestamp] in Hnew.
    split.
    + apply StronglySorted_app. split_and!; [|done|repeat constructor].
      intros x y Hx ->%list_elem_of_singleton. rewrite Hstamp. by apply (Hle x (mkHeapEntry (timestampAt (pos sp) (reader sp)) idx)).
    + intros x e [Hx| ->%list_elem_of_singleton]%elem_of_app He.
      * etransitivity; [|by apply Hnew]. by apply (Hle x (mkHeapEntry (timestampAt (pos sp) (reader sp)) idx)).
      * rewrite Hstamp. by apply Hnew.
Qed.

(** The loops run until every event is delivered or the condition fails, unless the
    replayer is paused; the events left are fuel enough. *)
Lemma advance_while_spec go fuel rs r done :
  replayed rs r done → (events_left r ≤ fuel)%nat →
  ∃ n r' ext, advance_while go fuel r = Some (n, r') ∧ replayed rs r' (done ++ ext) ∧ length ext = n ∧
    call_of r' = call_of r ∧ paused_ r' = paused_ r ∧
    (paused_ r = false → isExhausted r' = true ∨ go r' = false).
Proof.
  revert r done. induction fuel as [|fuel IH]; intros r done Hr Hf; cbn [advance_while].
  - exists 0%nat, r, []. rewrite app_nil_r. split_and!; try done. intros _. left.
    unfold events_left in Hf. apply Nat.leb_le. lia.
  - destruct (isExhausted r) eqn:He; cbn [negb andb].
    { exists 0%nat, r, []. rewrite app_nil_r. split_and!; try done. intros _. by left. }
    destruct (go r) eqn:Hg.
    2: { exists 0%nat, r, []. rewrite app_nil_r. split_and!; try done. intros _. by right. }
    destruct (paused_ r) eqn:Hp.
    { unfold advanceToNextEvent. rewrite Hp. exists 0%nat, r, []. rewrite app_nil_r. split_and!; try done. }
    destruct (advance_step rs r done Hr Hp He) as (r1 & x & E & Hr1 & _ & Hc & Hp1 & Ht1 & He1).
    destruct (IH r1 _ Hr1) as (n & r2 & ext & E2 & Hr2 & Hn & Hc2 & Hp2 & Hstop).
    { unfold events_left in *. lia. }
    rewrite E. cbn. rewrite E2. cbn. exists (S n), r2, (x :: ext).
    rewrite <-app_assoc in Hr2. split_and!; [done|done|cbn; lia|congruence|congruence|auto].
Qed.

Lemma replayed_pause rs r done b : replayed rs r done → replayed rs (r {{ paused_ := b }}) done.
Proof. intros []. by constructor. Qed.

Lemma run_command_spec c rs r done :
  replayed rs r done → ∃ r' ext, run_command c r = Some r' ∧ replayed rs r' (done ++ ext) ∧ call_of r' = call_of r.
Proof.
  intros Hr. destruct c as [|t| | |]; cbn [run_command].
  - destruct (paused_ r) eqn:Hp, (isExhausted r) eqn:He.
    1-3: unfold advanceToNextEvent; rewrite Hp, ?He; exists r, []; by rewrite app_nil_r.
    destruct (advance_step rs r done Hr Hp He) as (r1 & x & -> & Hr1 & _ & Hc & _). by exists r1, [x].
  - destruct (advance_while_spec (λ r, current_time_ r <? t) (events_left r) rs r done Hr)
      as (n & r' & ext & E & Hr' & _ & Hc & _); [done|]. exists r', ext. unfold advanceTo. by rewrite E.
  - destruct (advance_while_spec (λ _, true) (events_left r) rs r done Hr)
      as (n & r' & ext & E & Hr' & _ & Hc & _); [done|]. exists r', ext. unfold advanceToEnd. by rewrite E.
  - exists (pause r), []. rewrite app_nil_r. split; [done|]. split; [by apply replayed_pause|done].
  - exists (resume r), []. rewrite app_nil_r. split; [done|]. split; [by apply replayed_pause|done].
Qed.

Lemma run_commands_spec cs rs r done :
  replayed rs r done → ∃ r' ext, run_commands cs r = Some r' ∧ replayed rs r' (done ++ ext) ∧ call_of r' = call_of r.
Proof.
  revert r done. induction cs as [|c cs IH]; intros r done Hr; cbn [run_commands].
  - exists r, []. by rewrite app_nil_r.
  - destruct (run_command_spec c rs r done Hr) as (r1 & e1 & -> & Hr1 & Hc1).
    destruct (IH r1 _ Hr1) as (r2 & e2 & E2 & Hr2 & Hc2). cbn. exists r2, (e1 ++ e2).
    rewrite app_assoc. split_and!; [done|done|congruence].
Qed.
End proofs.

(** ** Adding streams *)

Definition non_empty_logs (rds : list LogReader) : list LogReader := filter (λ rd, record_count_ rd ≠ 0%nat) rds.

Definition addStreams (rds : list LogReader) (r : TimeReplayer) : TimeReplayer :=
  foldl (λ r rd, addStream rd r) r rds.

Lemma addStream_replayed rd rs r :
  replayed rs r [] → replayed (rs ++ non_empty_logs [rd]) (addStream rd r) [] ∧
  call_of (addStream rd r) = call_of r ∧ paused_ (addStream rd r) = paused_ r.
Proof.
  intros Hr. unfold addStream, non_empty_logs. destruct (Nat.eqb_spec (record_count_ rd) 0) as [E|E].
  { rewrite filter_cons_False, filter_nil, app_nil_r by (intros ?; lia). done. }
  rewrite filter_cons_True, filter_nil by done. split; [|done].
  destruct Hr as [Rr Rh Rt Rc Rl Rca Rk Rs Ro].
  assert (length (streams_ r) = length rs) as Hlen by (by rewrite <-Rr, length_fmap).
  destruct r as [st hp tc oc fc ct ep te ac pa cs]. cbn [streams_ heap_ total_events_ events_processed_ calls_] in *.
  constructor; cbn -[live]; unfold constant.
  - by rewrite fmap_app, Rr.
  - rewrite Rh. rewrite (live_split st (mkStreamPos rd 0) []). unfold live_one at 1. cbn.
    destruct (record_count_ rd); [done|]. cbn. by rewrite <-Permutation_cons_append.
  - rewrite Rt, fmap_app, sum_list_with_app. cbn. lia.
  - rewrite Rc, fmap_app, sum_list_with_app. cbn. lia.
  - done.
  - done.
  - done.
  - intros i sp Hi. apply lookup_snoc_Some in Hi as [[_ Hi]|[-> <-]]; [by apply Rs|]. split; [cbn; lia|done].
  - intros _. split; [constructor|]. by intros x e ?%elem_of_nil.
Qed.

Lemma addStreams_replayed rds rs r :
  replayed rs r [] → replayed (rs ++ non_empty_logs rds) (addStreams rds r) [] ∧
  call_of (addStreams rds r) = call_of r ∧ paused_ (addStreams rds r) = paused_ r.
Proof.
  revert rs r. induction rds as [|rd rds IH]; intros rs r Hr; cbn.
  - by rewrite app_nil_r.
  - destruct (addStream_replayed rd rs r Hr) as (Hr1 & Hc1 & Hp1).
    destruct (IH _ _ Hr1) as (Hr2 & Hc2 & Hp2). rewrite <-app_assoc in Hr2.
    unfold non_empty_logs in *. rewrite <-filter_app in Hr2.
    split; [exact Hr2|split; etransitivity; [exact Hc2|exact Hc1|exact Hp2|exact Hp1]].
Qed.

Lemma sum_positions_le (l : list StreamPos) :
  (∀ i sp, l !! i = Some sp → (pos sp ≤ record_count_ (reader sp))%nat) →
  (sum_list (pos <$> l) ≤ sum_list (record_count_ <$> (reader <$> l)))%nat ∧
  ((sum_list (record_count_ <$> (reader <$> l)) ≤ sum_list (pos <$> l))%nat →
   ∀ i sp, l !! i = Some sp → pos sp = record_count_ (reader sp)).
Proof.
  induction l as [|sp l IH]; intros Hle; [done|]. pose proof (Hle 0%nat sp eq_refl).
  destruct (IH (λ i, Hle (S i))) as [IHle IHeq]. cbn. split; [lia|].
  intros Hs [|i] sp' Hi; [injection Hi as <-; lia|]. apply IHeq with i; [lia|done].
Qed.

(** A replayer with no event left is at the end of every stream. *)
Lemma exhausted_positions rs r done :
  replayed rs r done → isExhausted r = true →
  ∀ i sp, streams_ r !! i = Some sp → pos sp = record_count_ (reader sp).
Proof.
  intros H Hex. apply Nat.leb_le in Hex. rewrite (rp_total _ _ _ H), (rp_count _ _ _ H), <-(rp_readers _ _ _ H) in Hex.
  apply sum_positions_le; [|done]. intros i sp Hi. by destruct (rp_stream _ _ _ H i sp Hi).
Qed.

(** A replayer whose callbacks are set and that has no stream yet. *)
Definition fresh_replayer (tick_cb order_cb fill_cb : bool) : TimeReplayer :=
  mkTimeReplayer [] [] tick_cb order_cb fill_cb 0 0 0 (d_of_Z 0) false [].

Lemma fresh_replayed tc oc fc : replayed [] (fresh_replayer tc oc fc) [].
Proof.
  constructor; try done. intros _. split; [constructor|]. by intros x e ?%elem_of_nil.
Qed.

(** ** Properties *)

(** C16: replay of any set of logs under any sequence of commands (single steps, partial
    and full advances, pauses) never touches an empty heap, and a final [resume] and
    [advanceToEnd] delivers what is left: in the end every record of every log has been
    handed to its callback exactly once, the records of one log in their order and, if
    each log is in time order, all of them in time order. *)
Theorem replay_merges_logs {MH : MinHeap} tc oc fc readers cs :
  let r0 := addStreams readers (fresh_replayer tc oc fc) in
  let logs := non_empty_logs readers in
  ∃ r1 n r2 events, run_commands cs r0 = Some r1 ∧ advanceToEnd (resume r1) = Some (n, r2) ∧
    isExhausted r2 = true ∧ length events = sum_list (record_count_ <$> logs) ∧
    calls_ r2 = events ≫= call_of r0 logs ∧
    (∀ i rd, logs !! i = Some rd → filter (λ x : event, x.1 = i) events = pair i <$> seq 0 (record_count_ rd)) ∧
    (Forall in_order logs → StronglySorted (λ x y, stamp_of logs x ≤ stamp_of logs y) events).
Proof.
  intros r0 logs. destruct (addStreams_replayed readers [] _ (fresh_replayed tc oc fc)) as (H0 & Hc0 & _).
  cbn [app] in H0. fold logs r0 in H0.
  destruct (run_commands_spec cs logs r0 [] H0) as (r1 & e1 & E1 & H1 & Hc1). cbn [app] in H1.
  pose proof (replayed_pause logs r1 e1 false H1 : replayed logs (resume r1) e1) as H1'.
  destruct (advance_while_spec (λ _, true) (events_left (resume r1)) logs (resume r1) e1 H1')
    as (n & r2 & e2 & E2 & H2 & _ & Hc2 & _ & Hstop); [done|].
  destruct (Hstop eq_refl) as [Hex|]; [|done].
  exists r1, n, r2, (e1 ++ e2). split; [done|]. split; [exact E2|]. split; [done|].
  pose proof (exhausted_positions _ _ _ H2 Hex) as Hpos. split_and!.
  - rewrite (rp_length _ _ _ H2), (rp_count _ _ _ H2), <-(rp_readers _ _ _ H2), <-list_fmap_compose. f_equal.
    apply list_eq. intros i. rewrite !list_lookup_fmap. destruct (streams_ r2 !! i) as [sp|] eqn:Hi; [|done].
    cbn. f_equal. by eapply Hpos.
  - rewrite (rp_calls _ _ _ H2). change (call_of (resume r1)) with (call_of r1) in Hc2. by rewrite Hc2, Hc1.
  - intros i rd Hi. rewrite <-(rp_readers _ _ _ H2), list_lookup_fmap in Hi.
    destruct (streams_ r2 !! i) as [sp|] eqn:Hsp; [|done]. injection Hi as <-.
    destruct (rp_stream _ _ _ H2 i sp Hsp) as [_ ->]. by rewrite (Hpos i sp Hsp).
  - intros Hs. by apply (rp_sorted _ _ _ H2).
Qed.
