(* ===== verification/Metrics.v ===== *)
(** The performance metrics of a backtest (include/chronos/backtest/metrics.hpp,
    src/backtest/metrics.cpp).

    Equities and profits are [Decimal]s, the ratios are doubles. [std::pow] and the
    formatting of a double by a stream are parameters ([Libm]); [std::sqrt] is the
    correctly rounded square root of IEEE 754. *)
From Stdlib Require Import SpecFloat.
From stdpp Require Import pretty.
From S2P Require Import Prelude FixedPoint Types Json.

Class Libm := { libm_pow : double → double → double; show_double : double → string }.

Definition dsqrt : double → double := SFsqrt 53 1024.
Definition dzero : double := d_of_Z 0.
Definition dpos (x : double) : bool := dltb dzero x.

Module Trade.
Record t := mk {
  entry_time_us : Z;
  exit_time_us : Z;
  symbol_id : Z;
  entry_price : Z;
  exit_price : Z;
  quantity : Z;
  pnl : Z;
  direction : OrderSide.t;
}.
End Trade.

Record MetricsCollector := mkMetrics {
  trades_ : list Trade.t;
  equity_snaps_ : list (Z * Z);
  total_return_ : Z;
  annualized_return_ : double;
  sharpe_ratio_ : double;
  sortino_ratio_ : double;
  calmar_ratio_ : double;
  max_drawdown_ : Z;
  max_drawdown_pct_ : double;
  max_dd_duration_us_ : Z;
  win_rate_ : double;
  profit_factor_ : double;
  avg_win_ : Z;
  avg_loss_ : Z;
  winning_trades_ : nat;
  losing_trades_ : nat;
  equity_curve_ : list (Z * double);
  drawdown_curve_ : list (Z * double);
}.

Definition MetricsCollector_init : MetricsCollector :=
  mkMetrics [] [] 0 dzero dzero dzero dzero 0 dzero 0 dzero dzero 0 0 0 0 [] [].

Definition recordTrade (trade : Trade.t) (m : MetricsCollector) : MetricsCollector :=
  m {{ trades_ ::= λ l, l ++ [trade] }}.

Definition recordEquity (timestamp_us equity : Z) (m : MetricsCollector) : MetricsCollector :=
  m {{ equity_snaps_ ::= λ l, l ++ [(timestamp_us, equity)] }}.

(** ** Daily returns *)

Definition DAY_US : Z := 86400000000.

(** The inner loop: the last snap from [cur] on that lies before [limit]. *)
Fixpoint last_snap (cur : Z * double) (rest : list (Z * double)) (limit : Z) : Z * double :=
  match rest with
  | nxt :: rest => if nxt.1 <? limit then last_snap nxt rest limit else cur
  | [] => cur
  end.

(** [while (i < equity.size() && equity[i].first < day_start) i++], on the suffix from [i]. *)
Fixpoint skip_before (day_start : Z) (rest : list (Z * double)) : list (Z * double) :=
  match rest with
  | s :: rest' => if s.1 <? day_start then skip_before day_start rest' else rest
  | [] => []
  end.

(** The outer loop, one day per turn. *)
Fixpoint day_loop (fuel : nat) (first_day day_start : Z) (prev_day_close : double)
    (rest : list (Z * double)) : list double :=
  match fuel, rest with
  | S fuel, s :: rest' =>
      let close := (last_snap s rest' (u64 (day_start + DAY_US))).2 in
      let ret := if day_start >? first_day then [ddiv (dsub close prev_day_close) prev_day_close] else [] in
      let day_start := u64 (day_start + DAY_US) in
      ret ++ day_loop fuel first_day day_start close (skip_before day_start rest)
  | _, _ => []
  end.

(** The loop takes one turn per day up to that of the last snap ([day_loop_fuel]). *)
Definition days_spanned (first_day : Z) (equity : list (Z * double)) : nat :=
  S (Z.to_nat ((foldr Z.max 0 equity.*1 - first_day) / DAY_US)).

Definition dailyReturns (equity : list (Z * double)) : list double :=
  match equity with
  | s :: _ :: _ =>
      let first_day := s.1 / DAY_US * DAY_US in
      day_loop (days_spanned first_day equity) first_day first_day s.2 equity
  | _ => []
  end.

Definition mean (v : list double) : double :=
  match v with [] => dzero | _ => ddiv (foldl dadd dzero v) (d_of_Z (Z.of_nat (length v))) end.

Definition stddev (v : list double) (m : double) : double :=
  if (length v <? 2)%nat then dzero
  else dsqrt (ddiv (foldl (λ sq x, dadd sq (dmul (dsub x m) (dsub x m))) dzero v)
                   (d_of_Z (Z.of_nat (length v) - 1))).

(** ** The calculation *)

Section metrics.
Context {F : FpmOps} {L : Libm} {J : JsonOps}.

(** The locals of the drawdown loop together with the members it updates. *)
Record Drawdown := mkDrawdown {
  peak : Z;
  dd_start : Z;
  in_dd : bool;
  dd_max : Z;
  dd_max_pct : double;
  dd_duration : Z;
  dd_curve : list (Z * double);
}.

(** A new peak ends the drawdown the loop is in. *)
Definition raise_peak (ts eq : Z) (d : Drawdown) : Drawdown :=
  if eq >? peak d then
    let d := d {{ peak := eq }} in
    if in_dd d then
      let dur := u64 (ts - dd_start d) in
      (if dur >? dd_duration d then d {{ dd_duration := dur }} else d) {{ in_dd := false }}
    else d
  else d.

Definition record_drawdown (ts eq : Z) (d : Drawdown) : Drawdown :=
  let dd := peak d ⊟ eq in
  let dd_pct := if peak d >? 0 then dmul (ddiv (toDouble dd) (toDouble (peak d))) (d_of_Z 100) else dzero in
  let d := d {{ dd_curve ::= λ l, l ++ [(ts, dd_pct)] }} in
  let d := if dd >? dd_max d then d {{ dd_max := dd }} {{ dd_max_pct := dd_pct }} else d in
  if (dd >? 0) && negb (in_dd d) then d {{ dd_start := ts }} {{ in_dd := true }} else d.

(** The body of the drawdown loop. *)
Definition drawdown_step (d : Drawdown) (snap : Z * Z) : Drawdown :=
  let '(ts, eq) := snap in record_drawdown ts eq (raise_peak ts eq d).

Definition drawdown (snaps : list (Z * Z)) : Drawdown :=
  match snaps with
  | [] => mkDrawdown 0 0 false 0 dzero 0 []
  | s :: _ =>
      let d := foldl drawdown_step (mkDrawdown s.2 0 false 0 dzero 0 []) snaps in
      if in_dd d then
        let dur := u64 ((List.last snaps s).1 - dd_start d) in
        if dur >? dd_duration d then d {{ dd_duration := dur }} else d
      else d
  end.

Definition calc_drawdown (m : MetricsCollector) : MetricsCollector :=
  let d := drawdown (equity_snaps_ m) in
  m {{ max_drawdown_ := dd_max d }} {{ max_drawdown_pct_ := dd_max_pct d }}
    {{ max_dd_duration_us_ := dd_duration d }} {{ drawdown_curve_ := dd_curve d }}.

Definition calc_total_return (m : MetricsCollector) : MetricsCollector :=
  match equity_snaps_ m with
  | s :: (_ :: _) as snaps =>
      let initial := s.2 in
      let final_eq := (List.last snaps s).2 in
      if initial >? 0 then m {{ total_return_ := (final_eq ⊟ initial) ⊘ initial }} else m
  | _ => m
  end.

Definition calc_annualized (m : MetricsCollector) : MetricsCollector :=
  let m := m {{ annualized_return_ := dzero }} in
  match equity_snaps_ m with
  | s :: (_ :: _) as snaps =>
      let first_ts := s.1 in
      let last_ts := (List.last snaps s).1 in
      if last_ts >? first_ts then
        let years := ddiv (d_of_Z (u64 (last_ts - first_ts)))
                          (dmul (dmul (d_of_Z 86400) (d_of_Z 1000000)) (d_of_Z 365)) in
        let tr := toDouble (total_return_ m) in
        if dltb (d_lit 1 3) years && dltb (d_of_Z (-1)) tr then
          m {{ annualized_return_ :=
                 dsub (libm_pow (dadd (d_of_Z 1) tr) (ddiv (d_of_Z 1) years)) (d_of_Z 1) }}
        else m
      else m
  | _ => m
  end.

Definition calc_ratios (m : MetricsCollector) : MetricsCollector :=
  let daily_rets := dailyReturns (equity_curve_ m) in
  let avg_daily := mean daily_rets in
  let std_daily := stddev daily_rets avg_daily in
  let m := if dpos std_daily && negb (length daily_rets =? 0)%nat
           then m {{ sharpe_ratio_ := dmul (ddiv avg_daily std_daily) (dsqrt (d_of_Z 365)) }} else m in
  let downside := filter (λ r, dltb r dzero = true) daily_rets in
  let m := match downside with
           | [] => m
           | _ => let std_down := stddev downside (mean downside) in
                  if dpos std_down
                  then m {{ sortino_ratio_ := dmul (ddiv avg_daily std_down) (dsqrt (d_of_Z 365)) }} else m
           end in
  if dpos (max_drawdown_pct_ m)
  then m {{ calmar_ratio_ := ddiv (annualized_return_ m) (ddiv (max_drawdown_pct_ m) (d_of_Z 100)) }} else m.

Definition is_win (t : Trade.t) : bool := Trade.pnl t >? 0.
Definition is_loss (t : Trade.t) : bool := negb (is_win t) && (Trade.pnl t <? 0).

Definition gross (sel : Trade.t → bool) (ts : list Trade.t) : Z :=
  foldl (λ s t, if sel t then s ⊞ Trade.pnl t else s) 0 ts.
Definition count_trades (sel : Trade.t → bool) (ts : list Trade.t) : nat :=
  foldl (λ n t, if sel t then S n else n) O ts.

Definition calc_counts (m : MetricsCollector) : MetricsCollector :=
  m {{ winning_trades_ := count_trades is_win (trades_ m) }}
    {{ losing_trades_ := count_trades is_loss (trades_ m) }}.

Definition calc_win_rate (m : MetricsCollector) : MetricsCollector :=
  if (0 <? length (trades_ m))%nat
  then m {{ win_rate_ := ddiv (d_of_Z (Z.of_nat (winning_trades_ m))) (d_of_Z (Z.of_nat (length (trades_ m)))) }}
  else m.

Definition calc_profit_factor (m : MetricsCollector) : MetricsCollector :=
  let total_gross_win := gross is_win (trades_ m) in
  let total_gross_loss := gross is_loss (trades_ m) in
  if total_gross_loss <? 0
  then m {{ profit_factor_ := ddiv (toDouble total_gross_win) (SFabs (toDouble total_gross_loss)) }}
  else if total_gross_win >? 0 then m {{ profit_factor_ := S754_infinity false }} else m.

Definition calc_averages (m : MetricsCollector) : MetricsCollector :=
  let m := if (0 <? winning_trades_ m)%nat
           then m {{ avg_win_ := fpm_div_int (gross is_win (trades_ m)) (Z.of_nat (winning_trades_ m)) }} else m in
  if (0 <? losing_trades_ m)%nat
  then m {{ avg_loss_ := fpm_div_int (gross is_loss (trades_ m)) (Z.of_nat (losing_trades_ m)) }} else m.

(** The section on win rate and profit factor. *)
Definition calc_trades (m : MetricsCollector) : MetricsCollector :=
  calc_averages (calc_profit_factor (calc_win_rate (calc_counts m))).

(** The sections in the order of the code; a ratio whose condition fails keeps the value
    of the previous calculation. *)
Definition calculateMetrics (m : MetricsCollector) : MetricsCollector :=
  let m := m {{ equity_curve_ := (λ '(ts, eq), (ts, toDouble eq)) <$> equity_snaps_ m }} in
  calc_trades (calc_ratios (calc_annualized (calc_total_return (calc_drawdown m)))).

(** ** Export *)

Definition curve_json (l : list (Z * double)) : json :=
  j_array ((λ '(ts, v), j_array [j_int ts; j_double v]) <$> l).

Definition exportToJSON (m : MetricsCollector) : json :=
  j_object [("total_return", j_double (toDouble (total_return_ m)));
    ("annualized_return", j_double (annualized_return_ m)); ("sharpe_ratio", j_double (sharpe_ratio_ m));
    ("sortino_ratio", j_double (sortino_ratio_ m)); ("calmar_ratio", j_double (calmar_ratio_ m));
    ("max_drawdown", j_double (toDouble (max_drawdown_ m))); ("max_drawdown_pct", j_double (max_drawdown_pct_ m));
    ("max_drawdown_duration_us", j_int (max_dd_duration_us_ m)); ("win_rate", j_double (win_rate_ m));
    ("profit_factor", j_double (profit_factor_ m)); ("avg_win", j_double (toDouble (avg_win_ m)));
    ("avg_loss", j_double (toDouble (avg_loss_ m))); ("total_trades", j_int (Z.of_nat (length (trades_ m))));
    ("winning_trades", j_int (Z.of_nat (winning_trades_ m))); ("losing_trades", j_int (Z.of_nat (losing_trades_ m)));
    ("equity_curve", curve_json (equity_curve_ m)); ("drawdown_curve", curve_json (drawdown_curve_ m))]%string.

Definition nl : string := String (Ascii.ascii_of_nat 10) EmptyString.
Definition csv_double (name : string) (v : double) : string := (name ++ "," ++ show_double v ++ nl)%string.
Definition csv_nat (name : string) (n : nat) : string := (name ++ "," ++ pretty n ++ nl)%string.
Definition csv_curve (l : list (Z * double)) : string :=
  String.concat EmptyString ((λ '(ts, v), pretty ts ++ "," ++ show_double v ++ nl)%string <$> l).

Definition exportToCSV (m : MetricsCollector) : string :=
  ("metric,value" ++ nl ++ csv_double "total_return" (toDouble (total_return_ m))
   ++ csv_double "annualized_return" (annualized_return_ m) ++ csv_double "sharpe_ratio" (sharpe_ratio_ m)
   ++ csv_double "sortino_ratio" (sortino_ratio_ m) ++ csv_double "calmar_ratio" (calmar_ratio_ m)
   ++ csv_double "max_drawdown" (toDouble (max_drawdown_ m)) ++ csv_double "max_drawdown_pct" (max_drawdown_pct_ m)
   ++ csv_double "win_rate" (win_rate_ m) ++ csv_double "profit_factor" (profit_factor_ m)
   ++ csv_double "avg_win" (toDouble (avg_win_ m)) ++ csv_double "avg_loss" (toDouble (avg_loss_ m))
   ++ csv_nat "total_trades" (length (trades_ m)) ++ csv_nat "winning_trades" (winning_trades_ m)
   ++ csv_nat "losing_trades" (losing_trades_ m)
   ++ nl ++ "timestamp_us,equity" ++ nl ++ csv_curve (equity_curve_ m)
   ++ nl ++ "timestamp_us,drawdown_pct" ++ nl ++ csv_curve (drawdown_curve_ m))%string.
End metrics.

(** Floating-point operations and the loops are not unfolded by the proofs. *)
#[local] Arguments dadd : simpl never.
#[local] Arguments dsub : simpl never.
#[local] Arguments dmul : simpl never.
#[local] Arguments ddiv : simpl never.
#[local] Arguments d_of_Z : simpl never.
#[local] Arguments d_lit : simpl never.
#[local] Arguments dltb : simpl never.
#[local] Arguments dpos : simpl never.
#[local] Arguments dsqrt : simpl never.
#[local] Arguments toDouble : simpl never.
#[local] Arguments mean : simpl never.
#[local] Arguments stddev : simpl never.
#[local] Arguments dailyReturns : simpl never.
#[local] Arguments wrapU : simpl never.
#[local] Arguments Nat.ltb : simpl never.

(** ** Days *)

Lemma skip_before_spec d rest :
  ∃ l, rest = l ++ skip_before d rest ∧ Forall (λ s, s.1 < d) l ∧
    match skip_before d rest with [] => True | s :: _ => d <= s.1 end.
Proof.
  induction rest as [|s rest IH]; cbn; [by exists []|].
  destruct (Z.ltb_spec s.1 d).
  - destruct IH as (l & E & Hl & Hs). exists (s :: l).
    split_and!; [by rewrite E at 1|by constructor|done].
  - exists []. split_and!; [done|constructor|done].
Qed.

Lemma foldr_max_spec (l : list Z) x :
  x ∈ l → Forall (Z.le 0) l → foldr Z.max 0 l ∈ l ∧ Forall (λ y, y <= foldr Z.max 0 l) l.
Proof.
  revert x. induction l as [|a l IH]; intros x Hx Hl; [by apply elem_of_nil in Hx|].
  apply Forall_cons in Hl as [Ha Hl]. cbn. destruct l as [|b l].
  { cbn. rewrite Z.max_l by done. split; [by left|by repeat constructor]. }
  destruct (IH b ltac:(by left) Hl) as [Hin Hmax]. set (M := foldr Z.max 0 (b :: l)) in *.
  destruct (Z.max_spec a M) as [[? ->]|[? ->]].
  - split; [by right|]. constructor; [lia|done].
  - split; [by left|]. constructor; [lia|]. eapply Forall_impl; [exact Hmax|]. intros y Hy. cbv beta in Hy. lia.
Qed.

(** One turn per day: with fuel for the days left the loop yields a return for each of
    them but the first. *)
Lemma day_loop_fuel fuel first_day k prev rest M :
  0 <= k → first_day <= k * DAY_US → M < 2 ^ 63 → k <= M / DAY_US →
  M ∈ rest.*1 → Forall (λ s, s.1 <= M) rest →
  (Z.to_nat (M / DAY_US - k) < fuel)%nat →
  Z.of_nat (length (day_loop fuel first_day (k * DAY_US) prev rest))
  = M / DAY_US - k + (if k * DAY_US >? first_day then 1 else 0).
Proof.
  intros Hk Hfirst HM. revert k prev rest Hk Hfirst.
  induction fuel as [|fuel IH]; intros k prev rest Hk Hfirst HkM Hin Hle Hf; [lia|].
  cbn [day_loop]. destruct rest as [|s rest']; [by apply elem_of_nil in Hin|].
  assert (M / DAY_US * DAY_US <= M < (M / DAY_US + 1) * DAY_US) as HMd by (unfold DAY_US; Z.div_mod_to_equations; lia).
  assert (k * DAY_US <= M / DAY_US * DAY_US) as HkD by (apply Z.mul_le_mono_nonneg_r; [done|lia]).
  assert (u64 (k * DAY_US + DAY_US) = (k + 1) * DAY_US) as ->.
  { rewrite wrapU_id by (unfold inU, DAY_US in *; lia). lia. }
  rewrite length_app, Nat2Z.inj_add.
  destruct (skip_before_spec ((k + 1) * DAY_US) (s :: rest')) as (l & E & Hl & Hs).
  set (rest2 := skip_before _ _) in *. rewrite E in Hin, Hle.
  assert (Z.of_nat (length (day_loop fuel first_day ((k + 1) * DAY_US)
            (last_snap s rest' ((k + 1) * DAY_US)).2 rest2)) = M / DAY_US - k) as ->.
  { destruct (decide (k = M / DAY_US)) as [->|Hne].
    - assert (rest2 = []) as ->; [|by destruct fuel; cbn; lia].
      destruct rest2 as [|s2 rest2]; [done|]. apply Forall_app in Hle as [_ [Hs2 _]%Forall_cons].
      unfold DAY_US in *. lia.
    - rewrite IH; [|lia|unfold DAY_US in *; lia|lia| |by apply Forall_app in Hle as [_ ?]|lia].
      + assert (((k + 1) * DAY_US >? first_day) = true) as -> by (unfold DAY_US in *; lia). lia.
      + rewrite fmap_app, elem_of_app in Hin. destruct Hin as [Hin|Hin]; [|done].
        apply list_elem_of_fmap in Hin as (y & Ey & Hy). rewrite Forall_forall in Hl. specialize (Hl y Hy).
        assert ((k + 1) * DAY_US <= M / DAY_US * DAY_US) by (unfold DAY_US in *; nia). cbn in Hl. lia. }
  destruct (_ >? _); cbn [length]; lia.
Qed.

(** ** Drawdown *)

Section drawdown.
Context {F : FpmOps} {HF : FpmLaws F}.

(** Equities whose differences are representable. *)
Definition moderate (e : Z) : Prop := Z.abs e < 2 ^ 62.

Lemma moderate_sub a b : moderate a → moderate b → a ⊟ b = a - b.
Proof. unfold moderate. intros. apply fpm_sub_spec; unfold is_dec, inS; lia. Qed.

(** [x] is the largest drop from an element of [l] to a later one. *)
Definition largest_drop (l : list (Z * Z)) (x : Z) : Prop :=
  0 <= x ∧
  (∀ i j a b, (i <= j)%nat → l !! i = Some a → l !! j = Some b → a.2 - b.2 <= x) ∧
  (x = 0 ∨ ∃ i j a b, (i <= j)%nat ∧ l !! i = Some a ∧ l !! j = Some b ∧ a.2 - b.2 = x).

(** After the snaps [l]: the peak is the largest equity so far, from which the largest
    drop is known. *)
Definition drawdown_inv (l : list (Z * Z)) (d : Drawdown) : Prop :=
  (∀ a, a ∈ l → a.2 <= peak d) ∧ (∃ i a, l !! i = Some a ∧ a.2 = peak d) ∧ largest_drop l (dd_max d).

Lemma drawdown_step_values d ts eq :
  let d' := drawdown_step d (ts, eq) in
  peak d' = Z.max (peak d) eq ∧
  dd_max d' = Z.max (dd_max d) (Z.max (peak d) eq ⊟ eq).
Proof.
  unfold drawdown_step.
  assert (peak (raise_peak ts eq d) = Z.max (peak d) eq ∧ dd_max (raise_peak ts eq d) = dd_max d) as [Hp Hm].
  { unfold raise_peak. destruct d; cbn -[u64]. unfold constant. rewrite Z.gtb_ltb.
    destruct (Z.ltb_spec peak0 eq); [|cbn; lia]. destruct in_dd0; cbn -[u64]; [destruct (_ >? _)|]; cbn; lia. }
  destruct (raise_peak ts eq d) as [pk st inn mx pct dur cv]. cbn in Hp, Hm. subst. unfold record_drawdown.
  set (dd := _ ⊟ _). cbn. unfold constant. rewrite !Z.gtb_ltb.
  destruct (Z.ltb_spec (dd_max d) dd); cbn; destruct ((0 <? dd) && negb inn); cbn; unfold constant; lia.
Qed.

Lemma drawdown_step_inv l d s :
  drawdown_inv l d ∨ l = [] ∧ peak d = s.2 ∧ dd_max d = 0 →
  Forall (λ s, moderate s.2) (l ++ [s]) → drawdown_inv (l ++ [s]) (drawdown_step d s).
Proof.
  intros Hinv Hm. destruct s as [ts eq]. destruct (drawdown_step_values d ts eq) as [Hp Hx].
  apply Forall_app in Hm as [Hml [Hms _]%Forall_cons]. cbn in Hms.
  assert ((∀ a, a ∈ l → a.2 <= peak d) ∧ (∃ i a, (l ++ [(ts, eq)]) !! i = Some a ∧ a.2 = peak d) ∧ largest_drop l (dd_max d) ∧ moderate (peak d))
    as (Hle & (i & a & Hi & Ha) & (Hx0 & Hub & Hatt) & Hmp).
  { destruct Hinv as [(? & (i & a & Hi & Ha) & ?)|(-> & -> & ->)].
    - split_and!; [done| |done|]; [exists i, a; split; [by apply lookup_app_l_Some|done]|].
      rewrite <-Ha. by apply (Forall_lookup_1 _ _ _ _ Hml Hi).
    - cbn. split_and!; [by intros a ?%elem_of_nil|by exists 0%nat, (ts, eq)|split_and!; [done|done|by left]|done]. }
  assert (moderate (Z.max (peak d) eq)) as Hmax by (unfold moderate in *; lia).
  rewrite (moderate_sub _ _ Hmax Hms) in Hx.
  assert (∃ i a, (l ++ [(ts, eq)]) !! i = Some a ∧ a.2 = Z.max (peak d) eq) as (ip & ap & Hip & Hap).
  { destruct (Z.max_spec (peak d) eq) as [[? ->]|[? ->]]; [|by exists i, a].
    exists (length l), (ts, eq). by rewrite lookup_app_r, Nat.sub_diag. }
  assert (∀ i, is_Some ((l ++ [(ts, eq)]) !! i) → (i <= length l)%nat) as Hlast.
  { intros k Hk%lookup_lt_is_Some. rewrite length_app in Hk. cbn in Hk. lia. }
  split; [|split].
  - rewrite Hp. intros b [Hb| ->%list_elem_of_singleton]%elem_of_app; [specialize (Hle b Hb)|cbn]; lia.
  - rewrite Hp. by exists ip, ap.
  - rewrite Hx. split; [lia|split].
    + intros k j b c Hkj Hk Hj. apply lookup_snoc_Some in Hj as [[Hjl Hj]|[-> <-]].
      * apply lookup_snoc_Some in Hk as [[_ Hk]|[-> _]]; [|lia]. specialize (Hub k j b c Hkj Hk Hj). lia.
      * cbn. apply lookup_snoc_Some in Hk as [[_ Hk]|[_ <-]]; [|cbn; lia].
        apply list_elem_of_lookup_2 in Hk. specialize (Hle b Hk). lia.
    + destruct (Z.max_spec (dd_max d) (Z.max (peak d) eq - eq)) as [[? ->]|[? ->]].
      * right. exists ip, (length l), ap, (ts, eq). split_and!; [by apply Hlast; eauto|done|by rewrite lookup_app_r, Nat.sub_diag|cbn; lia].
      * destruct Hatt as [->|(k & j & b & c & ? & Hk & Hj & <-)]; [by left|]. right. exists k, j, b, c.
        split_and!; [done|by apply lookup_app_l_Some|by apply lookup_app_l_Some|done].
Qed.

Lemma drawdown_fold_inv l1 l2 d s :
  (drawdown_inv l1 d ∨ l1 = [] ∧ peak d = s.2 ∧ dd_max d = 0) → head l2 = Some s ∨ l1 ≠ [] →
  l2 ≠ [] → Forall (λ s, moderate s.2) (l1 ++ l2) → drawdown_inv (l1 ++ l2) (foldl drawdown_step d l2).
Proof.
  revert l1 d s. induction l2 as [|x l2 IH]; intros l1 d s Hinv Hhd Hne Hm; [done|]. cbn [foldl].
  rewrite cons_middle, app_assoc in *.
  assert (drawdown_inv (l1 ++ [x]) (drawdown_step d x)) as Hx.
  { apply drawdown_step_inv; [|by apply Forall_app in Hm as [? _]].
    destruct Hinv as [?|(-> & ? & ?)]; [by left|]. destruct Hhd as [[= ->]|?]; [by right|done]. }
  destruct l2 as [|y l2]; [by rewrite app_nil_r|].
  apply (IH _ _ x); [by left|by right; destruct l1|done|done].
Qed.

Lemma drawdown_max l : l ≠ [] → Forall (λ s, moderate s.2) l → largest_drop l (dd_max (drawdown l)).
Proof.
  intros Hne Hm. unfold drawdown. destruct l as [|s l]; [done|].
  pose proof (drawdown_fold_inv [] (s :: l) (mkDrawdown s.2 0 false 0 dzero 0 []) s) as H.
  cbn [app] in H. destruct H as (_ & _ & Hd); [by right|by left|done|done|].
  destruct (in_dd _); [|done]. destruct (_ >? _); done.
Qed.
End drawdown.

(** ** Properties *)

Section properties.
Context {F : FpmOps} {HF : FpmLaws F} {L : Libm}.

(** A section of the calculation that leaves a member alone. *)
Ltac leaves_alone :=
  match goal with m : MetricsCollector |- _ => destruct m end;
  cbn -[length dailyReturns mean stddev filter u64]; unfold constant;
  repeat (match goal with
          | |- context [if ?b then _ else _] => destruct b
          | |- context [match ?b with [] => _ | _ :: _ => _ end] => destruct b
          end; cbn -[length dailyReturns mean stddev filter u64]; unfold constant); done.

Lemma calc_averages_keeps m :
  max_drawdown_ (calc_averages m) = max_drawdown_ m ∧ winning_trades_ (calc_averages m) = winning_trades_ m ∧
  losing_trades_ (calc_averages m) = losing_trades_ m ∧ win_rate_ (calc_averages m) = win_rate_ m.
Proof. unfold calc_averages. by destruct (0 <? winning_trades_ m)%nat; cbn zeta; destruct (_ <? _)%nat. Qed.
Lemma calc_profit_factor_keeps m :
  max_drawdown_ (calc_profit_factor m) = max_drawdown_ m ∧
  winning_trades_ (calc_profit_factor m) = winning_trades_ m ∧
  losing_trades_ (calc_profit_factor m) = losing_trades_ m ∧ win_rate_ (calc_profit_factor m) = win_rate_ m.
Proof. unfold calc_profit_factor. cbn zeta. by destruct (_ <? _); [|destruct (_ >? _)]. Qed.
Lemma calc_win_rate_spec m :
  max_drawdown_ (calc_win_rate m) = max_drawdown_ m ∧ winning_trades_ (calc_win_rate m) = winning_trades_ m ∧
  losing_trades_ (calc_win_rate m) = losing_trades_ m ∧
  ((0 < length (trades_ m))%nat → win_rate_ (calc_win_rate m)
     = ddiv (d_of_Z (Z.of_nat (winning_trades_ m))) (d_of_Z (Z.of_nat (length (trades_ m))))).
Proof. unfold calc_win_rate. destruct (Nat.ltb_spec 0 (length (trades_ m))); [done|]. split_and!; [done..|lia]. Qed.

(** What the section on trades sets. *)
Lemma calc_trades_spec m :
  max_drawdown_ (calc_trades m) = max_drawdown_ m ∧
  winning_trades_ (calc_trades m) = count_trades is_win (trades_ m) ∧
  losing_trades_ (calc_trades m) = count_trades is_loss (trades_ m) ∧
  ((0 < length (trades_ m))%nat → win_rate_ (calc_trades m)
     = ddiv (d_of_Z (Z.of_nat (count_trades is_win (trades_ m)))) (d_of_Z (Z.of_nat (length (trades_ m))))).
Proof.
  unfold calc_trades. destruct (calc_averages_keeps (calc_profit_factor (calc_win_rate (calc_counts m)))) as (-> & -> & -> & ->).
  destruct (calc_profit_factor_keeps (calc_win_rate (calc_counts m))) as (-> & -> & -> & ->).
  destruct (calc_win_rate_spec (calc_counts m)) as (-> & -> & -> & H). split_and!; done.
Qed.
Lemma calc_ratios_keeps m :
  max_drawdown_ (calc_ratios m) = max_drawdown_ m ∧ trades_ (calc_ratios m) = trades_ m.
Proof. unfold calc_ratios. cbn zeta. leaves_alone. Qed.
Lemma calc_annualized_keeps m :
  max_drawdown_ (calc_annualized m) = max_drawdown_ m ∧ trades_ (calc_annualized m) = trades_ m.
Proof. unfold calc_annualized. cbn zeta. leaves_alone. Qed.
Lemma calc_total_return_keeps m :
  max_drawdown_ (calc_total_return m) = max_drawdown_ m ∧ trades_ (calc_total_return m) = trades_ m.
Proof. unfold calc_total_return. cbn zeta. leaves_alone. Qed.

(** The calculation leaves what was recorded alone. *)
Lemma calculateMetrics_records m :
  trades_ (calculateMetrics m) = trades_ m ∧ equity_snaps_ (calculateMetrics m) = equity_snaps_ m.
Proof.
  assert (∀ m, trades_ (calc_averages m) = trades_ m ∧ equity_snaps_ (calc_averages m) = equity_snaps_ m) as H1
    by (intros m'; unfold calc_averages; cbv zeta; repeat case_match; done).
  assert (∀ m, trades_ (calc_profit_factor m) = trades_ m ∧ equity_snaps_ (calc_profit_factor m) = equity_snaps_ m) as H2
    by (intros m'; unfold calc_profit_factor; cbv zeta; repeat case_match; done).
  assert (∀ m, trades_ (calc_win_rate m) = trades_ m ∧ equity_snaps_ (calc_win_rate m) = equity_snaps_ m) as H3
    by (intros m'; unfold calc_win_rate; repeat case_match; done).
  assert (∀ m, trades_ (calc_ratios m) = trades_ m ∧ equity_snaps_ (calc_ratios m) = equity_snaps_ m) as H4
    by (intros m'; unfold calc_ratios; cbv zeta; repeat case_match; done).
  assert (∀ m, trades_ (calc_annualized m) = trades_ m ∧ equity_snaps_ (calc_annualized m) = equity_snaps_ m) as H5
    by (intros m'; unfold calc_annualized; cbv zeta; repeat case_match; done).
  assert (∀ m, trades_ (calc_total_return m) = trades_ m ∧ equity_snaps_ (calc_total_return m) = equity_snaps_ m) as H6
    by (intros m'; unfold calc_total_return; repeat case_match; done).
  assert (∀ m, trades_ (calc_counts m) = trades_ m ∧ equity_snaps_ (calc_counts m) = equity_snaps_ m) as H0 by done.
  unfold calculateMetrics, calc_trades. cbv zeta. set (m0 := m {{ equity_curve_ := _ }}).
  destruct (H1 (calc_profit_factor (calc_win_rate (calc_counts (calc_ratios (calc_annualized (calc_total_return (calc_drawdown m0)))))))) as [-> ->].
  destruct (H2 (calc_win_rate (calc_counts (calc_ratios (calc_annualized (calc_total_return (calc_drawdown m0))))))) as [-> ->].
  destruct (H3 (calc_counts (calc_ratios (calc_annualized (calc_total_return (calc_drawdown m0)))))) as [-> ->].
  destruct (H0 (calc_ratios (calc_annualized (calc_total_return (calc_drawdown m0))))) as [-> ->].
  destruct (H4 (calc_annualized (calc_total_return (calc_drawdown m0)))) as [-> ->].
  destruct (H5 (calc_total_return (calc_drawdown m0))) as [-> ->]. by destruct (H6 (calc_drawdown m0)) as [-> ->].
Qed.

(** C34: the maximum drawdown is the largest drop of the equity from any snapshot to any
    later one: no pair of snapshots drops more, and it is zero or attained. The single
    pass over the curve computes what the definition over all pairs says. *)
Theorem max_drawdown_exact m :
  equity_snaps_ m ≠ [] → Forall (λ s, moderate s.2) (equity_snaps_ m) →
  largest_drop (equity_snaps_ m) (max_drawdown_ (calculateMetrics m)).
Proof.
  intros Hne Hm. unfold calculateMetrics. cbn zeta.
  rewrite (proj1 (calc_trades_spec _)), (proj1 (calc_ratios_keeps _)), (proj1 (calc_annualized_keeps _)),
    (proj1 (calc_total_return_keeps _)).
  unfold calc_drawdown. cbn. unfold constant. by apply drawdown_max.
Qed.

(** Whatever lies between the snapshots, the daily returns have one entry for every
    calendar day after that of the first snapshot up to that of the latest. The
    backtest records its first snapshot at timestamp zero, so its returns count every
    day since the first of January 1970, and mean, Sharpe and Sortino ratio with them. *)
Lemma daily_returns_count s1 s2 rest :
  let equity := s1 :: s2 :: rest in
  Forall (λ s, 0 <= s.1 < 2 ^ 63) equity →
  Z.of_nat (length (dailyReturns equity)) = foldr Z.max 0 equity.*1 / DAY_US - s1.1 / DAY_US.
Proof.
  intros equity Ht.
  change (dailyReturns equity) with (day_loop (days_spanned (s1.1 / DAY_US * DAY_US) equity)
    (s1.1 / DAY_US * DAY_US) (s1.1 / DAY_US * DAY_US) s1.2 equity).
  assert (Forall (Z.le 0) equity.*1) as Hpos.
  { apply Forall_fmap. eapply Forall_impl; [exact Ht|]. by intros s [? _]. }
  assert (s1.1 ∈ equity.*1) as Hs1 by (subst equity; rewrite fmap_cons; by left).
  destruct (foldr_max_spec equity.*1 s1.1 Hs1 Hpos) as [Hin Hmax].
  set (M := foldr Z.max 0 equity.*1) in *.
  assert (s1.1 <= M) as H1 by (apply Forall_cons in Hmax as [? _]; done).
  assert (M < 2 ^ 63) as HM.
  { apply list_elem_of_fmap in Hin as (s & Es & Hs). rewrite Forall_forall in Ht. specialize (Ht s Hs). cbv beta in *. lia. }
  assert (0 <= s1.1) by (apply Forall_cons in Hpos as [? _]; done).
  assert (s1.1 / DAY_US * DAY_US <= s1.1) by (unfold DAY_US; Z.div_mod_to_equations; lia).
  rewrite (day_loop_fuel _ _ (s1.1 / DAY_US) _ _ M); try done.
  - rewrite Z.gtb_ltb, Z.ltb_irrefl. lia.
  - apply Z.div_pos; [done|reflexivity].
  - apply Z.div_le_mono; [reflexivity|done].
  - apply Forall_forall. intros s Hs. rewrite Forall_forall in Hmax. apply Hmax, list_elem_of_fmap. by exists s.
  - unfold days_spanned. fold M.
    assert (M / DAY_US - s1.1 / DAY_US <= (M - s1.1 / DAY_US * DAY_US) / DAY_US)
      by (unfold DAY_US; Z.div_mod_to_equations; lia). lia.
Qed.

Lemma count_trades_spec sel (P : Trade.t → Prop) `{∀ t, Decision (P t)} ts :
  (∀ t, sel t = bool_decide (P t)) → count_trades sel ts = length (filter P ts).
Proof.
  intros Hsel. unfold count_trades. change (length (filter P ts)) with (0 + length (filter P ts))%nat.
  generalize 0%nat. induction ts as [|t ts IH]; intros n; cbn [foldl]; [cbn; lia|].
  rewrite IH, filter_cons, Hsel. case_bool_decide; [rewrite decide_True by done|rewrite decide_False by done]; cbn; lia.
Qed.

Lemma trades_partition (ts : list Trade.t) :
  (length (filter (λ t, (0 < Trade.pnl t)%Z) ts) + length (filter (λ t, (Trade.pnl t < 0)%Z) ts)
   + length (filter (λ t, Trade.pnl t = 0%Z) ts) = length ts)%nat.
Proof.
  induction ts as [|t ts IH]; [done|]. rewrite !filter_cons. cbn [length].
  repeat case_decide; cbn [length]; lia.
Qed.

(** Every trade counts once: winning, losing or neither by the sign of its profit;
    the numbers of the three sum to that of all trades and the win rate is the
    quotient, rounded once. *)
Lemma trades_counted m :
  let m' := calculateMetrics m in
  winning_trades_ m' = length (filter (λ t, 0 < Trade.pnl t) (trades_ m)) ∧
  losing_trades_ m' = length (filter (λ t, Trade.pnl t < 0) (trades_ m)) ∧
  (winning_trades_ m' + losing_trades_ m' + length (filter (λ t, Trade.pnl t = 0%Z) (trades_ m)) = length (trades_ m))%nat ∧
  ((0 < length (trades_ m))%nat →
   win_rate_ m' = ddiv (d_of_Z (Z.of_nat (winning_trades_ m'))) (d_of_Z (Z.of_nat (length (trades_ m))))).
Proof.
  cbv zeta. unfold calculateMetrics. cbn zeta.
  set (m1 := calc_ratios _).
  assert (trades_ m1 = trades_ m) as Ht.
  { subst m1. rewrite (proj2 (calc_ratios_keeps _)), (proj2 (calc_annualized_keeps _)), (proj2 (calc_total_return_keeps _)). done. }
  rewrite <-Ht. clearbody m1. clear Ht m.
  pose proof (trades_partition (trades_ m1)) as Hpart.
  rewrite <-(count_trades_spec is_win (λ t, 0 < Trade.pnl t)),
    <-(count_trades_spec is_loss (λ t, Trade.pnl t < 0)) in Hpart |- *.
  2-5: intros t; unfold is_loss, is_win; rewrite Z.gtb_ltb;
    case_bool_decide; destruct_ltbs; cbn; lia || done.
  destruct (calc_trades_spec m1) as (_ & -> & -> & Hrate). by split_and!.
Qed.
End properties.

(** An instance for the witnesses, whose results do not depend on it. *)
Definition LibmAny : Libm := {| libm_pow x _ := x; show_double _ := EmptyString |}.

Definition sample_equity : MetricsCollector :=
  recordEquity 3 90 (recordEquity 2 120 (recordEquity 1 80 (recordEquity 0 100 MetricsCollector_init))).

Lemma max_drawdown_exact_witness :
  let m := calculateMetrics (F := FpmRef) (L := LibmAny) sample_equity in
  max_drawdown_ m = 30 ∧ largest_drop (equity_snaps_ sample_equity) (max_drawdown_ m).
Proof.
  split; [vm_compute; reflexivity|].
  apply (max_drawdown_exact (F := FpmRef) (HF := FpmRef_laws) (L := LibmAny) sample_equity); [discriminate|].
  unfold moderate. repeat constructor.
Defined.

(** Two snapshots an hour apart in January 2026, and the backtest's initial one. *)
Lemma daily_returns_count_witness :
  let equity := [(0, d_of_Z 100); (1767225600000000, d_of_Z 100); (1767229200000000, d_of_Z 101)] in
  Z.of_nat (length (dailyReturns equity)) = 20454.
Proof.
  cbv zeta. rewrite daily_returns_count by (repeat constructor; cbn; lia). reflexivity.
Defined.
