(* ===== verification/BacktestEngine.v ===== *)
(** [BacktestEngine] (include/chronos/backtest/backtest_engine.hpp,
    src/backtest/backtest_engine.cpp): a strategy run against a recorded log.

    The engine wires a [StrategyContext] to components of its own. They are the same
    components a live engine has, so [sim_] is a [StrategyEngine] record of which the
    context's fields are used: position manager, risk engine, id generator, order
    queue, order books and counters. The callbacks of the strategy are the same
    programs; no gateway polls the queue here, so the environment [clock] only says
    what the two clocks read at each call. [placed_] and [fills_] are ghost state: every order
    taken for simulation and every simulated fill with its order, oldest first. *)
From S2P Require Import Prelude FixedPoint Types BookSpec.
From S2P Require OrderBookV2.
From S2P Require Import LogFormat LogReader TimeReplayer Metrics.
From S2P Require Import MpmcQueue PositionManager Config RiskEngine StrategyEngine.

Module FillMode.
Inductive t := IMMEDIATE | NEXT_TICK | CONSERVATIVE.
#[global] Instance eq_dec : EqDecision t. Proof. solve_decision. Defined.
End FillMode.

Module BacktestConfig.
Record t := mk {
  fill_mode : FillMode.t;
  initial_capital : Z;
  maker_fee : double;
  taker_fee : double;
  record_equity_every_tick : bool;
}.
Definition default : t := mk FillMode.NEXT_TICK 0 dzero dzero true.
End BacktestConfig.

Module PendingOrder.
Record t := mk { order : OrderRequest.t; placed_at_us : Z }.
End PendingOrder.

Record BacktestEngine (St : Type) := mkBacktest {
  config_ : BacktestConfig.t;
  book_ : OrderBookV2.OrderBookV2;
  metrics_ : MetricsCollector;
  sim_ : StrategyEngine St;
  strategy_ : option (Strategy St * St);
  pending_ : list PendingOrder.t;
  replayer_ : TimeReplayer;
  current_tick_ts_ : Z;
  last_tick_ : Tick.t;
  has_last_tick_ : bool;
  initial_equity_ : Z;
  placed_ : list PendingOrder.t;
  fills_ : list (PendingOrder.t * Fill.t);
}.
Arguments mkBacktest {St}.
Arguments config_ {St}.
Arguments book_ {St}.
Arguments metrics_ {St}.
Arguments sim_ {St}.
Arguments strategy_ {St}.
Arguments pending_ {St}.
Arguments replayer_ {St}.
Arguments current_tick_ts_ {St}.
Arguments last_tick_ {St}.
Arguments has_last_tick_ {St}.
Arguments initial_equity_ {St}.
Arguments placed_ {St}.
Arguments fills_ {St}.

Section backtest.
Context {F : FpmOps} {U : CastUB} {IO : IterOrder} {L : Libm} {MH : MinHeap}.
Context {St : Type} (clock : nat → Z * Z).

Abbreviation Engine := (BacktestEngine St).

(** The environment of the context calls: one thread, no polls and no changes in between. *)
Definition clock_env (n : nat) : reading := mkReading 0 (clock n).1 (clock n).2 no_changes.

Definition BacktestEngine_init : Engine :=
  mkBacktest BacktestConfig.default OrderBookV2.OrderBookV2_init MetricsCollector_init StrategyEngine_init
    None [] TimeReplayer_init 0 Tick.default false 0 [] [].

(** *** Setup *)

Definition setStrategy (strategy : Strategy St) (self : St) (b : Engine) : Engine :=
  b {{ strategy_ := Some (strategy, self) }}.

Definition setupReplayer (logs : LogFileSet) (b : Engine) : Engine :=
  if isOpen (LogReader.tick logs) then b {{ replayer_ ::= addStream (LogReader.tick logs) }} else b.

Definition setData : LogFileSet → Engine → Engine := setupReplayer.

(** *** Callbacks of the strategy *)

Definition call_strategy (ev : Strategy St → St → prog St) (b : Engine) : option Engine :=
  '(strategy, self) ← strategy_ b;
  '(self, e) ← interp clock_env (ev strategy self) (sim_ b);
  Some (b {{ sim_ := e }} {{ strategy_ := Some (strategy, self) }}).

(** *** Simulated order processing *)

(** The second risk check of an order taken from the queue. *)
Definition check_again (order : OrderRequest.t) (e : StrategyEngine St) : bool * StrategyEngine St :=
  let r := clock_env (calls_ e) in
  let '(result, risk) := checkOrder (clock_us r) (check_latency_ns r) order (position_manager_ e) (risk_engine_ e) in
  let e := e {{ calls_ ::= S; risk_engine_ := risk }} in
  if RiskCheckResult.passed result then (true, e) else (false, e {{ orders_risk_rejected_ ::= inc64 }}).

Definition place (order : OrderRequest.t) (b : Engine) : Engine :=
  let p := PendingOrder.mk (order {{ OrderRequest.timestamp_us := current_tick_ts_ b }}) (current_tick_ts_ b) in
  b {{ pending_ ::= λ l, l ++ [p]; placed_ ::= λ l, l ++ [p] }}.

Definition drain_one (order : OrderRequest.t) (b : Engine) : Engine :=
  let '(passed, e) := check_again order (sim_ b) in
  let b := b {{ sim_ := e }} in
  if passed then place order b else b.

(** The loop of [drainOrderQueue]; [None] when the fuel runs out. *)
Fixpoint drain (fuel : nat) (b : Engine) : option Engine :=
  match fuel with
  | O => None
  | S fuel =>
      '(r, e) ← popOrder (sim_ b);
      let b := b {{ sim_ := e }} in
      match r with
      | Some order => drain fuel (drain_one order b)
      | None => Some b
      end
  end.

(** Nothing is queued while the queue is drained: its size and one are turns enough
    ([drain_ok]). *)
Definition drainOrderQueue (b : Engine) : option Engine :=
  drain (S (Z.to_nat (MpmcQueue.size (order_queue_ (sim_ b))))) b.

(** The switch on the fill mode. *)
Definition fill_price_of (mode : FillMode.t) (side : OrderSide.t) (tick_price : Z) (best_bid best_ask : option Z) : Z :=
  match side with
  | OrderSide.BUY =>
      match mode with
      | FillMode.CONSERVATIVE => default tick_price best_ask
      | FillMode.IMMEDIATE | FillMode.NEXT_TICK => default tick_price best_ask
      end
  | OrderSide.SELL =>
      match mode with
      | FillMode.CONSERVATIVE => default tick_price best_bid
      | FillMode.IMMEDIATE | FillMode.NEXT_TICK => default tick_price best_bid
      end
  end.

Definition no_liquidity (side : OrderSide.t) (best_bid best_ask : option Z) : bool :=
  match side with
  | OrderSide.BUY => bool_decide (best_ask = None)
  | OrderSide.SELL => bool_decide (best_bid = None)
  end.

(** The fill of a pending order; a default [Fill] is zero but for the fields set. *)
Definition make_fill (tick : Tick.t) (strategy_id fill_price : Z) (o : OrderRequest.t) : Fill.t :=
  Fill.default {{ Fill.order_id := OrderRequest.order_id o; Fill.fill_price := fill_price;
                  Fill.fill_quantity := OrderRequest.quantity o; Fill.side := OrderRequest.side o;
                  Fill.symbol_id := OrderRequest.symbol_id o;
                  Fill.exchange_timestamp_us := Tick.exchange_timestamp_us tick;
                  Fill.strategy_id := strategy_id }}.

(** [Some None]: the order stays pending. *)
Definition try_fill (tick : Tick.t) (p : PendingOrder.t) (b : Engine) : option (option Fill.t) :=
  best_bid ← OrderBookV2.getBestBid (book_ b);
  best_ask ← OrderBookV2.getBestAsk (book_ b);
  let o := PendingOrder.order p in
  if no_liquidity (OrderRequest.side o) best_bid best_ask then Some None
  else
    let price := fill_price_of (BacktestConfig.fill_mode (config_ b)) (OrderRequest.side o)
                   (Tick.price tick) best_bid best_ask in
    Some (Some (make_fill tick (current_strategy_id_ (sim_ b)) price o)).

Definition trade_pnl (taker_fee : double) (f : Fill.t) (limit : Z) : Z :=
  let pnl := match Fill.side f with
             | OrderSide.BUY => Fill.fill_quantity f ⊠ (Fill.fill_price f ⊟ limit)
             | OrderSide.SELL => Fill.fill_quantity f ⊠ (limit ⊟ Fill.fill_price f)
             end in
  if dpos taker_fee
  then pnl ⊟ (Fill.fill_price f ⊠ Fill.fill_quantity f) ⊠ toDecimal taker_fee
  else pnl.

Definition make_trade (taker_fee : double) (p : PendingOrder.t) (f : Fill.t) : Trade.t :=
  Trade.mk (PendingOrder.placed_at_us p) (Fill.exchange_timestamp_us f) (Fill.symbol_id f)
    (OrderRequest.price (PendingOrder.order p)) (Fill.fill_price f) (Fill.fill_quantity f)
    (trade_pnl taker_fee f (OrderRequest.price (PendingOrder.order p))) (Fill.side f).

(** The branch [if (filled)]. *)
Definition book_fill (p : PendingOrder.t) (f : Fill.t) (b : Engine) : option Engine :=
  let b := b {{ sim_ ::= λ e, e {{ position_manager_ ::= λ pm, (updatePosition f pm).2 }} }} in
  let b := b {{ metrics_ ::= recordTrade (make_trade (BacktestConfig.taker_fee (config_ b)) p f) }} in
  call_strategy (λ s, onFill s f) (b {{ fills_ ::= λ l, l ++ [(p, f)] }}).

(** The loop over [pending_]: the orders it keeps, and the engine. *)
Fixpoint simulate (tick : Tick.t) (ps : list PendingOrder.t) (b : Engine)
    : option (list PendingOrder.t * Engine) :=
  match ps with
  | [] => Some ([], b)
  | p :: ps =>
      r ← try_fill tick p b;
      match r with
      | Some f => b ← book_fill p f b; simulate tick ps b
      | None => '(kept, b) ← simulate tick ps b; Some (p :: kept, b)
      end
  end.

Definition simulateFillsForPending (tick : Tick.t) (b : Engine) : option Engine :=
  '(kept, b) ← simulate tick (pending_ b) b; Some (b {{ pending_ := kept }}).

(** *** The run *)

(** The price a position is marked at. *)
Definition mark_price (tick : Tick.t) (best_bid best_ask : option Z) (pos : Position.t) : Z :=
  if (Position.quantity pos >? 0) && bool_decide (is_Some best_bid) then default 0 best_bid
  else if (Position.quantity pos <? 0) && bool_decide (is_Some best_ask) then default 0 best_ask
  else Tick.price tick.

Definition total_pnl (tick : Tick.t) (best_bid best_ask : option Z) (ps : list Position.t) : Z :=
  foldl (λ total pos, total ⊞ Position.getTotalPnL pos (mark_price tick best_bid best_ask pos)) 0 ps.

(** What the tick callback does before the strategy sees the tick. *)
Definition receive_tick (tick : Tick.t) (b : Engine) : Engine :=
  let ts := Tick.exchange_timestamp_us tick in
  let b := b {{ current_tick_ts_ := ts; last_tick_ := tick; has_last_tick_ := true;
                book_ ::= OrderBookV2.update tick }} in
  b {{ sim_ ::= λ e,
         let book := default OrderBookV2.OrderBookV2_init (order_books_ e !! 1) in
         e {{ order_books_ ::= <[1 := OrderBookV2.update tick book]>; timestamp_us_ := ts }} }}.

Definition record_equity (tick : Tick.t) (b : Engine) : option Engine :=
  best_bid ← OrderBookV2.getBestBid (book_ b);
  best_ask ← OrderBookV2.getBestAsk (book_ b);
  let total := total_pnl tick best_bid best_ask (getAllPositions (position_manager_ (sim_ b))) in
  Some (if BacktestConfig.record_equity_every_tick (config_ b)
        then b {{ metrics_ ::= recordEquity (current_tick_ts_ b) (initial_equity_ b ⊞ total) }} else b).

(** The tick callback. *)
Definition on_tick (tick : Tick.t) (b : Engine) : option Engine :=
  b ← call_strategy (λ s, onTick s tick) (receive_tick tick b);
  b ← drainOrderQueue b;
  b ← simulateFillsForPending tick b;
  record_equity tick b.

(** One call of the replayer; a record that is no tick does not reach the callback of the model. *)
Definition on_call (c : TimeReplayer.call) (b : Engine) : option Engine :=
  match c with
  | OnTick rec => tick ← tick_of_bytes rec; on_tick tick b
  | OnOrder _ | OnFill _ => Some b
  end.

Fixpoint on_calls (cs : list TimeReplayer.call) (b : Engine) : option Engine :=
  match cs with [] => Some b | c :: cs => b ← on_call c b; on_calls cs b end.

(** One turn of the replay loop: the calls the replayer makes are handled as they come. *)
Definition replay_one (b : Engine) : option (bool * Engine) :=
  let r := replayer_ b in
  '(ok, r') ← advanceToNextEvent r;
  b ← on_calls (drop (length (TimeReplayer.calls_ r)) (TimeReplayer.calls_ r')) (b {{ replayer_ := r' }});
  Some (ok, b).

(** The replay loop; [None] when the fuel runs out. *)
Fixpoint replay (fuel : nat) (b : Engine) : option Engine :=
  if isExhausted (replayer_ b) then Some b
  else match fuel with
       | O => None
       | S fuel => '(ok, b) ← replay_one b; if (ok : bool) then replay fuel b else Some b
       end.

Definition permissive_risk : RiskParameters :=
  RiskParameters_default {{ max_order_value := d_of_Z 1000000; max_position_value := d_of_Z 1000000;
    max_orders_per_second := 1000000; max_total_position_value := d_of_Z 10000000 }}.

(** The first steps of [run], up to [onLoad]. *)
Definition prepare (b : Engine) : Engine :=
  let capital := BacktestConfig.initial_capital (config_ b) in
  let b := b {{ sim_ ::= λ e,
         e {{ risk_engine_ ::= RiskEngine.updateParameters (clock (calls_ e)).1 permissive_risk;
              calls_ ::= S; current_strategy_id_ := 1;
              order_books_ := {[1 := OrderBookV2.OrderBookV2_init]} }} }} in
  b {{ initial_equity_ := if capital =? 0 then toDecimal (d_of_Z 10000) else capital }}.

Definition set_callbacks (r : TimeReplayer) : TimeReplayer :=
  setFillCallback (setOrderCallback (setTickCallback r)).

Definition run (b : Engine) : option Engine :=
  match strategy_ b with
  | None => Some b
  | Some _ =>
      b ← call_strategy onLoad (prepare b);
      let b := b {{ metrics_ ::= recordEquity 0 (initial_equity_ b) }} in
      let b := b {{ replayer_ ::= set_callbacks }} in
      b ← replay (events_left (replayer_ b)) b;
      Some (b {{ metrics_ ::= calculateMetrics }})
  end.
End backtest.

(** ** What a backtest has to account for

    Written from the fields of orders, ticks and positions, without the functions above. *)

Section accounts.
Context {F : FpmOps} {U : CastUB} {IO : IterOrder}.

(** The side of the book an order trades against. *)
Definition quote (side : OrderSide.t) (best_bid best_ask : option Z) : option Z :=
  match side with OrderSide.BUY => best_ask | OrderSide.SELL => best_bid end.

Definition order_quote (best_bid best_ask : option Z) (p : PendingOrder.t) : option Z :=
  quote (OrderRequest.side (PendingOrder.order p)) best_bid best_ask.

(** The whole order, at [price], at the time of the tick, for strategy 1. *)
Definition expected_fill (tick : Tick.t) (price : Z) (o : OrderRequest.t) : Fill.t :=
  {| Fill.execution_id := 0; Fill.fill_id := 0; Fill.order_id := OrderRequest.order_id o;
     Fill.fill_price := price; Fill.fill_quantity := OrderRequest.quantity o;
     Fill.exchange_timestamp_us := Tick.exchange_timestamp_us tick; Fill.receive_timestamp_us := 0;
     Fill.strategy_id := 1; Fill.exchange_id := 0; Fill.symbol_id := OrderRequest.symbol_id o;
     Fill.side := OrderRequest.side o; Fill.is_maker := 0 |}.

(** The orders with a quote are filled at it, in order; the others are kept. *)
Definition fills_at (tick : Tick.t) (best_bid best_ask : option Z) (ps : list PendingOrder.t)
    : list (PendingOrder.t * Fill.t) :=
  omap (λ p, (λ price, (p, expected_fill tick price (PendingOrder.order p))) <$> order_quote best_bid best_ask p) ps.

Definition unfilled (best_bid best_ask : option Z) (ps : list PendingOrder.t) : list PendingOrder.t :=
  filter (λ p, order_quote best_bid best_ask p = None) ps.

(** The profit of a trade is counted against the limit price: what a purchase cost above
    its limit and what a sale fell short of it, less the fee on the value traded. *)
Definition against_limit (side : OrderSide.t) (limit price : Z) : Z :=
  match side with OrderSide.BUY => price ⊟ limit | OrderSide.SELL => limit ⊟ price end.

Definition expected_trade (fee : double) (x : PendingOrder.t * Fill.t) : Trade.t :=
  let o := PendingOrder.order x.1 in
  let quantity := Fill.fill_quantity x.2 in
  let price := Fill.fill_price x.2 in
  let gain := quantity ⊠ against_limit (Fill.side x.2) (OrderRequest.price o) price in
  {| Trade.entry_time_us := PendingOrder.placed_at_us x.1;
     Trade.exit_time_us := Fill.exchange_timestamp_us x.2;
     Trade.symbol_id := Fill.symbol_id x.2; Trade.entry_price := OrderRequest.price o;
     Trade.exit_price := price; Trade.quantity := quantity;
     Trade.pnl := if dpos fee then gain ⊟ price ⊠ quantity ⊠ toDecimal fee else gain;
     Trade.direction := Fill.side x.2 |}.

(** A long position is marked at the bid, a short one at the ask, any other, and one whose
    side of the book is empty, at the price of the tick. *)
Definition expected_mark (tick : Tick.t) (best_bid best_ask : option Z) (pos : Position.t) : Z :=
  match Position.quantity pos ?= 0 with
  | Gt => default (Tick.price tick) best_bid
  | Lt => default (Tick.price tick) best_ask
  | Eq => Tick.price tick
  end.

Definition worth (tick : Tick.t) (best_bid best_ask : option Z) (pos : Position.t) : Z :=
  Position.realized_pnl pos ⊞
  Position.quantity pos ⊠ (expected_mark tick best_bid best_ask pos ⊟ Position.average_price pos).

(** The equity: the capital and what the positions the fills left are worth, added up in some order. *)
Definition equity_is (capital : Z) (tick : Tick.t) (best_bid best_ask : option Z) (fs : list Fill.t) (equity : Z) : Prop :=
  ∃ ps, ps ≡ₚ (map_to_list (positions_ (positions_of fs))).*2 ∧
    equity = capital ⊞ foldl fpm_add 0 (worth tick best_bid best_ask <$> ps).

Definition starting_capital (cfg : BacktestConfig.t) : Z :=
  if decide (BacktestConfig.initial_capital cfg = 0) then 10000 * ONE else BacktestConfig.initial_capital cfg.

(** The accounts after some ticks: the orders placed, those pending, the fills made and the equity
    snapshots. At a tick new orders are placed behind those pending; those with a
    quote in the book of all ticks so far are filled; then the equity is recorded. *)
Inductive accounts (cfg : BacktestConfig.t) : list Tick.t → list PendingOrder.t → list PendingOrder.t →
    list (PendingOrder.t * Fill.t) → list (Z * Z) → Prop :=
| accounts_start : accounts cfg [] [] [] [] [(0, starting_capital cfg)]
| accounts_tick ticks tick placed new pending fills snaps best_bid best_ask equity :
    accounts cfg ticks placed pending fills snaps →
    OrderBookV2.getBestBid (ob_run (ticks ++ [tick])) = Some best_bid →
    OrderBookV2.getBestAsk (ob_run (ticks ++ [tick])) = Some best_ask →
    let fills' := fills ++ fills_at tick best_bid best_ask (pending ++ new) in
    equity_is (starting_capital cfg) tick best_bid best_ask fills'.*2 equity →
    accounts cfg (ticks ++ [tick]) (placed ++ new) (unfilled best_bid best_ask (pending ++ new)) fills'
      (snaps ++ if BacktestConfig.record_equity_every_tick cfg
                then [(Tick.exchange_timestamp_us tick, equity)] else []).
End accounts.

(** ** The context calls *)

Section proofs.
Context {F : FpmOps} {U : CastUB} {IO : IterOrder} {L : Libm} {MH : MinHeap}.
Context {St : Type} (clock : nat → Z * Z).

Abbreviation Engine := (BacktestEngine St).

(** The infrastructure after at most [n] requests. *)
Definition queue_is (n : nat) (queued : list OrderRequest.t) (e : StrategyEngine St) : Prop :=
  rep queue_bits (order_queue_ e) queued ∧
  tail_ (order_queue_ e) = Z.of_nat (length (delivered_ e)) ∧
  (length (delivered_ e ++ queued) <= n)%nat.

Record sim_ok (n : nat) (e : StrategyEngine St) : Prop := {
  sim_queue : ∃ queued, queue_is n queued e;
  sim_books sym bk : order_books_ e !! sym = Some bk → OrderBookV2.v2_inv bk;
}.

(** What context calls leave alone. *)
Record sim_frame (e e' : StrategyEngine St) : Prop := {
  sf_books : order_books_ e' = order_books_ e;
  sf_positions : position_manager_ e' = position_manager_ e;
  sf_strategy : current_strategy_id_ e' = current_strategy_id_ e;
}.

#[local] Instance sim_frame_preorder : PreOrder sim_frame.
Proof.
  split; [by intros e; split|]. intros e1 e2 e3 [] []. split; congruence.
Qed.

Lemma sim_ok_mono n n' e : (n <= n')%nat → sim_ok n e → sim_ok n' e.
Proof. intros Hn [(q & ? & ? & ?) ?]. split; [|done]. exists q. unfold queue_is. split_and!; [done..|lia]. Qed.

Lemma push_sim n e o :
  sim_ok n e → in_budget (S n) →
  ∃ ok q, try_push queue_bits o (order_queue_ e) = Some (ok, q) ∧
    ∀ e', order_queue_ e' = q → delivered_ e' = delivered_ e → order_books_ e' = order_books_ e → sim_ok (S n) e'.
Proof.
  intros [(queued & Hq & Ht & Hl) Hb] Hn. pose proof (rep_head _ _ _ Hq) as Hh. unfold in_budget in Hn.
  rewrite length_app in Hl.
  destruct (try_push_ok queue_bits queue_small _ _ 0 o Hq) as (q' & _ & Hpush).
  { unfold bounded. change (N queue_bits) with 1024. lia. }
  destruct (_ <? _)%nat; destruct Hpush as [Hpush Hq']; rewrite Hpush; eexists _, _;
    (split; [done|]); intros e' E1 E2 E3; split; unfold queue_is; rewrite ?E1, ?E2, ?E3; try done.
  - exists (queued ++ [o]). rewrite (try_push_tail _ _ _ _ _ Hpush), !length_app. cbn. split_and!; [done..|lia].
  - subst q'. exists queued. rewrite length_app. split_and!; [done..|lia].
Qed.

Lemma submit_sim now lat w n order e :
  sim_ok n e → in_budget (S n) →
  ∃ x e', submitOrder now lat w order e = Some (x, e') ∧ sim_ok (S n) e' ∧ sim_frame e e'.
Proof.
  intros He Hn. unfold submitOrder.
  destruct (checkOrder_among w now lat order (position_manager_ e) (risk_engine_ e)) as [res risk].
  destruct (RiskCheckResult.passed res).
  - cbn [generate order_id_gen_]. match goal with |- context [try_push _ ?o _] => set (o' := o) end.
    destruct (push_sim n e o' He Hn) as (ok & q & Hpush & Hq).
    destruct e; cbn in *. unfold constant in *. rewrite Hpush. cbn.
    destruct ok; (eexists _, _; split; [reflexivity|]); (split; [by apply Hq|by split]).
  - eexists _, _. split; [reflexivity|]. split; [|by destruct e].
    apply (sim_ok_mono n); [lia|]. destruct e. by destruct He; split.
Qed.

Lemma handle_sim {X} r (c : call X) n e :
  sim_ok n e → in_budget (S n) → ∃ x e', handle r c e = Some (x, e') ∧ sim_ok (S n) e' ∧ sim_frame e e'.
Proof.
  intros He Hn. assert (sim_ok (S n) e) as He' by (eapply sim_ok_mono, He; lia).
  destruct c; cbn [handle].
  1-5: match goal with |- ∃ _ _, mbind _ ?r = _ ∧ _ =>
         assert (∃ x, r = Some x) as [x ->] by exact (with_book_ok e _ _ symbol_id (sim_books _ _ He)) end;
       by exists x, e.
  1-3: by eexists _, e.
  - by apply submit_sim.
  - unfold cancelOrder.
    destruct (push_sim n e (cancel_request order_id (timestamp_us_ e)) He Hn) as (ok & q & -> & Hq).
    eexists _, _. split; [reflexivity|]. split; [apply Hq; by destruct e|by destruct e].
Qed.

Lemma interp_sim {A} m (p : prog A) n e :
  within m p → sim_ok n e → in_budget (n + m) →
  ∃ a e', interp (clock_env clock) p e = Some (a, e') ∧ sim_ok (n + m) e' ∧ sim_frame e e'.
Proof.
  intros Hw. revert n e. induction Hw as [m a|m X c k Hk IH]; intros n e He Hn; cbn [interp].
  - exists a, e. split_and!; [done|eapply sim_ok_mono; [|done]; lia|done].
  - set (e0 := e {{ calls_ ::= S }}). cbv zeta.
    change (popOrders _ _) with (Some e0). cbn [mbind option_bind].
    assert (sim_ok n e0 ∧ sim_frame e e0) as [H0 F0].
    { subst e0. destruct e. split; [|by split]. by destruct He; split. }
    destruct (handle_sim (clock_env clock (StrategyEngine.calls_ e)) c n e0) as (x & e2 & Hh & H2 & F2);
      [done|eapply in_budget_le, Hn; lia|].
    rewrite Hh. cbn [mbind option_bind].
    destruct (IH x (S n) e2) as (a & e3 & H3 & Hc & F3); [done|by rewrite Nat.add_succ_comm|].
    exists a, e3. rewrite <-Nat.add_succ_comm. split_and!; [done..|]. by do 2 (etrans; [done|]).
Qed.

(** ** The engine *)

(** What a phase of the tick callback leaves alone. *)
Record same (b b' : Engine) : Prop := {
  same_config : config_ b' = config_ b;
  same_book : book_ b' = book_ b;
  same_replayer : replayer_ b' = replayer_ b;
  same_capital : initial_equity_ b' = initial_equity_ b;
  same_time : current_tick_ts_ b' = current_tick_ts_ b;
  same_equity : equity_snaps_ (metrics_ b') = equity_snaps_ (metrics_ b);
}.

#[local] Instance same_preorder : PreOrder same.
Proof.
  split; [by intros b; split|]. intros b1 b2 b3 [] []. split; congruence.
Qed.

Context (s : Strategy St) (m : nat) (Hs : obeys m s).

(** After at most [n] requests and [c] orders placed, with the orders [pend] pending. *)
Record bt_ok (n c : nat) (pend : list PendingOrder.t) (b : Engine) : Prop := {
  bk_sim : sim_ok n (sim_ b);
  bk_strategy : ∃ self, strategy_ b = Some (s, self);
  bk_count : (length (placed_ b) <= c)%nat;
  bk_orders : placed_ b ≡ₚ (fills_ b).*1 ++ pend;
  bk_positions : position_manager_ (sim_ b) = positions_of (fills_ b).*2;
  bk_trades : trades_ (metrics_ b) = expected_trade (BacktestConfig.taker_fee (config_ b)) <$> fills_ b;
  bk_book : OrderBookV2.v2_inv (book_ b);
  bk_books : order_books_ (sim_ b) = {[1 := book_ b]};
  bk_id : current_strategy_id_ (sim_ b) = 1;
}.

Lemma bt_ok_mono n n' c c' pend b :
  (n <= n')%nat → (c <= c')%nat → bt_ok n c pend b → bt_ok n' c' pend b.
Proof. intros Hn Hc []. split; try done; [by eapply sim_ok_mono|lia]. Qed.

(** A step of the infrastructure that keeps books and positions. *)
Lemma bt_ok_sim n n' c pend b e :
  bt_ok n c pend b → sim_ok n' e → sim_frame (sim_ b) e → bt_ok n' c pend (b {{ sim_ := e }}).
Proof.
  intros [H1 H2 H3 H4 H5 H6 H7 H8 H9] He [F1 F2 F3]. destruct b; cbn in *.
  split; cbn; unfold constant; rewrite ?F1, ?F2, ?F3; done.
Qed.

Lemma call_strategy_ok ev n c pend b :
  bt_ok n c pend b → (∀ st, within m (ev s st)) → in_budget (n + m) →
  ∃ b', call_strategy clock ev b = Some b' ∧ bt_ok (n + m) c pend b' ∧ same b b' ∧
    pending_ b' = pending_ b ∧ placed_ b' = placed_ b ∧ fills_ b' = fills_ b.
Proof.
  intros Hb Hev Hn. destruct (bk_strategy _ _ _ _ Hb) as [self Hself]. unfold call_strategy. rewrite Hself.
  cbn [mbind option_bind].
  destruct (interp_sim m (ev s self) n (sim_ b) (Hev self) (bk_sim _ _ _ _ Hb) Hn) as (st & e & -> & He & Fe).
  cbn [mbind option_bind]. eexists. split; [reflexivity|].
  apply (bt_ok_sim _ _ _ _ _ _ Hb He) in Fe as [H1 H2 H3 H4 H5 H6 H7 H8 H9].
  split; [|by split].
  destruct b; cbn in *. split; cbn; try done. by exists st.
Qed.

(** *** Draining *)

Lemma check_again_ok o n e :
  sim_ok n e → ∃ e', (check_again clock o e).2 = e' ∧ sim_ok n e' ∧ sim_frame e e' ∧
    order_queue_ e' = order_queue_ e ∧ delivered_ e' = delivered_ e.
Proof.
  intros He. unfold check_again. cbv zeta.
  destruct (checkOrder _ _ o (position_manager_ e) (risk_engine_ e)) as [res risk].
  destruct (RiskCheckResult.passed res); (eexists; split; [reflexivity|]); destruct e, He; (split; [by split|]); (split; [by split|]); done.
Qed.

Lemma place_ok o n c b :
  bt_ok n c (pending_ b) b → bt_ok n (S c) (pending_ (place o b)) (place o b).
Proof.
  intros [H1 H2 H3 H4 H5 H6 H7 H8 H9]. unfold place. cbv zeta. set (p := PendingOrder.mk _ _). clearbody p.
  destruct b; cbn in *. split; cbn; try done.
  - rewrite length_app. cbn. lia.
  - etrans; [exact (Permutation_app_tail [p] H4)|]. by rewrite <-app_assoc.
Qed.

Lemma pop_sim n queued e :
  queue_is n queued e → sim_ok n e → in_budget n →
  ∃ e', popOrder e = Some (hd_error queued, e') ∧ queue_is n (tl queued) e' ∧ sim_ok n e' ∧ sim_frame e e'.
Proof.
  intros (Hq & Ht & Hl) [_ Hb] Hn. pose proof (rep_head _ _ _ Hq) as Hh. rewrite length_app in Hl. unfold in_budget in Hn.
  destruct (try_pop_ok queue_bits queue_small _ _ 0 Hq) as (q' & _ & Hpop).
  { unfold bounded. change (N queue_bits) with 1024. lia. }
  unfold popOrder.
  destruct queued as [|o queued]; destruct Hpop as [Hpop Hq']; rewrite Hpop; cbn [mbind option_bind hd_error tl];
    (eexists; split; [reflexivity|]).
  - subst q'. assert (queue_is n [] (e {{ order_queue_ := order_queue_ e; delivered_ ::= λ l, l ++ option_list None }})) as H.
    { destruct e; cbn in *; split_and!; cbn; rewrite ?app_nil_r; try done. lia. }
    split; [exact H|]. split; [|by destruct e]. split; [by exists []|by destruct e].
  - pose proof (try_pop_head _ _ _ _ Hpop). pose proof (rep_head _ _ _ Hq') as Hh2.
    assert (queue_is n queued (e {{ order_queue_ := q'; delivered_ ::= λ l, l ++ option_list (Some o) }})) as H'.
    { destruct e; cbn in *; unfold constant; split_and!; cbn; [done|rewrite !length_app; cbn; lia..]. }
    split; [exact H'|]. split; [|by destruct e]. split; [by exists queued|by destruct e].
Qed.

(** The new orders are placed behind the old ones. *)
Definition placing (b b' : Engine) : Prop :=
  ∃ new, pending_ b' = pending_ b ++ new ∧ placed_ b' = placed_ b ++ new.

#[local] Instance placing_preorder : PreOrder placing.
Proof.
  split; [intros b; exists []; by rewrite !app_nil_r|].
  intros b1 b2 b3 (l1 & E1 & E2) (l2 & E3 & E4). exists (l1 ++ l2). rewrite !app_assoc. split; congruence.
Qed.

Lemma drain_one_ok o n c b :
  bt_ok n c (pending_ b) b →
  let b' := drain_one clock o b in
  bt_ok n (S c) (pending_ b') b' ∧ same b b' ∧ placing b b' ∧ fills_ b' = fills_ b ∧
  order_queue_ (sim_ b') = order_queue_ (sim_ b) ∧ delivered_ (sim_ b') = delivered_ (sim_ b).
Proof.
  intros Hb. unfold drain_one. destruct (check_again_ok o n (sim_ b) (bk_sim _ _ _ _ Hb)) as (e & He & Ho & Fe & Hq & Hd).
  destruct (check_again clock o (sim_ b)) as [ok e'] eqn:E. cbn in He. subst e'. cbv zeta.
  pose proof (bt_ok_sim _ _ _ _ _ _ Hb Ho Fe) as Hb'. destruct ok.
  - split; [by apply place_ok|]. split; [by split|]. split; [|done]. by eexists.
  - split; [eapply bt_ok_mono, Hb'; lia|]. split; [by split|]. split; [|done]. exists []. by rewrite !app_nil_r.
Qed.

Lemma drain_spec fuel queued n c b :
  bt_ok n c (pending_ b) b → queue_is n queued (sim_ b) → (length queued < fuel)%nat → in_budget n →
  ∃ b', drain clock fuel b = Some b' ∧ bt_ok n (c + length queued) (pending_ b') b' ∧ same b b' ∧
    placing b b' ∧ fills_ b' = fills_ b.
Proof.
  revert queued c b. induction fuel as [|fuel IH]; intros queued c b Hb Hq Hf Hn; [lia|]. cbn [drain].
  destruct (pop_sim n queued (sim_ b) Hq (bk_sim _ _ _ _ Hb) Hn) as (e & -> & Hq' & He & Fe). cbn [mbind option_bind].
  pose proof (bt_ok_sim _ _ _ _ _ _ Hb He Fe) as Hb'. cbv zeta. set (b1 := b {{ sim_ := e }}) in *.
  assert (same b b1) as S0 by (by split).
  assert (placing b b1) as P0 by (exists []; by rewrite !app_nil_r). change (pending_ b) with (pending_ b1) in Hb'.
  destruct queued as [|o queued]; cbn [hd_error tl length] in *.
  - exists b1. rewrite Nat.add_0_r. by split_and!.
  - destruct (drain_one_ok o n c b1 Hb') as (H1 & S1 & P1 & F1 & E1 & E2).
    destruct (IH queued (S c) (drain_one clock o b1)) as (b2 & E & H2 & S2 & P2 & F2);
      [done| |lia|done|].
    { unfold queue_is. by rewrite E1, E2. }
    exists b2. rewrite <-Nat.add_succ_comm. split_and!; [exact E|exact H2| | |by rewrite F2, F1].
    + exact (transitivity S0 (transitivity S1 S2)).
    + exact (transitivity P0 (transitivity P1 P2)).
Qed.

(** The queue holds at most its capacity, and its size is fuel enough. *)
Lemma drain_ok n c b :
  bt_ok n c (pending_ b) b → in_budget n →
  ∃ b', drainOrderQueue clock b = Some b' ∧ bt_ok n (c + 1024) (pending_ b') b' ∧ same b b' ∧
    placing b b' ∧ fills_ b' = fills_ b.
Proof.
  intros Hb Hn. destruct (sim_queue _ _ (bk_sim _ _ _ _ Hb)) as [queued Hq]. pose proof Hq as (Hrep & Ht & Hl).
  unfold drainOrderQueue. rewrite (size_ok queue_bits queue_small _ _ 0 Hrep).
  2: { pose proof (rep_head _ _ _ Hrep). unfold bounded, in_budget in *. rewrite length_app in Hl.
       change (N queue_bits) with 1024. lia. }
  destruct (drain_spec (S (Z.to_nat (Z.of_nat (length queued)))) queued n c b Hb Hq) as (b' & E & H & S' & P' & F'); [lia|done|].
  exists b'. split_and!; [exact E| |done..]. eapply bt_ok_mono, H; [lia|].
  pose proof (rep_len _ _ _ Hrep) as Hlen. change (N queue_bits) with 1024 in Hlen. lia.
Qed.

(** *** Filling *)

Lemma try_fill_spec tick p (b : Engine) bb ba :
  OrderBookV2.getBestBid (book_ b) = Some bb → OrderBookV2.getBestAsk (book_ b) = Some ba →
  current_strategy_id_ (sim_ b) = 1 →
  try_fill tick p b = Some ((λ price, expected_fill tick price (PendingOrder.order p)) <$> order_quote bb ba p).
Proof.
  intros Hbb Hba Hid. unfold try_fill. rewrite Hbb, Hba, Hid. cbn [mbind option_bind].
  unfold order_quote. destruct (OrderRequest.side _); [destruct ba|destruct bb]; cbn; try done;
    by destruct (BacktestConfig.fill_mode _).
Qed.

Lemma make_trade_expected fee p f : make_trade fee p f = expected_trade fee (p, f).
Proof. unfold make_trade, trade_pnl, expected_trade, against_limit. cbn. by destruct (Fill.side f). Qed.

Lemma book_fill_ok n c kept p ps f b :
  bt_ok n c (kept ++ p :: ps) b → in_budget (n + m) →
  ∃ b', book_fill clock p f b = Some b' ∧ bt_ok (n + m) c (kept ++ ps) b' ∧ same b b' ∧
    placed_ b' = placed_ b ∧ fills_ b' = fills_ b ++ [(p, f)].
Proof.
  intros Hb Hn. unfold book_fill. cbv zeta.
  match goal with |- context [call_strategy _ _ ?x] => set (b1 := x) end.
  assert (bt_ok n c (kept ++ ps) b1 ∧ same b b1 ∧ placed_ b1 = placed_ b ∧ fills_ b1 = fills_ b ++ [(p, f)]) as (H1 & S1 & P1 & F1).
  { destruct Hb as [H1 H2 H3 H4 H5 H6 H7 H8 H9]. subst b1. destruct b as [cf bk me si]; cbn in *.
    split; [|by split]. split; cbn; try done.
    - destruct H1 as [Hq Hbk]. destruct si. by split.
    - etrans; [exact H4|]. rewrite fmap_app, <-app_assoc. apply Permutation_app_head. symmetry. exact (Permutation_middle kept ps p).
    - destruct si; cbn in *. unfold constant. subst. unfold positions_of. by rewrite fmap_app, fold_left_app.
    - unfold recordTrade. destruct me; cbn in *. unfold constant. subst. rewrite fmap_app, make_trade_expected. done.
    }
  destruct (call_strategy_ok (λ s, onFill s f) n c (kept ++ ps) b1 H1) as (b2 & -> & H2 & S2 & _ & P2 & F2);
    [intros st; apply Hs|done|].
  exists b2. split_and!; [done..|by transitivity b1| |by rewrite F2]. by rewrite P2.
Qed.

Lemma simulate_spec tick kept ps bb ba n c b :
  bt_ok n c (kept ++ ps) b →
  OrderBookV2.getBestBid (book_ b) = Some bb → OrderBookV2.getBestAsk (book_ b) = Some ba →
  in_budget (n + length (fills_at tick bb ba ps) * m) →
  ∃ b', simulate clock tick ps b = Some (unfilled bb ba ps, b') ∧
    bt_ok (n + length (fills_at tick bb ba ps) * m) c (kept ++ unfilled bb ba ps) b' ∧ same b b' ∧
    placed_ b' = placed_ b ∧ fills_ b' = fills_ b ++ fills_at tick bb ba ps.
Proof.
  revert kept n b. induction ps as [|p ps IH]; intros kept n b Hb Hbb Hba Hn; cbn [simulate].
  { exists b. cbn [unfilled fills_at omap list_omap length Nat.mul]. rewrite !app_nil_r, Nat.add_0_r in *. by split_and!. }
  rewrite (try_fill_spec tick p b bb ba Hbb Hba (bk_id _ _ _ _ Hb)). cbn [mbind option_bind].
  unfold unfilled, fills_at in *. rewrite filter_cons. cbn [omap list_omap] in *.
  destruct (order_quote bb ba p) as [price|] eqn:Hq; cbn [fmap option_fmap option_map length] in *.
  - rewrite decide_False by done.
    destruct (book_fill_ok n c kept p ps (expected_fill tick price (PendingOrder.order p)) b Hb) as (b1 & -> & H1 & S1 & P1 & F1);
      [eapply in_budget_le, Hn; lia|]. cbn [mbind option_bind].
    destruct (IH kept (n + m)%nat b1 H1) as (b2 & -> & H2 & S2 & P2 & F2);
      [by rewrite (same_book _ _ S1)..|eapply in_budget_le, Hn; lia|].
    exists b2. split; [done|]. split; [eapply bt_ok_mono, H2; lia|]. split; [by transitivity b1|].
    rewrite F2, F1, P2, P1, <-app_assoc. done.
  - rewrite decide_True by done.
    destruct (IH (kept ++ [p]) n b) as (b2 & -> & H2 & S2 & P2 & F2); [by rewrite <-app_assoc|done..|].
    cbn [mbind option_bind]. exists b2. rewrite <-app_assoc in H2. by split_and!.
Qed.

Lemma simulateFills_ok tick bb ba n c b :
  bt_ok n c (pending_ b) b →
  OrderBookV2.getBestBid (book_ b) = Some bb → OrderBookV2.getBestAsk (book_ b) = Some ba →
  in_budget (n + length (fills_at tick bb ba (pending_ b)) * m) →
  ∃ b', simulateFillsForPending clock tick b = Some b' ∧ pending_ b' = unfilled bb ba (pending_ b) ∧
    bt_ok (n + length (fills_at tick bb ba (pending_ b)) * m) c (pending_ b') b' ∧ same b b' ∧
    placed_ b' = placed_ b ∧ fills_ b' = fills_ b ++ fills_at tick bb ba (pending_ b).
Proof.
  intros Hb Hbb Hba Hn. unfold simulateFillsForPending.
  destruct (simulate_spec tick [] (pending_ b) bb ba n c b Hb Hbb Hba Hn) as (b1 & -> & H1 & S1 & P1 & F1).
  cbn [mbind option_bind]. eexists. split; [reflexivity|].
  destruct H1 as [H1 H2 H3 H4 H5 H6 H7 H8 H9], S1. destruct b1. cbn in *.
  split; [done|]. split; [by split|]. split; [by split|done].
Qed.

(** *** The tick callback *)

#[local] Arguments OrderBookV2.update : simpl never.

Lemma receive_tick_ok tick n c b :
  bt_ok n c (pending_ b) b → bt_ok n c (pending_ b) (receive_tick tick b).
Proof.
  intros [H1 H2 H3 H4 H5 H6 H7 H8 H9]. destruct (OrderBookV2.v2_update_ok tick (book_ b) H7) as [Hinv _].
  unfold receive_tick. destruct b as [cf bk me si]. cbn in *. unfold constant in *. split; cbn; unfold constant; try done.
  - destruct H1 as [Hq Hbk]. destruct si; cbn in *. split; [done|]. cbn. intros sym bk'. subst.
    rewrite lookup_singleton_eq. cbn. rewrite insert_singleton_eq. intros [<- <-]%lookup_singleton_Some. done.
  - destruct si; cbn in *. subst. rewrite lookup_singleton_eq. cbn. by rewrite insert_singleton_eq.
Qed.

Lemma best_prices (bk : OrderBookV2.OrderBookV2) :
  OrderBookV2.v2_inv bk → ∃ bb ba, OrderBookV2.getBestBid bk = Some bb ∧ OrderBookV2.getBestAsk bk = Some ba.
Proof. intros H. destruct (OrderBookV2.getBest_ok bk H) as [-> ->]. by eexists _, _. Qed.

(** What one tick does: the book takes it, the strategy runs, the orders it queued are
    placed behind those pending, and exactly the orders with a quote are filled. *)
Record tick_done (tick : Tick.t) (b b' : Engine) : Prop := {
  td_config : config_ b' = config_ b;
  td_replayer : replayer_ b' = replayer_ b;
  td_capital : initial_equity_ b' = initial_equity_ b;
  td_book : book_ b' = OrderBookV2.update tick (book_ b);
  td_fills : ∃ best_bid best_ask new equity,
    OrderBookV2.getBestBid (book_ b') = Some best_bid ∧ OrderBookV2.getBestAsk (book_ b') = Some best_ask ∧
    placed_ b' = placed_ b ++ new ∧ pending_ b' = unfilled best_bid best_ask (pending_ b ++ new) ∧
    fills_ b' = fills_ b ++ fills_at tick best_bid best_ask (pending_ b ++ new) ∧
    equity_is (initial_equity_ b) tick best_bid best_ask (fills_ b').*2 equity ∧
    equity_snaps_ (metrics_ b') = equity_snaps_ (metrics_ b) ++
      if BacktestConfig.record_equity_every_tick (config_ b) then [(Tick.exchange_timestamp_us tick, equity)] else [];
}.

Lemma mark_price_expected tick bb ba pos : mark_price tick bb ba pos = expected_mark tick bb ba pos.
Proof.
  unfold mark_price, expected_mark. rewrite Z.gtb_ltb, Z.ltb_compare, (Z.compare_antisym (Position.quantity pos) 0).
  rewrite Z.ltb_compare. by destruct (Position.quantity pos ?= 0), bb, ba.
Qed.

Lemma total_pnl_equity capital tick bb ba fs :
  equity_is capital tick bb ba fs (capital ⊞ total_pnl tick bb ba (getAllPositions (positions_of fs))).
Proof.
  exists (getAllPositions (positions_of fs)). split; [unfold getAllPositions; by rewrite iter_perm|]. f_equal.
  unfold total_pnl. generalize 0. induction (getAllPositions _) as [|pos ps IH]; intros x; [done|].
  cbn [foldl fmap list_fmap]. rewrite IH, mark_price_expected. done.
Qed.

Lemma record_equity_ok tick n c b bb ba :
  bt_ok n c (pending_ b) b → OrderBookV2.getBestBid (book_ b) = Some bb → OrderBookV2.getBestAsk (book_ b) = Some ba →
  ∃ b', record_equity tick b = Some b' ∧ bt_ok n c (pending_ b') b' ∧
    config_ b' = config_ b ∧ replayer_ b' = replayer_ b ∧ initial_equity_ b' = initial_equity_ b ∧
    book_ b' = book_ b ∧ placed_ b' = placed_ b ∧ pending_ b' = pending_ b ∧ fills_ b' = fills_ b ∧
    ∃ equity, equity_is (initial_equity_ b) tick bb ba (fills_ b).*2 equity ∧
      equity_snaps_ (metrics_ b') = equity_snaps_ (metrics_ b) ++
      if BacktestConfig.record_equity_every_tick (config_ b) then [(current_tick_ts_ b, equity)] else [].
Proof.
  intros Hb Hbb Hba. unfold record_equity. rewrite Hbb, Hba. cbn [mbind option_bind]. cbv zeta.
  pose proof (total_pnl_equity (initial_equity_ b) tick bb ba (fills_ b).*2) as Heq.
  rewrite <-(bk_positions _ _ _ _ Hb) in Heq. set (eq := initial_equity_ b ⊞ _) in *. clearbody eq.
  destruct (BacktestConfig.record_equity_every_tick (config_ b)).
  - eexists. split; [reflexivity|]. split; [destruct b, Hb; by split|]. split_and!; try done. by exists eq.
  - exists b. split_and!; try done. exists eq. by rewrite app_nil_r.
Qed.

Lemma fills_at_length tick bb ba ps : (length (fills_at tick bb ba ps) <= length ps)%nat.
Proof.
  unfold fills_at. induction ps as [|p ps IH]; [done|]. cbn [omap list_omap].
  destruct (order_quote bb ba p); cbn in *; lia.
Qed.

Lemma bt_pending_length n c b : bt_ok n c (pending_ b) b → (length (pending_ b) <= c)%nat.
Proof. intros []. assert (length (placed_ b) = length ((fills_ b).*1 ++ pending_ b)) as E by (by rewrite bk_orders0). rewrite length_app in E. lia. Qed.

Lemma on_tick_ok tick n c b :
  bt_ok n c (pending_ b) b → in_budget (n + (1 + c + 1024) * m) →
  ∃ b' new, on_tick clock tick b = Some b' ∧ tick_done tick b b' ∧ fills_ b' = fills_ b ++ new ∧
    bt_ok (n + (1 + length new) * m) (c + 1024) (pending_ b') b'.
Proof.
  intros Hb Hn. unfold on_tick. pose proof (receive_tick_ok tick n c b Hb) as H0.
  set (b0 := receive_tick tick b) in *.
  destruct (call_strategy_ok (λ s, onTick s tick) n c (pending_ b) b0 H0) as (b1 & -> & H1 & S1 & E1 & P1 & F1);
    [intros st; apply Hs|eapply in_budget_le, Hn; lia|]. cbn [mbind option_bind].
  assert (pending_ b1 = pending_ b) as E1' by (by rewrite E1). rewrite <-E1' in H1.
  destruct (drain_ok _ _ b1 H1) as (b2 & -> & H2 & S2 & (new & Q2 & P2) & F2); [eapply in_budget_le, Hn; lia|].
  cbn [mbind option_bind]. destruct (best_prices _ (bk_book _ _ _ _ H2)) as (bb & ba & Hbb & Hba).
  pose proof (fills_at_length tick bb ba (pending_ b2)) as Hl1. pose proof (bt_pending_length _ _ _ H2) as Hl2.
  destruct (simulateFills_ok tick bb ba _ _ b2 H2 Hbb Hba) as (b3 & -> & Q3 & H3 & S3 & P3 & F3).
  { eapply in_budget_le, Hn. nia. }
  cbn [mbind option_bind]. pose proof (transitivity S1 (transitivity S2 S3)) as [T1 T2 T3 T4 T5 T6].
  destruct (record_equity_ok tick _ _ b3 bb ba H3) as (b4 & E4 & H4 & C4 & R4 & I4 & K4 & P4 & Q4 & F4 & eq & V4 & M4);
    [by rewrite (same_book _ _ S3)..|].
  exists b4, (fills_at tick bb ba (pending_ b2)). split; [exact E4|].
  split; [|split; [by rewrite F4, F3, F2, F1|eapply bt_ok_mono, H4; lia]].
  rewrite E1' in Q2.
  split; [by rewrite C4, T1|by rewrite R4, T3|by rewrite I4, T4|by rewrite K4, T2|].
  exists bb, ba, new, eq. rewrite K4, (same_book _ _ S3), P4, P3, P2, P1, Q4, Q3, F4, M4, T6, T1, T5.
  rewrite T4 in V4. rewrite F3, F2, F1, Q2 in *. by split_and!.
Qed.

(** ** The replay of a log *)

Section log.
Context (rd : LogReader) (ticks : list (Tick.t * list byte)).
Context (Hrd : reader_of ticks rd) (Hwf : Forall wf_entry ticks).

Lemma log_deliver r k t res :
  tick_cb_ r = true → ticks !! k = Some (t, res) →
  ∃ rec, deliver r (mkStreamPos rd k) = [OnTick rec] ∧ tick_of_bytes rec = Some t.
Proof.
  intros Hcb Hk. pose proof (reader_decodes ticks rd k Hrd Hwf) as Hd. rewrite Hk in Hd.
  destruct Hrd as (Hty & _). unfold deliver, tickAt. cbn [reader pos]. rewrite Hty, Hcb.
  change (log_type =? 0) with true. cbn beta iota. destruct (recordAt k rd) as [rec|]; [|done]. cbn in Hd.
  exists rec. by split.
Qed.

Lemma log_total : sum_list (record_count_ <$> non_empty_logs [rd]) = length ticks.
Proof.
  destruct Hrd as (_ & <- & _). unfold non_empty_logs. rewrite filter_cons, filter_nil.
  case_decide as H; cbn; [lia|]. lia.
Qed.

Lemma advance_callback r ok r' : advanceToNextEvent r = Some (ok, r') → tick_cb_ r' = tick_cb_ r.
Proof.
  unfold advanceToNextEvent. destruct (paused_ r); [by intros [= <- <-]|]. destruct (isExhausted r); [by intros [= <- <-]|].
  destruct (top _) as [e|]; [|done]. cbn [mbind option_bind]. destruct (streams_ r !! _) as [sp|]; [|done].
  by intros [= <- <-].
Qed.

(** The events of a single log come in the order of the log. *)
Lemma next_event r k x :
  replayed (non_empty_logs [rd]) r ((pair 0%nat <$> seq 0 k) ++ [x]) →
  x = (0%nat, k) ∧ non_empty_logs [rd] = [rd].
Proof.
  intros H. pose proof (rp_known _ _ _ H) as Hk. apply Forall_app in Hk as [_ Hx].
  apply Forall_cons in Hx as [Hx _].
  assert (non_empty_logs [rd] = [rd]) as E.
  { unfold non_empty_logs in *. rewrite filter_cons, filter_nil in *. case_decide; [done|]. cbn in Hx. lia. }
  rewrite E in *. split; [|done]. cbn in Hx.
  pose proof (rp_readers _ _ _ H) as Hr. destruct (streams_ r) as [|sp l] eqn:Hst; [done|].
  destruct (rp_stream _ _ _ H 0%nat sp) as [_ Hf]; [by rewrite Hst|].
  rewrite filter_app, filter_cons_True, filter_nil in Hf by (cbn; lia).
  rewrite list_filter_all in Hf by (apply Forall_forall; by intros i (? & -> & ?)%list_elem_of_fmap).
  assert (pos sp = S k) as Hp.
  { apply (f_equal length) in Hf. rewrite length_app, !length_fmap, !length_seq in Hf. cbn in Hf. lia. }
  rewrite Hp, pair_seq_snoc in Hf. by apply app_inj_2 in Hf as [_ [= ->]].
Qed.

Context (cfg : BacktestConfig.t).

(** After [k] ticks. *)
Record replaying (k : nat) (b : Engine) : Prop := {
  rg_replayed : replayed (non_empty_logs [rd]) (replayer_ b) (pair 0%nat <$> seq 0 k);
  rg_callback : tick_cb_ (replayer_ b) = true;
  rg_paused : paused_ (replayer_ b) = false;
  rg_ok : bt_ok ((1 + k + length (fills_ b)) * m) (k * 1024) (pending_ b) b;
  rg_book : book_ b = ob_run (take k ticks.*1);
  rg_config : config_ b = cfg;
  rg_capital : initial_equity_ b = starting_capital cfg;
  rg_accounts : accounts cfg (take k ticks.*1) (placed_ b) (pending_ b) (fills_ b) (equity_snaps_ (metrics_ b));
}.

(** A bound on the context calls of a backtest: [m] for each tick and each fill. *)
Definition backtest_calls (ticks : nat) : nat := ((2 + ticks + ticks * 2048) * m)%nat.

Lemma bt_fills_length n c b : bt_ok n c (pending_ b) b → (length (fills_ b) <= c)%nat.
Proof.
  intros []. assert (length (placed_ b) = length ((fills_ b).*1 ++ pending_ b)) as E by (by rewrite bk_orders0).
  rewrite length_app, length_fmap in E. lia.
Qed.

Lemma replay_one_ok k b :
  replaying k b → isExhausted (replayer_ b) = false → in_budget (backtest_calls (length ticks)) →
  ∃ b', replay_one clock b = Some (true, b') ∧ replaying (S k) b' ∧ (k < length ticks)%nat ∧
    events_left (replayer_ b) = S (events_left (replayer_ b')).
Proof.
  intros [H1 H2 H3 H4 H5 H6 H7 H8] Hex Hn.
  assert (k < length ticks)%nat as Hk.
  { apply Nat.leb_gt in Hex. rewrite (rp_total _ _ _ H1), <-(rp_length _ _ _ H1), log_total, length_fmap, length_seq in Hex. done. }
  destruct (advance_step _ _ _ H1 H3 Hex) as (r' & x & E & Hr' & _ & Hc & Hp' & Ht & He).
  destruct (next_event _ _ _ Hr') as [-> Hlog]. rewrite <-pair_seq_snoc in Hr'.
  destruct (lookup_lt_is_Some_2 ticks k Hk) as [[t res] Hlk].
  destruct (log_deliver (replayer_ b) k t res H2 Hlk) as (rec & Hd & Hrec).
  unfold replay_one. rewrite E. cbn [mbind option_bind].
  rewrite (rp_calls _ _ _ Hr'), (rp_calls _ _ _ H1), Hc, pair_seq_snoc, bind_app, drop_app_length.
  cbn [mbind list_bind]. unfold call_of at 1. rewrite Hlog. cbn [lookup list_lookup fst snd]. rewrite Hd.
  cbn [app on_calls on_call mbind option_bind]. rewrite Hrec. cbn [mbind option_bind].
  set (b1 := b {{ replayer_ := r' }}).
  assert (bt_ok ((1 + k + length (fills_ b)) * m) (k * 1024) (pending_ b1) b1) as Hb1 by (destruct b, H4; by split).
  pose proof (bt_fills_length _ _ _ H4) as Hfl. cbn in Hfl.
  destruct (on_tick_ok t _ _ b1 Hb1) as (b2 & new & -> & [D1 D2 D3 D4 (bb & ba & pl & eq & Q1 & Q2 & Q3 & Q4 & Q5 & Q6 & Q7)] & F2 & Hb2).
  { eapply in_budget_le, Hn. unfold backtest_calls. rewrite <-Nat.mul_add_distr_r. apply Nat.mul_le_mono_r. lia. }
  cbn [mbind option_bind]. exists b2. split; [done|].
  assert (take (S k) ticks.*1 = take k ticks.*1 ++ [t]) as Etake by (apply take_S_r; by rewrite list_lookup_fmap, Hlk).
  assert (book_ b2 = ob_run (take (S k) ticks.*1)) as Ebook.
  { rewrite D4, Etake. change (book_ b1) with (book_ b). rewrite H5. unfold ob_run. by rewrite fold_left_app. }
  change (replayer_ b1) with r' in *. change (config_ b1) with (config_ b) in *. change (metrics_ b1) with (metrics_ b) in *. change (fills_ b1) with (fills_ b) in *.
  change (initial_equity_ b1) with (initial_equity_ b) in *. change (pending_ b1) with (pending_ b) in *. change (placed_ b1) with (placed_ b) in *.
  split; [|split; [done|]].
  - split; rewrite ?D1, ?D2; try done.
    + by rewrite (advance_callback _ _ _ E).
    + eapply bt_ok_mono, Hb2; [|lia]. rewrite F2, length_app. lia.
    + by rewrite D3.
    + rewrite Q3, Q4, Q7, H6, Etake. rewrite Q5 in Q6 |- *. rewrite H7 in Q6. rewrite Ebook, Etake in Q1, Q2.
      by apply accounts_tick.
  - rewrite D2. unfold events_left. cbn. rewrite Ht, He. apply Nat.leb_gt in Hex. lia.
Qed.

Lemma replay_ok fuel k b :
  replaying k b → (k <= length ticks)%nat → (events_left (replayer_ b) <= fuel)%nat →
  in_budget (backtest_calls (length ticks)) →
  ∃ b', replay clock fuel b = Some b' ∧ replaying (length ticks) b' ∧ isExhausted (replayer_ b') = true.
Proof.
  revert k b. induction fuel as [|fuel IH]; intros k b Hb Hk Hf Hn; cbn [replay];
    destruct (isExhausted (replayer_ b)) eqn:Hex.
  1, 3: exists b; split_and!; [done| |done]; assert (k = length ticks) as <-; [|done];
    apply Nat.leb_le in Hex; rewrite (rp_total _ _ _ (rg_replayed _ _ Hb)),
      <-(rp_length _ _ _ (rg_replayed _ _ Hb)), log_total, length_fmap, length_seq in Hex; lia.
  - destruct (replay_one_ok k b Hb Hex Hn) as (b' & _ & _ & _ & He). lia.
  - destruct (replay_one_ok k b Hb Hex Hn) as (b' & -> & Hb' & Hlt & He). cbn [mbind option_bind].
    apply (IH (S k)); [done|lia..|done].
Qed.

(** The engine before [run]. *)
Definition loaded (st : St) (logs : LogFileSet) : Engine :=
  setData logs (setStrategy s st (BacktestEngine_init {{ config_ := cfg }})).

Lemma prepared_ok st logs :
  isOpen (LogReader.tick logs) = true → LogReader.tick logs = rd →
  bt_ok 0 0 [] (prepare clock (loaded st logs)) ∧
  replayed (non_empty_logs [rd]) (replayer_ (prepare clock (loaded st logs))) [] ∧
  paused_ (replayer_ (prepare clock (loaded st logs))) = false ∧
  config_ (prepare clock (loaded st logs)) = cfg ∧ metrics_ (prepare clock (loaded st logs)) = MetricsCollector_init ∧
  fills_ (prepare clock (loaded st logs)) = [] ∧ pending_ (prepare clock (loaded st logs)) = [] ∧
  book_ (prepare clock (loaded st logs)) = OrderBookV2.OrderBookV2_init ∧
  placed_ (prepare clock (loaded st logs)) = [] ∧
  initial_equity_ (prepare clock (loaded st logs)) = starting_capital cfg.
Proof.
  clear Hrd Hwf. intros Hopen <-. unfold loaded, setData, setupReplayer. rewrite Hopen.
  destruct (addStream_replayed (LogReader.tick logs) [] _ (fresh_replayed false false false)) as (Hr & _ & Hp).
  split; [|split; [exact Hr|split; [exact Hp|split_and!; try done]]].
  2: { cbn. unfold starting_capital, constant. destruct (Z.eqb_spec (BacktestConfig.initial_capital cfg) 0);
       [by rewrite decide_True|by rewrite decide_False]. }
  split; try done.
  - split; [exists []; split_and!; [apply init_rep; lia|done|cbn; lia]|]. intros sym bk Hk.
    change (({[1 := OrderBookV2.OrderBookV2_init]} : gmap Z OrderBookV2.OrderBookV2) !! sym = Some bk) in Hk.
    apply lookup_singleton_Some in Hk as [<- <-]. apply OrderBookV2.v2_init_ok.
  - by eexists.
  - apply OrderBookV2.v2_init_ok.
Qed.

Lemma replaying_start b :
  bt_ok m 0 [] b → replayed (non_empty_logs [rd]) (replayer_ b) [] → paused_ (replayer_ b) = false →
  config_ b = cfg → equity_snaps_ (metrics_ b) = [] → fills_ b = [] → pending_ b = [] →
  book_ b = OrderBookV2.OrderBookV2_init → placed_ b = [] → initial_equity_ b = starting_capital cfg →
  replaying 0 (b {{ metrics_ ::= recordEquity 0 (initial_equity_ b) }} {{ replayer_ ::= set_callbacks }}).
Proof.
  intros Hb Hr Hp Hc He Hf Hpd Hbk Hpl Hcap. destruct b; cbn in *. subst. split; cbn; try done.
  - destruct Hr. by constructor.
  - rewrite Nat.add_0_r. destruct Hb. by split.
  - destruct metrics_0; cbn in *. subst. cbn. apply accounts_start.
Qed.
End log.
End proofs.

(** ** Properties *)

Section properties.
Context {F : FpmOps} {U : CastUB} {IO : IterOrder} {L : Libm} {MH : MinHeap} {St : Type}.

(** C17: whatever the strategy does with its context, a backtest over a tick log ends, the
    replayer exhausted. The engine's book, which is also the one the strategy sees, is
    the book of all ticks in the order of the log. The accounts balance ([accounts]): after each tick the new
    orders are placed behind those pending, exactly those with an opposite quote in the
    book of the ticks so far are filled, for their whole quantity, at that quote and the time of the tick,
    the others stay pending, and the equity recorded is the starting capital and what the positions of
    the fills so far are worth at the best prices of that book. The orders placed are those filled
    and those still pending, each once; the positions are those of the fills; the metrics have one
    trade per fill, its profit counted against the limit of the order. *)
Theorem backtest_replays_log clock cfg (s : Strategy St) st m logs ticks :
  obeys m s → isOpen (LogReader.tick logs) = true → reader_of ticks (LogReader.tick logs) →
  Forall wf_entry ticks → in_budget (backtest_calls m (length ticks)) →
  ∃ b, run clock (setData logs (setStrategy s st (BacktestEngine_init {{ config_ := cfg }}))) = Some b ∧
    isExhausted (replayer_ b) = true ∧
    book_ b = ob_run ticks.*1 ∧ order_books_ (sim_ b) !! 1 = Some (book_ b) ∧
    accounts cfg ticks.*1 (placed_ b) (pending_ b) (fills_ b) (equity_snaps_ (metrics_ b)) ∧
    placed_ b ≡ₚ (fills_ b).*1 ++ pending_ b ∧
    position_manager_ (sim_ b) = positions_of (fills_ b).*2 ∧
    trades_ (metrics_ b) = expected_trade (BacktestConfig.taker_fee cfg) <$> fills_ b.
Proof.
  intros Hs Hopen Hrd Hwf Hn.
  destruct (prepared_ok clock s _ cfg st logs Hopen eq_refl) as (H1 & H2 & H3 & H4 & H5 & H6 & H7 & H8 & H9 & H10).
  change (setData logs (setStrategy s st (BacktestEngine_init {{ config_ := cfg }}))) with (loaded s cfg st logs).
  assert (strategy_ (loaded s cfg st logs) = Some (s, st)) as E0
    by (unfold loaded, setData, setupReplayer; by rewrite Hopen).
  unfold run. rewrite E0.
  set (b0 := prepare clock (loaded s cfg st logs)) in *. clearbody b0.
  destruct (call_strategy_ok clock s m onLoad 0 0 [] b0 H1) as (b1 & -> & Hb1 & [S1 S2 S3 S4 S5 S6] & P1 & L1 & F1);
    [intros st'; apply Hs|eapply in_budget_le, Hn; unfold backtest_calls; lia|].
  cbn [mbind option_bind]. cbv zeta.
  pose proof (replaying_start s m _ ticks cfg b1 Hb1 ltac:(by rewrite S3) ltac:(by rewrite S3) ltac:(by rewrite S1)
    ltac:(by rewrite S6, H5) ltac:(by rewrite F1) ltac:(by rewrite P1) ltac:(by rewrite S2)
    ltac:(by rewrite L1) ltac:(by rewrite S4)) as Hr.
  set (b2 := b1 {{ metrics_ ::= _ }} {{ replayer_ ::= _ }}) in *. clearbody b2.
  destruct (replay_ok clock s m Hs _ ticks Hrd Hwf cfg (events_left (replayer_ b2)) 0 b2 Hr) as (b3 & -> & [R1 R2 R3 R4 R5 R6 R7 R8] & Hex);
    [lia|done|done|].
  cbn [mbind option_bind]. eexists. split; [reflexivity|].
  rewrite take_ge in * by (by rewrite length_fmap). destruct R4 as [K1 K2 K3 K4 K5 K6 K7 K8 K9].
  destruct (calculateMetrics_records (metrics_ b3)) as [M1 M2].
  destruct b3; cbn -[calculateMetrics] in *. subst. rewrite K8, lookup_singleton_eq, M1, M2. by split_and!.
Qed.

(** One tick of a backtest, under any fill mode: the tick enters the book before the
    strategy sees it, the orders the strategy queues are placed behind those pending, and
    then exactly the pending orders with an opposite quote are filled, in order, for
    their whole quantity, at that quote, whatever their limit price; the others stay. *)
Lemma tick_fills_touch clock (s : Strategy St) m n c tick (b : BacktestEngine St) :
  obeys m s → bt_ok s n c (pending_ b) b → in_budget (n + (1 + c + 1024) * m) →
  ∃ b' best_bid best_ask new, on_tick clock tick b = Some b' ∧
    book_ b' = OrderBookV2.update tick (book_ b) ∧
    OrderBookV2.getBestBid (book_ b') = Some best_bid ∧ OrderBookV2.getBestAsk (book_ b') = Some best_ask ∧
    placed_ b' = placed_ b ++ new ∧
    pending_ b' = unfilled best_bid best_ask (pending_ b ++ new) ∧
    fills_ b' = fills_ b ++ fills_at tick best_bid best_ask (pending_ b ++ new).
Proof.
  intros Hs Hb Hn. destruct (on_tick_ok clock s m Hs tick n c b Hb Hn) as (b' & _ & E & [_ _ _ D (bb & ba & new & eq & H1 & H2 & H3 & H4 & H5 & _)] & _ & _).
  exists b', bb, ba, new. split; [exact E|]. by split_and!.
Qed.
End properties.

(** *** Witnesses: a strategy that buys on every tick, a log with an ask and a bid. *)

Definition sample_buyer : Strategy Z :=
  mkStrategy [1] (λ st, Ret st) (λ st, Ret st)
    (λ t st, Call (SubmitOrder (OrderRequest.mk 0 0 (100 * ONE) ONE 0 0 1 1 0 OrderSide.BUY
                                  OrderType.LIMIT TimeInForce.GTC 0)) (λ _, Ret (st + 1)))
    (λ _ st, Ret st) (λ _ st, Ret st).

Definition sample_quote (ts price : Z) (side : TickSide.t) : Tick.t * list Byte.byte :=
  (Tick.mk ts ts 1 1 (price * ONE) ONE side 0, replicate 22 Byte.x00).

Definition sample_ticks : list (Tick.t * list Byte.byte) :=
  [sample_quote 10 99 TickSide.BID; sample_quote 20 101 TickSide.ASK].

Definition sample_disk : LogWriter.Disk :=
  {[ ("logs", "tick.bin")%string := log_file 0 sample_ticks ]}.

Definition sample_logs : LogFileSet :=
  mkLogFileSet (open true ("logs", "tick.bin")%string sample_disk LogReader_init).2 LogReader_init LogReader_init.

Definition sample_clock (n : nat) : Z * Z := (1000000 + Z.of_nat n, 500).

Lemma sample_buyer_obeys : obeys 1 sample_buyer.
Proof. intros st. split_and!; repeat constructor. Qed.

Lemma sample_logs_ok :
  isOpen (LogReader.tick sample_logs) = true ∧ reader_of sample_ticks (LogReader.tick sample_logs) ∧
  Forall wf_entry sample_ticks.
Proof.
  assert (Forall wf_entry sample_ticks) as Hwf
    by (apply Forall_cons; split; [|apply Forall_cons; split; [|done]]; split; try done; split_and!; cbn; unfold inU, inS; lia).
  destruct (open_log sample_disk ("logs", "tick.bin")%string 0 sample_ticks [] LogReader_init)
    as (r & E & _ & Ho & Hr); [|cbn; lia|done|].
  { rewrite app_nil_r. apply lookup_singleton_eq. }
  unfold sample_logs. cbn [LogReader.tick]. rewrite E. by split.
Qed.

Abbreviation sample_backtest :=
  (run (F := FpmRef) (U := CastX86) (IO := iter_default) (L := LibmAny) (MH := first_min_heap) sample_clock
     (setData sample_logs (setStrategy sample_buyer 0
       ((BacktestEngine_init (U := CastX86)) {{ config_ := BacktestConfig.default }})))).

(** Both orders are filled at the ask once there is one. *)
Lemma sample_backtest_result :
  (λ b, ((λ x, (Fill.order_id x.2, Fill.fill_price x.2)) <$> fills_ b, length (pending_ b))) <$> sample_backtest
    = Some ([(1, 101 * ONE); (2, 101 * ONE)], 0%nat).
Proof. vm_compute. reflexivity. Qed.

(** What was bought at 101 with a limit of 100 is two long positions of one, marked at the bid of 99. *)
Lemma sample_backtest_trades :
  (λ b, Trade.pnl <$> trades_ (metrics_ b)) <$> sample_backtest = Some [ONE; ONE].
Proof. vm_compute. reflexivity. Qed.

Lemma sample_backtest_equity :
  (λ b, equity_snaps_ (metrics_ b)) <$> sample_backtest =
    Some [(0, 10000 * ONE); (10, 10000 * ONE); (20, 9996 * ONE)].
Proof. vm_compute. reflexivity. Qed.

Lemma backtest_replays_log_witness :
  ∃ b, sample_backtest = Some b ∧ length (fills_ b) = 2%nat ∧
    book_ b = ob_run sample_ticks.*1 ∧ placed_ b ≡ₚ (fills_ b).*1 ++ pending_ b ∧
    Trade.pnl <$> trades_ (metrics_ b) = [ONE; ONE].
Proof.
  destruct sample_logs_ok as (Ho & Hr & Hw).
  destruct (backtest_replays_log (F := FpmRef) (U := CastX86) (IO := iter_default) (L := LibmAny) (MH := first_min_heap)
    sample_clock BacktestConfig.default sample_buyer 0 1 sample_logs sample_ticks sample_buyer_obeys Ho Hr Hw
    ltac:(vm_compute; discriminate)) as (b & E & _ & Hbook & _ & _ & Hp & _ & Ht).
  exists b. split; [exact E|]. pose proof sample_backtest_result as R. rewrite E in R. injection R as R _.
  pose proof sample_backtest_trades as T. rewrite E in T. injection T as T.
  apply (f_equal length) in R. rewrite length_fmap in R. by split_and!.
Defined.

Lemma tick_fills_touch_witness :
  let b0 := prepare (U := CastX86) sample_clock
    (loaded (U := CastX86) sample_buyer BacktestConfig.default 0 sample_logs) in
  ∃ b' ask new, on_tick (F := FpmRef) (U := CastX86) (IO := iter_default) sample_clock (sample_quote 20 101 TickSide.ASK).1 b0 = Some b' ∧
    placed_ b' = [] ++ new ∧ fills_ b' = [] ++ fills_at (sample_quote 20 101 TickSide.ASK).1 None ask ([] ++ new).
Proof.
  destruct sample_logs_ok as (Ho & Hr & Hw). intros b0.
  destruct (prepared_ok (F := FpmRef) (U := CastX86) (IO := iter_default) sample_clock sample_buyer _
    BacktestConfig.default 0 sample_logs Ho eq_refl) as (H1 & _ & _ & _ & _ & F0 & P0 & B0 & _). fold b0 in H1, F0, P0, B0.
  destruct (tick_fills_touch (F := FpmRef) (U := CastX86) (IO := iter_default) sample_clock sample_buyer 1 0 0
    (sample_quote 20 101 TickSide.ASK).1 b0 sample_buyer_obeys ltac:(by rewrite P0) ltac:(vm_compute; discriminate))
    as (b' & bb & ba & new & E & Hb & Hbb & _ & Hp & _ & Hf).
  exists b', ba, new. split; [exact E|]. rewrite P0, F0 in *. split; [exact Hp|].
  rewrite Hb, B0 in Hbb. vm_compute in Hbb. injection Hbb as <-. exact Hf.
Defined.
