(* ===== verification/Protocols.v ===== *)
(** The wire protocols of the exchanges (include/chronos/io/protocols/protocol.hpp,
    src/io/protocols/binance_json_protocol.cpp, okx_json_protocol.cpp): messages to
    ticks, and subscription requests.

    The JSON parser is simdjson, which is not part of the repository: the class
    [SimdOps] has the accessors the code calls, [None] where they throw. A parse hands
    ticks to a sink as it goes and may throw in between, so it is a computation of the
    monad [feed]: the ticks handed over, in order, and the exception or the result. The
    requests are the nlohmann documents that are dumped; the static message counters
    are threaded through. *)
From Stdlib Require Import Ascii.
From S2P Require Import Prelude FixedPoint Types ParseDecimal Json.
From S2P Require RiskEngine.

Class SimdOps := {
  elem : Type;
  sd_parse : string → option elem;
  sd_object : elem → option elem;              (* [get_object] *)
  sd_field : elem → string → option elem;      (* [object["key"]] *)
  sd_string : elem → option string;
  sd_uint64 : elem → option Z;
  sd_bool : elem → option bool;
  sd_array : elem → option (list elem);
}.

(** ** Ticks and exceptions *)

Inductive exn := SimdError | StdError.

Definition feed (A : Type) : Type := list Tick.t * (exn + A).
#[export] Instance feed_ret : MRet feed := λ A a, ([], inr a).
#[export] Instance feed_bind : MBind feed := λ A B k m,
  match m.2 with
  | inl e => (m.1, inl e)
  | inr a => (m.1 ++ (k a).1, (k a).2)
  end.

Definition emit (t : Tick.t) : feed () := ([t], inr ()).
Definition throw {A} (e : exn) : feed A := ([], inl e).

(** An accessor whose error is thrown as [simdjson_error]. *)
Definition get {A} (o : option A) : feed A := match o with Some a => mret a | None => throw SimdError end.

(** [try { ... } catch (const simdjson_error&) { log }] *)
Definition catch_simd (m : feed ()) : feed () :=
  match m with (ts, inl SimdError) => (ts, inr ()) | _ => m end.

(** A loop over an array. *)
Fixpoint for_all {A} (body : A → feed ()) (l : list A) : feed () :=
  match l with
  | [] => mret ()
  | x :: l => _ ← body x; for_all body l
  end.

(** *** std::stoull, base 10 *)

Definition is_space (c : ascii) : bool := let n := Ascii.N_of_ascii c in (n =? 32)%N || ((9 <=? n) && (n <=? 13))%N.
Definition digit (c : ascii) : option Z :=
  let n := Ascii.N_of_ascii c in if ((48 <=? n) && (n <=? 57))%N then Some (Z.of_N n - 48) else None.

Fixpoint skip_space (s : list ascii) : list ascii :=
  match s with c :: s' => if is_space c then skip_space s' else s | [] => [] end.

(** The digits at the head of the text: their number and value. *)
Fixpoint digits (s : list ascii) (n : nat) (acc : Z) : nat * Z :=
  match s with
  | c :: s' => match digit c with Some d => digits s' (S n) (acc * 10 + d) | None => (n, acc) end
  | [] => (n, acc)
  end.

Definition stoull (s : string) : exn + Z :=
  let s := skip_space (String.list_ascii_of_string s) in
  let '(negative, s) := match s with
                        | "-"%char :: s => (true, s)
                        | "+"%char :: s => (false, s)
                        | _ => (false, s)
                        end in
  let '(n, v) := digits s 0 0 in
  if (n =? 0)%nat then inl StdError
  else if 2 ^ 64 <=? v then inl StdError
  else inr (u64 (if negative : bool then - v else v)).

Definition get_stoull (s : string) : feed Z := ([], stoull s).

(** *** Strings *)

Definition lower (c : ascii) : ascii :=
  let n := Ascii.N_of_ascii c in if ((65 <=? n) && (n <=? 90))%N then Ascii.ascii_of_N (n + 32) else c.
Definition upper (c : ascii) : ascii :=
  let n := Ascii.N_of_ascii c in if ((97 <=? n) && (n <=? 122))%N then Ascii.ascii_of_N (n - 32) else c.
Definition map_string (f : ascii → ascii) (s : string) : string :=
  String.string_of_list_ascii (f <$> String.list_ascii_of_string s).

(** ** The interface of a protocol *)

Class Protocol {D : SimdOps} {J : JsonOps} := {
  parse : string → Z → (string → Z) → feed Z;
  subscribeRequest : list string → Z → json * Z;
  unsubscribeRequest : list string → Z → json * Z;
  isPingMessage : string → bool;
  isPongMessage : string → bool;
  heartbeatPayload : string;
  usesWsPing : bool;
  normalizeSymbol : string → string;
  defaultUrl : string;
}.

Section protocols.
Context {D : SimdOps} {J : JsonOps}.

(** The body of [emit]: one level of a book message. *)
Definition level_tick (exchange : ExchangeId.t) (exchange_ts recv_ts sid : Z) (side : TickSide.t) (level : elem)
    : feed () :=
  pair ← get (sd_array level);
  price ← get (pair !! 0%nat ≫= sd_string);
  quantity ← get (pair !! 1%nat ≫= sd_string);
  emit (Tick.mk exchange_ts recv_ts (ExchangeId.to_Z exchange) sid (parseDecimal price) (parseDecimal quantity) side 0).

(** The two calls of [emit]. *)
Definition emit_book (exchange : ExchangeId.t) (exchange_ts recv_ts sid : Z) (data : elem) (bids asks : string)
    : feed () :=
  arr ← get (sd_field data bids ≫= sd_array);
  _ ← for_all (level_tick exchange exchange_ts recv_ts sid TickSide.BID) arr;
  arr ← get (sd_field data asks ≫= sd_array);
  for_all (level_tick exchange exchange_ts recv_ts sid TickSide.ASK) arr.
End protocols.

(** ** Binance *)

Module BinanceJsonProtocol.
Section binance.
Context {D : SimdOps} {J : JsonOps}.

Definition DEPTH_SUFFIX : string := "@depth5@100ms".
Definition TRADE_SUFFIX : string := "@aggTrade".
Definition TICKER_SUFFIX : string := "@bookTicker".

Definition parseDepthUpdate (data : elem) (recv_ts : Z) (resolveSymbolId : string → Z) : feed () :=
  e ← get (sd_field data "E" ≫= sd_uint64);
  symbol ← get (sd_field data "s" ≫= sd_string);
  let sid := resolveSymbolId symbol in
  if sid =? 0 then mret () else emit_book ExchangeId.BINANCE (u64 (e * 1000)) recv_ts sid data "b" "a".

Definition parseTrade (data : elem) (recv_ts : Z) (resolveSymbolId : string → Z) : feed () :=
  symbol ← get (sd_field data "s" ≫= sd_string);
  let sid := resolveSymbolId symbol in
  if sid =? 0 then mret ()
  else
    price ← get (sd_field data "p" ≫= sd_string);
    quantity ← get (sd_field data "q" ≫= sd_string);
    t ← get (sd_field data "T" ≫= sd_uint64);
    m ← get (sd_field data "m" ≫= sd_bool);
    emit (Tick.mk (u64 (t * 1000)) recv_ts (ExchangeId.to_Z ExchangeId.BINANCE) sid (parseDecimal price)
            (parseDecimal quantity) (if m : bool then TickSide.TRADE else TickSide.BID) 1).

(** A message that is not JSON is logged; other errors leave [parse] as exceptions. *)
Definition parse (msg : string) (receive_ts : Z) (resolveSymbolId : string → Z) : feed Z :=
  match sd_parse msg with
  | None => mret 0
  | Some doc =>
      obj ← get (sd_object doc);
      match sd_field obj "stream" with
      | Some stream =>
          sn ← get (sd_string stream);
          data ← get (sd_field obj "data" ≫= sd_object);
          if RiskEngine.contains DEPTH_SUFFIX sn then
            _ ← parseDepthUpdate data receive_ts resolveSymbolId; mret 5
          else if RiskEngine.contains TRADE_SUFFIX sn then
            _ ← parseTrade data receive_ts resolveSymbolId; mret 1
          else mret 0
      | None =>
          match sd_field obj "e" with
          | Some e =>
              event ← get (sd_string e);
              if String.eqb event "depthUpdate" then
                _ ← parseDepthUpdate obj receive_ts resolveSymbolId; mret 5
              else if String.eqb event "aggTrade" || String.eqb event "trade" then
                _ ← parseTrade obj receive_ts resolveSymbolId; mret 1
              else mret 0
          | None => mret 0
          end
      end
  end.

Definition stream_params (symbols : list string) : json :=
  j_array (symbols ≫= λ sym,
    [j_string (sym ++ DEPTH_SUFFIX); j_string (sym ++ TRADE_SUFFIX); j_string (sym ++ TICKER_SUFFIX)])%string.

Definition request (method : string) (symbols : list string) (msg_id : Z) : json * Z :=
  (j_object [("method", j_string method); ("params", stream_params symbols); ("id", j_int msg_id)]%string,
   inc64 msg_id).

Definition subscribeRequest := request "SUBSCRIBE".
Definition unsubscribeRequest := request "UNSUBSCRIBE".
Definition normalizeSymbol (raw : string) : string := map_string lower raw.

Definition protocol : Protocol := {|
  Protocols.parse := parse;
  Protocols.subscribeRequest := subscribeRequest;
  Protocols.unsubscribeRequest := unsubscribeRequest;
  Protocols.isPingMessage _ := false;
  Protocols.isPongMessage _ := false;
  Protocols.heartbeatPayload := EmptyString;
  Protocols.usesWsPing := true;
  Protocols.normalizeSymbol := normalizeSymbol;
  Protocols.defaultUrl := "wss://stream.binance.com:9443/ws";
|}.
End binance.
End BinanceJsonProtocol.

(** ** OKX *)

Module OKXJsonProtocol.
Section okx.
Context {D : SimdOps} {J : JsonOps}.

Definition parseBooks5 (data : elem) (inst_id : string) (recv_ts : Z) (resolveSymbolId : string → Z) : feed () :=
  let sid := resolveSymbolId inst_id in
  if sid =? 0 then mret ()
  else
    exchange_ts ← match sd_field data "ts" with
                  | Some ts => sv ← get (sd_string ts); t ← get_stoull sv; mret (u64 (t * 1000))
                  | None => mret recv_ts
                  end;
    emit_book ExchangeId.OKX exchange_ts recv_ts sid data "bids" "asks".

Definition parseTrade (data : elem) (inst_id : string) (recv_ts : Z) (resolveSymbolId : string → Z) : feed () :=
  let sid := resolveSymbolId inst_id in
  if sid =? 0 then mret ()
  else
    side_str ← get (sd_field data "side" ≫= sd_string);
    let side := if String.eqb side_str "buy" then TickSide.BID else TickSide.TRADE in
    sv ← get (sd_field data "ts" ≫= sd_string);
    t ← get_stoull sv;
    price ← get (sd_field data "px" ≫= sd_string);
    quantity ← get (sd_field data "sz" ≫= sd_string);
    emit (Tick.mk (u64 (t * 1000)) recv_ts (ExchangeId.to_Z ExchangeId.OKX) sid (parseDecimal price)
            (parseDecimal quantity) side 1).

Definition parse (msg : string) (receive_ts : Z) (resolveSymbolId : string → Z) : feed Z :=
  match sd_parse msg with
  | None => mret 0
  | Some doc =>
      obj ← get (sd_object doc);
      match sd_field obj "event" with
      | Some e =>
          event ← get (sd_string e);
          if String.eqb event "subscribe" then mret 0
          else if String.eqb event "error" then _ ← get (sd_field obj "msg" ≫= sd_string); mret 0
          else mret 0
      | None =>
          match sd_field obj "arg" with
          | Some a =>
              arg ← get (sd_object a);
              channel ← get (sd_field arg "channel" ≫= sd_string);
              inst_id ← get (sd_field arg "instId" ≫= sd_string);
              if String.eqb channel "books5" then
                arr ← get (sd_field obj "data" ≫= sd_array);
                _ ← for_all (λ el, data ← get (sd_object el); parseBooks5 data inst_id receive_ts resolveSymbolId) arr;
                mret (5 * Z.of_nat (length arr))
              else if String.eqb channel "trades" then
                arr ← get (sd_field obj "data" ≫= sd_array);
                _ ← for_all (λ el, data ← get (sd_object el); parseTrade data inst_id receive_ts resolveSymbolId) arr;
                mret (Z.of_nat (length arr))
              else mret 0
          | None => mret 0
          end
      end
  end.

Definition channel_args (symbols : list string) : json :=
  j_array (symbols ≫= λ sym,
    [j_object [("channel", j_string "books5"); ("instId", j_string sym)];
     j_object [("channel", j_string "trades"); ("instId", j_string sym)]])%string.

Definition request (op : string) (symbols : list string) : json :=
  j_object [("op", j_string op); ("args", channel_args symbols)]%string.

(** These requests carry no id; the counter of the interface is left alone. *)
Definition subscribeRequest (symbols : list string) (msg_id : Z) : json * Z := (request "subscribe" symbols, msg_id).
Definition unsubscribeRequest (symbols : list string) (msg_id : Z) : json * Z := (request "unsubscribe" symbols, msg_id).

Definition normalizeSymbol (raw : string) : string :=
  map_string (λ c, if Ascii.eqb c "_" then "-"%char else c) (map_string upper raw).

Definition protocol : Protocol := {|
  Protocols.parse := parse;
  Protocols.subscribeRequest := subscribeRequest;
  Protocols.unsubscribeRequest := unsubscribeRequest;
  Protocols.isPingMessage msg := String.eqb msg "ping";
  Protocols.isPongMessage msg := String.eqb msg "pong";
  Protocols.heartbeatPayload := "ping";
  Protocols.usesWsPing := false;
  Protocols.normalizeSymbol := normalizeSymbol;
  Protocols.defaultUrl := "wss://ws.okx.com:8443/ws/v5/public";
|}.
End okx.
End OKXJsonProtocol.

(** ** Running a parse *)

Lemma bind_done {A B} ts (a : A) (k : A → feed B) : ((ts, inr a) : feed A) ≫= k = (ts ++ (k a).1, (k a).2).
Proof. done. Qed.
Lemma bind_throw {A B} ts e (k : A → feed B) : ((ts, inl e) : feed A) ≫= k = (ts, inl e).
Proof. done. Qed.
Lemma bind_get {A B} (o : option A) a (k : A → feed B) : o = Some a → get o ≫= k = k a.
Proof. intros ->. cbn. unfold mbind, feed_bind. cbn. by destruct (k a). Qed.
Lemma bind_get_None {A B} (o : option A) (k : A → feed B) : o = None → get o ≫= k = throw SimdError.
Proof. by intros ->. Qed.
Lemma bind_mret {A B} (a : A) (k : A → feed B) : (mret a : feed A) ≫= k = k a.
Proof. unfold mbind, feed_bind. cbn. by destruct (k a). Qed.

Lemma for_all_feeds {A B} (body : A → feed ()) (t : B → Tick.t) l (xs : list B) :
  Forall2 (λ a x, body a = emit (t x)) l xs → for_all body l = (t <$> xs, inr ()).
Proof. induction 1 as [|a x l xs Hx _ IH]; [done|]. cbn [for_all]. by rewrite Hx, IH. Qed.

Lemma for_all_partial {A B} (body : A → feed ()) (t : B → Tick.t) l (xs : list B) bad rest e :
  Forall2 (λ a x, body a = emit (t x)) l xs → body bad = throw e → for_all body (l ++ bad :: rest) = (t <$> xs, inl e).
Proof.
  intros Hl Hb. induction Hl as [|a x l xs Hx _ IH]; cbn [for_all app].
  - by rewrite Hb.
  - by rewrite Hx, IH.
Qed.

Lemma text_prefix_app s1 s2 : String.prefix s1 (s1 ++ s2)%string = true.
Proof.
  induction s1 as [|c s1 IH]; [by destruct s2|].
  change (String.prefix (String c s1) (String c s1 ++ s2)%string)
    with (if Ascii.ascii_dec c c then String.prefix s1 (s1 ++ s2)%string else false).
  destruct (Ascii.ascii_dec c c); [exact IH|congruence].
Qed.

Lemma contains_prefix needle s : String.prefix needle s = true → RiskEngine.contains needle s = true.
Proof.
  intros H. destruct s as [|c s].
  - change (String.prefix needle EmptyString || false = true). by rewrite H.
  - change (String.prefix needle (String c s) || RiskEngine.contains needle s = true). by rewrite H.
Qed.

Lemma contains_cons needle c s : RiskEngine.contains needle s = true → RiskEngine.contains needle (String c s) = true.
Proof. intros H. change (String.prefix needle (String c s) || RiskEngine.contains needle s = true). by rewrite H, orb_true_r. Qed.

Lemma contains_middle pre needle post : RiskEngine.contains needle (pre ++ needle ++ post)%string = true.
Proof. induction pre as [|c pre IH]; [exact (contains_prefix _ _ (text_prefix_app needle post))|by apply contains_cons]. Qed.

Section reading.
Context {D : SimdOps} {J : JsonOps}.

(** A level of a book message: a price and a quantity as texts. *)
Definition reads_level (el : elem) (l : string * string) : Prop :=
  ∃ pair, sd_array el = Some pair ∧ pair !! 0%nat ≫= sd_string = Some l.1 ∧ pair !! 1%nat ≫= sd_string = Some l.2.

Definition reads_levels (data : elem) (key : string) (levels : list (string * string)) : Prop :=
  ∃ arr, sd_field data key ≫= sd_array = Some arr ∧ Forall2 reads_level arr levels.

Definition tick_of_level (exchange : ExchangeId.t) (exchange_ts recv_ts sid : Z) (side : TickSide.t)
    (l : string * string) : Tick.t :=
  Tick.mk exchange_ts recv_ts (ExchangeId.to_Z exchange) sid (parseDecimal l.1) (parseDecimal l.2) side 0.

(** The specification: one tick per level, the bids first. *)
Definition book_ticks (exchange : ExchangeId.t) (exchange_ts recv_ts sid : Z) (bids asks : list (string * string))
    : list Tick.t :=
  (tick_of_level exchange exchange_ts recv_ts sid TickSide.BID <$> bids)
  ++ (tick_of_level exchange exchange_ts recv_ts sid TickSide.ASK <$> asks).

Lemma level_tick_ok ex ets rts sid side el l :
  reads_level el l → level_tick ex ets rts sid side el = emit (tick_of_level ex ets rts sid side l).
Proof.
  intros (pair & Ha & Hp & Hq). unfold level_tick.
  by rewrite (bind_get _ _ _ Ha), (bind_get _ _ _ Hp), (bind_get _ _ _ Hq).
Qed.

Lemma levels_ok ex ets rts sid side data key levels :
  reads_levels data key levels →
  ∃ arr, sd_field data key ≫= sd_array = Some arr ∧
    for_all (level_tick ex ets rts sid side) arr = (tick_of_level ex ets rts sid side <$> levels, inr ()).
Proof.
  intros (arr & Ha & Hl). exists arr. split; [done|]. apply for_all_feeds.
  eapply Forall2_impl; [exact Hl|]. intros el l. by apply level_tick_ok.
Qed.

Lemma emit_book_ok ex ets rts sid data kb ka bids asks :
  reads_levels data kb bids → reads_levels data ka asks →
  emit_book ex ets rts sid data kb ka = (book_ticks ex ets rts sid bids asks, inr ()).
Proof.
  intros Hb Ha. unfold emit_book.
  destruct (levels_ok ex ets rts sid TickSide.BID _ _ _ Hb) as (ab & Eb & Fb).
  destruct (levels_ok ex ets rts sid TickSide.ASK _ _ _ Ha) as (aa & Ea & Fa).
  rewrite (bind_get _ _ _ Eb), Fb, bind_done, (bind_get _ _ _ Ea), Fa. done.
Qed.

(** A Binance depth update, as the raw stream sends it. *)
Record binance_depth (data : elem) (e : Z) (symbol : string) (bids asks : list (string * string)) : Prop := {
  bd_time : sd_field data "E" ≫= sd_uint64 = Some e;
  bd_symbol : sd_field data "s" ≫= sd_string = Some symbol;
  bd_bids : reads_levels data "b" bids;
  bd_asks : reads_levels data "a" asks;
}.

(** The depth update a message [obj] carries: of a raw stream the message itself, of a combined
    stream its "data", when the name of the stream names the depth channel. *)
Inductive depth_message (obj : elem) : elem → Prop :=
| raw_depth :
    sd_field obj "stream" = None → sd_field obj "e" ≫= sd_string = Some "depthUpdate"%string → depth_message obj obj
| combined_depth pre post data :
    sd_field obj "stream" ≫= sd_string = Some (pre ++ "@depth5@100ms" ++ post)%string →
    sd_field obj "data" ≫= sd_object = Some data → depth_message obj data.

(** One element of a message on OKX's books5 channel; [ts] is the text of its time stamp. *)
Record okx_book (data : elem) (ts : string) (bids asks : list (string * string)) : Prop := {
  ob_time : sd_field data "ts" ≫= sd_string = Some ts;
  ob_bids : reads_levels data "bids" bids;
  ob_asks : reads_levels data "asks" asks;
}.

Lemma parseDepthUpdate_ok data e symbol bids asks recv_ts resolve :
  binance_depth data e symbol bids asks →
  BinanceJsonProtocol.parseDepthUpdate data recv_ts resolve =
    (if resolve symbol =? 0 then []
     else book_ticks ExchangeId.BINANCE (u64 (e * 1000)) recv_ts (resolve symbol) bids asks, inr ()).
Proof.
  intros [He Hs Hb Ha]. unfold BinanceJsonProtocol.parseDepthUpdate.
  rewrite (bind_get _ _ _ He), (bind_get _ _ _ Hs). cbv zeta. destruct (resolve symbol =? 0); [done|].
  by apply emit_book_ok.
Qed.

Lemma parseBooks5_ok data ts t inst_id bids asks recv_ts resolve :
  okx_book data ts bids asks → stoull ts = inr t →
  OKXJsonProtocol.parseBooks5 data inst_id recv_ts resolve =
    (if resolve inst_id =? 0 then []
     else book_ticks ExchangeId.OKX (u64 (t * 1000)) recv_ts (resolve inst_id) bids asks, inr ()).
Proof.
  intros [Ht Hb Ha] Hst. unfold OKXJsonProtocol.parseBooks5. cbv zeta. destruct (resolve inst_id =? 0); [done|].
  destruct (sd_field data "ts") as [el|]; [|done]. cbn in Ht.
  rewrite (bind_get _ _ _ Ht). unfold get_stoull. rewrite Hst, bind_done. cbn [fst snd mret feed_ret app].
  rewrite bind_done. rewrite (emit_book_ok ExchangeId.OKX (u64 (t * 1000)) recv_ts (resolve inst_id) _ _ _ _ _ Hb Ha). done.
Qed.
End reading.

(** ** Properties *)

Section properties.
Context {D : SimdOps} {J : JsonOps}.

(** C35: a depth message of Binance, of a raw stream or wrapped by a combined one, becomes one tick per level,
    all bids in the order of the message and then all asks, each with the parsed price and quantity of its level,
    the id the symbol resolves to, the message's time in microseconds and the time of
    receipt; a message about a symbol without an id becomes nothing. *)
Theorem binance_depth_exact msg recv_ts resolve doc obj data e symbol bids asks :
  sd_parse msg = Some doc → sd_object doc = Some obj → depth_message obj data →
  binance_depth data e symbol bids asks →
  BinanceJsonProtocol.parse msg recv_ts resolve =
    (if resolve symbol =? 0 then []
     else book_ticks ExchangeId.BINANCE (u64 (e * 1000)) recv_ts (resolve symbol) bids asks, inr 5).
Proof.
  intros Hm Hd Hmsg Hdata. unfold BinanceJsonProtocol.parse. rewrite Hm, (bind_get _ _ _ Hd).
  destruct Hmsg as [Hst He|pre post data Hst Hda].
  - rewrite Hst. destruct (sd_field obj "e") as [ev|]; [|done]. cbn [mbind option_bind] in He.
    rewrite (bind_get _ _ _ He). cbn [String.eqb Ascii.eqb Bool.eqb].
    rewrite (parseDepthUpdate_ok _ _ _ _ _ _ _ Hdata), bind_done. cbn. by rewrite app_nil_r.
  - destruct (sd_field obj "stream") as [st|]; [|done]. cbn [mbind option_bind] in Hst.
    rewrite (bind_get _ _ _ Hst), (bind_get _ _ _ Hda). unfold BinanceJsonProtocol.DEPTH_SUFFIX. rewrite contains_middle.
    rewrite (parseDepthUpdate_ok _ _ _ _ _ _ _ Hdata), bind_done. cbn. by rewrite app_nil_r.
Qed.

(** A push of OKX's books5 channel becomes the ticks of its elements in order, each
    element one tick per level, bids before asks. *)
Lemma okx_books_exact msg recv_ts resolve doc obj arg inst_id els (books : list (Z * list (string * string) * list (string * string))) :
  sd_parse msg = Some doc → sd_object doc = Some obj →
  sd_field obj "event" = None → sd_field obj "arg" ≫= sd_object = Some arg →
  sd_field arg "channel" ≫= sd_string = Some "books5"%string → sd_field arg "instId" ≫= sd_string = Some inst_id →
  sd_field obj "data" ≫= sd_array = Some els →
  Forall2 (λ el '(t, bids, asks), ∃ data ts, sd_object el = Some data ∧ okx_book data ts bids asks ∧ stoull ts = inr t) els books →
  OKXJsonProtocol.parse msg recv_ts resolve =
    (if resolve inst_id =? 0 then []
     else books ≫= λ '(t, bids, asks), book_ticks ExchangeId.OKX (u64 (t * 1000)) recv_ts (resolve inst_id) bids asks,
     inr (5 * Z.of_nat (length books))).
Proof.
  intros Hm Hd Hev Harg Hch Hid Hdata Hels. unfold OKXJsonProtocol.parse.
  rewrite Hm, (bind_get _ _ _ Hd), Hev. destruct (sd_field obj "arg") as [a|]; [|done]. cbn in Harg.
  rewrite (bind_get _ _ _ Harg), (bind_get _ _ _ Hch), (bind_get _ _ _ Hid). cbn [String.eqb Ascii.eqb Bool.eqb].
  rewrite (bind_get _ _ _ Hdata), (Forall2_length _ _ _ Hels).
  match goal with |- context [for_all ?b els] => assert (for_all b els =
    (if resolve inst_id =? 0 then [] else books ≫= λ '(t, bids, asks),
       book_ticks ExchangeId.OKX (u64 (t * 1000)) recv_ts (resolve inst_id) bids asks, inr ())) as ->; [|by rewrite bind_done; cbn; rewrite app_nil_r] end.
  clear Hdata. induction Hels as [|el [[t bids] asks] els books (data & ts & Ho & Hb & Ht) _ IH]; cbn [for_all].
  - by destruct (resolve inst_id =? 0).
  - rewrite (bind_get _ _ _ Ho), (parseBooks5_ok _ _ _ _ _ _ _ _ Hb Ht), bind_done, IH.
    by destruct (resolve inst_id =? 0).
Qed.

(** A malformed level: the ticks of the levels before it have been handed over, those
    of the levels behind it and of the asks have not, and the exception leaves [parse]. *)
Lemma malformed_level_partial msg recv_ts resolve doc obj event e symbol arr bad rest bids :
  sd_parse msg = Some doc → sd_object doc = Some obj →
  sd_field obj "stream" = None → sd_field obj "e" = Some event → sd_string event = Some "depthUpdate"%string →
  sd_field obj "E" ≫= sd_uint64 = Some e → sd_field obj "s" ≫= sd_string = Some symbol → resolve symbol ≠ 0 →
  sd_field obj "b" ≫= sd_array = Some (arr ++ bad :: rest) → Forall2 reads_level arr bids → sd_array bad = None →
  BinanceJsonProtocol.parse msg recv_ts resolve =
    (tick_of_level ExchangeId.BINANCE (u64 (e * 1000)) recv_ts (resolve symbol) TickSide.BID <$> bids, inl SimdError).
Proof.
  intros Hm Hd Hst He Hev HE Hs Hr Hb Hl Hbad. unfold BinanceJsonProtocol.parse.
  rewrite Hm, (bind_get _ _ _ Hd), Hst, He, (bind_get _ _ _ Hev). cbn [String.eqb Ascii.eqb Bool.eqb].
  unfold BinanceJsonProtocol.parseDepthUpdate. rewrite (bind_get _ _ _ HE), (bind_get _ _ _ Hs). cbv zeta.
  apply Z.eqb_neq in Hr. rewrite Hr. unfold emit_book. rewrite (bind_get _ _ _ Hb).
  rewrite (for_all_partial _ (tick_of_level ExchangeId.BINANCE (u64 (e * 1000)) recv_ts (resolve symbol) TickSide.BID) _ bids _ _ SimdError).
  - by rewrite !bind_throw.
  - eapply Forall2_impl; [exact Hl|]. intros el l. by apply level_tick_ok.
  - unfold level_tick. by rewrite bind_get_None.
Qed.
End properties.

(** *** Witnesses: a parser that reads every message as one given document. *)

Definition SimdRef (doc : json_ref) : SimdOps := {|
  elem := json_ref;
  sd_parse _ := Some doc;
  sd_object j := match j with JObject _ => Some j | _ => None end;
  sd_field j k := match j with JObject fs => list_to_map (M := gmap string json_ref) fs !! k | _ => None end;
  sd_string j := match j with JString s => Some s | _ => None end;
  sd_uint64 j := match j with JInt z => if 0 <=? z then Some z else None | _ => None end;
  sd_bool j := match j with JBool b => Some b | _ => None end;
  sd_array j := match j with JArray l => Some l | _ => None end;
|}.

Definition ref_level (p q : string) : json_ref := JArray [JString p; JString q].

Definition sample_depth (bids : list json_ref) : json_ref :=
  JObject [("e", JString "depthUpdate"); ("E", JInt 1700000000000); ("s", JString "BTCUSDT");
           ("b", JArray bids); ("a", JArray [ref_level "101" "2"])]%string.

Definition sample_books : json_ref :=
  JObject [("arg", JObject [("channel", JString "books5"); ("instId", JString "BTC-USDT")]);
           ("data", JArray [JObject [("ts", JString "1700000000000"); ("bids", JArray [ref_level "99" "1"]);
                                     ("asks", JArray [ref_level "101" "2"])]])]%string.

Definition sample_combined : json_ref :=
  JObject [("stream", JString "btcusdt@depth5@100ms"); ("data", sample_depth [ref_level "99" "1.5"])]%string.

Lemma sample_depth_read doc :
  binance_depth (D := SimdRef doc) (sample_depth [ref_level "99" "1.5"]) 1700000000000 "BTCUSDT"
    [("99", "1.5")]%string [("101", "2")]%string.
Proof.
  split; try reflexivity; (eexists; split; [reflexivity|]); (constructor; [|constructor]); (eexists; by split_and!).
Qed.

Definition depth_ticks : list Tick.t :=
  [Tick.mk 1700000000000000 7 1 1 (99 * ONE) (3 * 2 ^ 31) TickSide.BID 0;
   Tick.mk 1700000000000000 7 1 1 (101 * ONE) (2 * ONE) TickSide.ASK 0].

Lemma binance_depth_exact_witness :
  BinanceJsonProtocol.parse (D := SimdRef (sample_depth [ref_level "99" "1.5"])) "m"%string 7 (λ _, 1)
  = (depth_ticks, inr 5) ∧
  BinanceJsonProtocol.parse (D := SimdRef sample_combined) "m"%string 7 (λ _, 1) = (depth_ticks, inr 5).
Proof.
  split.
  - etrans; [eapply (binance_depth_exact (D := SimdRef (sample_depth [ref_level "99" "1.5"])) "m"%string 7 (λ _, 1));
      [reflexivity|reflexivity|apply raw_depth; reflexivity|apply sample_depth_read]|reflexivity].
  - etrans; [eapply (binance_depth_exact (D := SimdRef sample_combined) "m"%string 7 (λ _, 1));
      [reflexivity|reflexivity|apply (combined_depth (D := SimdRef sample_combined) _ "btcusdt" EmptyString); reflexivity|apply sample_depth_read]|reflexivity].
Defined.

Lemma okx_books_exact_witness :
  OKXJsonProtocol.parse (D := SimdRef sample_books) "m"%string 7 (λ _, 3)
  = ([Tick.mk 1700000000000000 7 2 3 (99 * ONE) ONE TickSide.BID 0;
      Tick.mk 1700000000000000 7 2 3 (101 * ONE) (2 * ONE) TickSide.ASK 0], inr 5).
Proof.
  etrans; [eapply (okx_books_exact (D := SimdRef sample_books) "m"%string 7 (λ _, 3) _ _ _ "BTC-USDT"%string _
    [(1700000000000, [("99", "1")], [("101", "2")])]%string); try reflexivity|reflexivity].
  constructor; [|constructor]. eexists _, "1700000000000"%string. split_and!; [reflexivity| |reflexivity].
  split; try reflexivity; (eexists; split; [reflexivity|]); constructor; [|constructor| |constructor];
    (eexists; by split_and!).
Defined.

Lemma malformed_level_partial_witness :
  BinanceJsonProtocol.parse (D := SimdRef (sample_depth [ref_level "99" "1"; JString "98"; ref_level "97" "1"])) "m"%string 7 (λ _, 1)
  = ([Tick.mk 1700000000000000 7 1 1 (99 * ONE) ONE TickSide.BID 0], inl SimdError).
Proof.
  etrans; [eapply (malformed_level_partial (D := SimdRef (sample_depth [ref_level "99" "1"; JString "98"; ref_level "97" "1"]))
    "m"%string 7 (λ _, 1) _ _ _ 1700000000000 "BTCUSDT"%string [ref_level "99" "1"] (JString "98") _ [("99", "1")%string]);
    try reflexivity; [done|]|reflexivity].
  constructor; [|constructor]. eexists; by split_and!.
Defined.
