(* ===== verification/Connection.v ===== *)
(** How a WebSocket connection over TLS is made: the parts of a URL, the tunnel through an
    HTTP proxy, the handshakes (BinanceAdapter::doConnect, OkxAdapter::doConnect,
    WebSocketTlsTransport::Impl::parseUrl and doConnect).

    The network is outside the model: an attempt to connect is given a [Network], the
    answers of Boost.Beast and OpenSSL to the calls the code makes. *)
From Stdlib Require Import Ascii.
From S2P Require Import Prelude.
From S2P Require RiskEngine.

(** ** Calls that throw: the text of the exception, or the result. *)

Definition attempt (A : Type) : Type := string + A.
#[export] Instance attempt_ret : MRet attempt := λ A, inr.
#[export] Instance attempt_bind : MBind attempt := λ A B k m, match m with inl e => inl e | inr a => k a end.

Record Network := {
  tcp_connect : string → string → attempt ();         (* resolve a host and a port and connect *)
  proxy_exchange : string → attempt string;           (* write a request, read up to the blank line *)
  set_host_name : string → bool;                      (* [SSL_set_tlsext_host_name] *)
  tls_handshake : attempt ();
  ws_handshake : string → string → attempt ();        (* host and path *)
}.

Definition crlf : string := String.String (Ascii.ascii_of_nat 13) (String.String (Ascii.ascii_of_nat 10) EmptyString).

(** ** URLs *)

Definition find (needle s : string) : option nat := String.index 0 needle s.
Definition drop_string (n : nat) (s : string) : string := String.substring n (String.length s - n) s.

Definition strip_scheme (url : string) : string :=
  if String.prefix "wss://" url then drop_string 6 url
  else if String.prefix "ws://" url then drop_string 5 url else url.

Definition url_host (url : string) : string :=
  match find ":" url, find "/" url with
  | Some c, Some s => String.substring 0 (Nat.min c s) url
  | Some p, None | None, Some p => String.substring 0 p url
  | None, None => url
  end.

(** [None] when the URL names no port. *)
Definition url_port (url : string) : option string :=
  match find ":" url, find "/" url with
  | Some c, Some s => if (c <? s)%nat then Some (String.substring (c + 1) (s - c - 1) url) else None
  | Some c, None => Some (drop_string (c + 1) url)
  | None, _ => None
  end.

Definition url_path (default_path url : string) : string :=
  match find "/" url with Some s => drop_string s url | None => default_path end.

Definition port_of (ws_url url : string) : string :=
  default (if String.prefix "wss" ws_url then "443" else "80")%string (url_port url).

(** ** The connection *)

Definition use_proxy (proxy_host : string) (proxy_port : Z) : bool :=
  (0 <? proxy_port) && negb (String.eqb proxy_host EmptyString).

Definition connect_request (host port : string) : string :=
  ("CONNECT " ++ host ++ ":" ++ port ++ " HTTP/1.1" ++ crlf ++ "Host: " ++ host ++ ":" ++ port ++ crlf ++ crlf)%string.

(** The TCP connection, through the proxy if there is one: [inr false] is a proxy that refuses
    the tunnel with the answer it returns. *)
Definition tcp_or_tunnel (net : Network) (proxy_host proxy_port host port : string) (proxied : bool) : attempt (string * bool) :=
  if proxied then
    _ ← tcp_connect net proxy_host proxy_port;
    response ← proxy_exchange net (connect_request host port);
    mret (response, RiskEngine.contains "200" response)
  else
    _ ← tcp_connect net host port; mret (EmptyString, true).

(** The handshakes after the host name is set. *)
Definition handshakes (net : Network) (host path : string) : attempt () :=
  _ ← tls_handshake net; ws_handshake net host path.

(** ** A URL taken apart *)

Lemma string_app_cons x (a b : string) : (String.String x a ++ b = String.String x (a ++ b))%string.
Proof. done. Qed.
Lemma string_app_assoc (a b c : string) : ((a ++ b) ++ c = a ++ (b ++ c))%string.
Proof. induction a as [|x a IH]; [done|]. by rewrite !string_app_cons, IH. Qed.
Lemma string_app_nil (a : string) : (a ++ EmptyString)%string = a.
Proof. induction a as [|x a IH]; [done|]. by rewrite string_app_cons, IH. Qed.
Lemma string_length_app (a b : string) : String.length (a ++ b) = (String.length a + String.length b)%nat.
Proof. induction a as [|x a IH]; [done|]. rewrite string_app_cons. cbn. by rewrite IH. Qed.
Lemma string_list_app (a b : string) :
  String.list_ascii_of_string (a ++ b) = String.list_ascii_of_string a ++ String.list_ascii_of_string b.
Proof. induction a as [|x a IH]; [done|]. rewrite string_app_cons. cbn. by rewrite IH. Qed.

Lemma substring_whole (a b : string) : String.substring 0 (String.length a) (a ++ b) = a.
Proof. induction a as [|x a IH]; [by destruct b|]. rewrite string_app_cons. cbn. by rewrite IH. Qed.
Lemma substring_skip (a b : string) k m :
  String.substring (String.length a + k) m (a ++ b) = String.substring k m b.
Proof. induction a as [|x a IH]; [done|]. rewrite string_app_cons. exact IH. Qed.
Lemma substring_app (a b c : string) k m :
  k = String.length a → m = String.length b → String.substring k m (a ++ b ++ c) = b.
Proof. intros -> ->. rewrite <-(Nat.add_0_r (String.length a)), substring_skip. apply substring_whole. Qed.
Lemma drop_string_app (a b : string) k : k = String.length a → drop_string k (a ++ b) = b.
Proof.
  intros ->. unfold drop_string. rewrite <-(string_app_nil b) at 2. apply substring_app; [done|].
  rewrite string_length_app. lia.
Qed.

(** A text without colons and slashes. *)
Definition plain (s : string) : Prop := ∀ c, c ∈ String.list_ascii_of_string s → c ≠ ":"%char ∧ c ≠ "/"%char.

Lemma find_after c (a b : string) :
  c ∉ String.list_ascii_of_string a →
  find (String.String c EmptyString) (a ++ b) = (λ n, String.length a + n)%nat <$> find (String.String c EmptyString) b.
Proof.
  unfold find. induction a as [|x a IH]; intros Hc.
  - by destruct (String.index _ _ b) as [|] eqn:E; unfold String.append; rewrite E.
  - apply not_elem_of_cons in Hc as [Hx Hc]. rewrite string_app_cons. cbn. destruct (Ascii.ascii_dec c x); [done|].
    rewrite IH by done. by destruct (String.index _ _ b).
Qed.
Lemma find_head c (b : string) : find (String.String c EmptyString) (String.String c b) = Some 0%nat.
Proof. unfold find. cbn. destruct (Ascii.ascii_dec c c); [by destruct b|done]. Qed.
Lemma find_none c (a : string) : c ∉ String.list_ascii_of_string a → find (String.String c EmptyString) a = None.
Proof. intros Hc. rewrite <-(string_app_nil a), find_after by done. done. Qed.
Lemma find_here c (a b : string) k :
  c ∉ String.list_ascii_of_string a → k = String.length a →
  find (String.String c EmptyString) (a ++ String.String c b) = Some k.
Proof. intros Hc ->. rewrite find_after, find_head by done. cbn. f_equal. lia. Qed.

Inductive scheme := Wss | Ws.
Definition scheme_text (s : scheme) : string := match s with Wss => "wss://" | Ws => "ws://" end.

(** The URL of a scheme, a host, perhaps a port and perhaps a path; [path] is what follows the slash. *)
Definition render_url (s : scheme) (host : string) (port path : option string) : string :=
  (scheme_text s ++ host ++ match port with Some p => ":" ++ p | None => EmptyString end
   ++ match path with Some p => "/" ++ p | None => EmptyString end)%string.

Lemma plain_not s : plain s → ":"%char ∉ String.list_ascii_of_string s ∧ "/"%char ∉ String.list_ascii_of_string s.
Proof. intros Hs. split; intros H; by apply Hs in H as [? ?]. Qed.

Lemma strip_render s host port path :
  strip_scheme (render_url s host port path) =
    (host ++ match port with Some p => ":" ++ p | None => EmptyString end
     ++ match path with Some p => "/" ++ p | None => EmptyString end)%string.
Proof.
  unfold strip_scheme, render_url. set (rest := (host ++ _)%string). clearbody rest.
  destruct s; cbn [scheme_text].
  - replace (String.prefix "wss://" ("wss://" ++ rest)) with true by (by destruct rest). by apply (drop_string_app "wss://").
  - change (String.prefix "wss://" ("ws://" ++ rest)) with false. replace (String.prefix "ws://" ("ws://" ++ rest)) with true by (by destruct rest).
    by apply (drop_string_app "ws://").
Qed.

(** A URL made of a scheme, a host, perhaps a port and perhaps a path is taken apart into
    them again, with the port of the scheme and the default path where it names none. *)
Lemma url_roundtrip s host port path default_path :
  plain host → (∀ p, port = Some p → plain p) →
  let ws_url := render_url s host port path in
  let url := strip_scheme ws_url in
  url_host url = host ∧
  port_of ws_url url = default (match s with Wss => "443" | Ws => "80" end)%string port ∧
  url_path default_path url = from_option (λ p, "/" ++ p)%string default_path path.
Proof.
  intros Hh Hp ws_url url. assert (url = _) as Hurl by exact (strip_render s host port path).
  rewrite Hurl. clear Hurl url. apply plain_not in Hh as [Hc Hs].
  assert ((if String.prefix "wss" ws_url then "443" else "80")%string = match s with Wss => "443" | Ws => "80" end%string) as Hd
    by (by destruct s).
  unfold port_of. rewrite Hd. clear Hd. set (colon := String.String ":" EmptyString). set (slash := String.String "/" EmptyString).
  assert (find colon host = None ∧ find slash host = None) as [Hfc Hfs] by (split; by apply find_none).
  destruct port as [pt|].
  - destruct (plain_not pt (Hp pt eq_refl)) as [Hpc Hps].
    assert (∀ pa, let url := (host ++ colon ++ pt ++ pa)%string in
      find colon url = Some (String.length host) ∧ find slash url = (λ n, String.length host + S (String.length pt + n))%nat <$> find slash pa ∧
      String.substring (String.length host + 1) (String.length pt) url = pt) as H.
    { intros pa url. split; [by apply find_here|]. split.
      - unfold url, slash. rewrite (find_after "/" host) by done. change (colon ++ pt ++ pa)%string with (String.String ":" (pt ++ pa)).
        unfold find at 1. cbn. fold (find "/" (pt ++ pa)%string). rewrite (find_after "/" pt) by done. by destruct (find "/" pa).
      - unfold url. rewrite <-string_app_assoc. apply substring_app; [|done]. by rewrite string_length_app. }
    destruct path as [pa|]; cbn [from_option default].
    + destruct (H (slash ++ pa)%string) as (E1 & E2 & E3). rewrite (find_head "/" pa : find slash (slash ++ pa) = _) in E2. cbn [fmap option_fmap option_map] in E2. rewrite Nat.add_0_r in E2.
      change ("/" ++ pa)%string with (slash ++ pa)%string. rewrite (string_app_assoc colon pt).
      unfold url_host, url_port, url_path. fold colon slash. rewrite E1, E2.
      rewrite Nat.min_l, (proj2 (Nat.ltb_lt _ _)) by lia. split_and!.
      * apply substring_whole.
      * cbn. replace (String.length host + S (String.length pt) - String.length host - 1)%nat with (String.length pt) by lia. exact E3.
      * rewrite <-(string_app_assoc colon), <-(string_app_assoc host). apply drop_string_app. rewrite !string_length_app. cbn. lia.
    + destruct (H EmptyString) as (E1 & E2 & E3). rewrite string_app_assoc.
      unfold url_host, url_port, url_path. fold colon slash. rewrite E1, E2. cbn [find String.index fmap option_fmap option_map default].
      split_and!; [apply substring_whole| |done].
      rewrite <-string_app_assoc, (string_app_nil pt). apply drop_string_app. by rewrite string_length_app.
  - destruct path as [pa|]; cbn [from_option default].
    + change ("/" ++ pa)%string with (slash ++ pa)%string. change (EmptyString ++ slash ++ pa)%string with (slash ++ pa)%string.
      assert (find slash (host ++ slash ++ pa) = Some (String.length host)) as E2 by (by apply find_here).
      unfold url_host, url_port, url_path. fold colon slash. rewrite E2, (find_after ":" host) by done. fold colon.
      assert (drop_string (String.length host) (host ++ slash ++ pa) = (slash ++ pa)%string) as E3 by (by apply drop_string_app).
      destruct (find colon (slash ++ pa)) as [n|]; cbn [fmap option_fmap option_map].
      * rewrite Nat.min_r, (proj2 (Nat.ltb_ge _ _)) by lia. split_and!; [apply substring_whole|done|exact E3].
      * split_and!; [apply substring_whole|done|exact E3].
    + change (EmptyString ++ EmptyString)%string with EmptyString. rewrite string_app_nil.
      unfold url_host, url_port, url_path. fold colon slash. by rewrite Hfc, Hfs.
Qed.

Lemma url_roundtrip_witness :
  let url := strip_scheme "wss://stream.binance.com:9443/ws" in
  url_host url = "stream.binance.com"%string ∧ port_of "wss://stream.binance.com:9443/ws" url = "9443"%string ∧ url_path "/" url = "/ws"%string.
Proof.
  apply (url_roundtrip Wss "stream.binance.com" (Some "9443"%string) (Some "ws"%string) "/").
  - unfold plain. apply Forall_forall. repeat constructor; discriminate.
  - intros p [= <-]. unfold plain. apply Forall_forall. repeat constructor; discriminate.
Defined.

(** A network where every attempt succeeds. *)
Definition OpenNetwork : Network := {|
  tcp_connect _ _ := mret ();
  proxy_exchange _ := mret "HTTP/1.1 200 OK"%string;
  set_host_name _ := true;
  tls_handshake := mret ();
  ws_handshake _ _ := mret ();
|}.
