(* ===== verification/Adapters.v ===== *)
(** The market data gateways (include/chronos/market_data/gateway.hpp,
    src/market_data/gateway.cpp) and the Binance and OKX adapters
    (src/market_data/adapters/binance_adapter.cpp, okx_adapter.cpp).

    The two adapters are the same code but for the exchange's messages, so the
    operations are written once over the interface [Exchange] and instantiated twice. The
    WebSocket is outside the model: the network a connection is attempted on, and what a read
    returns, are arguments; what is sent is appended to [sent_], the calls of the two
    callbacks to [status_calls_] and [error_calls_]. [reading_] says whether the read thread
    is in its loop, [reconnecting_] whether a reconnection thread waits. [None] is
    undefined behaviour or std::terminate. Timing statistics are left out. *)
From Stdlib Require Import Ascii.
From S2P Require Import Prelude FixedPoint Types Json Config Protocols MpmcQueue Connection FeedSpec.
From S2P Require RiskEngine StrategyEngine.

Module GatewayStatistics.
Record t := mk {
  messages_received : Z;
  ticks_processed : Z;
  errors_count : Z;
  reconnections : Z;
}.
Definition init : t := mk 0 0 0 0.
End GatewayStatistics.

(** What goes out on the WebSocket. *)
Inductive message {J : JsonOps} := Text (s : string) | Doc (j : json) | PingFrame.

(** Capacity 65536. *)
Abbreviation feed_bits := 16.

Record MarketDataGateway {J : JsonOps} := mkGateway {
  config_ : ExchangeConfig;
  tick_queue_ : option (@MPMCQueue Tick.t);
  status_ : ConnectionStatus.t;
  status_callback_ : bool;
  error_callback_ : bool;
  should_reconnect_ : bool;
  reconnection_attempts_ : Z;
  reconnecting_ : bool;
  statistics_ : GatewayStatistics.t;
  running_ : bool;
  (* the adapter's [Impl] *)
  ws_url_ : string;
  ws_host_ : string;
  ws_path_ : string;
  ws_port_ : string;
  ws_open_ : bool;
  reading_ : bool;
  heartbeat_running_ : bool;
  subscribed_symbols_ : gset string;
  symbol_to_id_ : gmap string Z;
  next_symbol_id_ : Z;
  message_id_ : Z;
  sent_ : list message;
  status_calls_ : list ConnectionStatus.t;
  error_calls_ : list string;
}.
Arguments mkGateway {J}.

(** The iteration order of the [unordered_set] of symbols. *)
Class SymbolOrder := {
  symbol_order : gset string → list string;
  symbol_order_perm s : symbol_order s ≡ₚ elements s;
}.

(** What the two adapters differ in. *)
Class Exchange {D : SimdOps} {J : JsonOps} := {
  exchange_id : ExchangeId.t;
  default_url : string;
  default_path : string;
  normalize : string → string;
  parseMessage : string → Z → (string → Z) → feed ();
  sendSubscription : list string → Z → json * Z;      (* the request and the next message id *)
  sendUnsubscription : list string → Z → json * Z;
  text_heartbeat : bool;                              (* "ping" and "pong" as text messages *)
  preregistered : string → list string;               (* symbols named by the path of the URL *)
  (** Every tick carries the exchange and an id other than 0 that some symbol resolves to. *)
  parse_ticks msg ts resolve t : t ∈ (parseMessage msg ts resolve).1 →
    Tick.exchange_id t = ExchangeId.to_Z exchange_id ∧ Tick.symbol_id t ≠ 0 ∧ ∃ s, Tick.symbol_id t = resolve s;
}.

(** ** The base class *)

Section gateway.
Context {J : JsonOps}.

Definition MarketDataGateway_init : MarketDataGateway :=
  mkGateway ExchangeConfig_default None ConnectionStatus.DISCONNECTED false false true 0 false GatewayStatistics.init false
    EmptyString EmptyString EmptyString EmptyString false false false ∅ ∅ 1 1 [] [] [].

Definition setStatusCallback (g : MarketDataGateway) : MarketDataGateway := g {{ status_callback_ := true }}.
Definition setErrorCallback (g : MarketDataGateway) : MarketDataGateway := g {{ error_callback_ := true }}.

Definition setStatus (status : ConnectionStatus.t) (g : MarketDataGateway) : MarketDataGateway :=
  let old_status := status_ g in
  let g := g {{ status_ := status }} in
  if negb (bool_decide (old_status = status)) && status_callback_ g
  then g {{ status_calls_ ::= λ l, l ++ [status] }} else g.

Definition notifyError (error : string) (g : MarketDataGateway) : MarketDataGateway :=
  let g := g {{ statistics_ -> GatewayStatistics.errors_count ::= inc64 }} in
  if error_callback_ g then g {{ error_calls_ ::= λ l, l ++ [error] }} else g.

Definition pushTick (tick : Tick.t) (g : MarketDataGateway) : option (bool * MarketDataGateway) :=
  match tick_queue_ g with
  | None => Some (false, g)
  | Some q =>
      '(ok, q) ← try_push feed_bits tick q;
      let g := g {{ tick_queue_ := Some q }} in
      Some (if ok : bool then (true, g {{ statistics_ -> GatewayStatistics.ticks_processed ::= inc64 }}) else (false, g))
  end.

(** [if (queue.try_push(tick)) ++*ticks_processed_] for each tick of a message. *)
Fixpoint pushTicks (ticks : list Tick.t) (g : MarketDataGateway) : option MarketDataGateway :=
  match ticks with [] => Some g | t :: ticks => '(_, g) ← pushTick t g; pushTicks ticks g end.

(** The consumer of the feed. *)
Definition popTick (g : MarketDataGateway) : option (option Tick.t * MarketDataGateway) :=
  q ← tick_queue_ g; '(r, q) ← try_pop feed_bits q; Some (r, g {{ tick_queue_ := Some q }}).

(** The delay before a reconnection in milliseconds, without its jitter: [None] is the
    overflow of the [int] that holds the product. *)
Definition base_delay_ms (attempts : Z) : option Z :=
  let p := 1000 * Z.shiftl 1 attempts in
  if p <? 2 ^ 31 then Some (Z.min p 60000) else None.

(** [jitter(gen)] is a number from [-base_delay_ms / 4] to [base_delay_ms / 4]. *)
Definition jitter_ok (base_delay_ms jitter : Z) : Prop :=
  Z.quot (- base_delay_ms) 4 <= jitter <= Z.quot base_delay_ms 4.

Definition startReconnectionTimer (g : MarketDataGateway) : MarketDataGateway :=
  if should_reconnect_ g then g {{ reconnecting_ := true }} else g.
End gateway.

(** ** The adapters *)

Section adapter.
Context {D : SimdOps} {J : JsonOps} {X : Exchange} {SO : SymbolOrder}.

(** [sendText]: nothing is sent on a closed stream. *)
Definition sendText (m : message) (g : MarketDataGateway) : MarketDataGateway :=
  if ws_open_ g then g {{ sent_ ::= λ l, l ++ [m] }} else g.

Definition doDisconnect (g : MarketDataGateway) : MarketDataGateway := g {{ ws_open_ := false }}.

Definition getSymbolId (g : MarketDataGateway) (symbol : string) : Z :=
  default 0 (symbol_to_id_ g !! normalize symbol).

Definition send_subscription (symbols : list string) (g : MarketDataGateway) : MarketDataGateway :=
  let '(req, id) := sendSubscription symbols (message_id_ g) in
  sendText (Doc req) (g {{ message_id_ := id }}).
Definition send_unsubscription (symbols : list string) (g : MarketDataGateway) : MarketDataGateway :=
  let '(req, id) := sendUnsubscription symbols (message_id_ g) in
  sendText (Doc req) (g {{ message_id_ := id }}).

(** *** Heartbeat *)

Definition startHeartbeat (g : MarketDataGateway) : MarketDataGateway := g {{ heartbeat_running_ := true }}.
Definition stopHeartbeat (g : MarketDataGateway) : MarketDataGateway := g {{ heartbeat_running_ := false }}.

(** A turn of the heartbeat thread after its sleep. *)
Definition heartbeat_turn (g : MarketDataGateway) : MarketDataGateway :=
  if heartbeat_running_ g && ws_open_ g
  then sendText (if text_heartbeat then Text "ping" else PingFrame) g else g.

(** *** initialize *)

Definition register_symbol (sym : string) (g : MarketDataGateway) : MarketDataGateway :=
  match symbol_to_id_ g !! sym with
  | Some _ => g
  | None => g {{ symbol_to_id_ ::= <[sym := next_symbol_id_ g]> }} {{ next_symbol_id_ ::= λ i, u32 (i + 1) }}
  end.

Definition initialize (config : ExchangeConfig) (queue : @MPMCQueue Tick.t) (g : MarketDataGateway)
    : bool * MarketDataGateway :=
  let ws_url := if String.eqb (websocket_url config) EmptyString then default_url else websocket_url config in
  let url := strip_scheme ws_url in
  let path := url_path default_path url in
  let g := g {{ config_ := config; tick_queue_ := Some queue; ws_url_ := ws_url; ws_host_ := url_host url;
                ws_port_ := port_of ws_url url;
                ws_path_ := path }} in
  (true, foldl (λ g sym, register_symbol sym g) g (preregistered path)).

(** *** Connection *)

Definition onError : string → MarketDataGateway → MarketDataGateway := notifyError.

Definition resubscribe (g : MarketDataGateway) : MarketDataGateway :=
  match symbol_order (subscribed_symbols_ g) with
  | [] => g
  | symbols => send_subscription symbols g
  end.

Definition onConnected (g : MarketDataGateway) : MarketDataGateway :=
  resubscribe (startHeartbeat (setStatus ConnectionStatus.CONNECTED g)).

Definition onDisconnected (g : MarketDataGateway) : MarketDataGateway :=
  startReconnectionTimer (stopHeartbeat (setStatus ConnectionStatus.DISCONNECTED g)).

(** The body of [doConnect]. *)
Definition connection (net : Network) (g : MarketDataGateway) : attempt () :=
  let c := config_ g in
  '(response, ok) ← tcp_or_tunnel net (proxy_host c) (RiskEngine.to_string (proxy_port c)) (ws_host_ g) (ws_port_ g)
                      (use_proxy (proxy_host c) (proxy_port c));
  if negb ok then inl ("Proxy CONNECT failed: " ++ response)%string
  else if negb (set_host_name net (ws_host_ g)) then inl "SSL_set_tlsext_host_name failed"%string
  else handshakes net (ws_host_ g) (ws_path_ g).

Definition doConnect (net : Network) (g : MarketDataGateway) : bool * MarketDataGateway :=
  match connection net g with
  | inr _ => (true, g {{ ws_open_ := true }})
  | inl what => (false, doDisconnect (onError ("Connection failed: " ++ what)%string g))
  end.

Definition start (net : Network) (g : MarketDataGateway) : bool * MarketDataGateway :=
  if running_ g then (true, g)
  else
    let g := setStatus ConnectionStatus.CONNECTING (g {{ should_reconnect_ := true }}) in
    let '(connected, g) := doConnect net g in
    if connected then (true, (onConnected g) {{ running_ := true; reading_ := true }})
    else (false, g).

(** The read thread and the reconnection thread have been joined. *)
Definition stop (g : MarketDataGateway) : MarketDataGateway :=
  if running_ g then
    let g := stopHeartbeat (g {{ running_ := false; should_reconnect_ := false }}) in
    let g := doDisconnect (g {{ reading_ := false }}) in
    setStatus ConnectionStatus.DISCONNECTED (g {{ reconnecting_ := false }})
  else g.

(** The body of the reconnection thread after its sleep. A failed [start] starts the
    timer again from this thread, which joins itself: an exception nobody catches. *)
Definition handleReconnection (net : Network) (g : MarketDataGateway) : option MarketDataGateway :=
  let g := g {{ reconnecting_ := false }} in
  if negb (should_reconnect_ g) then Some g
  else
    let g := g {{ reconnection_attempts_ ::= λ n, n + 1;
                  statistics_ -> GatewayStatistics.reconnections ::= inc64 }} in
    let '(ok, g) := start net g in
    if ok : bool then Some (g {{ reconnection_attempts_ := 0 }})
    else if should_reconnect_ g then None else Some g.

(** *** Subscriptions *)

Definition subscribe (symbol : string) (g : MarketDataGateway) : bool * MarketDataGateway :=
  let normalized := normalize symbol in
  if bool_decide (normalized ∈ subscribed_symbols_ g) then (true, g)
  else
    let g := g {{ symbol_to_id_ ::= <[normalized := next_symbol_id_ g]> }} {{ next_symbol_id_ ::= λ i, u32 (i + 1) }} in
    let g := send_subscription [normalized] g in
    (true, g {{ subscribed_symbols_ ::= union {[normalized]} }}).

Definition unsubscribe (symbol : string) (g : MarketDataGateway) : bool * MarketDataGateway :=
  let normalized := normalize symbol in
  if negb (bool_decide (normalized ∈ subscribed_symbols_ g)) then (true, g)
  else
    let g := send_unsubscription [normalized] g in
    (true, g {{ subscribed_symbols_ ::= λ s, s ∖ {[normalized]} }}).

(** *** Messages *)

(** [Some false]: an exception left [onMessage]. *)
Definition onMessage (msg : string) (receive_ts : Z) (g : MarketDataGateway) : option (bool * MarketDataGateway) :=
  let g := g {{ statistics_ -> GatewayStatistics.messages_received ::= inc64 }} in
  if text_heartbeat && String.eqb msg "ping" then Some (true, sendText (Text "pong") g)
  else if text_heartbeat && String.eqb msg "pong" then Some (true, g)
  else
    _ ← tick_queue_ g;
    let '(ticks, result) := parseMessage msg receive_ts (getSymbolId g) in
    g ← pushTicks ticks g;
    match result with
    | inr _ => Some (true, g)
    | inl SimdError => Some (true, g {{ statistics_ -> GatewayStatistics.errors_count ::= inc64 }})
    | inl StdError => Some (false, g)
    end.

(** What a read of the socket gives: a message and the clock, or an error, after which
    the stream is no longer open. *)
Inductive read := Received (msg : string) (now : Z) | Closed.

(** One turn of [readLoop]; after the loop the thread reports the disconnection if the
    adapter is still meant to run. An exception ends the thread without that report. *)
Definition read_turn (r : read) (g : MarketDataGateway) : option MarketDataGateway :=
  if negb (reading_ g) then Some g
  else if negb (running_ g) then Some (g {{ reading_ := false }})
  else match r with
       | Received msg now =>
           '(ok, g) ← onMessage msg now g;
           Some (if ok : bool then g else g {{ reading_ := false }})
       | Closed => Some (onDisconnected (g {{ reading_ := false; ws_open_ := false }}))
       end.

(** *** The adapter among its threads and its client *)

Inductive event :=
| Start (net : Network)
| Stop
| Subscribe (symbol : string)
| Unsubscribe (symbol : string)
| Read (r : read)
| WriteError                      (* a failed write, after which the stream is no longer open *)
| Heartbeat
| Reconnect (net : Network)
| Pop
| SetStatusCallback
| SetErrorCallback.

(** The new state and the ticks the consumer got. *)
Definition run_event (e : event) (g : MarketDataGateway) : option (list Tick.t * MarketDataGateway) :=
  match e with
  | Start net => Some ([], (start net g).2)
  | Stop => Some ([], stop g)
  | Subscribe symbol => Some ([], (subscribe symbol g).2)
  | Unsubscribe symbol => Some ([], (unsubscribe symbol g).2)
  | Read r => pair [] <$> read_turn r g
  | WriteError => Some ([], g {{ ws_open_ := false }})
  | Heartbeat => Some ([], heartbeat_turn g)
  | Reconnect net => if reconnecting_ g then pair [] <$> handleReconnection net g else Some ([], g)
  | Pop => '(r, g) ← popTick g; Some (option_list r, g)
  | SetStatusCallback => Some ([], setStatusCallback g)
  | SetErrorCallback => Some ([], setErrorCallback g)
  end.

Fixpoint run_events (es : list event) (g : MarketDataGateway) : option (list Tick.t * MarketDataGateway) :=
  match es with
  | [] => Some ([], g)
  | e :: es => '(out, g) ← run_event e g; '(outs, g) ← run_events es g; Some (out ++ outs, g)
  end.

(** Specification: what the parse of the message a read gives yields. *)
Definition event_ticks (e : event) (g : MarketDataGateway) : list Tick.t :=
  match e with
  | Read (Received msg now) =>
      if reading_ g && running_ g && negb (text_heartbeat && (String.eqb msg "ping" || String.eqb msg "pong"))
      then (parseMessage msg now (getSymbolId g)).1 else []
  | _ => []
  end.

Fixpoint parsed_ticks (es : list event) (g : MarketDataGateway) : list Tick.t :=
  match es with
  | [] => []
  | e :: es => event_ticks e g ++ match run_event e g with Some (_, g) => parsed_ticks es g | None => [] end
  end.

(** The queue of a feed as [FeedSpec]: each message offers its ticks, a pop takes the oldest. *)
Definition feed_capacity : nat := Z.to_nat (MpmcQueue.N feed_bits).
Definition is_pop (e : event) : bool := match e with Pop => true | _ => false end.
Definition fifo_event : event → MarketDataGateway → list Tick.t → list Tick.t * list Tick.t :=
  FeedSpec.fifo_event event_ticks is_pop feed_capacity.
Definition fifo_run : list event → MarketDataGateway → list Tick.t → list Tick.t * list Tick.t :=
  FeedSpec.fifo_run run_event event_ticks is_pop feed_capacity.

Lemma parsed_offered es g : parsed_ticks es g = offered run_event event_ticks es g.
Proof. done. Qed.
End adapter.

(** ** The two exchanges *)

Definition createGateway (exchange_name : string) : option ExchangeId.t :=
  if String.eqb exchange_name "binance" then Some ExchangeId.BINANCE
  else if String.eqb exchange_name "okx" then Some ExchangeId.OKX
  else None.

(** *** What a parse can emit *)

Section emits.
Context (P : Tick.t → Prop).

Definition emits {A} (m : feed A) : Prop := Forall P m.1.

Lemma emits_silent {A} (r : exn + A) : emits ([], r).
Proof. constructor. Qed.
Lemma emits_get {A} (o : option A) : emits (get o).
Proof. destruct o; constructor. Qed.
Lemma emits_emit t : P t → emits (emit t).
Proof. by repeat constructor. Qed.
Lemma emits_bind {A B} (m : feed A) (k : A → feed B) : emits m → (∀ a, emits (k a)) → emits (m ≫= k).
Proof.
  intros Hm Hk. unfold emits, mbind, feed_bind in *. destruct m as [ts [e|a]]; cbn in *; [done|].
  by apply Forall_app.
Qed.
Lemma emits_for_all {A} (body : A → feed ()) l : (∀ a, emits (body a)) → emits (for_all body l).
Proof. intros Hb. induction l as [|a l IH]; cbn [for_all]; [constructor|]. by apply emits_bind. Qed.
Lemma emits_catch m : emits m → emits (catch_simd m).
Proof. unfold emits. by destruct m as [ts [[]|[]]]. Qed.
End emits.

Create HintDb feed.
#[export] Hint Resolve emits_silent emits_get emits_emit emits_bind emits_for_all emits_catch : feed.

Section emitted.
Context {D : SimdOps} {J : JsonOps} (resolve : string → Z).

(** The ticks of an exchange with an id other than 0 that a symbol resolves to. *)
Definition resolved (ex : ExchangeId.t) (t : Tick.t) : Prop :=
  Tick.exchange_id t = ExchangeId.to_Z ex ∧ Tick.symbol_id t ≠ 0 ∧ ∃ s, Tick.symbol_id t = resolve s.

Lemma emit_book_resolved ex ets rts s data kb ka :
  resolve s ≠ 0 → emits (resolved ex) (emit_book ex ets rts (resolve s) data kb ka).
Proof.
  intros Hs. unfold emit_book, level_tick.
  assert (∀ pr qt side, resolved ex (Tick.mk ets rts (ExchangeId.to_Z ex) (resolve s) pr qt side 0)) by (intros; unfold resolved; cbn; eauto).
  repeat (first [apply emits_bind; [|intros ?]|apply emits_for_all; intros ?]); auto with feed.
Qed.

Lemma depth_resolved data ts : emits (resolved ExchangeId.BINANCE) (BinanceJsonProtocol.parseDepthUpdate data ts resolve).
Proof.
  unfold BinanceJsonProtocol.parseDepthUpdate. apply emits_bind; [apply emits_get|intros e].
  apply emits_bind; [apply emits_get|intros s]. cbv zeta. destruct (Z.eqb_spec (resolve s) 0); [apply emits_silent|].
  by apply emit_book_resolved.
Qed.

Lemma trade_resolved data ts : emits (resolved ExchangeId.BINANCE) (BinanceJsonProtocol.parseTrade data ts resolve).
Proof.
  unfold BinanceJsonProtocol.parseTrade. apply emits_bind; [apply emits_get|intros s]. cbv zeta.
  destruct (Z.eqb_spec (resolve s) 0); [apply emits_silent|].
  repeat (apply emits_bind; [apply emits_get|intros ?]). apply emits_emit. unfold resolved; cbn; eauto.
Qed.

Lemma books5_resolved data id ts : emits (resolved ExchangeId.OKX) (OKXJsonProtocol.parseBooks5 data id ts resolve).
Proof.
  unfold OKXJsonProtocol.parseBooks5. cbv zeta. destruct (Z.eqb_spec (resolve id) 0); [apply emits_silent|].
  apply emits_bind; [|intros ?; by apply emit_book_resolved].
  destruct (sd_field data "ts"); [|apply emits_silent].
  apply emits_bind; [apply emits_get|intros ?]. apply emits_bind; intros; apply emits_silent.
Qed.

Lemma okx_trade_resolved data id ts : emits (resolved ExchangeId.OKX) (OKXJsonProtocol.parseTrade data id ts resolve).
Proof.
  unfold OKXJsonProtocol.parseTrade. cbv zeta. destruct (Z.eqb_spec (resolve id) 0); [apply emits_silent|].
  repeat (apply emits_bind; [first [apply emits_get|apply emits_silent]|intros ?]). apply emits_emit. unfold resolved; cbn; eauto.
Qed.
End emitted.

Module BinanceAdapter.
Section binance.
Context {D : SimdOps} {J : JsonOps}.

Definition DEPTH_STREAM_SUFFIX : string := "@depth".
Definition TRADE_STREAM_SUFFIX : string := "@trade".
Definition TICKER_STREAM_SUFFIX : string := "@ticker".

Definition normalizeSymbol (symbol : string) : string := map_string lower symbol.

Definition streams (symbols : list string) : list string :=
  symbols ≫= λ s, [(s ++ DEPTH_STREAM_SUFFIX)%string; (s ++ TRADE_STREAM_SUFFIX)%string; (s ++ TICKER_STREAM_SUFFIX)%string].

Definition request (method : string) (symbols : list string) (message_id : Z) : json * Z :=
  (j_object [("method", j_string method); ("params", j_array (j_string <$> streams symbols)); ("id", j_int message_id)]%string,
   inc64 message_id).

Definition sendSubscription := request "SUBSCRIBE".
Definition sendUnsubscription := request "UNSUBSCRIBE".

(** The bodies are those of the protocol; here they catch the parser's errors. *)
Definition parseDepthUpdate (data : elem) (ts : Z) (getSymbolId : string → Z) : feed () :=
  catch_simd (BinanceJsonProtocol.parseDepthUpdate data ts getSymbolId).
Definition parseTrade (data : elem) (ts : Z) (getSymbolId : string → Z) : feed () :=
  catch_simd (BinanceJsonProtocol.parseTrade data ts getSymbolId).
Definition parse24hrTicker : feed () := mret ().

Definition parseMessage (msg : string) (receive_ts : Z) (getSymbolId : string → Z) : feed () :=
  doc ← get (sd_parse msg);
  obj ← get (sd_object doc);
  match sd_field obj "stream" with
  | Some stream =>
      sn ← get (sd_string stream);
      data ← get (sd_field obj "data" ≫= sd_object);
      if RiskEngine.contains DEPTH_STREAM_SUFFIX sn then parseDepthUpdate data receive_ts getSymbolId
      else if RiskEngine.contains TRADE_STREAM_SUFFIX sn then parseTrade data receive_ts getSymbolId
      else if RiskEngine.contains TICKER_STREAM_SUFFIX sn then parse24hrTicker
      else mret ()
  | None =>
      match sd_field obj "e" with
      | Some e =>
          event ← get (sd_string e);
          if String.eqb event "depthUpdate" then parseDepthUpdate obj receive_ts getSymbolId
          else if String.eqb event "aggTrade" || String.eqb event "trade" then parseTrade obj receive_ts getSymbolId
          else if String.eqb event "24hrTicker" then parse24hrTicker
          else mret ()
      | None =>
          match sd_field obj "result" with
          | Some _ => _ ← get (sd_field obj "id" ≫= sd_uint64); mret ()
          | None => mret ()
          end
      end
  end.

(** The pieces of the text between slashes; a slash at the end begins no piece. *)
Fixpoint pieces (s cur : list Ascii.ascii) : list string :=
  match s with
  | [] => match cur with [] => [] | _ => [String.string_of_list_ascii (rev cur)] end
  | c :: s => if Ascii.eqb c "/"%char then String.string_of_list_ascii (rev cur) :: pieces s [] else pieces s (c :: cur)
  end.

Definition stream_symbol (stream : string) : option string :=
  (λ at_, map_string lower (String.substring 0 at_ stream)) <$> find "@" stream.

Definition preregistered (path : string) : list string :=
  if RiskEngine.contains "streams=" path then
    match find "?" path with
    | Some qm =>
        let query := drop_string (qm + 1) path in
        match find "streams=" query with
        | Some p => omap stream_symbol (pieces (String.list_ascii_of_string (drop_string (p + 8) query)) [])
        | None => []
        end
    | None => []
    end
  else [].

Lemma binance_resolved msg ts resolve : emits (resolved resolve ExchangeId.BINANCE) (parseMessage msg ts resolve).
Proof.
  unfold parseMessage, parseDepthUpdate, parseTrade. do 2 (apply emits_bind; [apply emits_get|intros ?]).
  repeat match goal with
  | |- emits _ (match ?o with _ => _ end) => destruct o
  | |- emits _ (_ ≫= _) => apply emits_bind; [|intros ?]
  end; eauto using emits_silent, emits_get, emits_catch, depth_resolved, trade_resolved.
Qed.

#[export, refine] Instance exchange : Exchange := {|
  exchange_id := ExchangeId.BINANCE;
  default_url := "wss://stream.binance.com:9443/ws";
  default_path := "/ws";
  normalize := normalizeSymbol;
  Adapters.parseMessage := parseMessage;
  Adapters.sendSubscription := sendSubscription;
  Adapters.sendUnsubscription := sendUnsubscription;
  text_heartbeat := false;
  Adapters.preregistered := preregistered;
|}.
Proof. intros msg ts resolve t Ht. pose proof (binance_resolved msg ts resolve) as H. by eapply Forall_forall in H. Defined.
End binance.

(** The adapter at this exchange. *)
Section operations.
Context {D : SimdOps} {J : JsonOps} {SO : SymbolOrder}.

Definition sendText : _ → MarketDataGateway → _ := Adapters.sendText.
Definition doDisconnect : MarketDataGateway → _ := Adapters.doDisconnect.
Definition startHeartbeat : MarketDataGateway → _ := Adapters.startHeartbeat.
Definition stopHeartbeat : MarketDataGateway → _ := Adapters.stopHeartbeat.
Definition onError : _ → MarketDataGateway → _ := Adapters.onError.
Definition onDisconnected : MarketDataGateway → _ := Adapters.onDisconnected.
Definition doConnect : _ → MarketDataGateway → _ := Adapters.doConnect.
Definition stop : MarketDataGateway → _ := Adapters.stop.
Definition getSymbolId := Adapters.getSymbolId (X := exchange).
Definition heartbeat_turn := Adapters.heartbeat_turn (X := exchange).
Definition initialize := Adapters.initialize (X := exchange).
Definition onConnected := Adapters.onConnected (X := exchange).
Definition start := Adapters.start (X := exchange).
Definition handleReconnection := Adapters.handleReconnection (X := exchange).
Definition subscribe := Adapters.subscribe (X := exchange).
Definition unsubscribe := Adapters.unsubscribe (X := exchange).
Definition onMessage := Adapters.onMessage (X := exchange).
Definition read_turn := Adapters.read_turn (X := exchange).
End operations.
End BinanceAdapter.

Module OkxAdapter.
Section okx.
Context {D : SimdOps} {J : JsonOps}.

Definition normalizeSymbol : string → string := OKXJsonProtocol.normalizeSymbol.

Definition sendSubscription (symbols : list string) (id : Z) : json * Z := (OKXJsonProtocol.request "subscribe" symbols, id).
Definition sendUnsubscription (symbols : list string) (id : Z) : json * Z := (OKXJsonProtocol.request "unsubscribe" symbols, id).

Definition parseBooks5 (data : elem) (inst_id : string) (ts : Z) (getSymbolId : string → Z) : feed () :=
  catch_simd (OKXJsonProtocol.parseBooks5 data inst_id ts getSymbolId).
Definition parseTrade (data : elem) (inst_id : string) (ts : Z) (getSymbolId : string → Z) : feed () :=
  catch_simd (OKXJsonProtocol.parseTrade data inst_id ts getSymbolId).

Definition parseMessage (msg : string) (receive_ts : Z) (getSymbolId : string → Z) : feed () :=
  doc ← get (sd_parse msg);
  obj ← get (sd_object doc);
  match sd_field obj "event" with
  | Some e =>
      event ← get (sd_string e);
      if String.eqb event "subscribe" then mret ()
      else if String.eqb event "error" then _ ← get (sd_field obj "msg" ≫= sd_string); mret ()
      else mret ()
  | None =>
      match sd_field obj "arg" with
      | Some a =>
          arg ← get (sd_object a);
          channel ← get (sd_field arg "channel" ≫= sd_string);
          inst_id ← get (sd_field arg "instId" ≫= sd_string);
          if String.eqb channel "books5" then
            arr ← get (sd_field obj "data" ≫= sd_array);
            for_all (λ el, data ← get (sd_object el); parseBooks5 data inst_id receive_ts getSymbolId) arr
          else if String.eqb channel "trades" then
            arr ← get (sd_field obj "data" ≫= sd_array);
            for_all (λ el, data ← get (sd_object el); parseTrade data inst_id receive_ts getSymbolId) arr
          else mret ()
      | None => mret ()
      end
  end.

Lemma okx_resolved msg ts resolve : emits (resolved resolve ExchangeId.OKX) (parseMessage msg ts resolve).
Proof.
  unfold parseMessage, parseBooks5, parseTrade. do 2 (apply emits_bind; [apply emits_get|intros ?]).
  repeat match goal with
  | |- emits _ (match ?o with _ => _ end) => destruct o
  | |- emits _ (_ ≫= _) => apply emits_bind; [|intros ?]
  | |- emits _ (for_all _ _) => apply emits_for_all; intros ?
  end; eauto using emits_silent, emits_get, emits_catch, books5_resolved, okx_trade_resolved.
Qed.

#[export, refine] Instance exchange : Exchange := {|
  exchange_id := ExchangeId.OKX;
  default_url := "wss://ws.okx.com:8443/ws/v5/public";
  default_path := "/ws/v5/public";
  normalize := normalizeSymbol;
  Adapters.parseMessage := parseMessage;
  Adapters.sendSubscription := sendSubscription;
  Adapters.sendUnsubscription := sendUnsubscription;
  text_heartbeat := true;
  Adapters.preregistered _ := [];
|}.
Proof. intros msg ts resolve t Ht. pose proof (okx_resolved msg ts resolve) as H. by eapply Forall_forall in H. Defined.
End okx.

(** The adapter at this exchange. *)
Section operations.
Context {D : SimdOps} {J : JsonOps} {SO : SymbolOrder}.

Definition sendText : _ → MarketDataGateway → _ := Adapters.sendText.
Definition doDisconnect : MarketDataGateway → _ := Adapters.doDisconnect.
Definition startHeartbeat : MarketDataGateway → _ := Adapters.startHeartbeat.
Definition stopHeartbeat : MarketDataGateway → _ := Adapters.stopHeartbeat.
Definition onError : _ → MarketDataGateway → _ := Adapters.onError.
Definition onDisconnected : MarketDataGateway → _ := Adapters.onDisconnected.
Definition doConnect : _ → MarketDataGateway → _ := Adapters.doConnect.
Definition stop : MarketDataGateway → _ := Adapters.stop.
Definition getSymbolId := Adapters.getSymbolId (X := exchange).
Definition heartbeat_turn := Adapters.heartbeat_turn (X := exchange).
Definition initialize := Adapters.initialize (X := exchange).
Definition onConnected := Adapters.onConnected (X := exchange).
Definition start := Adapters.start (X := exchange).
Definition handleReconnection := Adapters.handleReconnection (X := exchange).
Definition subscribe := Adapters.subscribe (X := exchange).
Definition unsubscribe := Adapters.unsubscribe (X := exchange).
Definition onMessage := Adapters.onMessage (X := exchange).
Definition read_turn := Adapters.read_turn (X := exchange).
End operations.
End OkxAdapter.

(** ** The invariant *)

Section proofs.
Context {D : SimdOps} {J : JsonOps} {X : Exchange} {SO : SymbolOrder}.

(** Symbols have distinct ids from 1 on, below the next one. *)
Record ids_ok (g : MarketDataGateway) : Prop := {
  ids_range s i : symbol_to_id_ g !! s = Some i → 1 <= i < next_symbol_id_ g;
  ids_distinct s s' i : symbol_to_id_ g !! s = Some i → symbol_to_id_ g !! s' = Some i → s = s';
  ids_subscribed s : s ∈ subscribed_symbols_ g → is_Some (symbol_to_id_ g !! s);
  ids_next : 1 <= next_symbol_id_ g;
}.

(** A tick of this exchange with an id in use. *)
Definition known_tick (g : MarketDataGateway) (t : Tick.t) : Prop :=
  Tick.exchange_id t = ExchangeId.to_Z exchange_id ∧ 1 <= Tick.symbol_id t < next_symbol_id_ g.

(** The feed has taken [accepted] and handed out [popped]; [c] bounds the next id. *)
Record feed_ok (c : Z) (accepted popped : list Tick.t) (g : MarketDataGateway) : Prop := {
  fo_queue : ∃ q, tick_queue_ g = Some q ∧ queue_state feed_bits q accepted popped;
  fo_count : GatewayStatistics.ticks_processed (statistics_ g) = Z.of_nat (length accepted);
  fo_ticks : Forall (known_tick g) accepted;
  fo_ids : ids_ok g;
  fo_bound : next_symbol_id_ g <= c;
  fo_reconnecting : reconnecting_ g = true → running_ g = true;
}.

Lemma feed_small : 1 <= feed_bits < 62. Proof. lia. Qed.

(** Operations that leave symbols, queue and counts alone. *)
Record feed_same (g g' : MarketDataGateway) : Prop := {
  fs_queue : tick_queue_ g' = tick_queue_ g;
  fs_count : GatewayStatistics.ticks_processed (statistics_ g') = GatewayStatistics.ticks_processed (statistics_ g);
  fs_ids : symbol_to_id_ g' = symbol_to_id_ g;
  fs_next : next_symbol_id_ g' = next_symbol_id_ g;
  fs_subscribed : subscribed_symbols_ g' = subscribed_symbols_ g;
}.

#[local] Instance feed_same_preorder : PreOrder feed_same.
Proof. split; [by intros g; split|]. intros g1 g2 g3 [] []. split; congruence. Qed.

Lemma feed_ok_same c acc pop g g' :
  feed_ok c acc pop g → feed_same g g' → (reconnecting_ g' = true → running_ g' = true) → feed_ok c acc pop g'.
Proof.
  intros [H1 H2 H3 [I1 I2 I3 I4] H5 _] [F1 F2 F3 F4 F5] Hr.
  split; rewrite ?F1, ?F2, ?F4; try done.
  - eapply Forall_impl; [exact H3|]. intros t [? ?]. split; [done|]. by rewrite F4.
  - split; rewrite ?F3, ?F4, ?F5; try done.
Qed.

Lemma feed_ok_mono c c' acc pop g : c <= c' → feed_ok c acc pop g → feed_ok c' acc pop g.
Proof. intros Hc []. split; try done. lia. Qed.

Lemma setStatus_same st g : feed_same g (setStatus st g) ∧
  reconnecting_ (setStatus st g) = reconnecting_ g ∧ running_ (setStatus st g) = running_ g ∧
  should_reconnect_ (setStatus st g) = should_reconnect_ g.
Proof. unfold setStatus. cbv zeta. destruct (_ && _); split; try done; by split. Qed.

Lemma sendText_same x g : feed_same g (sendText x g) ∧
  reconnecting_ (sendText x g) = reconnecting_ g ∧ running_ (sendText x g) = running_ g.
Proof. unfold sendText. destruct (ws_open_ g); split; try done; by split. Qed.

Lemma notifyError_same e g : feed_same g (notifyError e g) ∧
  reconnecting_ (notifyError e g) = reconnecting_ g ∧ running_ (notifyError e g) = running_ g.
Proof. unfold notifyError. cbv zeta. destruct (error_callback_ _); split; try done; by split. Qed.

Lemma send_subscription_same l g : feed_same g (send_subscription l g) ∧
  reconnecting_ (send_subscription l g) = reconnecting_ g ∧ running_ (send_subscription l g) = running_ g.
Proof.
  unfold send_subscription. destruct (sendSubscription l (message_id_ g)) as [req id].
  destruct (sendText_same (Doc req) (g {{ message_id_ := id }})) as (H1 & H2 & H3). split; [|by rewrite H2, H3].
  etrans; [|exact H1]. by split.
Qed.

Lemma send_unsubscription_same l g : feed_same g (send_unsubscription l g) ∧
  reconnecting_ (send_unsubscription l g) = reconnecting_ g ∧ running_ (send_unsubscription l g) = running_ g.
Proof.
  unfold send_unsubscription. destruct (sendUnsubscription l (message_id_ g)) as [req id].
  destruct (sendText_same (Doc req) (g {{ message_id_ := id }})) as (H1 & H2 & H3). split; [|by rewrite H2, H3].
  etrans; [|exact H1]. by split.
Qed.

Lemma onConnected_same g : feed_same g (onConnected g) ∧ reconnecting_ (onConnected g) = reconnecting_ g.
Proof.
  unfold onConnected, resubscribe.
  destruct (setStatus_same ConnectionStatus.CONNECTED g) as (H1 & H2 & H3 & _).
  set (g1 := startHeartbeat _). assert (feed_same g g1 ∧ reconnecting_ g1 = reconnecting_ g) as [F1 R1].
  { split; [|exact H2]. etrans; [exact H1|]. by split. }
  destruct (symbol_order (subscribed_symbols_ g1)); [done|].
  destruct (send_subscription_same (s :: l) g1) as (H4 & H5 & _). split; [by etrans|congruence].
Qed.

Lemma start_same net g :
  (reconnecting_ g = true → running_ g = true) →
  feed_same g (start net g).2 ∧ (reconnecting_ (start net g).2 = true → running_ (start net g).2 = true) ∧
  (running_ g = true → start net g = (true, g)).
Proof.
  intros Hr. unfold start. destruct (running_ g) eqn:Hrun; [by split_and!|].
  assert (reconnecting_ g = false) as Hrec by (destruct (reconnecting_ g); [by discriminate Hr|done]). clear Hr.
  cbv zeta. destruct (setStatus_same ConnectionStatus.CONNECTING (g {{ should_reconnect_ := true }})) as (H1 & H2 & H3 & _).
  set (g1 := setStatus _ _) in *. assert (feed_same g g1) as F1 by (etrans; [|exact H1]; by split).
  unfold doConnect. destruct (connection net g1) as [what|[]].
  - destruct (notifyError_same ("Connection failed: " ++ what)%string g1) as (H4 & H5 & H6). cbn [snd].
    split; [etrans; [exact F1|etrans; [exact H4|by split]]|]. split; [|done].
    change (reconnecting_ (doDisconnect ?x)) with (reconnecting_ x). unfold onError. rewrite H5, H2.
    change (reconnecting_ (g {{ should_reconnect_ := true }})) with (reconnecting_ g). by rewrite Hrec.
  - destruct (onConnected_same (g1 {{ ws_open_ := true }})) as (H4 & H5). cbn [snd].
    split; [|by split]. etrans; [exact F1|]. etrans; [|etrans; [exact H4|]]; by split.
Qed.

Lemma stop_ok c acc pop g : feed_ok c acc pop g → feed_ok c acc pop (stop g).
Proof.
  intros Hg. unfold stop. destruct (running_ g); [|done]. cbv zeta.
  match goal with |- context [setStatus _ ?x] => set (g1 := x) end.
  destruct (setStatus_same ConnectionStatus.DISCONNECTED g1) as (H1 & H2 & H3 & _).
  apply (feed_ok_same _ _ _ g); [done|etrans; [|exact H1]; by split|]. by rewrite H2.
Qed.

(** A symbol gets the next id. *)
Lemma assign_ok c acc pop sym g :
  feed_ok c acc pop g → c + 1 < 2 ^ 32 →
  feed_ok (c + 1) acc pop (g {{ symbol_to_id_ ::= <[sym := next_symbol_id_ g]> }} {{ next_symbol_id_ ::= λ i, u32 (i + 1) }}).
Proof.
  intros [H1 H2 H3 [I1 I2 I3 I4] H5 H6] Hc. set (g' := g {{ symbol_to_id_ ::= _ }} {{ next_symbol_id_ ::= _ }}).
  assert (next_symbol_id_ g' = next_symbol_id_ g + 1) as Hu by (apply wrapU_id; unfold inU; lia).
  assert (symbol_to_id_ g' = <[sym := next_symbol_id_ g]> (symbol_to_id_ g)) as Hi by done.
  assert (∃ q, tick_queue_ g' = Some q ∧ queue_state feed_bits q acc pop) as H1' by done.
  assert (GatewayStatistics.ticks_processed (statistics_ g') = Z.of_nat (length acc)) as H2' by done.
  assert (subscribed_symbols_ g' = subscribed_symbols_ g) as Hs by done.
  assert (reconnecting_ g' = true → running_ g' = true) as H6' by done. clearbody g'.
  split; try done; [| |lia].
  - eapply Forall_impl; [exact H3|]. intros t [? ?]. split; [done|lia].
  - split; rewrite ?Hi, ?Hs, ?Hu; [| | |lia].
    + intros s i [[-> <-]|[_ Hl]]%lookup_insert_Some; [lia|]. apply I1 in Hl. lia.
    + intros s s' i [[<- <-]|[_ Hl]]%lookup_insert_Some [[<- E]|[_ Hl']]%lookup_insert_Some; try done.
      * apply I1 in Hl'. lia.
      * subst. apply I1 in Hl. lia.
      * by eapply I2.
    + intros s Hin. apply lookup_insert_is_Some'. right. by apply I3.
Qed.

Lemma subscribe_ok c acc pop sym g :
  feed_ok c acc pop g → c + 1 < 2 ^ 32 → feed_ok (c + 1) acc pop (subscribe sym g).2.
Proof.
  intros Hg Hc. unfold subscribe. cbv zeta. case_bool_decide; [eapply feed_ok_mono, Hg; lia|].
  pose proof (assign_ok c acc pop (normalize sym) g Hg Hc) as H1.
  assert (is_Some (<[normalize sym := next_symbol_id_ g]> (symbol_to_id_ g) !! normalize sym)) as Hs
    by (rewrite lookup_insert_eq; by eexists).
  set (g1 := g {{ symbol_to_id_ ::= _ }} {{ next_symbol_id_ ::= _ }}) in *.
  change (<[_ := _]> (symbol_to_id_ g)) with (symbol_to_id_ g1) in Hs. clearbody g1.
  destruct (send_subscription_same [normalize sym] g1) as (F1 & F2 & F3).
  set (g2 := send_subscription _ g1) in *. clearbody g2.
  apply (feed_ok_same _ _ _ g1 g2) in H1; [|done|rewrite F2, F3; apply H1].
  rewrite <-(fs_ids _ _ F1) in Hs. cbn [snd]. destruct H1 as [K1 K2 K3 [I1 I2 I3 I4] K5 K6].
  split; try done. split; try done. cbn. intros s [->%elem_of_singleton|Hin]%elem_of_union; [done|by apply I3].
Qed.

Lemma unsubscribe_ok c acc pop sym g : feed_ok c acc pop g → feed_ok c acc pop (unsubscribe sym g).2.
Proof.
  intros Hg. unfold unsubscribe. cbv zeta. destruct (negb _); [done|].
  destruct (send_unsubscription_same [normalize sym] g) as (F1 & F2 & F3).
  set (g2 := send_unsubscription _ g) in *. clearbody g2.
  assert (feed_ok c acc pop g2) as H1 by (apply (feed_ok_same _ _ _ g); [done..|rewrite F2, F3; apply Hg]).
  cbn [snd]. destruct H1 as [K1 K2 K3 [I1 I2 I3 I4] K5 K6].
  split; try done. split; try done. cbn. intros s [Hin _]%elem_of_difference. by apply I3.
Qed.

Lemma pushTick_ok c pop queue t g :
  feed_ok c (pop ++ queue) pop g → known_tick g t → Z.of_nat (length (pop ++ queue)) < 2 ^ 62 →
  ∃ ok g', pushTick t g = Some (ok, g') ∧
    feed_ok c (pop ++ queue ++ if decide (length queue < feed_capacity)%nat then [t] else []) pop g' ∧
    next_symbol_id_ g' = next_symbol_id_ g.
Proof.
  intros [(q & Hq & Hs) H2 H3 H4 H5 H6] Ht Hn. unfold pushTick. rewrite Hq.
  destruct (queue_state_offer feed_bits feed_small q pop queue t Hs Hn) as (q' & Hp & Hs'). rewrite Hp. clear Hp.
  unfold feed_capacity. cbn [mbind option_bind]. destruct H4 as [I1 I2 I3 I4].
  destruct (decide _) as [Hl|Hl]; [rewrite bool_decide_true by done|rewrite bool_decide_false by done];
    (eexists _, _; split; [reflexivity|split; [|done]]).
  - set (g' := _ {{ _ -> _ ::= _ }}).
    assert (GatewayStatistics.ticks_processed (statistics_ g') = inc64 (Z.of_nat (length (pop ++ queue)))) as Hc by (by rewrite <-H2).
    rewrite app_assoc in *.
    assert (Forall (known_tick g') ((pop ++ queue) ++ [t])) as Ht' by (apply Forall_app; split; [done|by constructor]).
    split; try done; [by exists q'|].
    rewrite Hc, (length_app (pop ++ queue)), inc64_id by lia. cbn [length]. lia.
  - rewrite app_nil_r in *. split; try done. by exists q'.
Qed.

(** The ticks of a message find the places that are free. *)
Lemma pushTicks_ok c pop queue ts g :
  feed_ok c (pop ++ queue) pop g → Forall (known_tick g) ts → Z.of_nat (length (pop ++ queue) + length ts) < 2 ^ 62 →
  ∃ g', pushTicks ts g = Some g' ∧ feed_ok c (pop ++ fifo_push feed_capacity queue ts) pop g'.
Proof.
  revert queue g. induction ts as [|t ts IH]; intros queue g Hg Hts Hn; cbn [pushTicks].
  - exists g. by rewrite fifo_push_none.
  - apply Forall_cons in Hts as [Ht Hts]. cbn [length] in Hn.
    destruct (pushTick_ok c pop queue t g Hg Ht ltac:(lia)) as (ok & g1 & -> & H1 & Hnext). cbn [mbind option_bind].
    rewrite fifo_push_cons. apply IH; [done| |].
    + eapply Forall_impl; [exact Hts|]. intros t' [? ?]. split; [done|]. by rewrite Hnext.
    + rewrite app_assoc, length_app. destruct (decide _); cbn [length]; lia.
Qed.

(** A step of the feed that takes the ticks [ts] off the wire. *)
Definition accepts (c : Z) (pop queue ts : list Tick.t) (g' : MarketDataGateway) : Prop :=
  feed_ok c (pop ++ fifo_push feed_capacity queue ts) pop g'.

Lemma accepts_none c pop queue g' : feed_ok c (pop ++ queue) pop g' → accepts c pop queue [] g'.
Proof. unfold accepts. by rewrite fifo_push_none. Qed.

Lemma accepts_same c pop queue ts g g' :
  accepts c pop queue ts g → feed_same g g' → (reconnecting_ g' = true → running_ g' = true) → accepts c pop queue ts g'.
Proof. apply feed_ok_same. Qed.

Lemma onMessage_ok c pop queue msg now g :
  feed_ok c (pop ++ queue) pop g → reading_ g = true → running_ g = true →
  Z.of_nat (length (pop ++ queue) + length (event_ticks (Read (Received msg now)) g)) < 2 ^ 62 →
  ∃ ok g', onMessage msg now g = Some (ok, g') ∧ accepts c pop queue (event_ticks (Read (Received msg now)) g) g'.
Proof.
  intros Hg Hrd Hrun. unfold event_ticks, onMessage. rewrite Hrd, Hrun. cbv zeta. cbn [andb].
  set (g0 := g {{ statistics_ -> GatewayStatistics.messages_received ::= inc64 }}).
  assert (feed_ok c (pop ++ queue) pop g0) as H0 by (apply (feed_ok_same _ _ _ g); [done|by split|apply Hg]).
  destruct (text_heartbeat && String.eqb msg "ping") eqn:Eping; [|destruct (text_heartbeat && String.eqb msg "pong") eqn:Epong].
  - intros _. exists true. eexists. split; [reflexivity|]. rewrite andb_orb_distrib_r, Eping. apply accepts_none.
    destruct (sendText_same (Text "pong") g0) as (F1 & F2 & F3).
    apply (feed_ok_same _ _ _ g0); [done..|rewrite F2, F3; apply H0].
  - intros _. exists true. eexists. split; [reflexivity|]. rewrite andb_orb_distrib_r, Eping, Epong. by apply accepts_none.
  - rewrite andb_orb_distrib_r, Eping, Epong. cbn [orb negb].
    destruct (fo_queue _ _ _ _ H0) as (q & Hq & _). rewrite Hq. cbn [mbind option_bind].
    change (getSymbolId g0) with (getSymbolId g). intros Hn.
    pose proof (parse_ticks msg now (getSymbolId g)) as Hparse.
    destruct (parseMessage msg now (getSymbolId g)) as [ts r]. cbn [fst] in *.
    destruct (pushTicks_ok c pop queue ts g0 H0) as (g1 & -> & H1); [|done|].
    + apply Forall_forall. intros t Ht. destruct (Hparse t Ht) as (He & Hi & s & Hsym). split; [done|].
      unfold getSymbolId in Hsym. destruct (symbol_to_id_ g !! normalize s) as [i|] eqn:Hl; cbn in Hsym; [|congruence].
      rewrite Hsym. by eapply (ids_range g0); [apply H0|].
    + assert (accepts c pop queue ts g1) as Hacc by done.
      destruct r as [[]|u]; eexists _, _; (split; [reflexivity|]); [|done..].
      apply (accepts_same _ _ _ _ g1); [done|by split|apply H1].
Qed.

Lemma onDisconnected_same g : feed_same g (onDisconnected g) ∧ running_ (onDisconnected g) = running_ g.
Proof.
  unfold onDisconnected. destruct (setStatus_same ConnectionStatus.DISCONNECTED g) as (H1 & H2 & H3 & _).
  set (g1 := stopHeartbeat _). assert (feed_same g g1 ∧ running_ g1 = running_ g) as [F1 R1].
  { split; [|exact H3]. etrans; [exact H1|]. by split. }
  unfold startReconnectionTimer. destruct (should_reconnect_ g1); [|done].
  split; [|done]. etrans; [exact F1|]. by split.
Qed.

Lemma read_turn_ok c pop queue r g :
  feed_ok c (pop ++ queue) pop g → Z.of_nat (length (pop ++ queue) + length (event_ticks (Read r) g)) < 2 ^ 62 →
  ∃ g', read_turn r g = Some g' ∧ accepts c pop queue (event_ticks (Read r) g) g'.
Proof.
  intros Hg Hn. unfold read_turn. destruct (reading_ g) eqn:Hrd; cbn [negb].
  2: { eexists. split; [reflexivity|]. replace (event_ticks (Read r) g) with ([] : list Tick.t); [by apply accepts_none|].
       destruct r; cbn; by rewrite ?Hrd. }
  destruct (running_ g) eqn:Hrun; cbn [negb].
  2: { eexists. split; [reflexivity|]. replace (event_ticks (Read r) g) with ([] : list Tick.t).
       - apply accepts_none. apply (feed_ok_same _ _ _ g); [done|by split|apply Hg].
       - destruct r; cbn; by rewrite ?Hrd, ?Hrun. }
  destruct r as [msg now|].
  - destruct (onMessage_ok c pop queue msg now g) as (ok & g' & -> & H1); [done..|]. cbn [mbind option_bind].
    eexists. split; [reflexivity|]. destruct ok; [done|].
    apply (accepts_same _ _ _ _ g'); [done|by split|]. apply H1.
  - eexists. split; [reflexivity|]. apply accepts_none.
    set (g1 := g {{ reading_ := false; ws_open_ := false }}). destruct (onDisconnected_same g1) as (F1 & F2).
    apply (feed_ok_same _ _ _ g); [done|etrans; [|exact F1]; by split|]. intros _. by rewrite F2.
Qed.

Lemma heartbeat_ok c acc pop g : feed_ok c acc pop g → feed_ok c acc pop (heartbeat_turn g).
Proof.
  intros Hg. unfold heartbeat_turn. destruct (_ && _); [|done].
  match goal with |- context [sendText ?x g] => destruct (sendText_same x g) as (F1 & F2 & F3) end.
  apply (feed_ok_same _ _ _ g); [done..|]. rewrite F2, F3. apply Hg.
Qed.

Lemma start_ok c acc pop net g : feed_ok c acc pop g → feed_ok c acc pop (start net g).2.
Proof.
  intros Hg. destruct (start_same net g (fo_reconnecting _ _ _ _ Hg)) as (H1 & H2 & _).
  by apply (feed_ok_same _ _ _ g).
Qed.

(** The reconnection thread finds the adapter already running. *)
Lemma handleReconnection_ok c acc pop net g :
  feed_ok c acc pop g → reconnecting_ g = true →
  ∃ g', handleReconnection net g = Some g' ∧ feed_ok c acc pop g'.
Proof.
  intros Hg Hr. pose proof (fo_reconnecting _ _ _ _ Hg Hr) as Hrun. unfold handleReconnection. cbv zeta.
  set (g0 := g {{ reconnecting_ := false }}).
  assert (feed_ok c acc pop g0) as H0 by (apply (feed_ok_same _ _ _ g); [done|by split|done]).
  destruct (should_reconnect_ g0); cbn [negb]; [|by eexists].
  set (g1 := g0 {{ reconnection_attempts_ ::= _; _ -> _ ::= _ }}).
  assert (feed_ok c acc pop g1) as H1 by (apply (feed_ok_same _ _ _ g0); [done|by split|done]).
  destruct (start_same net g1 (fo_reconnecting _ _ _ _ H1)) as (_ & _ & ->); [|done].
  eexists. split; [reflexivity|]. apply (feed_ok_same _ _ _ g1); [done|by split|done].
Qed.

Lemma popTick_ok c pop queue g :
  feed_ok c (pop ++ queue) pop g → Z.of_nat (length (pop ++ queue)) < 2 ^ 62 →
  let out := option_list (hd_error queue) in
  ∃ g', popTick g = Some (hd_error queue, g') ∧ feed_ok c ((pop ++ out) ++ tl queue) (pop ++ out) g'.
Proof.
  intros [(q & Hq & Hs) H2 H3 [I1 I2 I3 I4] H5 H6] Hn out. unfold popTick. rewrite Hq. cbn [mbind option_bind].
  destruct (queue_state_next feed_bits feed_small q pop queue Hs Hn) as (q' & -> & Hs'). cbn [mbind option_bind].
  eexists. split; [reflexivity|]. fold out in Hs'.
  replace ((pop ++ out) ++ tl queue) with (pop ++ queue) in * by (subst out; destruct queue; cbn; by rewrite <-?app_assoc, ?app_nil_r).
  split; try done. by exists q'.
Qed.

(** Every event of the feed, from any state the feed reaches, is the event of the bounded FIFO. *)
Lemma feed_event_ok c pop queue e g :
  feed_ok c (pop ++ queue) pop g → c + 1 < 2 ^ 32 → Z.of_nat (length (pop ++ queue) + length (event_ticks e g)) < 2 ^ 62 →
  let '(out, queue') := fifo_event e g queue in
  ∃ g', run_event e g = Some (out, g') ∧ feed_ok (c + 1) ((pop ++ out) ++ queue') (pop ++ out) g'.
Proof.
  intros Hg Hc Hn. unfold fifo_event, FeedSpec.fifo_event.
  assert (∀ ts g', accepts c pop queue ts g' → feed_ok (c + 1) ((pop ++ []) ++ fifo_push feed_capacity queue ts) (pop ++ []) g') as Hmono.
  { intros ts g' H. rewrite app_nil_r. eapply feed_ok_mono, H. lia. }
  assert (∀ g', feed_ok c (pop ++ queue) pop g' → feed_ok (c + 1) ((pop ++ []) ++ fifo_push feed_capacity queue []) (pop ++ []) g') as Hnone.
  { intros g' H. by apply Hmono, accepts_none. }
  assert (∀ g', feed_same g g' → reconnecting_ g' = reconnecting_ g → running_ g' = running_ g →
    feed_ok (c + 1) ((pop ++ []) ++ fifo_push feed_capacity queue []) (pop ++ []) g') as Hsame.
  { intros g' H R1 R2. apply Hnone, (feed_ok_same _ _ _ g); [done..|]. rewrite R1, R2. apply Hg. }
  destruct e as [net| |sym|sym|r| | |net| | |]; cbn [run_event is_pop event_ticks].
  - eexists. split; [reflexivity|]. by apply Hnone, start_ok.
  - eexists. split; [reflexivity|]. by apply Hnone, stop_ok.
  - eexists. split; [reflexivity|]. rewrite app_nil_r, fifo_push_none. by apply subscribe_ok.
  - eexists. split; [reflexivity|]. by apply Hnone, unsubscribe_ok.
  - destruct (read_turn_ok c pop queue r g Hg Hn) as (g' & -> & H). eexists. split; [reflexivity|]. by apply Hmono.
  - eexists. split; [reflexivity|]. by apply Hsame.
  - eexists. split; [reflexivity|]. by apply Hnone, heartbeat_ok.
  - destruct (reconnecting_ g) eqn:Hr.
    + destruct (handleReconnection_ok c (pop ++ queue) pop net g Hg Hr) as (g' & -> & H). eexists. split; [reflexivity|]. by apply Hnone.
    + eexists. split; [reflexivity|]. by apply Hnone.
  - destruct (popTick_ok c pop queue g Hg) as (g' & -> & H); [cbn in Hn; lia|]. eexists. split; [reflexivity|].
    eapply feed_ok_mono, H. lia.
  - eexists. split; [reflexivity|]. by apply Hsame.
  - eexists. split; [reflexivity|]. by apply Hsame.
Qed.

Lemma pop_silent e g : is_pop e = true → event_ticks e g = [].
Proof. by destruct e. Qed.

Lemma feed_events_ok es c pop queue g :
  feed_ok c (pop ++ queue) pop g → c + Z.of_nat (length es) < 2 ^ 32 →
  Z.of_nat (length (pop ++ queue) + length (parsed_ticks es g)) < 2 ^ 62 →
  let '(out, queue') := fifo_run es g queue in
  ∃ g', run_events es g = Some (out, g') ∧ feed_ok (c + Z.of_nat (length es)) ((pop ++ out) ++ queue') (pop ++ out) g'.
Proof.
  revert c pop queue g. induction es as [|e es IH]; intros c pop queue g Hg Hc Hn; unfold fifo_run; cbn [FeedSpec.fifo_run run_events parsed_ticks length] in *.
  - eexists. split; [reflexivity|]. rewrite app_nil_r. eapply feed_ok_mono, Hg. lia.
  - rewrite (length_app (event_ticks e g)) in Hn.
    pose proof (feed_event_ok c pop queue e g Hg ltac:(lia) ltac:(lia)) as He.
    pose proof (fifo_event_sublist event_ticks is_pop feed_capacity pop_silent e g queue) as Hsub. unfold fifo_event in He.
    destruct (FeedSpec.fifo_event _ _ _ e g queue) as [out queue1]. destruct He as (g1 & He & H1). rewrite He in *.
    apply sublist_length in Hsub as Hle. cbv iota beta in Hn. rewrite !length_app in Hn. rewrite !length_app in Hle.
    specialize (IH (c + 1) (pop ++ out) queue1 g1 H1 ltac:(lia)); rewrite !length_app in IH; specialize (IH ltac:(lia)). unfold fifo_run in IH.
    destruct (FeedSpec.fifo_run _ _ _ _ es g1 queue1) as [outs queue2]. destruct IH as (g2 & Hrun & H2).
    cbn [mbind option_bind]. rewrite Hrun. eexists. split; [reflexivity|].
    rewrite !app_assoc in *. by replace (c + Z.of_nat (S (length es))) with (c + 1 + Z.of_nat (length es)) by lia.
Qed.

Lemma parsed_ticks_app es es' g out g' :
  run_events es g = Some (out, g') → parsed_ticks (es ++ es') g = parsed_ticks es g ++ parsed_ticks es' g'.
Proof.
  revert g out. induction es as [|e es IH]; intros g out; cbn [run_events parsed_ticks app].
  - intros [= _ ->]. done.
  - destruct (run_event e g) as [[o g1]|]; [|done]. cbn [mbind option_bind].
    destruct (run_events es g1) as [[os g2]|] eqn:E; [|done]. cbn. intros [= _ ->]. rewrite (IH _ _ E). by rewrite app_assoc.
Qed.

(** *** The initial state *)

Lemma register_symbol_ok c sym g :
  feed_ok c [] [] g → c + 1 < 2 ^ 32 → feed_ok (c + 1) [] [] (register_symbol sym g).
Proof.
  intros Hg Hc. unfold register_symbol. destruct (symbol_to_id_ g !! sym); [eapply feed_ok_mono, Hg; lia|].
  by apply assign_ok.
Qed.

Lemma register_symbols_ok c syms g :
  feed_ok c [] [] g → c + Z.of_nat (length syms) < 2 ^ 32 →
  feed_ok (c + Z.of_nat (length syms)) [] [] (foldl (λ g sym, register_symbol sym g) g syms).
Proof.
  revert c g. induction syms as [|sym syms IH]; intros c g Hg Hc; cbn [foldl length] in *.
  - eapply feed_ok_mono, Hg. lia.
  - replace (c + Z.of_nat (S (length syms))) with (c + 1 + Z.of_nat (length syms)) by lia.
    apply IH; [apply register_symbol_ok; [done|lia]|lia].
Qed.

(** An adapter just initialised, with a new queue. *)
Definition initialized (config : ExchangeConfig) : MarketDataGateway :=
  (initialize config (MPMCQueue_init feed_bits) MarketDataGateway_init).2.

(** How many symbols the URL of [config] names. *)
Definition preregistered_count (config : ExchangeConfig) : Z :=
  let ws_url := if String.eqb (websocket_url config) EmptyString then default_url else websocket_url config in
  Z.of_nat (length (preregistered (url_path default_path (strip_scheme ws_url)))).

Lemma initialized_ok config :
  1 + preregistered_count config < 2 ^ 32 → feed_ok (1 + preregistered_count config) [] [] (initialized config).
Proof.
  intros Hc. unfold initialized, initialize. cbv zeta. cbn [snd].
  apply register_symbols_ok; [|exact Hc]. split; try done.
  - eexists. split; [reflexivity|apply queue_state_init; lia].
Qed.

(** *** After a disconnection *)

(** The adapter believes to run, and reads nothing. *)
Record dead (g : MarketDataGateway) : Prop := {
  dead_running : running_ g = true;
  dead_reading : reading_ g = false;
  dead_status : status_ g = ConnectionStatus.DISCONNECTED;
  dead_closed : ws_open_ g = false;
}.

(** What the outside sees of the wire. *)
Definition wire (g : MarketDataGateway) : Z * list message :=
  (GatewayStatistics.messages_received (statistics_ g), sent_ g).

Lemma sendText_closed m g : ws_open_ g = false → sendText m g = g.
Proof. intros H. unfold sendText. by rewrite H. Qed.

Lemma disconnected_dead g :
  running_ g = true → reading_ g = true →
  ∃ g', read_turn Closed g = Some g' ∧ dead g' ∧ wire g' = wire g.
Proof.
  intros Hrun Hrd. unfold read_turn. rewrite Hrd, Hrun. cbn [negb]. eexists. split; [reflexivity|].
  unfold onDisconnected, setStatus, startReconnectionTimer. cbv zeta.
  destruct (_ && _); match goal with |- context [should_reconnect_ ?x] => destruct (should_reconnect_ x) end; by split.
Qed.

Lemma send_subscription_closed l g : ws_open_ g = false → ∃ id, send_subscription l g = g {{ message_id_ := id }}.
Proof.
  intros H. unfold send_subscription. destruct (sendSubscription _ _) as [req id]. exists id. by rewrite sendText_closed.
Qed.
Lemma send_unsubscription_closed l g : ws_open_ g = false → ∃ id, send_unsubscription l g = g {{ message_id_ := id }}.
Proof.
  intros H. unfold send_unsubscription. destruct (sendUnsubscription _ _) as [req id]. exists id. by rewrite sendText_closed.
Qed.

Lemma dead_event e g out g' :
  dead g → e ≠ Stop → run_event e g = Some (out, g') → dead g' ∧ wire g' = wire g ∧ event_ticks e g = [].
Proof.
  intros [H1 H2 H3 H4] He Hrun.
  assert (event_ticks e g = []) as Ht by (destruct e as [| | | |[]| | | | | |]; cbn; by rewrite ?H2).
  enough (dead g' ∧ wire g' = wire g) by tauto.
  destruct e as [net| |sym|sym|r| | |net| | |]; cbn [run_event] in Hrun.
  - unfold start in Hrun. rewrite H1 in Hrun. by simplify_eq.
  - done.
  - unfold subscribe in Hrun. cbv zeta in Hrun. destruct (bool_decide _); [by simplify_eq|].
    match type of Hrun with context [send_subscription ?l ?x] => destruct (send_subscription_closed l x H4) as [id E] end.
    rewrite E in Hrun. simplify_eq. by split.
  - unfold unsubscribe in Hrun. cbv zeta in Hrun. destruct (negb _); [by simplify_eq|].
    match type of Hrun with context [send_unsubscription ?l ?x] => destruct (send_unsubscription_closed l x H4) as [id E] end.
    rewrite E in Hrun. simplify_eq. by split.
  - unfold read_turn in Hrun. rewrite H2 in Hrun. cbn in Hrun. by simplify_eq.
  - simplify_eq. by split.
  - unfold heartbeat_turn in Hrun. rewrite H4, andb_false_r in Hrun. by simplify_eq.
  - destruct (reconnecting_ g); [|by simplify_eq]. unfold handleReconnection, start in Hrun. cbv zeta in Hrun.
    match type of Hrun with context [should_reconnect_ ?x] => destruct (should_reconnect_ x) end; cbn [negb] in Hrun; [|cbn in Hrun; simplify_eq; by split].
    match type of Hrun with context [if running_ ?x then _ else _] => change (running_ x) with (running_ g) in Hrun end.
    rewrite H1 in Hrun. cbn in Hrun. simplify_eq. by split.
  - unfold popTick in Hrun. destruct (tick_queue_ g) as [q|]; [|done]. cbn [mbind option_bind] in Hrun.
    destruct (try_pop feed_bits q) as [[r q']|]; [|done]. cbn in Hrun. simplify_eq. by split.
  - simplify_eq. by split.
  - simplify_eq. by split.
Qed.

Lemma dead_events es g :
  dead g → Stop ∉ es → parsed_ticks es g = [] ∧ ∀ out g', run_events es g = Some (out, g') → dead g' ∧ wire g' = wire g.
Proof.
  revert g. induction es as [|e es IH]; intros g Hg Hs; cbn [parsed_ticks run_events].
  - split; [done|]. intros. by simplify_eq.
  - apply not_elem_of_cons in Hs as [He Hs].
    assert (event_ticks e g = []) as -> by (destruct e as [| | | |[]| | | | | |]; cbn; by rewrite ?(dead_reading _ Hg)).
    destruct (run_event e g) as [[out g1]|] eqn:E; [|done].
    destruct (dead_event e g out g1 Hg (not_eq_sym He) E) as (H1 & H2 & _). destruct (IH g1 H1 Hs) as [-> H3]. split; [done|].
    cbn [mbind option_bind]. intros out' g' Hr. destruct (run_events es g1) as [[outs g2]|]; [|done]. cbn in Hr. injection Hr as _ <-.
    rewrite <-H2. by apply (H3 outs).
Qed.

(** ** Properties *)

(** C21: whatever the order of starts, stops, subscriptions, reads, heartbeats, reconnections
    and pops, an initialised feed goes on without undefined behaviour and is a bounded
    first-in-first-out queue of 65536 places to which every message offers the ticks it is
    parsed to: the consumer gets, and the queue holds, exactly what that queue
    gives and holds ([fifo_run]), so a tick is dropped exactly when the queue is full at the moment it is
    pushed. What was accepted is what was parsed, in that order, less what was dropped,
    and all of it while no more than 65536 ticks were parsed; each tick accepted is
    counted once, carries the exchange and an id handed out to a symbol. *)
Theorem feed_delivers config es :
  let g0 := initialized config in
  1 + preregistered_count config + Z.of_nat (length es) < 2 ^ 32 →
  Z.of_nat (length (parsed_ticks es g0)) < 2 ^ 62 →
  ∃ delivered g q queued, run_events es g0 = Some (delivered, g) ∧
    tick_queue_ g = Some q ∧ rep feed_bits q queued ∧
    fifo_run es g0 [] = (delivered, queued) ∧
    (delivered ++ queued) `sublist_of` parsed_ticks es g0 ∧
    (Z.of_nat (length (parsed_ticks es g0)) <= 2 ^ 16 → delivered ++ queued = parsed_ticks es g0) ∧
    GatewayStatistics.ticks_processed (statistics_ g) = Z.of_nat (length (delivered ++ queued)) ∧
    Forall (known_tick g) (delivered ++ queued) ∧ ids_ok g.
Proof.
  intros g0 Hc Hn. pose proof (feed_events_ok es (1 + preregistered_count config) [] [] g0) as Hrun.
  pose proof (fifo_run_sublist run_event event_ticks is_pop feed_capacity pop_silent es g0 []) as Hsub.
  pose proof (fifo_run_complete run_event event_ticks is_pop feed_capacity pop_silent es g0 []) as Hall.
  rewrite <-parsed_offered in Hsub, Hall. fold (fifo_run es g0 []) in Hsub, Hall. destruct (fifo_run es g0 []) as [out queue].
  destruct (Hrun ltac:(apply initialized_ok; lia) ltac:(lia) ltac:(cbn [app length]; lia))
    as (g & Hg & [(q & Hq & queued & Hacc & Hrep & _) H2 H3 H4 _ _]).
  cbn [app length] in *. apply (inj (app out)) in Hacc as <-. exists out, g, q, queue. split_and!; try done.
  intros Hl. apply Hall. unfold feed_capacity. change (MpmcQueue.N feed_bits) with (2 ^ 16). lia.
Qed.

(** C38: once a read has failed, an adapter that nobody stops stays disconnected: it keeps
    reporting that it runs, so the reconnection thread's [start] does nothing, and
    whatever calls follow, no message is read, no tick parsed and nothing sent. *)
Theorem disconnect_is_final config es0 es out0 g :
  1 + preregistered_count config + Z.of_nat (length es0 + length (Read Closed :: es)) < 2 ^ 32 →
  Z.of_nat (length (parsed_ticks es0 (initialized config))) < 2 ^ 62 →
  run_events es0 (initialized config) = Some (out0, g) → running_ g = true → reading_ g = true → Stop ∉ es →
  parsed_ticks (Read Closed :: es) g = [] ∧
  ∃ out g', run_events (Read Closed :: es) g = Some (out, g') ∧
    status_ g' = ConnectionStatus.DISCONNECTED ∧ running_ g' = true ∧ reading_ g' = false ∧ wire g' = wire g.
Proof.
  intros Hc Hn H0 Hrun Hrd Hs. pose proof (Nat2Z.is_nonneg (length es0)).
  pose proof (feed_events_ok es0 (1 + preregistered_count config) [] [] (initialized config)) as H1.
  pose proof (fifo_run_sublist run_event event_ticks is_pop feed_capacity pop_silent es0 (initialized config) []) as Hsub.
  rewrite <-parsed_offered in Hsub. fold (fifo_run es0 (initialized config) []) in Hsub.
  destruct (fifo_run es0 (initialized config) []) as [out acc].
  destruct (H1 ltac:(apply initialized_ok; lia) ltac:(lia) ltac:(done)) as (g1 & E & Hg).
  rewrite H0 in E. injection E as -> <-. apply sublist_length in Hsub.
  destruct (disconnected_dead g Hrun Hrd) as (g1 & E & Hd & Hw).
  destruct (dead_events es g1 Hd Hs) as [Hp Hdead].
  assert (parsed_ticks (Read Closed :: es) g = []) as Hnil by (cbn [parsed_ticks event_ticks run_event]; rewrite E; exact Hp).
  split; [done|].
  pose proof (feed_events_ok (Read Closed :: es) _ _ _ g Hg ltac:(lia)) as H1'.
  rewrite Hnil in H1'. cbn [app length] in *. specialize (H1' ltac:(lia)).
  destruct (fifo_run (Read Closed :: es) g acc) as [outs queue]. destruct H1' as (g' & Hr & _).
  exists outs, g'. split; [done|]. cbn [run_events run_event] in Hr. rewrite E in Hr. cbn in Hr.
  destruct (run_events es g1) as [[outs' g2]|] eqn:E2; [|done]. cbn in Hr. injection Hr as _ <-.
  destruct (Hdead _ _ eq_refl) as [[] Hw']. split_and!; try done. by rewrite Hw'.
Qed.
End proofs.

(** C40: the delay before a reconnection starts at a second and doubles with each attempt up to a minute,
    and with its jitter of a quarter either way is 0.75 to 75 seconds, as long as at most 21
    attempts have been counted; from the 22nd on the product overflows. *)
Theorem reconnect_delay_bounds attempts jitter :
  0 <= attempts →
  match base_delay_ms attempts with
  | Some base => attempts <= 21 ∧ base = Z.min (1000 * 2 ^ attempts) 60000 ∧ (jitter_ok base jitter → 750 <= base + jitter <= 75000)
  | None => 22 <= attempts
  end.
Proof.
  intros Ha. unfold base_delay_ms. rewrite Z.shiftl_mul_pow2, Z.mul_1_l by done.
  assert (1 <= 2 ^ attempts) by (change 1 with (2 ^ 0); apply Z.pow_le_mono_r; lia).
  destruct (Z.ltb_spec (1000 * 2 ^ attempts) (2 ^ 31)) as [Hp|Hp].
  - split_and!; [|done|].
    + destruct (Z.le_gt_cases attempts 21) as [|Hgt]; [done|].
      assert (2 ^ 22 <= 2 ^ attempts) by (apply Z.pow_le_mono_r; lia). lia.
    + unfold jitter_ok. set (b := Z.min _ _). intros Hj. assert (1000 <= b <= 60000) by lia.
      rewrite Z.quot_opp_l in Hj by lia. pose proof (Z.quot_rem' b 4). pose proof (Z.rem_bound_pos b 4). lia.
  - destruct (Z.le_gt_cases attempts 21) as [Hle|]; [|lia].
    assert (2 ^ attempts <= 2 ^ 21) by (apply Z.pow_le_mono_r; lia). lia.
Qed.

Lemma reconnect_delay_bounds_witness :
  base_delay_ms 3 = Some 8000 ∧ 750 <= 8000 + 2000 <= 75000.
Proof.
  split; [reflexivity|]. refine (proj2 (proj2 (reconnect_delay_bounds 3 2000 _)) _); [lia|]. split; reflexivity || discriminate.
Defined.

(** *** The adapters and the wire protocols *)

(** What a parse hands over, when another one hands over at least as much. *)
Lemma for_all_catch {A} (body body' : A → feed ()) l :
  (∀ a, body' a = body a ∨ ((body a).2 = inl SimdError ∧ (body' a).1 = (body a).1)) →
  (for_all body l).1 `prefix_of` (for_all body' l).1 ∧
  ((for_all body l).2 = inr () → for_all body' l = for_all body l).
Proof.
  intros Hb. induction l as [|a l [IH1 IH2]]; cbn [for_all]; [done|].
  destruct (Hb a) as [->|[E1 E2]]; [destruct (body a) as [ts [e|[]]]; [done|]|destruct (body a) as [ts r], (body' a) as [ts' r']].
  - rewrite !bind_done. cbn [fst snd]. split; [by apply prefix_app|]. intros H. by rewrite (IH2 H).
  - cbn in E1, E2. subst. split; [|done]. unfold mbind, feed_bind. cbn. destruct r'; cbn; [done|]. by apply prefix_app_r.
Qed.

Section equivalence.
Context {D : SimdOps} {J : JsonOps}.

(** The ticks and the success of a parse, less the number it returns. *)
Definition outcome {A} (m : feed A) : list Tick.t * bool := (m.1, match m.2 with inl _ => false | inr _ => true end).

Lemma catch_cases (m : feed ()) : catch_simd m = m ∨ (m.2 = inl SimdError ∧ (catch_simd m).1 = m.1).
Proof. destruct m as [ts [[]|[]]]; cbn; auto. Qed.
Lemma catch_ticks (m : feed ()) : (catch_simd m).1 = m.1.
Proof. by destruct m as [ts [[]|[]]]. Qed.
Lemma bind_mret_ticks {A B} (m : feed A) (b : B) : (_ ← m; mret b).1 = m.1.
Proof. destruct m as [ts [e|a]]; cbn; [done|]. by rewrite app_nil_r. Qed.

(** [m'] goes at least as far as [m]. *)
Definition covers {A} (m : feed A) (m' : feed ()) : Prop := m.1 `prefix_of` m'.1 ∧ (∀ a, m.2 = inr a → m'.1 = m.1).

Lemma covers_silent {A} (r : exn + A) r' : covers ([], r) ([], r').
Proof. by split. Qed.
Lemma covers_get {A B} (o : option A) (k : A → feed B) k' :
  (∀ a, o = Some a → covers (k a) (k' a)) → covers (get o ≫= k) (get o ≫= k').
Proof. intros Hk. destruct o as [a|]; [rewrite !(bind_get _ a) by done; by apply Hk|by split]. Qed.
Lemma covers_for_all {A B} (body body' : A → feed ()) l (n : B) :
  (∀ a, body' a = body a ∨ ((body a).2 = inl SimdError ∧ (body' a).1 = (body a).1)) →
  covers (_ ← for_all body l; mret n) (for_all body' l).
Proof.
  intros Hb. destruct (for_all_catch body body' l Hb) as [Hp He]. split; [by rewrite bind_mret_ticks|].
  intros b. rewrite bind_mret_ticks. destruct (for_all body l) as [ts [e|[]]]; [done|]. by rewrite He.
Qed.

Lemma binance_ticks msg ts resolve :
  (∀ doc obj, sd_parse msg = Some doc → sd_object doc = Some obj → sd_field obj "stream" = None) →
  (BinanceAdapter.parseMessage msg ts resolve).1 = (BinanceJsonProtocol.parse msg ts resolve).1.
Proof.
  intros Hs. unfold BinanceAdapter.parseMessage, BinanceJsonProtocol.parse.
  destruct (sd_parse msg) as [doc|]; [|done]. rewrite (bind_get _ doc) by done.
  destruct (sd_object doc) as [obj|] eqn:Ho; [|done]. rewrite !(bind_get _ obj), (Hs doc obj) by done.
  destruct (sd_field obj "e") as [e|].
  - destruct (sd_string e) as [event|]; [|done]. rewrite !(bind_get _ event) by done.
    repeat (destruct (String.eqb event _); cbn [orb]; [by rewrite bind_mret_ticks; apply catch_ticks|]).
    by destruct (String.eqb event _).
  - destruct (sd_field obj "result"); [|done]. by destruct (sd_field obj "id" ≫= sd_uint64).
Qed.

Lemma okx_covers msg ts resolve : covers (OKXJsonProtocol.parse msg ts resolve) (OkxAdapter.parseMessage msg ts resolve).
Proof.
  unfold OKXJsonProtocol.parse, OkxAdapter.parseMessage.
  destruct (sd_parse msg) as [doc|]; [|intros; apply covers_silent]. rewrite (bind_get (Some doc) doc) by done.
  apply covers_get. intros obj _. destruct (sd_field obj "event").
  - apply covers_get. intros event _. destruct (String.eqb event _); [by split|].
    destruct (String.eqb event _); [|by split]. apply covers_get. by split.
  - destruct (sd_field obj "arg"); [|by split]. apply covers_get. intros arg _.
    apply covers_get. intros channel _. apply covers_get. intros id _.
    assert (∀ (f : elem → feed ()) el, (data ← get (sd_object el); catch_simd (f data)) = (data ← get (sd_object el); f data)
      ∨ (((data ← get (sd_object el); f data).2 = inl SimdError ∧
          (data ← get (sd_object el); catch_simd (f data)).1 = (data ← get (sd_object el); f data).1))) as Hc.
    { intros f el. destruct (sd_object el) as [data|]; [|by left]. rewrite !(bind_get _ data) by done. apply catch_cases. }
    repeat (destruct (String.eqb channel _); [apply covers_get; intros; apply covers_for_all, Hc|]). by split.
Qed.

(** A message of a raw stream becomes the same ticks in the adapter and in the
    protocol of Binance; a message of OKX becomes in the protocol the first ticks that it
    becomes in the adapter, and the same ones where the protocol's parse returns. *)
Lemma adapter_protocol_ticks msg ts resolve :
  ((∀ doc obj, sd_parse msg = Some doc → sd_object doc = Some obj → sd_field obj "stream" = None) →
   (BinanceAdapter.parseMessage msg ts resolve).1 = (BinanceJsonProtocol.parse msg ts resolve).1) ∧
  (OKXJsonProtocol.parse msg ts resolve).1 `prefix_of` (OkxAdapter.parseMessage msg ts resolve).1 ∧
  (∀ n, (OKXJsonProtocol.parse msg ts resolve).2 = inr n →
   (OkxAdapter.parseMessage msg ts resolve).1 = (OKXJsonProtocol.parse msg ts resolve).1).
Proof. split; [apply binance_ticks|]. apply okx_covers. Qed.
End equivalence.

(** *** Witnesses: a Binance adapter whose messages are one depth update. *)

#[local] Instance SampleSimd : SimdOps := SimdRef (sample_depth [ref_level "99" "1.5"]).
#[local] Instance SampleJson : JsonOps := JsonRef.
#[local] Instance SampleOrder : SymbolOrder := {| symbol_order := elements; symbol_order_perm s := Permutation_refl _ |}.

Definition sample_start : list event := [Start OpenNetwork; Subscribe "BTCUSDT"; Heartbeat].
Definition sample_gateway : MarketDataGateway := initialized (X := BinanceAdapter.exchange) ExchangeConfig_default.
Definition sample_connected : MarketDataGateway :=
  default sample_gateway (snd <$> run_events (X := BinanceAdapter.exchange) sample_start sample_gateway).
#[local] Opaque MPMCQueue_init.

Lemma sample_run : run_events (X := BinanceAdapter.exchange) sample_start sample_gateway = Some ([], sample_connected).
Proof. reflexivity. Qed.

Lemma sample_parsed :
  parsed_ticks (X := BinanceAdapter.exchange) (sample_start ++ [Read (Received "m" 7)]) sample_gateway
  = book_ticks ExchangeId.BINANCE 1700000000000000 7 1 [("99", "1.5")]%string [("101", "2")]%string.
Proof.
  rewrite (parsed_ticks_app (X := BinanceAdapter.exchange) _ _ _ _ _ sample_run). cbn [parsed_ticks].
  destruct (run_event _ _) as [[]|]; reflexivity.
Qed.

Lemma feed_delivers_witness :
  ∃ delivered g q queued,
    run_events (X := BinanceAdapter.exchange) (sample_start ++ [Read (Received "m" 7)]) sample_gateway = Some (delivered, g) ∧
    tick_queue_ g = Some q ∧ rep feed_bits q queued ∧
    delivered ++ queued = book_ticks ExchangeId.BINANCE 1700000000000000 7 1 [("99", "1.5")]%string [("101", "2")]%string ∧
    GatewayStatistics.ticks_processed (statistics_ g) = 2.
Proof.
  destruct (feed_delivers (X := BinanceAdapter.exchange) ExchangeConfig_default (sample_start ++ [Read (Received "m" 7)]))
    as (d & g & q & l & H1 & H2 & H3 & _ & H4 & H5 & H6 & _); fold sample_gateway in *.
  - reflexivity.
  - rewrite sample_parsed. reflexivity.
  - rewrite sample_parsed in H5. assert (d ++ l = _) as Heq by (apply H5; cbn; lia). rewrite Heq in H6.
    exists d, g, q, l. split_and!; [exact H1|exact H2|exact H3|exact Heq|exact H6].
Defined.

Lemma disconnect_is_final_witness :
  status_ sample_connected = ConnectionStatus.CONNECTED ∧
  ∃ out g', run_events (X := BinanceAdapter.exchange)
      [Read Closed; Reconnect OpenNetwork; Start OpenNetwork; Read (Received "m" 7); Subscribe "ETHUSDT"] sample_connected = Some (out, g') ∧
    status_ g' = ConnectionStatus.DISCONNECTED ∧ running_ g' = true ∧ reading_ g' = false ∧ wire g' = wire sample_connected.
Proof.
  split; [reflexivity|].
  refine (proj2 (disconnect_is_final (X := BinanceAdapter.exchange) ExchangeConfig_default sample_start
    [Reconnect OpenNetwork; Start OpenNetwork; Read (Received "m" 7); Subscribe "ETHUSDT"] [] _ _ _ sample_run _ _ _)); try reflexivity.
  rewrite !elem_of_cons, elem_of_nil. by intros [|[|[|[|]]]].
Defined.

Lemma adapter_protocol_ticks_witness :
  length (BinanceAdapter.parseMessage "m" 7 (λ _, 1)).1 = 2%nat ∧
  (BinanceAdapter.parseMessage "m" 7 (λ _, 1)).1 = (BinanceJsonProtocol.parse "m" 7 (λ _, 1)).1.
Proof.
  split; [reflexivity|]. refine (proj1 (adapter_protocol_ticks "m" 7 (λ _, 1)) _).
  intros doc obj Hd Ho. cbn in Hd. injection Hd as <-. cbn in Ho. injection Ho as <-. reflexivity.
Defined.
