(* ===== verification/ThinMux.v ===== *)
(** The second generation of gateways: [WebSocketTlsTransport]
    (src/io/transports/websocket_tls_transport.cpp), [ThinMuxAdapter]
    (src/market_data/adapters/thin_mux_adapter.cpp), the type-erased [AnyGateway]
    (include/chronos/market_data/any_gateway.hpp) and the factory that composes them
    (src/market_data/gateway_v2_factory.cpp).

    Boost.Beast is outside the model: the network of a connection attempt and what a read gives
    are arguments, what is written is appended to [sent]. [reading] says whether the
    read thread is in its loop, [reconnect_pending] whether a reconnection thread waits.
    [None] is undefined behaviour or std::terminate. *)
From Stdlib Require Import Ascii.
From S2P Require Import Prelude FixedPoint Types Json Config Protocols MpmcQueue Connection FeedSpec Adapters.
From S2P Require RiskEngine.

(** ** The transport *)

(** What a read of the socket gives. *)
Inductive frame := Frame (text : string) | EndOfStream | ReadError.

Module WebSocketTlsTransport.
Record t {J : JsonOps} := mk {
  host : string;
  port : string;
  path : string;
  use_proxy : bool;
  proxy_host : string;
  proxy_port : Z;
  is_open : bool;            (* [ws_stream] is there and open *)
  sent : list message;
}.
Arguments mk {J}.

Section transport.
Context {J : JsonOps}.

Definition init : t := mk EmptyString EmptyString EmptyString false EmptyString 0 false [].

Definition parseUrl (ws_url : string) (tr : t) : t :=
  let url := strip_scheme ws_url in
  tr {{ host := url_host url;
        port := port_of ws_url url;
        path := url_path "/" url }}.

Definition doDisconnect (tr : t) : t := tr {{ is_open := false }}.

(** The result, or the exception thrown, with the assignments made before. *)
Definition doConnect (cfg : ExchangeConfig) (net : Network) (tr : t) : attempt bool * t :=
  let tr := tr {{ use_proxy := Connection.use_proxy (Config.proxy_host cfg) (Config.proxy_port cfg);
                  proxy_host := Config.proxy_host cfg; proxy_port := Config.proxy_port cfg }} in
  let tr := parseUrl (websocket_url cfg) tr in
  let result :=
    '(response, ok) ← tcp_or_tunnel net (proxy_host tr) (RiskEngine.to_string (proxy_port tr)) (host tr) (port tr) (use_proxy tr);
    if negb ok then mret false
    else if negb (set_host_name net (host tr)) then mret false
    else _ ← handshakes net (host tr) (path tr); mret true in
  (result, match result with inr true => tr {{ is_open := true }} | _ => tr end).

Definition connect (cfg : ExchangeConfig) (net : Network) (tr : t) : bool * t :=
  match doConnect cfg net tr with
  | (inr ok, tr) => (ok, tr)
  | (inl _, tr) => (false, doDisconnect tr)
  end.

Definition disconnect (tr : t) : t := doDisconnect tr.

Definition send (m : message) (tr : t) : bool * t :=
  if is_open tr then (true, tr {{ sent ::= λ l, l ++ [m] }}) else (false, tr).
Definition sendPing (tr : t) : bool * t := send PingFrame tr.

(** [None]: a runtime_error is thrown. After an error the stream is no longer open. *)
Definition receive (f : frame) (tr : t) : option string * t :=
  if negb (is_open tr) then (Some EmptyString, tr)
  else match f with
       | Frame text => (Some text, tr)
       | EndOfStream => (Some EmptyString, tr {{ is_open := false }})
       | ReadError => (None, tr {{ is_open := false }})
       end.

Definition isConnected (tr : t) : bool := is_open tr.
End transport.
End WebSocketTlsTransport.

(** ** The adapter *)

Module SubState.
Record t := mk {
  subscribed : gset string;
  symbol_to_id : gmap string Z;
  next_symbol_id : Z;
}.
Definition init : t := mk ∅ ∅ 1.
End SubState.

Record ThinMuxAdapter {D : SimdOps} {J : JsonOps} := mkMux {
  transport : option WebSocketTlsTransport.t;
  protocol : option Protocol;
  config : ExchangeConfig;
  tick_queue : option (@MPMCQueue Tick.t);
  status : ConnectionStatus.t;
  status_callback : bool;
  error_callback : bool;
  stats : GatewayStatistics.t;
  running : bool;
  should_reconnect : bool;
  reading : bool;
  heartbeat_running : bool;
  reconnect_pending : bool;
  reconnect_attempts : Z;
  reconnect_base_ms : Z;     (* the local of the reconnection thread *)
  heartbeat_interval : Z;
  sub : SubState.t;
  (* the protocol's message counters *)
  subscribe_id : Z;
  unsubscribe_id : Z;
  (* calls of the callbacks *)
  status_calls : list ConnectionStatus.t;
  error_calls : list string;
}.
Arguments mkMux {D J}.

Section mux.
Context {D : SimdOps} {J : JsonOps} {SO : SymbolOrder}.

Definition ThinMuxAdapter_init (tr : option WebSocketTlsTransport.t) (p : option Protocol) : ThinMuxAdapter :=
  mkMux tr p ExchangeConfig_default None ConnectionStatus.DISCONNECTED false false GatewayStatistics.init false true false false false 0 0 30
    SubState.init 1 1 [] [].

Definition setStatusCallback (g : ThinMuxAdapter) : ThinMuxAdapter := g {{ status_callback := true }}.
Definition setErrorCallback (g : ThinMuxAdapter) : ThinMuxAdapter := g {{ error_callback := true }}.
Definition isRunning (g : ThinMuxAdapter) : bool := running g.
Definition getStatus (g : ThinMuxAdapter) : ConnectionStatus.t := status g.
Definition getStatistics (g : ThinMuxAdapter) : GatewayStatistics.t := stats g.

Definition setStatus (s : ConnectionStatus.t) (g : ThinMuxAdapter) : ThinMuxAdapter :=
  let old := status g in
  let g := g {{ status := s }} in
  if negb (bool_decide (old = s)) && status_callback g then g {{ status_calls ::= λ l, l ++ [s] }} else g.

Definition notifyError (msg : string) (g : ThinMuxAdapter) : ThinMuxAdapter :=
  let g := g {{ stats -> GatewayStatistics.errors_count ::= inc64 }} in
  if error_callback g then g {{ error_calls ::= λ l, l ++ [msg] }} else g.

Definition pushTick (tick : Tick.t) (g : ThinMuxAdapter) : option (bool * ThinMuxAdapter) :=
  match tick_queue g with
  | None => Some (false, g)
  | Some q =>
      '(ok, q) ← try_push feed_bits tick q;
      let g := g {{ tick_queue := Some q }} in
      Some (if ok : bool then (true, g {{ stats -> GatewayStatistics.ticks_processed ::= inc64 }}) else (false, g))
  end.

(** The sink of a parse. *)
Fixpoint pushTicks (ticks : list Tick.t) (g : ThinMuxAdapter) : option ThinMuxAdapter :=
  match ticks with [] => Some g | t :: ticks => '(_, g) ← pushTick t g; pushTicks ticks g end.

Definition popTick (g : ThinMuxAdapter) : option (option Tick.t * ThinMuxAdapter) :=
  q ← tick_queue g; '(r, q) ← try_pop feed_bits q; Some (r, g {{ tick_queue := Some q }}).

Definition resolveSymbolId (g : ThinMuxAdapter) (sym : string) : Z :=
  let n := match protocol g with Some p => normalizeSymbol (Protocol := p) sym | None => sym end in
  default 0 (SubState.symbol_to_id (sub g) !! n).

(** [transport->send(m)] *)
Definition transport_send (m : message) (g : ThinMuxAdapter) : ThinMuxAdapter :=
  match transport g with
  | Some tr => g {{ transport := Some (WebSocketTlsTransport.send m tr).2 }}
  | None => g
  end.

Definition connected (g : ThinMuxAdapter) : bool :=
  match transport g with Some tr => WebSocketTlsTransport.isConnected tr | None => false end.

(** The request of the protocol is built, then sent. *)
Definition send_subscribe (p : Protocol) (symbols : list string) (g : ThinMuxAdapter) : ThinMuxAdapter :=
  let '(req, id) := subscribeRequest symbols (subscribe_id g) in transport_send (Doc req) (g {{ subscribe_id := id }}).
Definition send_unsubscribe (p : Protocol) (symbols : list string) (g : ThinMuxAdapter) : ThinMuxAdapter :=
  let '(req, id) := unsubscribeRequest symbols (unsubscribe_id g) in transport_send (Doc req) (g {{ unsubscribe_id := id }}).

Definition resubscribeAll (g : ThinMuxAdapter) : ThinMuxAdapter :=
  match symbol_order (SubState.subscribed (sub g)), protocol g with
  | _ :: _ as symbols, Some p => send_subscribe p symbols g
  | _, _ => g
  end.

(** *** Reconnection *)

(** [handleReconnect] up to its sleep: the delay is computed from the attempts counted so
    far and sleeping begins; [None] is the overflow of [1000 * (1 << attempts)]. How long
    it sleeps (with its jitter, [Adapters.jitter_ok]) shows only in when [handleReconnect] goes on. *)
Definition begin_reconnect (g : ThinMuxAdapter) : option ThinMuxAdapter :=
  base_ms ← base_delay_ms (reconnect_attempts g);
  Some (g {{ reconnect_pending := true; reconnect_base_ms := base_ms }}).

(** The thread that is started here was joined before, so the attempts do not change
    between the start and the computation of the delay. *)
Definition startReconnectTimer (g : ThinMuxAdapter) : option ThinMuxAdapter :=
  if should_reconnect g then begin_reconnect g else Some g.

(** [handleReconnect] after its sleep. *)
Definition handleReconnect (g : ThinMuxAdapter) : ThinMuxAdapter :=
  let g := g {{ reconnect_pending := false }} in
  if negb (should_reconnect g) then g
  else g {{ reconnect_attempts ::= λ n, n + 1; stats -> GatewayStatistics.reconnections ::= inc64 }}.

(** *** The read loop *)

(** After the loop. *)
Definition leave_loop (g : ThinMuxAdapter) : option ThinMuxAdapter :=
  let g := g {{ reading := false }} in
  if running g && should_reconnect g
  then startReconnectTimer (setStatus ConnectionStatus.DISCONNECTED g) else Some g.

(** A message that is not empty. Nothing catches what [parse] throws in the read thread. *)
Definition handle_message (msg : string) (now : Z) (g : ThinMuxAdapter) : option ThinMuxAdapter :=
  p ← protocol g;
  if isPingMessage msg then Some (transport_send (Text heartbeatPayload) g)
  else if isPongMessage msg then Some g
  else
    let g := g {{ stats -> GatewayStatistics.messages_received ::= inc64 }} in
    let '(ticks, result) := parse (Protocol := p) msg now (resolveSymbolId g) in
    g ← pushTicks ticks g;
    match result with inr _ => Some g | inl _ => None end.

(** One turn of [readLoop]. *)
Definition read_turn (f : frame) (now : Z) (g : ThinMuxAdapter) : option ThinMuxAdapter :=
  if negb (reading g) then Some g
  else match transport g with
       | Some tr =>
           if negb (running g && WebSocketTlsTransport.isConnected tr) then leave_loop g
           else
             let '(msg, tr) := WebSocketTlsTransport.receive f tr in
             let g := g {{ transport := Some tr }} in
             match msg with
             | None | Some EmptyString => leave_loop g
             | Some msg => handle_message msg now g
             end
       | None => leave_loop g
       end.

(** One turn of [heartbeatLoop] after its wait. *)
Definition heartbeat_turn (g : ThinMuxAdapter) : option ThinMuxAdapter :=
  if negb (heartbeat_running g && connected g) then Some g
  else p ← protocol g; Some (transport_send (if usesWsPing then PingFrame else Text heartbeatPayload) g).

(** *** The contract of an adapter *)

Definition initialize (cfg : ExchangeConfig) (queue : @MPMCQueue Tick.t) (g : ThinMuxAdapter) : bool * ThinMuxAdapter :=
  (true, g {{ config := cfg; tick_queue := Some queue;
              heartbeat_interval := if 0 <? heartbeat_interval_ms cfg then heartbeat_interval_ms cfg / 1000 else 30 }}).

Definition start (net : Network) (g : ThinMuxAdapter) : bool * ThinMuxAdapter :=
  if running g then (true, g)
  else
    let g := setStatus ConnectionStatus.CONNECTING (g {{ should_reconnect := true }}) in
    match transport g with
    | None => (false, setStatus ConnectionStatus.ERROR g)
    | Some tr =>
        let '(ok, tr) := WebSocketTlsTransport.connect (config g) net tr in
        let g := g {{ transport := Some tr }} in
        if ok : bool then
          let g := (setStatus ConnectionStatus.CONNECTED g) {{ running := true; reading := true; heartbeat_running := true }} in
          (true, resubscribeAll g)
        else (false, setStatus ConnectionStatus.ERROR g)
    end.

(** The threads have been joined. *)
Definition stop (g : ThinMuxAdapter) : ThinMuxAdapter :=
  if negb (running g) then g
  else
    let g := g {{ running := false; should_reconnect := false; heartbeat_running := false; reading := false;
                  transport ::= fmap WebSocketTlsTransport.disconnect; reconnect_pending := false }} in
    setStatus ConnectionStatus.DISCONNECTED g.

Definition subscribe (symbol : string) (g : ThinMuxAdapter) : bool * ThinMuxAdapter :=
  match protocol g with
  | None => (false, g)
  | Some p =>
      let norm := normalizeSymbol (Protocol := p) symbol in
      if bool_decide (norm ∈ SubState.subscribed (sub g)) then (true, g)
      else
        let id := SubState.next_symbol_id (sub g) in
        let g := g {{ sub := SubState.mk ({[norm]} ∪ SubState.subscribed (sub g)) (<[norm := id]> (SubState.symbol_to_id (sub g)))
                               (u32 (id + 1)) }} in
        (true, send_subscribe p [norm] g)
  end.

Definition unsubscribe (symbol : string) (g : ThinMuxAdapter) : bool * ThinMuxAdapter :=
  match protocol g with
  | None => (false, g)
  | Some p =>
      let norm := normalizeSymbol (Protocol := p) symbol in
      if negb (bool_decide (norm ∈ SubState.subscribed (sub g))) then (true, g)
      else
        let g := send_unsubscribe p [norm] g in
        (true, g {{ sub -> SubState.subscribed ::= λ s, s ∖ {[norm]} }})
  end.

(** *** The adapter among its threads and its client *)

Inductive mux_event :=
| Start (net : Network)
| Stop
| Subscribe (symbol : string)
| Unsubscribe (symbol : string)
| Read (f : frame) (now : Z)
| WriteError
| Heartbeat
| Reconnect
| Pop
| SetStatusCallback
| SetErrorCallback.

Definition run_event (e : mux_event) (g : ThinMuxAdapter) : option (list Tick.t * ThinMuxAdapter) :=
  match e with
  | Start net => Some ([], (start net g).2)
  | Stop => Some ([], stop g)
  | Subscribe symbol => Some ([], (subscribe symbol g).2)
  | Unsubscribe symbol => Some ([], (unsubscribe symbol g).2)
  | Read f now => pair [] <$> read_turn f now g
  | WriteError => Some ([], g {{ transport ::= fmap WebSocketTlsTransport.doDisconnect }})
  | Heartbeat => pair [] <$> heartbeat_turn g
  | Reconnect => Some ([], if reconnect_pending g then handleReconnect g else g)
  | Pop => '(r, g) ← popTick g; Some (option_list r, g)
  | SetStatusCallback => Some ([], setStatusCallback g)
  | SetErrorCallback => Some ([], setErrorCallback g)
  end.

Fixpoint run_events (es : list mux_event) (g : ThinMuxAdapter) : option (list Tick.t * ThinMuxAdapter) :=
  match es with
  | [] => Some ([], g)
  | e :: es => '(out, g) ← run_event e g; '(outs, g) ← run_events es g; Some (out ++ outs, g)
  end.
End mux.

(** ** Any adapter behind one type *)

(** The concept [ExchangeAdapter]. *)
Class ExchangeAdapter {J : JsonOps} (T : Type) := {
  ea_initialize : ExchangeConfig → @MPMCQueue Tick.t → T → bool * T;
  ea_start : Network → T → bool * T;
  ea_stop : T → T;
  ea_subscribe : string → T → bool * T;
  ea_unsubscribe : string → T → bool * T;
  ea_isRunning : T → bool;
  ea_getStatus : T → ConnectionStatus.t;
  ea_getStatistics : T → GatewayStatistics.t;
}.

#[export] Instance ThinMuxAdapter_adapter {D : SimdOps} {J : JsonOps} {SO : SymbolOrder} : ExchangeAdapter ThinMuxAdapter := {|
  ea_initialize := initialize;
  ea_start := start;
  ea_stop := stop;
  ea_subscribe := subscribe;
  ea_unsubscribe := unsubscribe;
  ea_isRunning := isRunning;
  ea_getStatus := getStatus;
  ea_getStatistics := getStatistics;
|}.

Module AnyGateway.
Section any.
Context {J : JsonOps}.

Record Model := mkModel { T : Type; ops : ExchangeAdapter T; adapter : T }.

(** The pointer may be null. *)
Definition t : Type := option Model.

(** A call through the pointer; [null] is what the null pointer gives. *)
Definition call {R} (null : R) (f : ∀ T, ExchangeAdapter T → T → R * T) (g : t) : R * t :=
  match g with
  | Some (mkModel T ops a) => let '(r, a) := f T ops a in (r, Some (mkModel T ops a))
  | None => (null, None)
  end.

Definition initialize (cfg : ExchangeConfig) (queue : @MPMCQueue Tick.t) : t → bool * t :=
  call false (λ T ops a, ea_initialize cfg queue a).
Definition start (net : Network) : t → bool * t := call false (λ T ops a, ea_start net a).
Definition stop (g : t) : t := (call () (λ T ops a, ((), ea_stop a)) g).2.
Definition subscribe (sym : string) : t → bool * t := call false (λ T ops a, ea_subscribe sym a).
Definition unsubscribe (sym : string) : t → bool * t := call false (λ T ops a, ea_unsubscribe sym a).
Definition isRunning (g : t) : bool := match g with Some m => @ea_isRunning _ _ (ops m) (adapter m) | None => false end.
Definition getStatus (g : t) : ConnectionStatus.t :=
  match g with Some m => @ea_getStatus _ _ (ops m) (adapter m) | None => ConnectionStatus.DISCONNECTED end.
Definition getStatistics (g : t) : GatewayStatistics.t :=
  match g with Some m => @ea_getStatistics _ _ (ops m) (adapter m) | None => GatewayStatistics.init end.
End any.
End AnyGateway.

Section factory.
Context {D : SimdOps} {J : JsonOps} {SO : SymbolOrder}.

Definition select_protocol (name : string) : option Protocol :=
  let low := map_string lower name in
  if RiskEngine.contains "binance" low then Some BinanceJsonProtocol.protocol
  else if RiskEngine.contains "okx" low then Some OKXJsonProtocol.protocol
  else None.

Definition createGatewayV2 (name : string) (cfg : ExchangeConfig) (queue : @MPMCQueue Tick.t) : AnyGateway.t :=
  match select_protocol name with
  | None => None
  | Some p =>
      let adapter := ThinMuxAdapter_init (Some WebSocketTlsTransport.init) (Some p) in
      let '(ok, adapter) := initialize cfg queue adapter in
      if negb ok then None else Some (AnyGateway.mkModel ThinMuxAdapter ThinMuxAdapter_adapter adapter)
  end.
End factory.

(** ** Proofs *)

(** What a protocol promises: its ticks carry one exchange and ids that symbols resolve to. *)
Class ProtocolLaws {D : SimdOps} {J : JsonOps} (p : Protocol) := {
  protocol_exchange : ExchangeId.t;
  protocol_ticks msg ts resolve : emits (resolved resolve protocol_exchange) (parse (Protocol := p) msg ts resolve);
}.

Section laws.
Context {D : SimdOps} {J : JsonOps}.

#[export, refine] Instance binance_laws : ProtocolLaws BinanceJsonProtocol.protocol :=
  {| protocol_exchange := ExchangeId.BINANCE |}.
Proof.
  intros msg ts resolve. cbn. unfold BinanceJsonProtocol.parse. destruct (sd_parse msg); [|apply emits_silent].
  repeat match goal with
  | |- emits _ (match ?o with _ => _ end) => destruct o
  | |- emits _ (_ ≫= _) => apply emits_bind; [|intros ?]
  end; eauto using emits_silent, emits_get, depth_resolved, trade_resolved.
Defined.

#[export, refine] Instance okx_laws : ProtocolLaws OKXJsonProtocol.protocol :=
  {| protocol_exchange := ExchangeId.OKX |}.
Proof.
  intros msg ts resolve. cbn. unfold OKXJsonProtocol.parse. destruct (sd_parse msg); [|apply emits_silent].
  repeat match goal with
  | |- emits _ (match ?o with _ => _ end) => destruct o
  | |- emits _ (_ ≫= _) => apply emits_bind; [|intros ?]
  | |- emits _ (for_all _ _) => apply emits_for_all; intros ?
  end; eauto using emits_silent, emits_get, books5_resolved, okx_trade_resolved.
Defined.

(** A protocol as an exchange of the first generation: the feed's invariant is shared. *)
#[local, refine] Instance protocol_as_exchange (p : Protocol) {L : ProtocolLaws p} : Exchange := {|
  exchange_id := protocol_exchange;
  default_url := Protocols.defaultUrl;
  default_path := "/";
  normalize := Protocols.normalizeSymbol;
  parseMessage msg ts resolve := _ ← parse msg ts resolve; mret ();
  sendSubscription := Protocols.subscribeRequest;
  sendUnsubscription := Protocols.unsubscribeRequest;
  text_heartbeat := negb usesWsPing;
  preregistered _ := [];
|}.
Proof.
  intros msg ts resolve t Ht. rewrite bind_mret_ticks in Ht. pose proof (protocol_ticks msg ts resolve) as H.
  by eapply Forall_forall in H.
Defined.
End laws.

(** *** What an event parses *)

Section parsed.
Context {D : SimdOps} {J : JsonOps} {SO : SymbolOrder}.

(** The parse an event runs, if it runs one. *)
Definition event_parse (e : mux_event) (g : ThinMuxAdapter) : option (feed Z) :=
  match e, protocol g with
  | Read (Frame msg) now, Some p =>
      if reading g && running g && connected g && negb (String.eqb msg EmptyString) && negb (isPingMessage msg || isPongMessage msg)
      then Some (parse (Protocol := p) msg now (resolveSymbolId g)) else None
  | _, _ => None
  end.

Definition event_ticks (e : mux_event) (g : ThinMuxAdapter) : list Tick.t :=
  match event_parse e g with Some m => m.1 | None => [] end.
Definition event_throws (e : mux_event) (g : ThinMuxAdapter) : bool :=
  match event_parse e g with Some (_, inl _) => true | _ => false end.

(** The read loop is left by an adapter that is to reconnect and has counted 22 attempts. *)
Definition event_overflows (e : mux_event) (g : ThinMuxAdapter) : bool :=
  match e with
  | Read f _ =>
      reading g && running g && should_reconnect g &&
      (negb (connected g) || match f with Frame (String _ _) => false | _ => true end) && (22 <=? reconnect_attempts g)
  | _ => false
  end.
Definition event_fails (e : mux_event) (g : ThinMuxAdapter) : bool := event_throws e g || event_overflows e g.

Fixpoint parsed_ticks (es : list mux_event) (g : ThinMuxAdapter) : list Tick.t :=
  match es with
  | [] => []
  | e :: es => event_ticks e g ++ match run_event e g with Some (_, g) => parsed_ticks es g | None => [] end
  end.
Fixpoint fails (es : list mux_event) (g : ThinMuxAdapter) : bool :=
  match es with
  | [] => false
  | e :: es => event_fails e g || match run_event e g with Some (_, g) => fails es g | None => false end
  end.

(** The queue as [FeedSpec]. *)
Definition is_pop (e : mux_event) : bool := match e with Pop => true | _ => false end.
Definition fifo_event : mux_event → ThinMuxAdapter → list Tick.t → list Tick.t * list Tick.t :=
  FeedSpec.fifo_event event_ticks is_pop feed_capacity.
Definition fifo_run : list mux_event → ThinMuxAdapter → list Tick.t → list Tick.t * list Tick.t :=
  FeedSpec.fifo_run run_event event_ticks is_pop feed_capacity.

Lemma mux_parsed_offered es g : parsed_ticks es g = offered run_event event_ticks es g.
Proof. done. Qed.
Lemma mux_pop_silent e g : is_pop e = true → event_ticks e g = [].
Proof. unfold event_ticks, event_parse. by destruct e. Qed.
End parsed.

Section proofs.
Context {D : SimdOps} {J : JsonOps} {SO : SymbolOrder} (p : Protocol) {L : ProtocolLaws p}.
#[local] Existing Instance protocol_as_exchange.

(** The part of the state that the invariant of a feed is about. *)
Definition view (g : ThinMuxAdapter) : MarketDataGateway :=
  MarketDataGateway_init {{
    tick_queue_ := tick_queue g; statistics_ := stats g; symbol_to_id_ := SubState.symbol_to_id (sub g);
    next_symbol_id_ := SubState.next_symbol_id (sub g); subscribed_symbols_ := SubState.subscribed (sub g) }}.

Record mux_ok (c : Z) (acc pop : list Tick.t) (g : ThinMuxAdapter) : Prop := {
  mo_feed : feed_ok c acc pop (view g);
  mo_protocol : protocol g = Some p;
  mo_transport : is_Some (transport g);
  mo_attempts : 0 <= reconnect_attempts g;
}.

(** Operations that leave symbols, queue and count alone. *)
Record mux_same (g g' : ThinMuxAdapter) : Prop := {
  ms_queue : tick_queue g' = tick_queue g;
  ms_count : GatewayStatistics.ticks_processed (stats g') = GatewayStatistics.ticks_processed (stats g);
  ms_sub : sub g' = sub g;
  ms_protocol : protocol g' = protocol g;
  ms_transport : is_Some (transport g) → is_Some (transport g');
  ms_attempts : reconnect_attempts g <= reconnect_attempts g';
}.

#[local] Instance mux_same_preorder : PreOrder mux_same.
Proof. split; [by intros g; split|]. intros g1 g2 g3 [] []. split; [congruence..|tauto|lia]. Qed.

Lemma mux_ok_same c acc pop g g' : mux_ok c acc pop g → mux_same g g' → mux_ok c acc pop g'.
Proof.
  intros [H1 H2 H3 H4] [F1 F2 F3 F4 F5 F6]. split; [|congruence|tauto|lia].
  apply (feed_ok_same _ _ _ (view g)); [done| |done]. by split; cbn; rewrite ?F3.
Qed.

Lemma mux_ok_mono c c' acc pop g : c <= c' → mux_ok c acc pop g → mux_ok c' acc pop g.
Proof. intros Hc []. split; [|done..]. by eapply feed_ok_mono. Qed.

Lemma setStatus_mux st g : mux_same g (setStatus st g).
Proof. unfold setStatus. cbv zeta. by destruct (_ && _). Qed.

Lemma transport_send_mux m g : mux_same g (transport_send m g).
Proof. unfold transport_send. destruct (transport g); [|done]. by split. Qed.

Lemma send_subscribe_mux q l g : mux_same g (send_subscribe q l g).
Proof.
  unfold send_subscribe. destruct (subscribeRequest l _) as [req id].
  etrans; [|apply transport_send_mux]. by split.
Qed.
Lemma send_unsubscribe_mux q l g : mux_same g (send_unsubscribe q l g).
Proof.
  unfold send_unsubscribe. destruct (unsubscribeRequest l _) as [req id].
  etrans; [|apply transport_send_mux]. by split.
Qed.

Lemma resubscribeAll_mux g : mux_same g (resubscribeAll g).
Proof.
  unfold resubscribeAll. destruct (symbol_order _); [done|]. destruct (protocol g); [|done]. apply send_subscribe_mux.
Qed.

Lemma base_delay_None n : 0 <= n → base_delay_ms n = None ↔ 22 <= n.
Proof.
  intros Hn. unfold base_delay_ms. rewrite Z.shiftl_mul_pow2, Z.mul_1_l by done.
  destruct (Z.le_gt_cases 22 n) as [Hle|Hgt].
  - assert (2 ^ 22 <= 2 ^ n) by (apply Z.pow_le_mono_r; lia). destruct (Z.ltb_spec (1000 * 2 ^ n) (2 ^ 31)); [lia|done].
  - assert (2 ^ n <= 2 ^ 21) by (apply Z.pow_le_mono_r; lia). destruct (Z.ltb_spec (1000 * 2 ^ n) (2 ^ 31)); [|lia]. split; [done|lia].
Qed.

Lemma setStatus_fields st g :
  should_reconnect (setStatus st g) = should_reconnect g ∧ reconnect_attempts (setStatus st g) = reconnect_attempts g.
Proof. unfold setStatus. cbv zeta. by destruct (_ && _). Qed.

(** Leaving the loop fails exactly when the delay overflows. *)
Lemma leave_loop_mux g :
  0 <= reconnect_attempts g →
  if running g && should_reconnect g && (22 <=? reconnect_attempts g) then leave_loop g = None
  else ∃ g', leave_loop g = Some g' ∧ mux_same g g' ∧ reconnect_attempts g' = reconnect_attempts g.
Proof.
  intros Hn. unfold leave_loop. cbv zeta.
  change (running (g {{ reading := false }})) with (running g). change (should_reconnect (g {{ reading := false }})) with (should_reconnect g).
  destruct (running g && should_reconnect g) eqn:E; cbn [andb]; [|eexists; split; [reflexivity|by split]].
  apply andb_true_iff in E as [_ Hs]. destruct (setStatus_fields ConnectionStatus.DISCONNECTED (g {{ reading := false }})) as [S1 S2].
  pose proof (setStatus_mux ConnectionStatus.DISCONNECTED (g {{ reading := false }})) as S3.
  unfold startReconnectTimer, begin_reconnect. rewrite S1. change (should_reconnect (g {{ reading := false }})) with (should_reconnect g).
  rewrite Hs, S2. change (reconnect_attempts (g {{ reading := false }})) with (reconnect_attempts g).
  destruct (Z.leb_spec 22 (reconnect_attempts g)) as [Hle|Hlt].
  - by rewrite (proj2 (base_delay_None _ Hn) Hle).
  - destruct (base_delay_ms (reconnect_attempts g)) as [b|] eqn:Eb; [|apply base_delay_None in Eb; lia].
    cbn [mbind option_bind]. eexists. split; [reflexivity|]. split; [|exact S2].
    etrans; [|etrans; [exact S3|by split]]. by split.
Qed.

Lemma start_mux net g : mux_same g (start net g).2.
Proof.
  unfold start. destruct (running g); [done|]. cbv zeta.
  set (g1 := setStatus _ _). assert (mux_same g g1) as H1 by (etrans; [|apply setStatus_mux]; by split). clearbody g1.
  destruct (transport g1) as [tr|].
  - destruct (WebSocketTlsTransport.connect _ _ _) as [ok tr'].
    assert (mux_same g (g1 {{ transport := Some tr' }})) as H2 by (etrans; [exact H1|by split]).
    destruct ok; cbn [snd]; (etrans; [exact H2|]); [|apply setStatus_mux].
    etrans; [apply (setStatus_mux ConnectionStatus.CONNECTED)|]. etrans; [|apply resubscribeAll_mux]. by split.
  - etrans; [exact H1|]. apply setStatus_mux.
Qed.

Lemma stop_mux g : mux_same g (stop g).
Proof.
  unfold stop. destruct (negb _); [done|]. cbv zeta. etrans; [|apply setStatus_mux]. split; try done.
  intros [tr E]. exists (WebSocketTlsTransport.disconnect tr). change (WebSocketTlsTransport.disconnect <$> transport g = Some (WebSocketTlsTransport.disconnect tr)). by rewrite E.
Qed.

Lemma handleReconnect_mux g : mux_same g (handleReconnect g).
Proof. unfold handleReconnect. cbv zeta. destruct (negb _); [by split|]. split; try done. destruct g; cbn; lia. Qed.

Lemma subscribe_mux c acc pop sym g :
  mux_ok c acc pop g → c + 1 < 2 ^ 32 → mux_ok (c + 1) acc pop (subscribe sym g).2.
Proof.
  intros Hg Hc. unfold subscribe. rewrite (mo_protocol _ _ _ _ Hg). cbv zeta.
  destruct (bool_decide _) eqn:E; [eapply mux_ok_mono, Hg; lia|]. cbn [snd].
  eapply mux_ok_same; [|apply send_subscribe_mux]. destruct Hg as [H1 H2 H3 H4]. split; [|done..].
  pose proof (subscribe_ok c acc pop sym (view g) H1 Hc) as H. unfold Adapters.subscribe in H. cbv zeta in H.
  change (normalize sym) with (normalizeSymbol (Protocol := p) sym) in H.
  change (subscribed_symbols_ (view g)) with (SubState.subscribed (sub g)) in H. rewrite E in H. cbn [snd] in H.
  eapply feed_ok_same; [exact H| |done].
  match goal with |- context [Adapters.send_subscription ?l ?x] =>
    destruct (send_subscription_same l x) as ([F1 F2 F3 F4 F5] & _); set (y := Adapters.send_subscription l x) in * end.
  split; symmetry; [exact F1|exact F2|exact F3|exact F4|].
  change (union {[normalizeSymbol (Protocol := p) sym]} (subscribed_symbols_ y)
          = union {[normalizeSymbol (Protocol := p) sym]} (SubState.subscribed (sub g))). by rewrite F5.
Qed.

Lemma unsubscribe_mux c acc pop sym g : mux_ok c acc pop g → mux_ok c acc pop (unsubscribe sym g).2.
Proof.
  intros Hg. unfold unsubscribe. rewrite (mo_protocol _ _ _ _ Hg). cbv zeta. destruct (negb _); [done|].
  pose proof (send_unsubscribe_mux p [normalizeSymbol (Protocol := p) sym] g) as F. set (g1 := send_unsubscribe _ _ g) in *.
  apply (mux_ok_same _ _ _ _ _ Hg) in F. clearbody g1. cbn [snd].
  destruct F as [[K1 K2 K3 [I1 I2 I3 I4] K5 K6] H2 H3 H4]. split; [|done..]. split; try done. split; try done.
  intros s Hs. apply I3. set_solver.
Qed.

Lemma pushTicks_view ts g :
  view <$> pushTicks ts g = Adapters.pushTicks ts (view g) ∧
  ∀ g', pushTicks ts g = Some g' → protocol g' = protocol g ∧ transport g' = transport g ∧ reconnect_attempts g' = reconnect_attempts g.
Proof.
  revert g. induction ts as [|t ts IH]; intros g; cbn [pushTicks Adapters.pushTicks].
  - split; [done|]. by intros g' [= <-].
  - unfold pushTick, Adapters.pushTick. change (tick_queue_ (view g)) with (tick_queue g).
    destruct (tick_queue g) as [q|].
    + destruct (try_push feed_bits t q) as [[[] q']|]; cbn [mbind option_bind].
      * destruct (IH (g {{ tick_queue := Some q' }} {{ stats -> GatewayStatistics.ticks_processed ::= inc64 }})) as [-> H2].
        split; [done|]. by intros g' (-> & -> & ->)%H2.
      * destruct (IH (g {{ tick_queue := Some q' }})) as [-> H2]. split; [done|]. by intros g' (-> & -> & ->)%H2.
      * by split.
    + cbn [mbind option_bind]. apply IH.
Qed.

(** A step that takes the ticks [ts] off the wire. *)
Definition mux_accepts (c : Z) (pop queue ts : list Tick.t) (g : ThinMuxAdapter) : Prop :=
  mux_ok c (pop ++ fifo_push feed_capacity queue ts) pop g.

Lemma mux_accepts_none c pop queue g : mux_ok c (pop ++ queue) pop g → mux_accepts c pop queue [] g.
Proof. unfold mux_accepts. by rewrite fifo_push_none. Qed.

Lemma pushTicks_mux c pop queue ts g :
  mux_ok c (pop ++ queue) pop g → Forall (known_tick (view g)) ts → Z.of_nat (length (pop ++ queue) + length ts) < 2 ^ 62 →
  ∃ g', pushTicks ts g = Some g' ∧ mux_accepts c pop queue ts g'.
Proof.
  intros [H1 H2 H3 H4] Hts Hn.
  destruct (pushTicks_ok c pop queue ts (view g) H1 Hts Hn) as (v & Hv & Hok).
  destruct (pushTicks_view ts g) as [Hview Hrest]. rewrite Hv in Hview.
  destruct (pushTicks ts g) as [g'|] eqn:E; [|done]. cbn in Hview. injection Hview as <-.
  destruct (Hrest g' eq_refl) as (E1 & E2 & E3). exists g'. split; [done|].
  split; [done|congruence|by rewrite E2|by rewrite E3].
Qed.

Lemma handle_message_mux c pop queue msg now g :
  mux_ok c (pop ++ queue) pop g → reading g = true → running g = true → connected g = true → msg ≠ EmptyString →
  Z.of_nat (length (pop ++ queue) + length (event_ticks (Read (Frame msg) now) g)) < 2 ^ 62 →
  if event_throws (Read (Frame msg) now) g then handle_message msg now g = None
  else ∃ g', handle_message msg now g = Some g' ∧ mux_accepts c pop queue (event_ticks (Read (Frame msg) now) g) g'.
Proof.
  intros Hg Hrd Hrun Hconn Hmsg. apply String.eqb_neq in Hmsg.
  unfold event_throws, event_ticks, event_parse, handle_message.
  rewrite (mo_protocol _ _ _ _ Hg), Hrd, Hrun, Hconn, Hmsg. cbn [mbind option_bind andb negb].
  destruct (isPingMessage msg); cbn [orb negb].
  { intros _. eexists. split; [reflexivity|]. apply mux_accepts_none. eapply mux_ok_same, transport_send_mux. done. }
  destruct (isPongMessage msg); cbn [negb].
  { intros _. eexists. split; [reflexivity|]. by apply mux_accepts_none. }
  cbv zeta. set (g0 := g {{ stats -> GatewayStatistics.messages_received ::= inc64 }}).
  change (resolveSymbolId g0) with (resolveSymbolId g). intros Hn.
  pose proof (protocol_ticks msg now (resolveSymbolId g)) as Hparse.
  destruct (parse msg now (resolveSymbolId g)) as [ts r]. cbn [fst] in *.
  assert (mux_ok c (pop ++ queue) pop g0) as H0 by (eapply mux_ok_same; [done|by split]).
  destruct (pushTicks_mux c pop queue ts g0 H0) as (g1 & -> & H1); [|done|].
  - eapply Forall_impl; [exact Hparse|]. intros t (He & Hi & s & Hsym). split; [done|].
    unfold resolveSymbolId in Hsym. rewrite (mo_protocol _ _ _ _ Hg) in Hsym.
    destruct (SubState.symbol_to_id (sub g) !! normalizeSymbol s) as [i|] eqn:Hl; cbn in Hsym; [|congruence].
    rewrite Hsym. by eapply (ids_range (view g0)); [apply H0|].
  - cbn [mbind option_bind]. destruct r; [done|]. by exists g1.
Qed.

(** A turn of the loop on an open stream. *)
(** A turn of the loop on an open stream. *)
Lemma read_turn_open f now g tr :
  reading g = true → transport g = Some tr → running g = true → WebSocketTlsTransport.is_open tr = true →
  read_turn f now g =
    match f with
    | Frame EmptyString => leave_loop (g {{ transport := Some tr }})
    | Frame msg => handle_message msg now (g {{ transport := Some tr }})
    | _ => leave_loop (g {{ transport := Some (tr {{ WebSocketTlsTransport.is_open := false }}) }})
    end.
Proof.
  intros Hrd Htr Hrun Hopen. unfold read_turn, WebSocketTlsTransport.receive, WebSocketTlsTransport.isConnected.
  rewrite Hrd, Htr, Hrun, Hopen. by destruct f as [[]| |].
Qed.

(** A turn either parses nothing and leaves the loop, possibly with the overflow, or
    handles a message, possibly with an exception. *)
Lemma read_turn_mux c pop queue f now g :
  mux_ok c (pop ++ queue) pop g → Z.of_nat (length (pop ++ queue) + length (event_ticks (Read f now) g)) < 2 ^ 62 →
  if event_fails (Read f now) g then read_turn f now g = None
  else ∃ g', read_turn f now g = Some g' ∧ mux_accepts c pop queue (event_ticks (Read f now) g) g'.
Proof.
  intros Hg Hn.
  assert (event_parse (Read f now) g = None → read_turn f now g = Some g → event_overflows (Read f now) g = false →
    if event_fails (Read f now) g then read_turn f now g = None
    else ∃ g', read_turn f now g = Some g' ∧ mux_accepts c pop queue (event_ticks (Read f now) g) g') as Hidle.
  { intros He Hr Ho. unfold event_fails, event_throws, event_ticks. rewrite He, Ho. exists g. split; [done|]. by apply mux_accepts_none. }
  assert (∀ g1, mux_same g g1 → running g1 = running g → should_reconnect g1 = should_reconnect g → reconnect_attempts g1 = reconnect_attempts g →
    event_parse (Read f now) g = None → read_turn f now g = leave_loop g1 →
    event_overflows (Read f now) g = running g && should_reconnect g && (22 <=? reconnect_attempts g) →
    if event_fails (Read f now) g then read_turn f now g = None
    else ∃ g', read_turn f now g = Some g' ∧ mux_accepts c pop queue (event_ticks (Read f now) g) g') as Hleave.
  { intros g1 Hs R1 R2 R3 He Hr Ho. unfold event_fails, event_throws, event_ticks. rewrite He, Ho, Hr. cbn [orb].
    pose proof (leave_loop_mux g1 ltac:(rewrite R3; apply Hg)) as Hl. rewrite R1, R2, R3 in Hl.
    destruct (_ && (22 <=? _)); [done|]. destruct Hl as (g' & -> & Hs' & _). exists g'. split; [done|].
    apply mux_accepts_none, (mux_ok_same _ _ _ g1); [by apply (mux_ok_same _ _ _ g)|done]. }
  destruct (mo_transport _ _ _ _ Hg) as [tr Htr].
  destruct (reading g) eqn:Hrd.
  2: { apply Hidle; [unfold event_parse; rewrite Hrd; by destruct f, (protocol g)|by unfold read_turn; rewrite Hrd|by unfold event_overflows; rewrite Hrd]. }
  destruct (running g && connected g) eqn:Hrc; unfold connected in Hrc; rewrite Htr in Hrc.
  2: { apply (Hleave g); [done..| | |].
       - unfold event_parse, connected. rewrite Hrd, Htr. destruct f; try done. destruct (protocol g); [|done]. by rewrite andb_true_l, Hrc.
       - unfold read_turn. rewrite Hrd, Htr. cbn [negb]. by rewrite Hrc.
       - unfold event_overflows, connected. rewrite Hrd, Htr. cbn [andb]. destruct (running g); [|done]. cbn [andb] in *. by rewrite Hrc, andb_true_r. }
  apply andb_true_iff in Hrc as [Hrun Hopen]. pose proof (read_turn_open f now g tr Hrd Htr Hrun Hopen) as Hturn.
  assert (connected g = true) as Hconn by (unfold connected; by rewrite Htr).
  destruct f as [msg| |].
  - destruct (decide (msg = EmptyString)) as [->|Hne].
    + apply (Hleave (g {{ transport := Some tr }})); [by split|done..| |done|].
      * unfold event_parse. by destruct (protocol g); rewrite ?andb_false_r.
      * unfold event_overflows. by rewrite Hrd, Hrun, orb_true_r, andb_true_r.
    + pose proof (handle_message_mux c pop queue msg now (g {{ transport := Some tr }})) as H.
      assert (event_parse (Read (Frame msg) now) (g {{ transport := Some tr }}) = event_parse (Read (Frame msg) now) g) as Hp.
      { unfold event_parse, connected. by rewrite Htr. }
      assert (event_overflows (Read (Frame msg) now) g = false) as Ho.
      { unfold event_overflows. rewrite Hconn. destruct msg; [done|]. by rewrite andb_false_r. }
      unfold event_fails, event_ticks, event_throws in *. rewrite Hp in H. rewrite Ho, orb_false_r, Hturn. destruct msg; [done|].
      apply H; try done. eapply mux_ok_same; [done|by split].
  - apply (Hleave (g {{ transport := Some (tr {{ WebSocketTlsTransport.is_open := false }}) }})); [by split|done|done|done|by unfold event_parse; destruct (protocol g)|exact Hturn|].
    unfold event_overflows. by rewrite Hrd, Hrun, orb_true_r, andb_true_r.
  - apply (Hleave (g {{ transport := Some (tr {{ WebSocketTlsTransport.is_open := false }}) }})); [by split|done|done|done|by unfold event_parse; destruct (protocol g)|exact Hturn|].
    unfold event_overflows. by rewrite Hrd, Hrun, orb_true_r, andb_true_r.
Qed.

Lemma heartbeat_mux c acc pop g :
  mux_ok c acc pop g → ∃ g', heartbeat_turn g = Some g' ∧ mux_same g g'.
Proof.
  intros Hg. unfold heartbeat_turn. destruct (negb _); [by exists g|]. rewrite (mo_protocol _ _ _ _ Hg).
  eexists. split; [reflexivity|]. apply transport_send_mux.
Qed.

Lemma popTick_mux c pop queue g :
  mux_ok c (pop ++ queue) pop g → Z.of_nat (length (pop ++ queue)) < 2 ^ 62 →
  let out := option_list (hd_error queue) in
  ∃ g', popTick g = Some (hd_error queue, g') ∧ mux_ok c ((pop ++ out) ++ tl queue) (pop ++ out) g'.
Proof.
  intros [H1 H2 H3 H4] Hn out. destruct (popTick_ok c pop queue (view g) H1 Hn) as (v & Hv & Hok).
  unfold Adapters.popTick in Hv. unfold popTick. change (tick_queue_ (view g)) with (tick_queue g) in Hv.
  destruct (tick_queue g) as [q|]; [|done]. cbn [mbind option_bind] in *.
  destruct (try_pop feed_bits q) as [[r' q']|]; [|done]. cbn [mbind option_bind] in *. injection Hv as -> <-.
  eexists. split; [reflexivity|]. by split.
Qed.

(** Every event, from any state the adapter reaches, is the event of the bounded FIFO or fails. *)
Lemma run_event_mux c pop queue e g :
  mux_ok c (pop ++ queue) pop g → c + 1 < 2 ^ 32 → Z.of_nat (length (pop ++ queue) + length (event_ticks e g)) < 2 ^ 62 →
  if event_fails e g then run_event e g = None
  else let '(out, queue') := fifo_event e g queue in
    ∃ g', run_event e g = Some (out, g') ∧ mux_ok (c + 1) ((pop ++ out) ++ queue') (pop ++ out) g'.
Proof.
  intros Hg Hc Hn. unfold fifo_event, FeedSpec.fifo_event.
  assert (∀ g', mux_ok c (pop ++ queue) pop g' → mux_ok (c + 1) ((pop ++ []) ++ fifo_push feed_capacity queue []) (pop ++ []) g') as Hnone.
  { intros g' H. rewrite app_nil_r, fifo_push_none. eapply mux_ok_mono, H. lia. }
  assert (∀ g', mux_same g g' → mux_ok (c + 1) ((pop ++ []) ++ fifo_push feed_capacity queue []) (pop ++ []) g') as Hsame.
  { intros g' H. by apply Hnone, (mux_ok_same _ _ _ g). }
  assert (∀ e, (∀ f now, e ≠ Read f now) → event_fails e g = false) as Hfine.
  { intros [] H; try reflexivity. by destruct (H f now). }
  destruct e as [net| |sym|sym|f now| | | | | |]; cbn [run_event is_pop]; rewrite ?Hfine by done;
    try (eexists; split; [reflexivity|]).
  - apply Hsame, start_mux.
  - apply Hsame, stop_mux.
  - change (event_ticks (Subscribe sym) g) with (@nil Tick.t). rewrite app_nil_r, fifo_push_none. by apply subscribe_mux.
  - by apply Hnone, unsubscribe_mux.
  - pose proof (read_turn_mux c pop queue f now g Hg Hn) as H. destruct (event_fails _ g); [by rewrite H|].
    destruct H as (g' & -> & H1). eexists. split; [reflexivity|]. rewrite app_nil_r. eapply mux_ok_mono, H1. lia.
  - apply Hsame. split; try done. intros [tr E]. exists (WebSocketTlsTransport.doDisconnect tr).
    change (WebSocketTlsTransport.doDisconnect <$> transport g = Some (WebSocketTlsTransport.doDisconnect tr)). by rewrite E.
  - destruct (heartbeat_mux c _ pop g Hg) as (g' & E & H). rewrite E. eexists. split; [reflexivity|]. by apply Hsame.
  - apply Hsame. destruct (reconnect_pending g); [apply handleReconnect_mux|done].
  - destruct (popTick_mux c pop queue g Hg) as (g' & E & H); [cbn in Hn; lia|]. rewrite E. eexists. split; [reflexivity|].
    eapply mux_ok_mono, H. lia.
  - by apply Hsame.
  - by apply Hsame.
Qed.

Lemma run_events_mux es c pop queue g :
  mux_ok c (pop ++ queue) pop g → c + Z.of_nat (length es) < 2 ^ 32 →
  Z.of_nat (length (pop ++ queue) + length (parsed_ticks es g)) < 2 ^ 62 →
  if fails es g then run_events es g = None
  else let '(out, queue') := fifo_run es g queue in
    ∃ g', run_events es g = Some (out, g') ∧ mux_ok (c + Z.of_nat (length es)) ((pop ++ out) ++ queue') (pop ++ out) g'.
Proof.
  revert c pop queue g. induction es as [|e es IH]; intros c pop queue g Hg Hc Hn; unfold fifo_run;
    cbn [FeedSpec.fifo_run run_events parsed_ticks fails length] in *.
  - eexists. split; [reflexivity|]. rewrite app_nil_r. eapply mux_ok_mono, Hg. lia.
  - rewrite (length_app (event_ticks e g)) in Hn. pose proof (run_event_mux c pop queue e g Hg ltac:(lia) ltac:(lia)) as He.
    destruct (event_fails e g); [by rewrite He|]. cbn [orb].
    pose proof (fifo_event_sublist event_ticks is_pop feed_capacity mux_pop_silent e g queue) as Hsub. unfold fifo_event in He.
    destruct (FeedSpec.fifo_event _ _ _ e g queue) as [out queue1]. destruct He as (g1 & He & H1). rewrite He in *.
    apply sublist_length in Hsub as Hle. cbv iota beta in Hn. rewrite !length_app in Hn. rewrite !length_app in Hle.
    specialize (IH (c + 1) (pop ++ out) queue1 g1 H1 ltac:(lia)). rewrite !length_app in IH. specialize (IH ltac:(lia)). unfold fifo_run in IH.
    cbn [mbind option_bind]. destruct (fails es g1); [by rewrite IH|].
    destruct (FeedSpec.fifo_run _ _ _ _ es g1 queue1) as [outs queue2]. destruct IH as (g2 & Hrun & H2).
    rewrite Hrun. eexists. split; [reflexivity|].
    rewrite !app_assoc in *. by replace (c + Z.of_nat (S (length es))) with (c + 1 + Z.of_nat (length es)) by lia.
Qed.

(** *** An adapter whose read loop has ended *)

Record stuck (g : ThinMuxAdapter) : Prop := {
  stuck_running : running g = true;
  stuck_reading : reading g = false;
}.

Lemma transport_send_stuck m g : stuck g → stuck (transport_send m g) ∧ stats (transport_send m g) = stats g.
Proof. intros [H1 H2]. unfold transport_send. by destruct (transport g). Qed.

Lemma stuck_event e g out g' :
  stuck g → e ≠ Stop → run_event e g = Some (out, g') →
  stuck g' ∧ GatewayStatistics.messages_received (stats g') = GatewayStatistics.messages_received (stats g).
Proof.
  intros [H1 H2] He Hrun. pose proof (Build_stuck _ H1 H2) as Hg.
  destruct e as [net| |sym|sym|f now| | | | | |]; cbn [run_event] in Hrun; try done.
  - unfold start in Hrun. rewrite H1 in Hrun. injection Hrun as _ <-. done.
  - injection Hrun as _ <-. unfold subscribe. destruct (protocol g); [|done]. cbv zeta. destruct (bool_decide _); [done|].
    unfold send_subscribe. destruct (subscribeRequest _ _) as [req id]. cbn [snd].
    match goal with |- context [transport_send ?m ?x] => destruct (transport_send_stuck m x ltac:(by split)) as [K1 K2] end.
    split; [done|by rewrite K2].
  - injection Hrun as _ <-. unfold unsubscribe. destruct (protocol g); [|done]. cbv zeta. destruct (negb _); [done|].
    unfold send_unsubscribe. destruct (unsubscribeRequest _ _) as [req id]. cbn [snd].
    match goal with |- context [transport_send ?m ?x] =>
      destruct (transport_send_stuck m x ltac:(by split)) as [[] K2]; set (y := transport_send m x) in * end.
    split; [by split|]. change (GatewayStatistics.messages_received (stats y) = GatewayStatistics.messages_received (stats g)).
    by rewrite K2.
  - unfold read_turn in Hrun. rewrite H2 in Hrun. injection Hrun as _ <-. done.
  - injection Hrun as _ <-. by split.
  - unfold heartbeat_turn in Hrun. destruct (negb _); [injection Hrun as _ <-; done|]. destruct (protocol g); [|done].
    injection Hrun as _ <-. match goal with |- context [transport_send ?m ?x] => destruct (transport_send_stuck m x Hg) as [K1 K2] end.
    split; [done|by rewrite K2].
  - injection Hrun as _ <-. destruct (reconnect_pending g); [|done]. unfold handleReconnect. cbv zeta. destruct (negb _); by split.
  - unfold popTick in Hrun. destruct (tick_queue g); [|done]. cbn [mbind option_bind] in Hrun.
    destruct (try_pop _ _) as [[r q]|]; [|done]. injection Hrun as _ <-. by split.
  - injection Hrun as _ <-. by split.
  - injection Hrun as _ <-. by split.
Qed.

(** Until somebody stops it the adapter reads nothing more: the reconnection thread only counts. *)
Lemma stuck_events es g out g' :
  stuck g → Stop ∉ es → run_events es g = Some (out, g') →
  stuck g' ∧ GatewayStatistics.messages_received (stats g') = GatewayStatistics.messages_received (stats g).
Proof.
  revert g out. induction es as [|e es IH]; intros g out Hg Hs; cbn [run_events].
  - by intros [= _ <-].
  - apply not_elem_of_cons in Hs as [He Hs]. destruct (run_event e g) as [[o g1]|] eqn:E; [|done].
    destruct (stuck_event e g o g1 Hg (not_eq_sym He) E) as [H1 H2]. cbn [mbind option_bind].
    destruct (run_events es g1) as [[os g2]|] eqn:E2; [|done]. intros [= _ <-]. rewrite <-H2. by apply (IH g1 os).
Qed.

(** ** Properties *)

(** An adapter as the factory makes it. *)
Definition mux_new (cfg : ExchangeConfig) : ThinMuxAdapter :=
  (initialize cfg (MPMCQueue_init feed_bits) (ThinMuxAdapter_init (Some WebSocketTlsTransport.init) (Some p))).2.

Lemma mux_new_ok cfg : mux_ok 1 [] [] (mux_new cfg).
Proof.
  split; [|done|by eexists|done]. split; try done.
  eexists. split; [reflexivity|apply queue_state_init, feed_small].
Qed.

(** C22: whatever the order of starts, stops, subscriptions, reads, heartbeats, reconnections and
    pops, the program ends exactly when the protocol's parse of a message throws, which
    nothing catches, or when the read loop is left by an adapter that is to reconnect and has
    counted 22 reconnections, which are never reset, so that the delay overflows.
    Otherwise the adapter is a bounded first-in-first-out queue of 65536
    places to which every message offers the ticks it is parsed to ([fifo_run]): a tick is
    dropped exactly when the queue is full at that moment; those accepted are counted once and carry
    the protocol's exchange and an id handed out to a symbol. *)
Theorem mux_delivers cfg es :
  let g0 := mux_new cfg in
  1 + Z.of_nat (length es) < 2 ^ 32 → Z.of_nat (length (parsed_ticks es g0)) < 2 ^ 62 →
  if fails es g0 then run_events es g0 = None
  else ∃ delivered g q queued, run_events es g0 = Some (delivered, g) ∧
    tick_queue g = Some q ∧ rep feed_bits q queued ∧
    fifo_run es g0 [] = (delivered, queued) ∧
    (delivered ++ queued) `sublist_of` parsed_ticks es g0 ∧
    (Z.of_nat (length (parsed_ticks es g0)) <= 2 ^ 16 → delivered ++ queued = parsed_ticks es g0) ∧
    GatewayStatistics.ticks_processed (stats g) = Z.of_nat (length (delivered ++ queued)) ∧
    Forall (λ t, Tick.exchange_id t = ExchangeId.to_Z protocol_exchange ∧
                 1 <= Tick.symbol_id t < SubState.next_symbol_id (sub g)) (delivered ++ queued).
Proof.
  intros g0 Hc Hn. pose proof (run_events_mux es 1 [] [] g0 (mux_new_ok cfg) ltac:(lia) Hn) as H.
  pose proof (fifo_run_sublist run_event event_ticks is_pop feed_capacity mux_pop_silent es g0 []) as Hsub.
  pose proof (fifo_run_complete run_event event_ticks is_pop feed_capacity mux_pop_silent es g0 []) as Hall.
  rewrite <-mux_parsed_offered in Hsub, Hall. fold (fifo_run es g0 []) in Hsub, Hall.
  destruct (fails es g0); [done|]. destruct (fifo_run es g0 []) as [out queue].
  destruct H as (g & Hrun & [[(q & Hq & queued & Hacc & Hrep & _) H2 H3 _ _ _] _ _ _]). cbn [app length] in *.
  apply (inj (app out)) in Hacc as <-. exists out, g, q, queue. split_and!; try done.
  intros Hl. apply Hall. unfold feed_capacity. change (MpmcQueue.N feed_bits) with (2 ^ 16). lia.
Qed.
End proofs.

(** *** Witness: two messages of Binance, the second of which is no object. *)

Definition AnyDoc : SimdOps := {|
  elem := json_ref;
  sd_parse s := if String.eqb s "depth" then Some (sample_depth [ref_level "99" "1.5"]) else Some (JArray []);
  sd_object := sd_object (SimdOps := SimdRef (JArray []));
  sd_field := sd_field (SimdOps := SimdRef (JArray []));
  sd_string := sd_string (SimdOps := SimdRef (JArray []));
  sd_uint64 := sd_uint64 (SimdOps := SimdRef (JArray []));
  sd_bool := sd_bool (SimdOps := SimdRef (JArray []));
  sd_array := sd_array (SimdOps := SimdRef (JArray []));
|}.

#[local] Instance SampleJson : JsonOps := JsonRef.
#[local] Instance SampleOrder : SymbolOrder := {| symbol_order := elements; symbol_order_perm s := Permutation_refl _ |}.
#[local] Opaque MPMCQueue_init.
#[local] Existing Instance AnyDoc.

Definition sample_mux : ThinMuxAdapter := mux_new BinanceJsonProtocol.protocol ExchangeConfig_default.
Definition sample_start : list mux_event := [Start OpenNetwork; Subscribe "BTCUSDT"; Heartbeat].
Definition sample_connected : ThinMuxAdapter := default sample_mux (snd <$> run_events sample_start sample_mux).

Lemma mux_sample_run : run_events sample_start sample_mux = Some ([], sample_connected).
Proof. reflexivity. Qed.

Lemma mux_ticks_app es es' g out g' :
  run_events es g = Some (out, g') → parsed_ticks (es ++ es') g = parsed_ticks es g ++ parsed_ticks es' g'.
Proof.
  revert g out. induction es as [|e es IH]; intros g out; cbn [run_events parsed_ticks app].
  - intros [= _ ->]. done.
  - destruct (run_event e g) as [[o g1]|]; [|done]. cbn [mbind option_bind].
    destruct (run_events es g1) as [[os g2]|] eqn:E; [|done]. cbn. intros [= _ ->]. rewrite (IH _ _ E). by rewrite app_assoc.
Qed.

Lemma fails_app es es' g out g' :
  run_events es g = Some (out, g') → fails (es ++ es') g = fails es g || fails es' g'.
Proof.
  revert g out. induction es as [|e es IH]; intros g out; cbn [run_events fails app].
  - intros [= _ ->]. done.
  - destruct (run_event e g) as [[o g1]|]; [|done]. cbn [mbind option_bind].
    destruct (run_events es g1) as [[os g2]|] eqn:E; [|done]. cbn. intros [= _ ->]. rewrite (IH _ _ E). by rewrite orb_assoc.
Qed.

(** Twenty-two disconnections, each with its reconnection and a restart, and one more. *)
Definition reconnect_cycle : list mux_event := [Start OpenNetwork; Read EndOfStream 7; Reconnect; Stop].
Definition reconnect_cycles : list mux_event := concat (replicate 22 reconnect_cycle) ++ [Start OpenNetwork; Read EndOfStream 7].

Lemma mux_delivers_witness :
  run_events reconnect_cycles sample_mux = None ∧
  run_events (sample_start ++ [Read (Frame "other") 7]) sample_mux = None ∧
  ∃ delivered g q queued,
    run_events (sample_start ++ [Read (Frame "depth") 7]) sample_mux = Some (delivered, g) ∧
    tick_queue g = Some q ∧ rep feed_bits q queued ∧
    delivered ++ queued = book_ticks ExchangeId.BINANCE 1700000000000000 7 1 [("99", "1.5")]%string [("101", "2")]%string.
Proof.
  split; [|split].
  - refine (mux_delivers BinanceJsonProtocol.protocol ExchangeConfig_default reconnect_cycles _ _); reflexivity.
  - refine (mux_delivers BinanceJsonProtocol.protocol ExchangeConfig_default (sample_start ++ [Read (Frame "other") 7]) _ _); reflexivity.
  - assert (parsed_ticks (sample_start ++ [Read (Frame "depth") 7]) sample_mux
      = book_ticks ExchangeId.BINANCE 1700000000000000 7 1 [("99", "1.5")]%string [("101", "2")]%string) as Hp.
    { rewrite (mux_ticks_app _ _ _ _ _ mux_sample_run). cbn [parsed_ticks]. destruct (run_event _ _) as [[]|]; reflexivity. }
    pose proof (mux_delivers BinanceJsonProtocol.protocol ExchangeConfig_default (sample_start ++ [Read (Frame "depth") 7])) as H.
    cbv zeta in H. fold sample_mux in H. rewrite Hp in H. assert (fails (sample_start ++ [Read (Frame "depth") 7]) sample_mux = false) as Ht.
    { rewrite (fails_app _ _ _ _ _ mux_sample_run). cbn [fails]. destruct (run_event _ _) as [[]|]; reflexivity. }
    rewrite Ht in H. destruct H as (d & g & q & l & H1 & H2 & H3 & _ & _ & H5 & _); [reflexivity|reflexivity|].
    exists d, g, q, l. split_and!; [exact H1|exact H2|exact H3|apply H5; cbn; lia].
Defined.
