(* ===== verification/GridStrategy.v ===== *)
(** [GridStrategy] (include/chronos/strategies/grid_strategy.hpp), a strategy of the engine:
    each callback is a program over the context ([prog]), so the engine's theorems apply
    to it. Prices are compared as doubles; [std::pow] is a parameter ([Libm]). *)
From Stdlib Require Import SpecFloat.
From S2P Require Import Prelude FixedPoint Types.
From S2P Require Import Metrics.
From S2P Require StrategyEngine.
Import StrategyEngine (prog, Ret, Call, within, within_ret, within_call, GetMidPrice, SubmitOrder, CancelOrder).

(** ** Sequencing programs *)

#[export] Instance prog_ret : MRet prog := @Ret.
Fixpoint prog_bind {A B} (k : A → prog B) (p : prog A) : prog B :=
  match p with
  | Ret a => k a
  | Call c next => Call c (λ x, prog_bind k (next x))
  end.
#[export] Instance prog_mbind : MBind prog := @prog_bind.

Definition context_call {X} (c : StrategyEngine.call X) : prog X := Call c Ret.

(** ** Doubles *)

(** [std::round]: half away from zero. *)
Definition dround (d : double) : double :=
  match d with
  | S754_finite s m e =>
      if 0 <=? e then d
      else
        let den := 2 ^ (- e) in
        let q := (2 * Zpos m + den) / (2 * den) in
        if q =? 0 then S754_zero s else d_of_Z (if s then - q else q)
  | _ => d
  end.

Definition dmax (a b : double) : double := if dltb a b then b else a.
Definition dmin (a b : double) : double := if dltb b a then b else a.

(** ** The state *)

Module Config.
Record t := mk {
  grid_low : double;
  grid_high : double;
  grid_levels : Z;
  quantity : double;
  symbol_id : Z;
}.
Definition default : t := mk (d_of_Z 90) (d_of_Z 110) 10 (d_lit 1 2) 1.
End Config.

Module GridLevel.
Record t := mk {
  price : Z;
  buy_order_id : Z;
  sell_order_id : Z;
}.
End GridLevel.

Record GridStrategy := mkGrid {
  cfg_ : Config.t;
  levels_ : list GridLevel.t;
  initialized_ : bool;
  ticks_processed_ : Z;
  fills_processed_ : Z;
}.

Section grid.
Context {U : CastUB} {L : Libm}.

(** The price of level [i]. *)
Definition level_price (cfg : Config.t) (i : Z) : Z :=
  let spacing := ddiv (dsub (Config.grid_high cfg) (Config.grid_low cfg)) (d_of_Z (Config.grid_levels cfg)) in
  toDecimal (dadd (Config.grid_low cfg) (dmul spacing (d_of_Z i))).

(** The constructor; below -1 levels the reservation throws. *)
Definition GridStrategy_new (cfg : Config.t) : option GridStrategy :=
  if Config.grid_levels cfg <? -1 then None
  else Some (mkGrid cfg ((λ i, GridLevel.mk (level_price cfg (Z.of_nat i)) 0 0) <$> seq 0 (Z.to_nat (Config.grid_levels cfg + 1)))
               false 0 0).

Definition symbols (cfg : Config.t) : list Z := [Config.symbol_id cfg].
Definition tickCount (g : GridStrategy) : Z := ticks_processed_ g.
Definition fillCount (g : GridStrategy) : Z := fills_processed_ g.
Definition isInitialized (g : GridStrategy) : bool := initialized_ g.

Definition onLoad (g : GridStrategy) : prog GridStrategy := mret (g {{ initialized_ := true }}).
Definition onUnload (g : GridStrategy) : prog GridStrategy := mret (g {{ initialized_ := false }}).

(** ** Orders *)

Definition roundPrice (price : Z) (decimals : Z) : Z :=
  let v := toDouble price in
  let scale := libm_pow (d_of_Z 10) (d_of_Z decimals) in
  toDecimal (ddiv (dround (dmul v scale)) scale).

Definition limit_order (cfg : Config.t) (side : OrderSide.t) (price : Z) : OrderRequest.t :=
  OrderRequest.default {{ OrderRequest.symbol_id := Config.symbol_id cfg; OrderRequest.price := roundPrice price 1;
                          OrderRequest.quantity := toDecimal (Config.quantity cfg); OrderRequest.side := side;
                          OrderRequest.type := OrderType.LIMIT; OrderRequest.tif := TimeInForce.GTC }}.

Definition set_buy (level_idx : nat) (oid : Z) (g : GridStrategy) : GridStrategy :=
  g {{ levels_ ::= alter (λ l, l {{ GridLevel.buy_order_id := oid }}) level_idx }}.
Definition set_sell (level_idx : nat) (oid : Z) (g : GridStrategy) : GridStrategy :=
  g {{ levels_ ::= alter (λ l, l {{ GridLevel.sell_order_id := oid }}) level_idx }}.

Definition placeBuyAt (level_idx : nat) (price : Z) (g : GridStrategy) : prog (Z * GridStrategy) :=
  oid ← context_call (SubmitOrder (limit_order (cfg_ g) OrderSide.BUY price));
  mret (oid, if oid =? 0 then g else set_buy level_idx oid g).

Definition placeSellAt (level_idx : nat) (price : Z) (g : GridStrategy) : prog (Z * GridStrategy) :=
  oid ← context_call (SubmitOrder (limit_order (cfg_ g) OrderSide.SELL price));
  mret (oid, if oid =? 0 then g else set_sell level_idx oid g).

(** [if (oid) ticks_processed_++] *)
Definition count_order (oid : Z) (g : GridStrategy) : GridStrategy :=
  if oid =? 0 then g else g {{ ticks_processed_ ::= inc64 }}.

(** ** Callbacks *)

(** The two tests of a level. *)
Definition wants_buy (mid_val : double) (l : GridLevel.t) : bool :=
  dltb (toDouble (GridLevel.price l)) mid_val && (GridLevel.buy_order_id l =? 0).
Definition wants_sell (mid_val : double) (l : GridLevel.t) : bool :=
  dltb mid_val (toDouble (GridLevel.price l)) && (GridLevel.sell_order_id l =? 0).

Definition aggressive_buy (price mid_val : double) (buy_offset : Z) : Z :=
  toDecimal (dadd (dadd (dmax price mid_val) (d_lit 5 1)) (dmul (d_of_Z buy_offset) (d_lit 1 1))).
Definition aggressive_sell (price mid_val : double) (sell_offset : Z) : Z :=
  toDecimal (dsub (dsub (dmin price mid_val) (d_lit 5 1)) (dmul (d_of_Z sell_offset) (d_lit 1 1))).

(** The first branch of the loop body. *)
Definition tick_buy (i : nat) (l : GridLevel.t) (mid_val : double) (buy_offset : Z) (g : GridStrategy)
    : prog (Z * GridStrategy) :=
  if wants_buy mid_val l then
    '(oid, g) ← placeBuyAt i (aggressive_buy (toDouble (GridLevel.price l)) mid_val buy_offset) g;
    mret (buy_offset + 1, count_order oid g)
  else mret (buy_offset, g).

(** The second branch; the level is read again. *)
Definition tick_sell (i : nat) (l : GridLevel.t) (mid_val : double) (sell_offset : Z) (g : GridStrategy)
    : prog (Z * GridStrategy) :=
  if wants_sell mid_val l then
    '(oid, g) ← placeSellAt i (aggressive_sell (toDouble (GridLevel.price l)) mid_val sell_offset) g;
    mret (sell_offset + 1, count_order oid g)
  else mret (sell_offset, g).

(** The loop over the levels from index [i], [n] of them. *)
Fixpoint tick_levels (n i : nat) (mid_val : double) (buy_offset sell_offset : Z) (g : GridStrategy) : prog GridStrategy :=
  match n with
  | O => mret g
  | S n =>
      match levels_ g !! i with
      | Some l =>
          '(buy_offset, g) ← tick_buy i l mid_val buy_offset g;
          '(sell_offset, g) ← tick_sell i (default l (levels_ g !! i)) mid_val sell_offset g;
          tick_levels n (S i) mid_val buy_offset sell_offset g
      | None => mret g
      end
  end.

Definition onTick (tick : Tick.t) (g : GridStrategy) : prog GridStrategy :=
  if negb (initialized_ g) then mret g
  else
    mid ← context_call (GetMidPrice (Config.symbol_id (cfg_ g)));
    match mid with
    | None => mret g
    | Some mid => tick_levels (length (levels_ g)) 0 (toDouble mid) 0 0 g
    end.

(** The price of the counter order: not beyond the middle when there is one. *)
Definition capped (cap : double → double → double) (price : Z) (mid_val : double) : Z :=
  let price := toDouble price in
  toDecimal (if dltb dzero mid_val then cap price mid_val else price).

Definition holds_buy (order_id : Z) (l : GridLevel.t) : bool := negb (order_id =? 0) && (order_id =? GridLevel.buy_order_id l).
Definition holds_sell (order_id : Z) (l : GridLevel.t) : bool := negb (order_id =? 0) && (order_id =? GridLevel.sell_order_id l).

Fixpoint fill_levels (n i : nat) (order_id : Z) (mid_val : double) (g : GridStrategy) : prog GridStrategy :=
  match n with
  | O => mret g
  | S n =>
      match levels_ g !! i with
      | Some l =>
          if holds_buy order_id l then
            let g := (set_buy i 0 g) {{ fills_processed_ ::= inc64 }} in
            match levels_ g !! S i with
            | Some above => '(_, g) ← placeSellAt (S i) (capped dmin (GridLevel.price above) mid_val) g; mret g
            | None => mret g
            end
          else if holds_sell order_id l then
            let g := (set_sell i 0 g) {{ fills_processed_ ::= inc64 }} in
            match i with
            | O => mret g
            | S below =>
                match levels_ g !! below with
                | Some b => '(_, g) ← placeBuyAt below (capped dmax (GridLevel.price b) mid_val) g; mret g
                | None => mret g
                end
            end
          else fill_levels n (S i) order_id mid_val g
      | None => mret g
      end
  end.

Definition onFill (fill : Fill.t) (g : GridStrategy) : prog GridStrategy :=
  mid ← context_call (GetMidPrice (Config.symbol_id (cfg_ g)));
  let mid_val := from_option toDouble dzero mid in
  fill_levels (length (levels_ g)) 0 (Fill.order_id fill) mid_val g.

(** [ctx.cancelOrder(id); id = 0]: the answer is not looked at. *)
Definition timer_buy (i : nat) (l : GridLevel.t) (mid_val : double) (g : GridStrategy) : prog GridStrategy :=
  if dltb mid_val (toDouble (GridLevel.price l)) && negb (GridLevel.buy_order_id l =? 0)
  then _ ← context_call (CancelOrder (GridLevel.buy_order_id l)); mret (set_buy i 0 g)
  else mret g.
Definition timer_sell (i : nat) (l : GridLevel.t) (mid_val : double) (g : GridStrategy) : prog GridStrategy :=
  if dltb (toDouble (GridLevel.price l)) mid_val && negb (GridLevel.sell_order_id l =? 0)
  then _ ← context_call (CancelOrder (GridLevel.sell_order_id l)); mret (set_sell i 0 g)
  else mret g.

Fixpoint timer_levels (n i : nat) (mid_val : double) (g : GridStrategy) : prog GridStrategy :=
  match n with
  | O => mret g
  | S n =>
      match levels_ g !! i with
      | Some l => g ← timer_buy i l mid_val g; g ← timer_sell i l mid_val g; timer_levels n (S i) mid_val g
      | None => mret g
      end
  end.

Definition onTimer (ts : Z) (g : GridStrategy) : prog GridStrategy :=
  if negb (initialized_ g) then mret g
  else
    mid ← context_call (GetMidPrice (Config.symbol_id (cfg_ g)));
    match mid with
    | None => mret g
    | Some mid => timer_levels (length (levels_ g)) 0 (toDouble mid) g
    end.

(** The strategy as the engine sees it. *)
Definition grid_strategy (cfg : Config.t) : StrategyEngine.Strategy GridStrategy :=
  StrategyEngine.mkStrategy (symbols cfg) onLoad onUnload onTick onFill onTimer.
End grid.

(** ** Playing a callback

    The context answers the middle price with [mid], the submissions with the ids of a list (0
    when it has run out) and the cancellations with [cancel_ok]; the orders submitted and the ids
    cancelled are collected. *)
Section play.
Context (mid : option Z) (cancel_ok : bool).

Record trace (A : Type) := mkTrace {
  result : A;
  ids_left : list Z;
  submitted : list OrderRequest.t;
  cancelled : list Z;
}.
Arguments mkTrace {A}.

Definition answer {X} (c : StrategyEngine.call X) (ids : list Z) : X * list Z * list OrderRequest.t * list Z :=
  match c in StrategyEngine.call X return X * list Z * list OrderRequest.t * list Z with
  | StrategyEngine.GetBestBid _ => (None, ids, [], [])
  | StrategyEngine.GetBestAsk _ => (None, ids, [], [])
  | StrategyEngine.GetMidPrice _ => (mid, ids, [], [])
  | StrategyEngine.GetTop5Bids _ => ([], ids, [], [])
  | StrategyEngine.GetTop5Asks _ => ([], ids, [], [])
  | StrategyEngine.GetPosition _ => (None, ids, [], [])
  | StrategyEngine.GetAvailableCapital => (0, ids, [], [])
  | StrategyEngine.CurrentTimestampUs => (0, ids, [], [])
  | StrategyEngine.SubmitOrder order => (default 0 (hd_error ids), tl ids, [order], [])
  | StrategyEngine.CancelOrder order_id => (cancel_ok, ids, [], [order_id])
  end.

Fixpoint play {A} (ids : list Z) (p : prog A) : trace A :=
  match p with
  | Ret a => mkTrace a ids [] []
  | Call c k =>
      let '(x, ids, s, d) := answer c ids in
      let t := play ids (k x) in
      mkTrace (result _ t) (ids_left _ t) (s ++ submitted _ t) (d ++ cancelled _ t)
  end.

Lemma play_bind {A B} ids (p : prog A) (k : A → prog B) :
  play ids (p ≫= k) =
    let t := play ids p in
    let t' := play (ids_left _ t) (k (result _ t)) in
    mkTrace (result _ t') (ids_left _ t') (submitted _ t ++ submitted _ t') (cancelled _ t ++ cancelled _ t').
Proof.
  revert ids. induction p as [a|X c next IH]; intros ids; cbn.
  - by destruct (play ids (k a)).
  - destruct (answer c ids) as [[[x ids'] s] d]. unfold mbind, prog_mbind in IH. rewrite IH. cbn. by rewrite !app_assoc.
Qed.
End play.
Arguments result {A}.
Arguments ids_left {A}.
Arguments submitted {A}.
Arguments cancelled {A}.

(** ** What the levels hold *)

Definition nonzero (l : list Z) : list Z := filter (λ z, z ≠ 0) l.
Definition level_orders (l : GridLevel.t) : list Z := nonzero [GridLevel.buy_order_id l; GridLevel.sell_order_id l].
(** The orders the strategy knows of. *)
Definition held (g : GridStrategy) : list Z := levels_ g ≫= level_orders.

#[local] Arguments nonzero : simpl never.
#[local] Arguments level_orders : simpl never.

Lemma nonzero_app l k : nonzero (l ++ k) = nonzero l ++ nonzero k.
Proof. apply filter_app. Qed.

Lemma level_orders_mk p b s : level_orders (GridLevel.mk p b s) = nonzero [b] ++ nonzero [s].
Proof. by rewrite <-nonzero_app. Qed.

Lemma held_insert g i l l' :
  levels_ g !! i = Some l →
  ∃ rest, held g ≡ₚ level_orders l ++ rest ∧ held (g {{ levels_ ::= <[i := l']> }}) ≡ₚ level_orders l' ++ rest.
Proof.
  intros Hi. unfold held. cbn. exists ((take i (levels_ g) ≫= level_orders) ++ (drop (S i) (levels_ g) ≫= level_orders)).
  rewrite <-(take_drop_middle (levels_ g) i l Hi) at 1. rewrite insert_take_drop by (by eapply lookup_lt_Some).
  rewrite !bind_app. cbn. split; rewrite Permutation_app_swap_app; by rewrite ?app_nil_r.
Qed.

Section proofs.
Context {U : CastUB} {L : Libm}.

(** A step of the tick loop on level [i]: it answers with the next states. *)
Record slot_step (i : nat) (l : GridLevel.t) (side : option OrderSide.t) (ids : list Z) (g g' : GridStrategy)
    (ids' : list Z) (subs : list OrderRequest.t) : Prop := {
  ss_side : OrderRequest.side <$> subs = option_list side;
  ss_ids : ids' = drop (length subs) ids;
  ss_cfg : cfg_ g' = cfg_ g;
  ss_orders : Forall (λ o, ∃ s p, o = limit_order (cfg_ g) s p) subs;
  ss_level : ∃ l', levels_ g' = <[i := l']> (levels_ g) ∧ GridLevel.price l' = GridLevel.price l ∧
      level_orders l' ≡ₚ level_orders l ++ nonzero (take (length subs) ids) ∧
      (GridLevel.buy_order_id l ≠ 0 → GridLevel.buy_order_id l' = GridLevel.buy_order_id l) ∧
      (GridLevel.sell_order_id l ≠ 0 → GridLevel.sell_order_id l' = GridLevel.sell_order_id l);
}.

Lemma alter_level (f : GridLevel.t → GridLevel.t) i l (k : list GridLevel.t) :
  k !! i = Some l → alter f i k = <[i := f l]> k.
Proof.
  revert i. induction k as [|x k IH]; intros [|i] Hi; cbn in *; [done|done|by simplify_eq|]. f_equal. by apply IH.
Qed.

Lemma set_buy_levels g i l oid :
  levels_ g !! i = Some l → levels_ (set_buy i oid g) = <[i := l {{ GridLevel.buy_order_id := oid }}]> (levels_ g).
Proof. destruct g. apply (alter_level (λ l, l {{ GridLevel.buy_order_id := oid }})). Qed.
Lemma set_sell_levels g i l oid :
  levels_ g !! i = Some l → levels_ (set_sell i oid g) = <[i := l {{ GridLevel.sell_order_id := oid }}]> (levels_ g).
Proof. destruct g. apply (alter_level (λ l, l {{ GridLevel.sell_order_id := oid }})). Qed.

Lemma nonzero_take1 ids : nonzero (take 1 ids) = nonzero [default 0 (hd_error ids)].
Proof. by destruct ids. Qed.

Lemma tick_buy_step m b i l mv bo g ids :
  levels_ g !! i = Some l →
  let t := play m b ids (tick_buy i l mv bo g) in
  slot_step i l (if wants_buy mv l then Some OrderSide.BUY else None) ids g (result t).2 (ids_left t) (submitted t) ∧
  cancelled t = [] ∧ initialized_ (result t).2 = initialized_ g.
Proof.
  intros Hi. unfold tick_buy. destruct (wants_buy mv l) eqn:Hw.
  - cbn. apply andb_true_iff in Hw as [_ Hz%Z.eqb_eq].
    set (oid := default 0 (hd_error ids)). split_and!; [|done|].
    + split; [done|by destruct ids|unfold count_order; by destruct (oid =? 0)|by repeat econstructor|].
      exists (if oid =? 0 then l else l {{ GridLevel.buy_order_id := oid }}).
      change (length _) with 1%nat. rewrite nonzero_take1. fold oid. unfold count_order.
      destruct (Z.eqb_spec oid 0) as [->|Ho].
      * split_and!; try done; [by rewrite list_insert_id|by rewrite app_nil_r].
      * split_and!; try done.
        { exact (set_buy_levels g i l oid Hi). }
        destruct l as [pr bi si]. cbn in Hz. subst bi.
        change (level_orders (GridLevel.mk pr oid si) ≡ₚ level_orders (GridLevel.mk pr 0 si) ++ nonzero [oid]).
        rewrite !level_orders_mk. apply Permutation_app_comm.
    + unfold count_order. by destruct (oid =? 0).
  - cbn. split_and!; [|done|done]. split; cbn; try done.
    exists l. rewrite take_0, app_nil_r. by rewrite list_insert_id.
Qed.

Lemma tick_sell_step m b i l mv so g ids :
  levels_ g !! i = Some l →
  let t := play m b ids (tick_sell i l mv so g) in
  slot_step i l (if wants_sell mv l then Some OrderSide.SELL else None) ids g (result t).2 (ids_left t) (submitted t) ∧
  cancelled t = [] ∧ initialized_ (result t).2 = initialized_ g.
Proof.
  intros Hi. unfold tick_sell. destruct (wants_sell mv l) eqn:Hw.
  - cbn. apply andb_true_iff in Hw as [_ Hz%Z.eqb_eq].
    set (oid := default 0 (hd_error ids)). split_and!; [|done|].
    + split; [done|by destruct ids|unfold count_order; by destruct (oid =? 0)|by repeat econstructor|].
      exists (if oid =? 0 then l else l {{ GridLevel.sell_order_id := oid }}).
      change (length _) with 1%nat. rewrite nonzero_take1. fold oid. unfold count_order.
      destruct (Z.eqb_spec oid 0) as [->|Ho].
      * split_and!; try done; [by rewrite list_insert_id|by rewrite app_nil_r].
      * split_and!; try done.
        { exact (set_sell_levels g i l oid Hi). }
        destruct l as [pr bi si]. cbn in Hz. subst si.
        change (level_orders (GridLevel.mk pr bi oid) ≡ₚ level_orders (GridLevel.mk pr bi 0) ++ nonzero [oid]).
        by rewrite !level_orders_mk, app_nil_r.
    + unfold count_order. by destruct (oid =? 0).
  - cbn. split_and!; [|done|done]. split; cbn; try done.
    exists l. rewrite take_0, app_nil_r. by rewrite list_insert_id.
Qed.

(** The orders a level lacks. *)
Definition gaps (mv : double) (l : GridLevel.t) : list OrderSide.t :=
  (if wants_buy mv l then [OrderSide.BUY] else []) ++ (if wants_sell mv l then [OrderSide.SELL] else []).

(** No order a level holds is replaced. *)
Definition keeps (l l' : GridLevel.t) : Prop :=
  (GridLevel.buy_order_id l ≠ 0 → GridLevel.buy_order_id l' = GridLevel.buy_order_id l) ∧
  (GridLevel.sell_order_id l ≠ 0 → GridLevel.sell_order_id l' = GridLevel.sell_order_id l).
#[local] Instance keeps_preorder : PreOrder keeps.
Proof.
  split; [by intros l; split|]. intros x y z [X1 X2] [Y1 Y2].
  split; intros Hz; [rewrite Y1, X1|rewrite Y2, X2]; rewrite ?X1, ?X2; done.
Qed.

(** What a stretch of the loop does to the state. *)
Record tick_ok (sides : list OrderSide.t) (ids : list Z) (g : GridStrategy) (t : trace GridStrategy) : Prop := {
  tk_sides : OrderRequest.side <$> submitted t = sides;
  tk_ids : ids_left t = drop (length (submitted t)) ids;
  tk_cancelled : cancelled t = [];
  tk_cfg : cfg_ (result t) = cfg_ g;
  tk_orders : Forall (λ o, ∃ s p, o = limit_order (cfg_ g) s p) (submitted t);
  tk_prices : GridLevel.price <$> levels_ (result t) = GridLevel.price <$> levels_ g;
  tk_held : held (result t) ≡ₚ held g ++ nonzero (take (length (submitted t)) ids);
  tk_kept : Forall2 keeps (levels_ g) (levels_ (result t));
}.

Lemma tick_ok_nil ids g : tick_ok [] ids g (mkTrace _ g ids [] []).
Proof.
  split; cbn; try done; by rewrite take_0, app_nil_r.
Qed.

Lemma tick_ok_step i l side ids g g1 ids1 subs t sides :
  levels_ g !! i = Some l → slot_step i l side ids g g1 ids1 subs → tick_ok sides ids1 g1 t →
  tick_ok (option_list side ++ sides) ids g (mkTrace _ (result t) (ids_left t) (subs ++ submitted t) (cancelled t)).
Proof.
  intros Hi [S1 S2 S3 S4 (l' & Hl & Hp & Ho & Hb & Hs)] [T1 T2 T3 T4 T5 T6 T7 T8]. pose proof (lookup_lt_Some _ _ _ Hi) as Hlt.
  assert (g1 = g1 {{ levels_ ::= λ _, levels_ g1 }}) as _ by (by destruct g1).
  split; cbn.
  - by rewrite fmap_app, S1, T1.
  - rewrite T2, S2, length_app, drop_drop. done.
  - done.
  - congruence.
  - apply Forall_app. split; [done|]. by rewrite <-S3.
  - rewrite T6, Hl, list_fmap_insert, list_insert_id; [done|]. by rewrite list_lookup_fmap, Hi, Hp.
  - rewrite T7, length_app, <-take_take_drop, nonzero_app, <-S2.
    destruct (held_insert g i l l' Hi) as (rest & H1 & H2). unfold held in *. cbn in H2. rewrite Hl. cbn [levels_] in H2.
    etrans; [apply Permutation_app_tail; exact H2|]. rewrite H1, Ho. rewrite <-!app_assoc. apply Permutation_app_head, Permutation_app_swap_app.
  - assert (Forall2 keeps (levels_ g) (levels_ g1)) as H0.
    { rewrite Hl. apply Forall2_same_length_lookup_2; [by rewrite length_insert|].
      intros j x y Hx [(<- & <- & _)|[Hne Hy]]%list_lookup_insert_Some.
      - simplify_eq. by split.
      - simplify_eq. reflexivity. }
    by etrans.
Qed.

Lemma tick_buy_sell_test m b i l mv bo g ids l1 :
  levels_ g !! i = Some l → levels_ (result (play m b ids (tick_buy i l mv bo g))).2 !! i = Some l1 →
  wants_sell mv l1 = wants_sell mv l.
Proof.
  intros Hi. unfold tick_buy. destruct (wants_buy mv l); cbn; [|intros H; by simplify_eq].
  set (oid := default 0 (hd_error ids)). unfold count_order. destruct (oid =? 0); [intros H; by simplify_eq|].
  intros H. change (levels_ (set_buy i oid g) !! i = Some l1) in H.
  rewrite (set_buy_levels g i l oid Hi), list_lookup_insert_eq in H by (by eapply lookup_lt_Some). by injection H as <-.
Qed.

Lemma tick_levels_ok m b mv n i bo so g ids :
  (i + n = length (levels_ g))%nat →
  tick_ok (drop i (levels_ g) ≫= gaps mv) ids g (play m b ids (tick_levels n i mv bo so g)).
Proof.
  revert i bo so g ids. induction n as [|n IH]; intros i bo so g ids Hn; cbn [tick_levels].
  - rewrite drop_ge by lia. apply tick_ok_nil.
  - destruct (lookup_lt_is_Some_2 (levels_ g) i ltac:(lia)) as [l Hi]. rewrite Hi, (drop_S _ l) by done. cbn [mbind list_bind].
    rewrite play_bind. cbv zeta.
    destruct (tick_buy_step m b i l mv bo g ids Hi) as (S1 & C1 & _).
    pose proof (tick_buy_sell_test m b i l mv bo g ids) as Htest.
    destruct (play m b ids (tick_buy i l mv bo g)) as [[bo1 g1] ids1 subs1 c1]. cbn [result ids_left submitted cancelled snd] in *. subst c1.
    destruct (ss_level _ _ _ _ _ _ _ _ S1) as (l1 & Hl1 & _).
    assert (levels_ g1 !! i = Some l1) as Hi1 by (rewrite Hl1; apply list_lookup_insert_eq; lia).
    rewrite Hi1. change (default l (Some l1)) with l1. rewrite play_bind. cbv zeta.
    destruct (tick_sell_step m b i l1 mv so g1 ids1 Hi1) as (S2 & C2 & _). rewrite (Htest l1 Hi Hi1) in S2.
    destruct (play m b ids1 (tick_sell i l1 mv so g1)) as [[so1 g2] ids2 subs2 c2]. cbn [result ids_left submitted cancelled snd] in *. subst c2.
    destruct (ss_level _ _ _ _ _ _ _ _ S2) as (l2 & Hl2 & _).
    assert (drop (S i) (levels_ g2) = drop (S i) (levels_ g)) as Hd by (rewrite Hl2, Hl1, !drop_insert_lt by lia; done).
    specialize (IH (S i) bo1 so1 g2 ids2). rewrite Hd in IH.
    assert (length (levels_ g2) = length (levels_ g)) as Hlen by (by rewrite Hl2, Hl1, !length_insert). specialize (IH ltac:(lia)).
    pose proof (tick_ok_step _ _ _ _ _ _ _ _ _ _ Hi1 S2 IH) as T2. pose proof (tick_ok_step _ _ _ _ _ _ _ _ _ _ Hi S1 T2) as T1.
    unfold gaps. cbn [submitted ids_left result cancelled] in T1. rewrite <-app_assoc.
    destruct (wants_buy mv l), (wants_sell mv l); exact T1.
Qed.

(** C39: a tick while the book has a middle price submits exactly one order for each level
    below the middle without a buy order and one for each level above it without a sell order, limit
    orders of the configured symbol and quantity; every id the engine answers is
    held by a level from then on, and no id held before is given up. *)
Theorem tick_fills_gaps m b t g ids :
  initialized_ g = true →
  let r := play (Some m) b ids (onTick t g) in
  OrderRequest.side <$> submitted r = levels_ g ≫= gaps (toDouble m) ∧
  Forall (λ o, ∃ s p, o = limit_order (cfg_ g) s p) (submitted r) ∧ cancelled r = [] ∧
  GridLevel.price <$> levels_ (result r) = GridLevel.price <$> levels_ g ∧
  held (result r) ≡ₚ held g ++ nonzero (take (length (submitted r)) ids) ∧
  Forall2 keeps (levels_ g) (levels_ (result r)).
Proof.
  intros Hinit r. unfold r, onTick. rewrite Hinit. cbn [negb]. rewrite play_bind. cbn.
  destruct (tick_levels_ok (Some m) b (toDouble m) (length (levels_ g)) 0 0 0 g ids eq_refl) as [T1 T2 T3 T4 T5 T6 T7 T8].
  by rewrite drop_0 in T1.
Qed.

(** ** The timer *)

(** The orders of a level on the wrong side of the middle. *)
Definition stale (mv : double) (l : GridLevel.t) : list Z :=
  (if dltb mv (toDouble (GridLevel.price l)) && negb (GridLevel.buy_order_id l =? 0) then [GridLevel.buy_order_id l] else []) ++
  (if dltb (toDouble (GridLevel.price l)) mv && negb (GridLevel.sell_order_id l =? 0) then [GridLevel.sell_order_id l] else []).

Lemma nonzero_one z : z ≠ 0 → nonzero [z] = [z].
Proof. intros Hz. unfold nonzero. by rewrite filter_cons_True. Qed.

(** A level gives up the order [z]. *)
Lemma orders_drop (k : list GridLevel.t) i l l' z :
  k !! i = Some l → level_orders l' ++ [z] ≡ₚ level_orders l →
  (<[i := l']> k ≫= level_orders) ++ [z] ≡ₚ (k ≫= level_orders).
Proof.
  intros Hi Hz. revert i Hi. induction k as [|x k IH]; intros [|i] Hi; try done; cbn in Hi.
  - injection Hi as ->. cbn. rewrite <-Hz, <-!app_assoc. by apply Permutation_app_head, Permutation_app_comm.
  - cbn. rewrite <-app_assoc. by apply Permutation_app_head, IH.
Qed.

Lemma held_set_buy g i l :
  levels_ g !! i = Some l → GridLevel.buy_order_id l ≠ 0 → held (set_buy i 0 g) ++ [GridLevel.buy_order_id l] ≡ₚ held g.
Proof.
  intros Hi Hz. unfold held. rewrite (set_buy_levels g i l 0 Hi). apply (orders_drop _ _ l); [done|].
  destruct l as [pr bi si]. cbn [GridLevel.buy_order_id] in *.
  change (level_orders (GridLevel.mk pr 0 si) ++ [bi] ≡ₚ level_orders (GridLevel.mk pr bi si)).
  rewrite !level_orders_mk, (nonzero_one bi Hz). apply Permutation_app_comm.
Qed.

Lemma held_set_sell g i l :
  levels_ g !! i = Some l → GridLevel.sell_order_id l ≠ 0 → held (set_sell i 0 g) ++ [GridLevel.sell_order_id l] ≡ₚ held g.
Proof.
  intros Hi Hz. unfold held. rewrite (set_sell_levels g i l 0 Hi). apply (orders_drop _ _ l); [done|].
  destruct l as [pr bi si]. cbn [GridLevel.sell_order_id] in *.
  change (level_orders (GridLevel.mk pr bi 0) ++ [si] ≡ₚ level_orders (GridLevel.mk pr bi si)).
  by rewrite !level_orders_mk, (nonzero_one si Hz), app_nil_r.
Qed.

(** What a stretch of the timer's loop does to the state. *)
Record timer_ok (canc ids : list Z) (g : GridStrategy) (t : trace GridStrategy) : Prop := {
  tm_submitted : submitted t = [];
  tm_ids : ids_left t = ids;
  tm_cancelled : cancelled t = canc;
  tm_prices : GridLevel.price <$> levels_ (result t) = GridLevel.price <$> levels_ g;
  tm_held : held (result t) ++ canc ≡ₚ held g;
}.

Lemma timer_ok_step canc canc' ids g g1 t :
  GridLevel.price <$> levels_ g1 = GridLevel.price <$> levels_ g → held g1 ++ canc ≡ₚ held g → timer_ok canc' ids g1 t →
  timer_ok (canc ++ canc') ids g (mkTrace _ (result t) (ids_left t) (submitted t) (canc ++ cancelled t)).
Proof.
  intros Hp Hh [T1 T2 T3 T4 T5]. split; cbn; [done|done|by rewrite T3|congruence|].
  rewrite <-Hh, <-T5, <-!app_assoc. apply Permutation_app_head, Permutation_app_comm.
Qed.

Lemma timer_levels_ok m b mv n i g ids :
  (i + n = length (levels_ g))%nat →
  timer_ok (drop i (levels_ g) ≫= stale mv) ids g (play m b ids (timer_levels n i mv g)).
Proof.
  revert i g. induction n as [|n IH]; intros i g Hn; cbn [timer_levels].
  - rewrite drop_ge by lia. split; cbn; try done. by rewrite app_nil_r.
  - destruct (lookup_lt_is_Some_2 (levels_ g) i ltac:(lia)) as [l Hi]. rewrite Hi, (drop_S _ l) by done. cbn [mbind list_bind].
    set (tb := dltb mv (toDouble (GridLevel.price l)) && negb (GridLevel.buy_order_id l =? 0)).
    set (ts := dltb (toDouble (GridLevel.price l)) mv && negb (GridLevel.sell_order_id l =? 0)).
    set (g1 := if tb then set_buy i 0 g else g). set (g2 := if ts then set_sell i 0 g1 else g1).
    assert (play m b ids (timer_buy i l mv g) = mkTrace _ g1 ids [] (if tb then [GridLevel.buy_order_id l] else [])) as Hb
      by (unfold timer_buy, g1; fold tb; by destruct tb).
    assert (play m b ids (timer_sell i l mv g1) = mkTrace _ g2 ids [] (if ts then [GridLevel.sell_order_id l] else [])) as Hs
      by (unfold timer_sell, g2; fold ts; by destruct ts).
    rewrite play_bind. cbv zeta. rewrite Hb. cbn [result ids_left submitted cancelled].
    rewrite play_bind. cbv zeta. rewrite Hs. cbn [result ids_left submitted cancelled].
    assert (∃ l1, levels_ g1 !! i = Some l1 ∧ levels_ g1 = <[i := l1]> (levels_ g) ∧ GridLevel.price l1 = GridLevel.price l ∧
              GridLevel.sell_order_id l1 = GridLevel.sell_order_id l) as (l1 & Hi1 & Hl1 & Hp1 & Hs1).
    { unfold g1. destruct tb; [|exists l; by rewrite list_insert_id].
      rewrite (set_buy_levels g i l 0 Hi). eexists. split; [by rewrite list_lookup_insert_eq by lia|]. done. }
    assert (∃ l2, levels_ g2 = <[i := l2]> (levels_ g1) ∧ GridLevel.price l2 = GridLevel.price l1) as (l2 & Hl2 & Hp2).
    { unfold g2. destruct ts; [|exists l1; by rewrite list_insert_id]. rewrite (set_sell_levels g1 i l1 0 Hi1). by eexists. }
    assert (drop (S i) (levels_ g2) = drop (S i) (levels_ g)) as Hd by (rewrite Hl2, Hl1, !drop_insert_lt by lia; done).
    specialize (IH (S i) g2). rewrite Hd in IH.
    assert (length (levels_ g2) = length (levels_ g)) as Hlen by (by rewrite Hl2, Hl1, !length_insert). specialize (IH ltac:(lia)).
    apply (timer_ok_step (if ts then [GridLevel.sell_order_id l] else []) _ _ g1) in IH.
    + apply (timer_ok_step (if tb then [GridLevel.buy_order_id l] else []) _ _ g) in IH.
      * unfold stale. fold tb ts. rewrite <-app_assoc. exact IH.
      * rewrite Hl1, list_fmap_insert, list_insert_id; [done|]. by rewrite list_lookup_fmap, Hi, Hp1.
      * unfold g1. destruct tb eqn:E; [|by rewrite app_nil_r]. apply held_set_buy; [done|].
        apply andb_true_iff in E as [_ E%negb_true_iff]. by apply Z.eqb_neq.
    + rewrite Hl2, list_fmap_insert, list_insert_id; [done|]. by rewrite list_lookup_fmap, Hi1, Hp2.
    + unfold g2. destruct ts eqn:E; [|by rewrite app_nil_r]. rewrite <-Hs1. apply held_set_sell; [done|].
      apply andb_true_iff in E as [_ E%negb_true_iff]. rewrite Hs1. by apply Z.eqb_neq.
Qed.

(** The timer submits nothing, asks to cancel exactly the buy orders of levels above the
    middle and the sell orders of levels below it, level by level, and gives up exactly the ids it
    asked to cancel, also where the engine refuses the cancellation. *)
Lemma timer_cancels_stale m ok ts g ids :
  initialized_ g = true →
  let r := play (Some m) ok ids (onTimer ts g) in
  submitted r = [] ∧ cancelled r = (levels_ g ≫= stale (toDouble m)) ∧
  GridLevel.price <$> levels_ (result r) = GridLevel.price <$> levels_ g ∧
  held (result r) ++ cancelled r ≡ₚ held g.
Proof.
  intros Hinit r. unfold r, onTimer. rewrite Hinit. cbn [negb]. rewrite play_bind. cbn.
  destruct (timer_levels_ok (Some m) ok (toDouble m) (length (levels_ g)) 0 g ids eq_refl) as [T1 T2 T3 T4 T5].
  rewrite drop_0 in *. split_and!; try done. by rewrite T3.
Qed.

(** ** Fills *)

Lemma elem_of_level_orders w l :
  w ∈ level_orders l ↔ w ≠ 0 ∧ (w = GridLevel.buy_order_id l ∨ w = GridLevel.sell_order_id l).
Proof. unfold level_orders, nonzero. rewrite list_elem_of_filter, !elem_of_cons, elem_of_nil. tauto. Qed.

Lemma holds_elem w l : holds_buy w l || holds_sell w l = true ↔ w ∈ level_orders l.
Proof.
  rewrite elem_of_level_orders. unfold holds_buy, holds_sell.
  destruct (Z.eqb_spec w 0), (Z.eqb_spec w (GridLevel.buy_order_id l)), (Z.eqb_spec w (GridLevel.sell_order_id l)); cbn; naive_solver.
Qed.

Lemma elem_of_orders (k : list GridLevel.t) w : w ∈ (k ≫= level_orders) ↔ ∃ i l, k !! i = Some l ∧ w ∈ level_orders l.
Proof. rewrite list_elem_of_bind. setoid_rewrite list_elem_of_lookup. naive_solver. Qed.

Lemma orders_unique (k : list GridLevel.t) i j a b w :
  NoDup (k ≫= level_orders) → k !! i = Some a → k !! j = Some b → w ∈ level_orders a → w ∈ level_orders b → i = j.
Proof.
  revert i j. induction k as [|x k IH]; intros i j; [done|]. cbn. intros (_ & Hx & Hk)%NoDup_app Hi Hj Ha Hb.
  destruct i as [|i], j as [|j]; cbn in *; simplify_eq; [done| | |by f_equal; eapply IH];
    (destruct (Hx w); [done|]; apply elem_of_orders; eauto).
Qed.

(** No level holds the same order on both sides. *)
Lemma orders_once (k : list GridLevel.t) i a w :
  NoDup (k ≫= level_orders) → k !! i = Some a → w ≠ 0 → GridLevel.buy_order_id a = w → GridLevel.sell_order_id a = w → False.
Proof.
  intros Hnd Hi Hw Hb Hs. assert (NoDup (level_orders a)) as H.
  { revert i Hi. induction k as [|x k IH]; intros [|i] Hi; try done; cbn in *; apply NoDup_app in Hnd as (H1 & _ & H2);
      [by injection Hi as <-|by eapply IH]. }
  destruct a as [pr bi si]. cbn in *. subst. rewrite level_orders_mk, !nonzero_one in H by done.
  apply NoDup_cons in H as [H _]. apply H. by left.
Qed.

(** The loop passes levels that do not hold the order. *)
Lemma fill_levels_skip m b w mv n i g ids :
  (∀ k l, (i <= k < i + n)%nat → levels_ g !! k = Some l → w ∉ level_orders l) →
  play m b ids (fill_levels n i w mv g) = mkTrace _ g ids [] [].
Proof.
  revert i. induction n as [|n IH]; intros i Hk; cbn [fill_levels]; [done|].
  destruct (levels_ g !! i) as [l|] eqn:Hi; [|done].
  assert (holds_buy w l || holds_sell w l = false) as [-> ->]%orb_false_iff.
  { apply not_true_iff_false. rewrite holds_elem. apply (Hk i); [lia|done]. }
  apply IH. intros k l' Hr. apply Hk. lia.
Qed.

Lemma fill_levels_at m b w mv n i j l g ids :
  (i <= j < i + n)%nat → levels_ g !! j = Some l →
  (∀ k l, (i <= k < j)%nat → levels_ g !! k = Some l → w ∉ level_orders l) →
  play m b ids (fill_levels n i w mv g) = play m b ids (fill_levels (n + i - j) j w mv g).
Proof.
  revert i. induction n as [|n IH]; intros i Hij Hj Hk; [lia|].
  destruct (decide (i = j)) as [->|Hne]; [do 2 f_equal; lia|]. cbn [fill_levels].
  destruct (lookup_lt_is_Some_2 (levels_ g) i) as [li Hi]; [apply lookup_lt_Some in Hj; lia|]. rewrite Hi.
  assert (holds_buy w li || holds_sell w li = false) as [-> ->]%orb_false_iff.
  { apply not_true_iff_false. rewrite holds_elem. apply (Hk i); [lia|done]. }
  rewrite IH; [do 2 f_equal; lia|lia|done|]. intros k l' Hr. apply Hk. lia.
Qed.

Lemma play_onFill m b fill g ids :
  play m b ids (onFill fill g) =
  play m b ids (fill_levels (length (levels_ g)) 0 (Fill.order_id fill) (from_option toDouble dzero m) g).
Proof.
  unfold onFill. rewrite play_bind. cbv zeta.
  change (play m b ids (context_call _)) with (mkTrace _ m ids [] []). cbn [result ids_left submitted cancelled app].
  by destruct (play m b ids _).
Qed.

(** A fill of an order no level holds changes nothing. *)
Lemma fill_unknown m b fill g ids :
  Fill.order_id fill ∉ held g → play m b ids (onFill fill g) = mkTrace _ g ids [] [].
Proof.
  intros Hw. rewrite play_onFill. apply fill_levels_skip.
  intros k l _ Hl Hin. apply Hw. apply elem_of_orders. eauto.
Qed.

(** A fill of the buy order of a level is counted, the level gives the order up and, unless
    it is the top one, one sell order is submitted at the price of the level above or at the middle price if
    that is lower; when the engine accepts it, the level above holds its id in place of
    the sell order it may have held, whose fills are ignored from then on. *)
Lemma buy_fill_sells_above m b fill g i l id ids :
  NoDup (held g) → levels_ g !! i = Some l → GridLevel.buy_order_id l = Fill.order_id fill → Fill.order_id fill ≠ 0 →
  let r := play m b (id :: ids) (onFill fill g) in
  let mid_val := from_option toDouble dzero m in
  fills_processed_ (result r) = inc64 (fills_processed_ g) ∧
  match levels_ g !! S i with
  | None => submitted r = [] ∧ levels_ (result r) = <[i := l {{ GridLevel.buy_order_id := 0 }}]> (levels_ g)
  | Some above =>
      submitted r = [limit_order (cfg_ g) OrderSide.SELL (capped dmin (GridLevel.price above) mid_val)] ∧
      (id ∉ held g → id ≠ 0 →
       levels_ (result r) = <[S i := above {{ GridLevel.sell_order_id := id }}]>
                              (<[i := l {{ GridLevel.buy_order_id := 0 }}]> (levels_ g)) ∧
       ∀ lost m' ids', lost = GridLevel.sell_order_id above → lost ≠ Fill.order_id fill →
         ∀ late, Fill.order_id late = lost → lost ≠ 0 → play m' b ids' (onFill late (result r)) = mkTrace _ (result r) ids' [] [])
  end.
Proof.
  intros Hnd Hi Hb Hz. set (w := Fill.order_id fill) in *.
  assert (w ∈ level_orders l) as Hw by (apply elem_of_level_orders; auto).
  pose proof (lookup_lt_Some _ _ _ Hi) as Hlt. rewrite play_onFill. fold w. cbv zeta.
  assert (∀ k lk, (0 <= k < i)%nat → levels_ g !! k = Some lk → w ∉ level_orders lk) as Hbefore.
  { intros k lk Hk Hlk Hin. assert (k = i) by (by eapply orders_unique). lia. }
  rewrite (fill_levels_at m b w (from_option toDouble dzero m) (length (levels_ g)) 0 i l g (id :: ids) ltac:(lia) Hi Hbefore).
  rewrite Nat.add_0_r. destruct (length (levels_ g) - i)%nat as [|n] eqn:En; [lia|]. cbn [fill_levels]. rewrite Hi.
  assert (holds_buy w l = true) as -> by (unfold holds_buy; rewrite Hb, Z.eqb_refl; by apply Z.eqb_neq in Hz as ->).
  set (g1 := (set_buy i 0 g) {{ fills_processed_ ::= inc64 }}).
  assert (levels_ g1 = <[i := l {{ GridLevel.buy_order_id := 0 }}]> (levels_ g)) as Hg1 by exact (set_buy_levels g i l 0 Hi).
  assert (levels_ g1 !! S i = levels_ g !! S i) as Hup by (rewrite Hg1; apply list_lookup_insert_ne; lia). rewrite Hup.
  destruct (levels_ g !! S i) as [above|] eqn:Ha; [|by cbn].
  set (P := capped dmin (GridLevel.price above) (from_option toDouble dzero m)).
  change (play m b (id :: ids) _) with
    (mkTrace _ (if id =? 0 then g1 else set_sell (S i) id g1) ids [limit_order (cfg_ g) OrderSide.SELL P] []).
  cbn [result submitted]. split_and!; [by destruct (id =? 0)|done|]. intros Hid Hid0. apply Z.eqb_neq in Hid0 as Hid1. rewrite Hid1.
  pose proof (set_sell_levels g1 (S i) above id Hup) as Hg2. rewrite Hg1 in Hg2. split; [exact Hg2|].
  intros lost m' ids' Hlost Hne late Hlate Hlost0. apply fill_unknown. rewrite Hlate.
  unfold held. rewrite Hg2. intros (k & lk & Hk & Hin)%elem_of_orders.
  assert (lost ∈ level_orders above) as Hab by (apply elem_of_level_orders; subst; auto).
  assert (levels_ g !! k = Some lk → k = S i) as Huniq by (intros; by eapply orders_unique).
  destruct (decide (k = S i)) as [->|Hk1].
  - rewrite list_lookup_insert_eq in Hk by (rewrite length_insert; by eapply lookup_lt_Some). injection Hk as <-.
    apply elem_of_level_orders in Hin as [_ [E|E]]; cbn in E.
    + apply (orders_once (levels_ g) (S i) above lost); by try congruence.
    + change (lost = id) in E. apply Hid, elem_of_orders. exists (S i), above. split; [done|]. by rewrite <-E.
  - rewrite list_lookup_insert_ne in Hk by done. destruct (decide (k = i)) as [->|Hk2].
    + rewrite list_lookup_insert_eq in Hk by done. injection Hk as <-.
      apply elem_of_level_orders in Hin as [_ [E|E]]; cbn in E; [done|].
      assert (i = S i); [|lia]. eapply orders_unique; [exact Hnd|exact Hi|exact Ha| |exact Hab]. apply elem_of_level_orders. auto.
    + rewrite list_lookup_insert_ne in Hk by done. by apply Hk1, Huniq.
Qed.
End proofs.

(** *** Witnesses: a grid from 99 to 101. *)

#[local] Existing Instance CastX86.
#[local] Existing Instance LibmAny.

Definition sample_cfg : Config.t := Config.mk (d_of_Z 99) (d_of_Z 101) 2 (d_lit 1 2) 1.
Definition sample_level (p b s : Z) : GridLevel.t := GridLevel.mk (p * ONE) b s.
Definition sample_grid (levels : list GridLevel.t) : GridStrategy := mkGrid sample_cfg levels true 0 0.
Definition sample_tick : Tick.t := Tick.mk 10 20 1 1 (100 * ONE) ONE TickSide.BID 0.
Definition sample_fill (order_id : Z) : Fill.t := Fill.mk 1 1 order_id 30 30 (99 * ONE) ONE 1 1 1 OrderSide.BUY 0.

Example sample_levels :
  levels_ <$> GridStrategy_new sample_cfg = Some [sample_level 99 0 0; sample_level 100 0 0; sample_level 101 0 0].
Proof. vm_compute. reflexivity. Qed.

Lemma tick_fills_gaps_witness :
  let g := sample_grid [sample_level 99 0 0; sample_level 100 0 0; sample_level 101 0 0] in
  let r := play (Some (100 * ONE)) true [5; 6] (onTick sample_tick g) in
  OrderRequest.side <$> submitted r = [OrderSide.BUY; OrderSide.SELL] ∧ held (result r) ≡ₚ [5; 6].
Proof.
  intros g r. destruct (tick_fills_gaps (100 * ONE) true sample_tick g [5; 6] eq_refl) as (H1 & _ & _ & _ & H5 & _). fold r in H1, H5.
  assert (OrderRequest.side <$> submitted r = [OrderSide.BUY; OrderSide.SELL]) as Hs by (rewrite H1; vm_compute; reflexivity).
  split; [exact Hs|]. assert (length (submitted r) = 2%nat) as Hl by (by rewrite <-(length_fmap OrderRequest.side), Hs).
  rewrite Hl in H5. exact H5.
Defined.

Lemma timer_cancels_stale_witness :
  let g := sample_grid [sample_level 99 5 0; sample_level 101 7 0] in
  let r := play (Some (100 * ONE)) false [] (onTimer 0 g) in
  cancelled r = [7] ∧ held (result r) ++ [7] ≡ₚ [5; 7].
Proof.
  intros g r. destruct (timer_cancels_stale (100 * ONE) false 0 g [] eq_refl) as (_ & H2 & _ & H4). fold r in H2, H4.
  assert (cancelled r = [7]) as Hc by (rewrite H2; vm_compute; reflexivity). rewrite Hc in H4. split; [exact Hc|exact H4].
Defined.

Lemma buy_fill_sells_above_witness :
  let g := sample_grid [sample_level 99 5 0; sample_level 100 0 6] in
  let r := play None true [9] (onFill (sample_fill 5) g) in
  held g = [5; 6] ∧ levels_ (result r) = [sample_level 99 0 0; sample_level 100 0 9] ∧
  play None true [] (onFill (sample_fill 6) (result r)) = mkTrace _ (result r) [] [] [].
Proof.
  intros g r. split; [reflexivity|].
  destruct (buy_fill_sells_above None true (sample_fill 5) g 0 (sample_level 99 5 0) 9 []) as (_ & _ & H); [|done..|].
  { change (held g) with [5; 6]. by apply (bool_decide_unpack _). }
  destruct H as [H1 H2]; [change (held g) with [5; 6]; by apply (bool_decide_unpack _)|done|].
  split; [exact H1|]. by apply (H2 6).
Defined.
