(* ===== verification/HealthMonitor.v ===== *)
(** [HealthMonitor] (include/chronos/monitoring/health_monitor.hpp,
    src/monitoring/health_monitor.cpp): the status of the registered components and the
    counters behind the reported rates.

    An operation is one step under the monitor's mutex; the reading of the system clock is its
    first argument. The text of a JSON document is a parameter ([dump], [None] where a
    string is not UTF-8 and nlohmann's dump throws). *)
From S2P Require Import Prelude FixedPoint Json.
From S2P Require Import Metrics.

Module Status.
Inductive t := HEALTHY | DEGRADED | UNHEALTHY.
#[global] Instance t_eq_dec : EqDecision t.
Proof. solve_decision. Defined.
End Status.

Definition statusStr (s : Status.t) : string :=
  match s with
  | Status.HEALTHY => "HEALTHY"
  | Status.DEGRADED => "DEGRADED"
  | Status.UNHEALTHY => "UNHEALTHY"
  end.

Module ComponentInfo.
Record t := mk {
  name : string;
  status : Status.t;
  message : string;
  last_heartbeat_us : Z;
}.
End ComponentInfo.

Module Report.
Record t := mk {
  overall_healthy : bool;
  components : list ComponentInfo.t;
  timestamp_us : Z;
  ticks_total : Z;
  orders_total : Z;
  fills_total : Z;
  ticks_per_sec : double;
  orders_per_sec : double;
}.
End Report.

Record HealthMonitor := mkHealth {
  components_ : list ComponentInfo.t;
  ticks_ : Z;
  orders_ : Z;
  fills_ : Z;
  last_report_us_ : Z;
  prev_ticks_ : Z;
  prev_orders_ : Z;
}.

Definition HealthMonitor_init (now_us : Z) : HealthMonitor := mkHealth [] 0 0 0 now_us 0 0.

(** ** Operations *)

Definition named (name : string) (c : ComponentInfo.t) : bool := String.eqb (ComponentInfo.name c) name.

(** The first component of the name, if there is one, is changed. *)
Fixpoint on_component (name : string) (f : ComponentInfo.t → ComponentInfo.t) (l : list ComponentInfo.t)
    : list ComponentInfo.t :=
  match l with
  | [] => []
  | c :: l => if named name c then f c :: l else c :: on_component name f l
  end.

Definition registerComponent (now_us : Z) (name : string) (m : HealthMonitor) : HealthMonitor :=
  if existsb (named name) (components_ m) then m
  else m {{ components_ ::= λ l, l ++ [ComponentInfo.mk name Status.HEALTHY EmptyString now_us] }}.

Definition heartbeat (now_us : Z) (name : string) (m : HealthMonitor) : HealthMonitor :=
  m {{ components_ ::= on_component name (λ c, c {{ ComponentInfo.last_heartbeat_us := now_us }}) }}.

Definition setStatus (now_us : Z) (name : string) (s : Status.t) (message : string) (m : HealthMonitor) : HealthMonitor :=
  m {{ components_ ::= on_component name (λ c, c {{ ComponentInfo.status := s;
         ComponentInfo.message := message; ComponentInfo.last_heartbeat_us := now_us }}) }}.

Definition recordTick (m : HealthMonitor) : HealthMonitor := m {{ ticks_ ::= inc64 }}.
Definition recordOrder (m : HealthMonitor) : HealthMonitor := m {{ orders_ ::= inc64 }}.
Definition recordFill (m : HealthMonitor) : HealthMonitor := m {{ fills_ ::= inc64 }}.

Definition healthy (c : ComponentInfo.t) : bool := bool_decide (ComponentInfo.status c = Status.HEALTHY).
Definition isHealthy (m : HealthMonitor) : bool := forallb healthy (components_ m).

Definition rate (total prev elapsed_us : Z) : double :=
  if elapsed_us >? 0 then ddiv (d_of_Z (u64 (total - prev))) (ddiv (d_of_Z elapsed_us) (d_of_Z 1000000)) else dzero.

Definition getReport (now_us : Z) (m : HealthMonitor) : Report.t :=
  let elapsed_us := u64 (now_us - last_report_us_ m) in
  Report.mk (forallb healthy (components_ m)) (components_ m) now_us (ticks_ m) (orders_ m) (fills_ m)
    (rate (ticks_ m) (prev_ticks_ m) elapsed_us) (rate (orders_ m) (prev_orders_ m) elapsed_us).

Definition snapshot (now_us : Z) (m : HealthMonitor) : Report.t :=
  Report.mk (forallb healthy (components_ m)) (components_ m) now_us (ticks_ m) (orders_ m) (fills_ m) dzero dzero.

Section export.
Context {J : JsonOps} (dump : json → option string).

Definition component_json (c : ComponentInfo.t) : json :=
  j_object [("name", j_string (ComponentInfo.name c)); ("status", j_string (statusStr (ComponentInfo.status c)));
            ("message", j_string (ComponentInfo.message c));
            ("last_heartbeat_us", j_int (ComponentInfo.last_heartbeat_us c))]%string.

Definition report_json (r : Report.t) : json :=
  j_object [("healthy", j_bool (Report.overall_healthy r)); ("timestamp_us", j_int (Report.timestamp_us r));
            ("metrics", j_object [("ticks_total", j_int (Report.ticks_total r)); ("orders_total", j_int (Report.orders_total r));
                                  ("fills_total", j_int (Report.fills_total r)); ("ticks_per_sec", j_double (Report.ticks_per_sec r));
                                  ("orders_per_sec", j_double (Report.orders_per_sec r))]);
            ("components", j_array (component_json <$> Report.components r))]%string.

(** Only the export starts a new interval of the rates, also where the dump throws. *)
Definition toJson (now_us : Z) (m : HealthMonitor) : option string * HealthMonitor :=
  let r := getReport now_us m in
  (dump (report_json r),
   m {{ last_report_us_ := Report.timestamp_us r; prev_ticks_ := Report.ticks_total r; prev_orders_ := Report.orders_total r }}).
End export.

(** ** Histories *)

Inductive event :=
| Register (now : Z) (name : string)
| Heartbeat (now : Z) (name : string)
| SetStatus (now : Z) (name : string) (s : Status.t) (message : string)
| RecordTick | RecordOrder | RecordFill
| GetReport (now : Z)
| Export (now : Z).

Section histories.
Context {J : JsonOps} (dump : json → option string).

Definition handle (m : HealthMonitor) (e : event) : HealthMonitor :=
  match e with
  | Register now name => registerComponent now name m
  | Heartbeat now name => heartbeat now name m
  | SetStatus now name s message => setStatus now name s message m
  | RecordTick => recordTick m
  | RecordOrder => recordOrder m
  | RecordFill => recordFill m
  | GetReport _ => m
  | Export now => (toJson dump now m).2
  end.

Definition run (es : list event) (m : HealthMonitor) : HealthMonitor := fold_left handle es m.

(** What a history says of a component. *)

Definition registration (e : event) : option string := match e with Register _ name => Some name | _ => None end.

(** The registered names, in the order of their first registrations. *)
Definition registered (es : list event) : list string := reverse (remove_dups (reverse (omap registration es))).

(** The time of the first registration of a name and the events after it. *)
Fixpoint since_registered (name : string) (es : list event) : option (Z * list event) :=
  match es with
  | [] => None
  | Register now n :: es => if decide (n = name) then Some (now, es) else since_registered name es
  | _ :: es => since_registered name es
  end.

Definition status_set (name : string) (e : event) : option (Status.t * string) :=
  match e with SetStatus _ n s message => if decide (n = name) then Some (s, message) else None | _ => None end.
Definition touched (name : string) (e : event) : option Z :=
  match e with
  | Heartbeat now n | SetStatus now n _ _ => if decide (n = name) then Some now else None
  | _ => None
  end.

(** The last status set since the registration and the time of the last call about the component. *)
Definition said_of (es : list event) (name : string) : ComponentInfo.t :=
  let '(registered_at, later) := default (0, []) (since_registered name es) in
  let '(s, message) := default (Status.HEALTHY, EmptyString) (last (omap (status_set name) later)) in
  ComponentInfo.mk name s message (default registered_at (last (omap (touched name) later))).

Definition is_tick (e : event) : bool := match e with RecordTick => true | _ => false end.
Definition is_order (e : event) : bool := match e with RecordOrder => true | _ => false end.
Definition is_fill (e : event) : bool := match e with RecordFill => true | _ => false end.
Definition is_export (e : event) : bool := match e with Export _ => true | _ => false end.
Definition counted (p : event → bool) (es : list event) : Z := Z.of_nat (length (filter p es)).

Lemma run_snoc es e m : run (es ++ [e]) m = handle (run es m) e.
Proof. unfold run. by rewrite fold_left_app. Qed.

Lemma last_omap_snoc {A B} (f : A → option B) l x :
  last (omap f (l ++ [x])) = match f x with Some y => Some y | None => last (omap f l) end.
Proof. rewrite omap_app. cbn. destruct (f x); [by rewrite last_snoc|by rewrite app_nil_r]. Qed.

Lemma since_registered_snoc name es e :
  since_registered name (es ++ [e]) =
    match since_registered name es with
    | Some (t, later) => Some (t, later ++ [e])
    | None => match e with Register now n => if decide (n = name) then Some (now, []) else None | _ => None end
    end.
Proof.
  induction es as [|e' es IH]; [by destruct e|]. rewrite <-app_comm_cons. destruct e'; cbn; try exact IH.
  by destruct (decide (name0 = name)).
Qed.

Lemma registered_snoc es e :
  registered (es ++ [e]) =
    match registration e with
    | Some n => if decide (n ∈ registered es) then registered es else registered es ++ [n]
    | None => registered es
    end.
Proof.
  unfold registered. rewrite omap_app. cbn [omap list_omap]. destruct (registration e) as [n|]; [|by rewrite app_nil_r].
  rewrite reverse_snoc. cbn [remove_dups]. set (l := reverse (omap registration es)).
  destruct (decide_rel elem_of n l) as [Hin|Hin].
  - rewrite decide_True by (by apply elem_of_reverse, elem_of_remove_dups). done.
  - rewrite decide_False by (by rewrite elem_of_reverse, elem_of_remove_dups). by rewrite reverse_cons.
Qed.

Lemma registered_since name es : name ∈ registered es ↔ is_Some (since_registered name es).
Proof.
  induction es as [|e es IH] using rev_ind; [split; [by intros ?%elem_of_nil|by intros []]|].
  rewrite registered_snoc, since_registered_snoc. destruct (since_registered name es) as [[t later]|].
  - split; [done|]. intros _. assert (name ∈ registered es) as Hin by by apply IH.
    destruct (registration e); [|done]. case_decide; [done|]. apply elem_of_app. by left.
  - assert (name ∉ registered es) as Hn by (by intros [? ?]%IH). destruct e; cbn; try (split; [done|by intros []]).
    destruct (decide (name0 = name)) as [->|Hne].
    + rewrite decide_False by done. split; [done|]. intros _. apply elem_of_app. right. by apply list_elem_of_singleton.
    + split; [|by intros []]. case_decide; [done|]. rewrite elem_of_app, list_elem_of_singleton. intros [?|?]; by subst.
Qed.

Lemma registered_nodup es : NoDup (registered es).
Proof. unfold registered. rewrite reverse_Permutation. apply NoDup_remove_dups. Qed.

(** One more event about a registered name. *)
Lemma said_of_snoc es e name :
  name ∈ registered es →
  said_of (es ++ [e]) name =
    (said_of es name) {{ ComponentInfo.status ::= λ s, default s (fst <$> status_set name e);
                       ComponentInfo.message ::= λ s, default s (snd <$> status_set name e);
                       ComponentInfo.last_heartbeat_us ::= λ t, default t (touched name e) }}.
Proof.
  intros [[t later] E]%registered_since. unfold said_of. rewrite since_registered_snoc, E. cbn [from_option id].
  rewrite !last_omap_snoc. destruct (status_set name e) as [[s msg]|], (touched name e); cbn; try done;
    by destruct (last (omap (status_set name) later)) as [[??]|].
Qed.

Lemma on_component_fmap n f (g : string → ComponentInfo.t) l :
  (∀ x, ComponentInfo.name (g x) = x) → NoDup l →
  on_component n f (g <$> l) = (λ x, if decide (x = n) then f (g x) else g x) <$> l.
Proof.
  intros Hg. induction 1 as [|x l Hx Hl IH]; [done|]. cbn. unfold named at 1. rewrite Hg.
  destruct (String.eqb_spec x n) as [->|Hn]; rewrite ?decide_True, ?decide_False by done; f_equal; [|exact IH].
  apply list_fmap_ext. intros i y Hy%list_elem_of_lookup_2. case_decide; [by subst|done].
Qed.

Lemma said_name es name : ComponentInfo.name (said_of es name) = name.
Proof. unfold said_of. destruct (default _ _), (default _ _) as [??]. done. Qed.

Lemma said_same es e :
  (∀ name, status_set name e = None) → (∀ name, touched name e = None) →
  said_of (es ++ [e]) <$> registered es = said_of es <$> registered es.
Proof.
  intros Hs Ht. apply list_fmap_ext. intros i n Hn%list_elem_of_lookup_2. rewrite said_of_snoc by done.
  rewrite Hs, Ht. by destruct (said_of es n).
Qed.

Lemma said_on_component es e n f :
  registration e = None →
  (∀ c, f c = c {{ ComponentInfo.status ::= λ s, default s (fst <$> status_set n e);
                   ComponentInfo.message ::= λ s, default s (snd <$> status_set n e);
                   ComponentInfo.last_heartbeat_us ::= λ t, default t (touched n e) }}) →
  (∀ name, name ≠ n → status_set name e = None ∧ touched name e = None) →
  on_component n f (said_of es <$> registered es) = said_of (es ++ [e]) <$> registered (es ++ [e]).
Proof.
  intros Hr Hf Ho. rewrite registered_snoc, Hr, on_component_fmap by (apply said_name || apply registered_nodup).
  apply list_fmap_ext. intros i x Hx%list_elem_of_lookup_2. rewrite said_of_snoc by done.
  case_decide as E; [subst; apply Hf|]. destruct (Ho x E) as [-> ->]. by destruct (said_of es x).
Qed.

Lemma components_said es t0 : components_ (run es (HealthMonitor_init t0)) = said_of es <$> registered es.
Proof.
  induction es as [|e es IH] using rev_ind; [done|]. rewrite run_snoc. set (m := run es _) in *. clearbody m.
  assert (registration e = None → (∀ name, status_set name e = None) → (∀ name, touched name e = None) →
    said_of (es ++ [e]) <$> registered (es ++ [e]) = components_ m) as Hsame.
  { intros Hr Hs Ht. by rewrite registered_snoc, Hr, said_same, IH. }
  destruct e; cbn [handle]; try by rewrite Hsame.
  - rewrite registered_snoc. cbn [registration]. unfold registerComponent.
    assert (existsb (named name) (components_ m) = bool_decide (name ∈ registered es)) as ->.
    { rewrite IH. apply eq_true_iff_eq. rewrite bool_decide_eq_true, existsb_exists. split.
      - intros (c & Hc & Hn). apply list_elem_of_In, list_elem_of_fmap in Hc as (x & -> & Hx).
        unfold named in Hn. rewrite said_name in Hn. by apply String.eqb_eq in Hn as ->.
      - intros Hin. exists (said_of es name). split; [apply list_elem_of_In; by apply list_elem_of_fmap_2|].
        unfold named. by rewrite said_name, String.eqb_refl. }
    case_bool_decide as Hin; rewrite ?decide_True, ?decide_False by done; [by rewrite said_same, IH|].
    rewrite fmap_app, said_same, <-IH by done. change (components_ m ++ [ComponentInfo.mk name Status.HEALTHY EmptyString now] = components_ m ++ [said_of (es ++ [Register now name]) name]).
    do 2 f_equal. unfold said_of. rewrite since_registered_snoc.
    destruct (since_registered name es) eqn:E; [by destruct Hin; apply registered_since; rewrite E|].
    by rewrite decide_True.
  - change (on_component name (λ c, c {{ ComponentInfo.last_heartbeat_us := now }}) (components_ m) = said_of (es ++ [Heartbeat now name]) <$> registered (es ++ [Heartbeat now name])).
    rewrite IH. apply said_on_component; [done| |].
    + intros []. cbn. by rewrite decide_True.
    + intros x Hx. cbn. by rewrite decide_False.
  - change (on_component name (λ c, c {{ ComponentInfo.status := s; ComponentInfo.message := message; ComponentInfo.last_heartbeat_us := now }}) (components_ m) = said_of (es ++ [SetStatus now name s message]) <$> registered (es ++ [SetStatus now name s message])).
    rewrite IH. apply said_on_component; [done| |].
    + intros []. cbn. by rewrite !decide_True.
    + intros x Hx. cbn. by rewrite !decide_False.
Qed.

Lemma counted_app p es1 es2 : counted p (es1 ++ es2) = counted p es1 + counted p es2.
Proof. unfold counted. rewrite filter_app, length_app. lia. Qed.
Lemma counted_range p es : 0 <= counted p es <= Z.of_nat (length es).
Proof. unfold counted. pose proof (length_filter p es). lia. Qed.
Lemma counted_one p e : counted p [e] = Z.b2z (p e).
Proof. unfold counted. rewrite filter_cons, filter_nil. by destruct (p e). Qed.

Lemma totals_counted es t0 :
  Z.of_nat (length es) < 2 ^ 64 →
  let m := run es (HealthMonitor_init t0) in
  ticks_ m = counted is_tick es ∧ orders_ m = counted is_order es ∧ fills_ m = counted is_fill es.
Proof.
  induction es as [|e es IH] using rev_ind; [done|]. cbv zeta in *. rewrite length_app. intros Hlen. cbn [length] in Hlen.
  rewrite run_snoc, !counted_app, !counted_one. destruct IH as (IHt & IHo & IHf); [lia|].
  pose proof (counted_range is_tick es). pose proof (counted_range is_order es). pose proof (counted_range is_fill es).
  rewrite <-IHt, <-IHo, <-IHf in *. set (m := run es _) in *. clearbody m.
  destruct e; cbn [handle is_tick is_order is_fill Z.b2z]; rewrite ?Z.add_0_r; try done.
  - unfold registerComponent. by destruct (existsb _ _).
  - split_and!; [|done..]. apply inc64_id. lia.
  - split_and!; [done| |done]. apply inc64_id. lia.
  - split_and!; [done..|]. apply inc64_id. lia.
Qed.

(** [t] is the time of the last export and [es2] what came after it; before the first
    export, the time of construction and everything. *)
Definition exported_at (t0 : Z) (es : list event) (t : Z) (es2 : list event) : Prop :=
  Forall (λ e, is_export e = false) es2 ∧ ((es = es2 ∧ t = t0) ∨ ∃ es1, es = es1 ++ Export t :: es2).

Lemma interval_kept es m :
  Forall (λ e, is_export e = false) es →
  last_report_us_ (run es m) = last_report_us_ m ∧ prev_ticks_ (run es m) = prev_ticks_ m ∧ prev_orders_ (run es m) = prev_orders_ m.
Proof.
  intros Hes. revert m. induction Hes as [|e es He _ IH]; intros m; [done|].
  change (run (e :: es) m) with (run es (handle m e)). destruct (IH (handle m e)) as (-> & -> & ->).
  destruct e; try done. cbn. unfold registerComponent. by destruct (existsb _ _).
Qed.

Lemma rate_counted total prev n elapsed :
  total = prev + n → 0 <= n < 2 ^ 64 → 0 <= elapsed < 2 ^ 64 →
  rate total prev (u64 elapsed) =
    if elapsed =? 0 then dzero else ddiv (d_of_Z n) (ddiv (d_of_Z elapsed) (d_of_Z 1000000)).
Proof.
  intros -> Hn He. unfold rate. rewrite (u64_id elapsed) by done. replace (prev + n - prev) with n by lia. rewrite u64_id by done.
  destruct (Z.eqb_spec elapsed 0) as [->|?]; [done|]. by rewrite (proj2 (Z.gtb_lt _ _)) by lia.
Qed.

(** Whatever calls came before, a report lists the registered components in the order of their
    registration, each with the last status and message set and the time of the last
    heartbeat; it is healthy exactly when all of them are; the totals count every tick,
    order and fill, and the rates are those since the last export to JSON, over the time since
    then, also when other reports were made in between. *)
Lemma report_reads_history t0 es t es2 now :
  exported_at t0 es t es2 → Z.of_nat (length es) < 2 ^ 64 → 0 <= t <= now → now < 2 ^ 64 →
  let m := run es (HealthMonitor_init t0) in
  let r := getReport now m in
  let per_second n := if now - t =? 0 then dzero else ddiv (d_of_Z n) (ddiv (d_of_Z (now - t)) (d_of_Z 1000000)) in
  Report.components r = said_of es <$> registered es ∧ NoDup (registered es) ∧
  (Report.overall_healthy r = true ↔ ∀ n, n ∈ registered es → ComponentInfo.status (said_of es n) = Status.HEALTHY) ∧
  isHealthy m = Report.overall_healthy r ∧
  Report.ticks_total r = counted is_tick es ∧ Report.orders_total r = counted is_order es ∧
  Report.fills_total r = counted is_fill es ∧
  Report.ticks_per_sec r = per_second (counted is_tick es2) ∧ Report.orders_per_sec r = per_second (counted is_order es2).
Proof.
  intros [Hno Hes] Hlen Ht Hnow m r per_second.
  assert (length es2 <= length es)%nat as Hl2.
  { destruct Hes as [[-> _]|[es1 ->]]; [done|]. rewrite length_app. cbn. lia. }
  pose proof (counted_range is_tick es2). pose proof (counted_range is_order es2).
  destruct (totals_counted es t0 Hlen) as (Et & Eo & Ef). fold m in Et, Eo, Ef.
  assert (last_report_us_ m = t ∧ ticks_ m = prev_ticks_ m + counted is_tick es2 ∧
          orders_ m = prev_orders_ m + counted is_order es2) as (El & Ht2 & Ho2).
  { destruct Hes as [[-> ->]|[es1 Hes]].
    - destruct (interval_kept es2 (HealthMonitor_init t0) Hno) as (E1 & E2 & E3). fold m in E1, E2, E3.
      rewrite Et, Eo, E1, E2, E3. done.
    - assert (m = run es2 (handle (run es1 (HealthMonitor_init t0)) (Export t))) as Hm.
      { unfold m. rewrite Hes. unfold run. by rewrite fold_left_app. }
      destruct (interval_kept es2 (handle (run es1 (HealthMonitor_init t0)) (Export t)) Hno) as (E1 & E2 & E3).
      rewrite <-Hm in E1, E2, E3. rewrite E1, E2, E3, Et, Eo, Hes.
      rewrite Hes, length_app in Hlen. destruct (totals_counted es1 t0) as (F1 & F2 & _); [lia|].
      cbn. rewrite F1, F2. change (Export t :: es2) with ([Export t] ++ es2). rewrite !counted_app, !counted_one. done. }
  split; [apply components_said|]. split; [apply registered_nodup|]. split.
  { cbn. unfold m. rewrite components_said, forallb_forall. split.
    - intros Hall n Hn. specialize (Hall (said_of es n)). unfold healthy in Hall. rewrite bool_decide_eq_true in Hall.
      apply Hall, list_elem_of_In. by apply list_elem_of_fmap_2.
    - intros Hall c (n & -> & Hn)%list_elem_of_In%list_elem_of_fmap. by apply bool_decide_eq_true, Hall. }
  split; [done|]. clearbody m. unfold r, per_second. cbn. rewrite El. split_and!; try done; apply rate_counted; (done || lia).
Qed.

End histories.

Section witness.
#[local] Existing Instance JsonRef.

Definition sample_history : list event :=
  [Register 100 "feed"; Register 110 "orders"; RecordTick; SetStatus 120 "feed" Status.DEGRADED "stale";
   Export 1000; RecordTick; GetReport 500000; RecordTick; Heartbeat 600000 "feed"; Register 700000 "feed"]%string.

Lemma report_reads_history_witness :
  let r := getReport 2001000 (run (λ _, None) sample_history (HealthMonitor_init 50)) in
  Report.components r = [ComponentInfo.mk "feed" Status.DEGRADED "stale" 600000; ComponentInfo.mk "orders" Status.HEALTHY EmptyString 110] ∧
  Report.overall_healthy r = false ∧ Report.ticks_total r = 3 ∧ Report.ticks_per_sec r = d_of_Z 1.
Proof.
  destruct (report_reads_history (J:=JsonRef) (λ _, None) 50 sample_history 1000 (drop 5 sample_history) 2001000)
    as (E1 & _ & _ & _ & E2 & _ & _ & E3 & _).
  - split; [repeat constructor|]. right. by exists (take 4 sample_history).
  - by vm_compute.
  - lia.
  - lia.
  - cbv zeta. rewrite E1, E2, E3. split_and!; by vm_compute.
Defined.
End witness.
