(* ===== verification/HttpClient.v ===== *)
(** [BinanceHttpClient] (include/chronos/execution/binance_http_client.hpp,
    src/execution/binance_http_client.cpp) and the printing of the signature
    (src/io/security/hmac_sha256.cpp): signed REST requests, each made over a connection of
    its own and once more after a transient error.

    The network of an attempt, the system clock, OpenSSL's HMAC and the JSON parser are arguments.
    What an operation gives is its result with the requests it wrote. *)
From Stdlib Require Import Ascii.
From S2P Require Import Prelude Json Config Connection.
From S2P Require RiskEngine.
Import RiskEngine (to_string, contains).

(** ** Texts *)

Definition extractHost (url : string) : string :=
  let s := if String.prefix "https://" url then drop_string 8 url
           else if String.prefix "http://" url then drop_string 7 url else url in
  let s := match find ":" s with Some pos => String.substring 0 pos s | None => s end in
  match find "/" s with Some pos => String.substring 0 pos s | None => s end.

(** A byte printed with [std::hex], padded to two digits. *)
Definition hex_digit (uppercase : bool) (d : Z) : ascii :=
  Ascii.ascii_of_nat (Z.to_nat (if d <? 10 then 48 + d else if uppercase then 55 + d else 87 + d)).
Definition hex_byte (uppercase : bool) (b : Z) : string :=
  String.String (hex_digit uppercase (b / 16)) (String.String (hex_digit uppercase (b mod 16)) EmptyString).

Definition byte_of (c : ascii) : Z := Z.of_nat (Ascii.nat_of_ascii c).

(** The bytes of the digest, printed. *)
Definition hmacSha256 (HMAC : string → string → list Z) (key data : string) : string :=
  String.concat EmptyString (hex_byte false <$> HMAC key data).

Definition unreserved (c : ascii) : bool :=
  let b := byte_of c in
  ((48 <=? b) && (b <=? 57)) || ((65 <=? b) && (b <=? 90)) || ((97 <=? b) && (b <=? 122)) ||
  bool_decide (c ∈ ["-"; "_"; "."; "~"]%char).

Fixpoint encodeURI (s : string) : string :=
  match s with
  | EmptyString => EmptyString
  | String.String c s =>
      if unreserved c then String.String c (encodeURI s)
      else String.String "%" (hex_byte true (byte_of c) ++ encodeURI s)%string
  end.

(** ** Requests *)

Inductive verb := post | delete_ | put.

Record HttpRequest := mkRequest {
  method : verb;
  target : string;
  fields : list (string * string);
  body : string;
}.

(** What the network answers to the calls of one attempt. *)
Record HttpNetwork := {
  socket : Network;
  http_write : HttpRequest → attempt ();
  http_read : attempt (Z * string);          (* status and body *)
}.

Inductive outcome := Returns (answer : string) | Throws (what : string).

Section client.
Context (HMAC : string → string → list Z).

(** [now] in nanoseconds, as the system clock counts. *)
Definition timestamp (now : Z) : string := to_string (now ÷ 1000000).

Definition buildQueryString (now : Z) (baseParams apiSecret : string) : string :=
  let query := (baseParams ++ "&timestamp=" ++ timestamp now ++ "&recvWindow=5000")%string in
  (query ++ "&signature=" ++ hmacSha256 HMAC apiSecret query)%string.

Definition verb_of (m : string) : verb :=
  if String.eqb m "POST" then post else if String.eqb m "DELETE" then delete_ else put.

Definition make_request (cfg : ExchangeConfig) (m tgt content : string) : HttpRequest :=
  mkRequest (verb_of m) tgt
    ([("Host", extractHost (rest_url cfg)); ("User-Agent", "Chronos/1.0");
      ("Content-Type", "application/x-www-form-urlencoded")]%string ++
     if String.eqb (api_key cfg) EmptyString then [] else [("X-MBX-APIKEY"%string, api_key cfg)])
    content.

(** One turn of the loop: how it ends, and the request if it was written. *)
Definition send_once (net : HttpNetwork) (cfg : ExchangeConfig) (m tgt content : string) : outcome * list HttpRequest :=
  let host := extractHost (rest_url cfg) in
  let proxied := use_proxy (proxy_host cfg) (proxy_port cfg) in
  match tcp_or_tunnel (socket net) (proxy_host cfg) (to_string (proxy_port cfg)) host "443" proxied with
  | inl e => (Throws e, [])
  | inr (_, false) => (Returns EmptyString, [])
  | inr (_, true) =>
      if negb (set_host_name (socket net) host) then (Returns EmptyString, [])
      else
        match tls_handshake (socket net) with
        | inl e => (Throws e, [])
        | inr _ =>
            let req := make_request cfg m tgt content in
            match http_write net req with
            | inl e => (Throws e, [])
            | inr _ =>
                (match http_read net with
                 | inl e => Throws e
                 | inr (status, answer) => Returns (if status =? 200 then answer else EmptyString)
                 end, [req])
            end
        end
  end.

Definition transient (what : string) : bool :=
  contains "truncated" what || contains "handshake" what || contains "connection reset" what ||
  contains "broken pipe" what || contains "eof" what.

Definition kMaxRetries : nat := 2.

Fixpoint attempts (tries attempt : nat) (nets : nat → HttpNetwork) (cfg : ExchangeConfig) (m tgt content : string)
    : string * list HttpRequest :=
  match tries with
  | O => (EmptyString, [])
  | S tries =>
      match send_once (nets attempt) cfg m tgt content with
      | (Returns answer, written) => (answer, written)
      | (Throws what, written) =>
          if transient what
          then let '(answer, later) := attempts tries (S attempt) nets cfg m tgt content in (answer, written ++ later)
          else (EmptyString, written)
      end
  end.

Definition doRequest (nets : nat → HttpNetwork) (cfg : ExchangeConfig) (m tgt content : string) : string * list HttpRequest :=
  attempts kMaxRetries 0 nets cfg m tgt content.

(** *** The operations *)

Definition order_params (symbol side quantity price newClientOrderId : string) : string :=
  ("symbol=" ++ symbol ++ "&side=" ++ side ++ "&type=LIMIT" ++ "&timeInForce=GTC" ++ "&quantity=" ++ quantity ++
   "&price=" ++ price ++
   (if String.eqb newClientOrderId EmptyString then EmptyString else "&newClientOrderId=" ++ newClientOrderId))%string.

Definition placeOrder (now : Z) (nets : nat → HttpNetwork) (cfg : ExchangeConfig)
    (symbol side quantity price newClientOrderId : string) : string * list HttpRequest :=
  let query := buildQueryString now (order_params symbol side quantity price newClientOrderId) (api_secret cfg) in
  doRequest nets cfg "POST" ("/fapi/v1/order?" ++ query)%string EmptyString.

(** [!resp.empty()] with the requests written. *)
Definition succeeded (r : string * list HttpRequest) : bool * list HttpRequest :=
  (negb (String.eqb r.1 EmptyString), r.2).

Definition cancelOrder (now : Z) (nets : nat → HttpNetwork) (cfg : ExchangeConfig) (symbol : string) (orderId : Z)
    : bool * list HttpRequest :=
  let base := ("symbol=" ++ symbol ++ "&orderId=" ++ to_string orderId)%string in
  let query := buildQueryString now base (api_secret cfg) in
  succeeded (doRequest nets cfg "DELETE" ("/fapi/v1/order?" ++ query)%string EmptyString).

(** [parse] answers [None] where [nlohmann::json::parse] throws; every exception is caught. *)
Definition createListenKey {J : JsonOps} (parse : string → option json) (nets : nat → HttpNetwork) (cfg : ExchangeConfig)
    : string * list HttpRequest :=
  let '(resp, written) := doRequest nets cfg "POST" "/fapi/v1/listenKey" EmptyString in
  (if String.eqb resp EmptyString then EmptyString
   else default EmptyString (parse resp ≫= λ j, get_or j_get_string EmptyString j "listenKey"), written).

Definition listen_key_target (listenKey : string) : string := ("/fapi/v1/listenKey?listenKey=" ++ listenKey)%string.

Definition keepAliveListenKey (nets : nat → HttpNetwork) (cfg : ExchangeConfig) (listenKey : string) : bool * list HttpRequest :=
  succeeded (doRequest nets cfg "PUT" (listen_key_target listenKey) EmptyString).

Definition closeListenKey (nets : nat → HttpNetwork) (cfg : ExchangeConfig) (listenKey : string) : bool * list HttpRequest :=
  succeeded (doRequest nets cfg "DELETE" (listen_key_target listenKey) EmptyString).
End client.

(** ** What reaches the exchange *)

Section requests.
Context (nets : nat → HttpNetwork) (cfg : ExchangeConfig) (m tgt content : string).

(** The connection stands and takes the request. *)
Definition reaches (net : HttpNetwork) : Prop := (send_once net cfg m tgt content).2 = [make_request cfg m tgt content].

Lemma send_once_cases net :
  let req := make_request cfg m tgt content in
  ((send_once net cfg m tgt content).2 = [] ∧
   (∀ answer, (send_once net cfg m tgt content).1 = Returns answer → answer = EmptyString)) ∨
  send_once net cfg m tgt content =
    (match http_read net with
     | inl e => Throws e
     | inr (status, answer) => Returns (if status =? 200 then answer else EmptyString)
     end, [req]).
Proof.
  cbv zeta. unfold send_once. destruct (tcp_or_tunnel _ _ _ _ _ _) as [e|[resp []]]; [by left| |left; split; [done|]; by intros ? [= <-]].
  destruct (negb _); [left; split; [done|]; by intros ? [= <-]|]. destruct (tls_handshake _); [by left|].
  destruct (http_write _ _); [by left|by right].
Qed.

(** C37: whatever the network does, a request is written at most twice, each time the same bytes; it
    is written twice exactly when the connection took it, the answer was lost to a transient
    error and the second connection took it as well; and an answer that is
    returned is the body of a 200 answer to a request that was written. *)
Theorem request_written_at_most_twice :
  let req := make_request cfg m tgt content in
  let '(answer, written) := doRequest nets cfg m tgt content in
  written ∈ [[]; [req]; [req; req]] ∧
  (written = [req; req] ↔ reaches (nets 0%nat) ∧ (∃ what, http_read (nets 0%nat) = inl what ∧ transient what = true) ∧ reaches (nets 1%nat)) ∧
  (answer ≠ EmptyString → ∃ i, (i < 2)%nat ∧ reaches (nets i) ∧ http_read (nets i) = inr (200, answer)).
Proof.
  cbv zeta. unfold doRequest, kMaxRetries, attempts, reaches. set (req := make_request cfg m tgt content).
  assert (∀ net, let r := send_once net cfg m tgt content in
    (r.2 = [] ∧ (∀ answer, r.1 = Returns answer → answer = EmptyString)) ∨
    (r.2 = [req] ∧ (∀ what, r.1 = Throws what → http_read net = inl what) ∧
     (∀ answer, r.1 = Returns answer → answer ≠ EmptyString → http_read net = inr (200, answer)) ∧
     (∀ what, http_read net = inl what → r.1 = Throws what))) as H.
  { intros net. destruct (send_once_cases net) as [?|E]; [by left|right]. cbv zeta. rewrite E. cbn [fst snd].
    destruct (http_read net) as [e|[status body']]; [by split_and!; cbn; [done|intros ? [= <-]|intros ? [=]|intros ? [= <-]]|]. cbn. split_and!; [done|done| |done].
    intros answer [= <-]. by destruct (Z.eqb_spec status 200) as [->|]. }
  pose proof (H (nets 0%nat)) as H0. pose proof (H (nets 1%nat)) as H1. clear H. cbv zeta in *.
  destruct (send_once (nets 0%nat) cfg m tgt content) as [o0 w0] eqn:S0, (send_once (nets 1%nat) cfg m tgt content) as [o1 w1] eqn:S1.
  cbn [fst snd] in *.
  destruct H0 as [[-> E0]|(-> & E0t & E0r & E0)], H1 as [[-> E1]|(-> & E1t & E1r & E1)], o0 as [a0|e0], o1 as [a1|e1];
    try destruct (transient e0) eqn:Et; try destruct (transient e1) eqn:Et1; cbn; rewrite ?elem_of_cons.
  all: split; [tauto|].
  all: split; [split; [try (intros; discriminate); intros _; split_and!; eauto|intros (? & (what & Hw & Ht) & ?); try discriminate; try (apply E0 in Hw; congruence)]|].
  all: intros Ha; try done.
  all: try (by destruct Ha; eauto).
  all: first [exists 0%nat; split_and!; [lia|by rewrite S0|by eauto] | exists 1%nat; split_and!; [lia|by rewrite S1|by eauto]].
Qed.
End requests.

(** ** The percent encoding *)

Definition hex_value (c : ascii) : Z :=
  let b := byte_of c in if b <? 58 then b - 48 else if b <? 91 then b - 55 else b - 87.

Fixpoint decodeURI (s : string) : string :=
  match s with
  | String.String "%" (String.String a (String.String b s)) =>
      String.String (Ascii.ascii_of_nat (Z.to_nat (16 * hex_value a + hex_value b))) (decodeURI s)
  | String.String c s => String.String c (decodeURI s)
  | EmptyString => EmptyString
  end.

(** The standard decoding takes every encoded text back to its bytes. *)
Lemma decode_encodeURI s : decodeURI (encodeURI s) = s.
Proof.
  induction s as [|c s IH]; [done|]. cbn [encodeURI].
  destruct (unreserved c) eqn:E.
  - assert (c ≠ "%"%char) as Hc by (intros ->; discriminate). rewrite <-IH at 2. clear IH E.
    destruct c as [[] [] [] [] [] [] [] []]; (reflexivity || by destruct Hc).
  - unfold hex_byte. rewrite !string_app_cons. clear E. change (EmptyString ++ encodeURI s)%string with (encodeURI s).
    change (String.String (Ascii.ascii_of_nat (Z.to_nat (16 * hex_value (hex_digit true (byte_of c / 16)) + hex_value (hex_digit true (byte_of c mod 16)))))
      (decodeURI (encodeURI s)) = String.String c s). rewrite IH. f_equal.
    by destruct c as [[] [] [] [] [] [] [] []].
Qed.

Example signed_query :
  buildQueryString (λ _ _, [10; 255; 0]) 1700000000123456789 "symbol=BTCUSDT" "secret" =
    "symbol=BTCUSDT&timestamp=1700000000123&recvWindow=5000&signature=0aff00"%string.
Proof. vm_compute. reflexivity. Qed.
