(* ===== verification/UserStream.v ===== *)
(** [BinanceUserStream] (include/chronos/execution/binance_user_stream.hpp,
    src/execution/binance_user_stream.cpp): the execution reports of the exchange, read from
    a WebSocket by a thread of its own and handed to the [OrderGateway].

    The read thread goes from one check of its stop flag to the next in one step ([pc]), so
    that [stop] and the gateway's own threads come between any two of them. The networks, what a read
    gives, the JSON parser and [std::stod] are arguments. [None] is an exception
    that leaves the thread, which ends the program, or undefined behaviour. *)
From S2P Require Import Prelude FixedPoint Types Json Config Connection HttpClient.
From S2P Require ThinMux.
From S2P Require Import OrderGateway.
Import ThinMux (frame, Frame, EndOfStream, ReadError).

Class ReportOps {J : JsonOps} := {
  j_is_object : json → bool;
  j_parse : string → option json;        (* [None]: parse_error *)
  stod : string → option double;
}.

(** ** Reports *)

Section reports.
Context {F : FpmOps} {UB : CastUB} {J : JsonOps} {R : ReportOps} (clock : nat → Z).

(** [j.value(k, d)] *)
Definition value {A} (get : json → option A) (d : A) (j : json) (k : string) : option A :=
  if j_is_object j then get_or get d j k else None.

(** [if (o.contains(k)) field = o[k].get<uint64_t>() * 1000] *)
Definition time_us (o : json) (k : string) : option Z :=
  if j_contains o k then (λ t, u64 (t * 1000)) <$> get_at (get_uint 64) o k else Some 0.

(** [if (o.contains(k)) field = toDecimal(std::stod(o[k].get<std::string>()))] *)
Definition decimal_at (field : Z) (o : json) (k : string) : option Z :=
  if j_contains o k then text ← get_at j_get_string o k; toDecimal <$> stod text else Some field.

(** By the client's order id, else the exchange's own. *)
Definition local_id (o : json) (orderId : Z) (g : OrderGateway) : option Z :=
  localId ← (if j_contains o "c" then cid ← get_at j_get_string o "c"; Some (resolveByClientOrderId cid g) else Some 0);
  Some (if localId =? 0 then orderId else localId).

Definition report_ack (o : json) (localId orderId : Z) : option OrderAck.t :=
  OrderAck.mk localId orderId OrderStatus.ACCEPTED <$> time_us o "T".

Definition report_reject (o : json) (localId : Z) : option OrderReject.t :=
  t ← time_us o "T"; reason ← get_or j_get_string EmptyString o "r"; Some (OrderReject.mk localId reason t).

Definition report_fill (o : json) (localId : Z) (side : string) : option Fill.t :=
  price ← decimal_at 0 o "L";
  last ← decimal_at 0 o "l";
  quantity ← (if j_contains o "q" && (last =? 0) then decimal_at last o "q" else Some last);
  t ← time_us o "T";
  e ← time_us o "E";
  Some (Fill.default {{ Fill.order_id := localId; Fill.exchange_id := ExchangeId.to_Z ExchangeId.BINANCE;
                        Fill.side := if String.eqb side "BUY" then OrderSide.BUY else OrderSide.SELL;
                        Fill.fill_price := price; Fill.fill_quantity := quantity;
                        Fill.exchange_timestamp_us := t; Fill.receive_timestamp_us := e }}).

Definition one_of (s : string) (l : list string) : bool := bool_decide (s ∈ l).

Definition parseExecutionReport (data : json) (g : OrderGateway) : option OrderGateway :=
  eventType ← value j_get_string EmptyString data "e";
  if negb (String.eqb eventType "ORDER_TRADE_UPDATE") then Some g
  else
    o ← j_at data "o";
    status ← value j_get_string EmptyString o "X";
    execType ← value j_get_string EmptyString o "x";
    _ ← value j_get_string EmptyString o "s";
    side ← value j_get_string "BUY"%string o "S";
    orderId ← get_or (get_uint 64) 0 o "i";
    localId ← local_id o orderId g;
    if one_of status ["NEW"; "ACCEPTED"]%string then ack ← report_ack o localId orderId; Some (injectOrderAck ack g)
    else if one_of status ["REJECTED"; "EXPIRED"]%string then reject ← report_reject o localId; Some (injectOrderReject reject g)
    else if String.eqb execType "TRADE" && one_of status ["FILLED"; "PARTIALLY_FILLED"]%string
    then fill ← report_fill o localId side; Some (injectFill clock fill g)
    else Some g.

(** A message that is not empty; one that does not parse is logged. *)
Definition dispatch (msg : string) (g : OrderGateway) : option OrderGateway :=
  match j_parse msg with Some j => parseExecutionReport j g | None => Some g end.
End reports.

(** ** The stream *)

Inductive pc :=
| ReadTop          (* the condition of [receiveAndDispatch]'s loop *)
| Receiving        (* in [transport->receive] *)
| Disconnected     (* the condition of the reconnection loop *)
| Slept            (* after its five seconds *)
| GotKey           (* after [createListenKey] *)
| NewTransport     (* after [make_unique] *)
| Exited.          (* [threadExited] is set *)

Record BinanceUserStream {J : JsonOps} := mkStream {
  running_ : bool;
  stopRequested : bool;
  threadExited : bool;
  stopping : bool;                       (* a call of [stop] waits for the thread *)
  readThread : option pc;                (* [None]: not joinable *)
  cfg : ExchangeConfig;
  listenKey : string;
  transport : option ThinMux.WebSocketTlsTransport.t;
  gateway : OrderGateway;
  http_requests : list HttpRequest;      (* written by the REST client *)
}.
Arguments mkStream {J}.

Section stream.
Context {F : FpmOps} {UB : CastUB} {J : JsonOps} {R : ReportOps}.
Context (clock : nat → Z) (http_place : nat → option (option json)).

Definition BinanceUserStream_init (g : OrderGateway) : BinanceUserStream :=
  mkStream false false false false None ExchangeConfig_default EmptyString None g [].

Definition isRunning (s : BinanceUserStream) : bool := negb (stopRequested s) && OrderGateway.running_ (gateway s).

Definition createListenKey (nets : nat → HttpNetwork) (s : BinanceUserStream) : bool * BinanceUserStream :=
  let '(key, written) := HttpClient.createListenKey j_parse nets (cfg s) in
  (negb (String.eqb key EmptyString), s {{ listenKey := key; http_requests ::= λ l, l ++ written }}).

Definition stream_config (s : BinanceUserStream) : ExchangeConfig :=
  (cfg s) {{ websocket_url := (user_stream_url (cfg s) ++ "/" ++ listenKey s)%string }}.

Definition connect (net : Network) (s : BinanceUserStream) : option (bool * BinanceUserStream) :=
  tr ← transport s;
  let '(ok, tr) := ThinMux.WebSocketTlsTransport.connect (stream_config s) net tr in
  Some (ok, s {{ transport := Some tr }}).

Definition go (p : pc) (s : BinanceUserStream) : BinanceUserStream := s {{ readThread := Some p }}.
Definition exit_thread (s : BinanceUserStream) : BinanceUserStream := go Exited (s {{ threadExited := true }}).

Definition receive_step (f : frame) (s : BinanceUserStream) : option BinanceUserStream :=
  tr ← transport s;
  let '(msg, tr) := ThinMux.WebSocketTlsTransport.receive f tr in
  let s := s {{ transport := Some tr }} in
  match msg with
  | None | Some EmptyString => Some (go Disconnected s)
  | Some msg => g ← dispatch clock msg (gateway s); Some (go ReadTop (s {{ gateway := g }}))
  end.

(** One step of [readLoop]: the frame, the REST networks and the connection are what it meets. *)
Definition thread_step (f : frame) (nets : nat → HttpNetwork) (net : Network) (s : BinanceUserStream) : option BinanceUserStream :=
  match readThread s with
  | None | Some Exited => Some s
  | Some ReadTop => Some (go (if isRunning s then Receiving else Disconnected) s)
  | Some Receiving => receive_step f s
  | Some Disconnected => Some (if isRunning s then go Slept s else exit_thread s)
  | Some Slept =>
      if negb (isRunning s) then Some (exit_thread s)
      else
        let s := s {{ transport ::= fmap ThinMux.WebSocketTlsTransport.disconnect }} in
        let '(ok, s) := createListenKey nets s in
        Some (go (if ok : bool then GotKey else Disconnected) s)
  | Some GotKey =>
      if negb (isRunning s) then Some (exit_thread s)
      else Some (go NewTransport (s {{ transport := Some ThinMux.WebSocketTlsTransport.init }}))
  | Some NewTransport =>
      if negb (isRunning s) then Some (exit_thread s)
      else '(ok, s) ← connect net s; Some (go (if ok : bool then ReadTop else Disconnected) s)
  end.

(** The assignment to [readThread] ends the program where a thread is still joinable. *)
Definition start (config : ExchangeConfig) (nets : nat → HttpNetwork) (net : Network) (s : BinanceUserStream)
    : option (bool * BinanceUserStream) :=
  let '(ok, s) := createListenKey nets (s {{ cfg := config }}) in
  if negb ok then Some (false, s)
  else
    '(ok, s) ← connect net (s {{ transport := Some ThinMux.WebSocketTlsTransport.init }});
    if negb ok then Some (false, s)
    else match readThread s with
         | Some _ => None
         | None => Some (true, go ReadTop (s {{ running_ := true }}))
         end.

(** [stop] up to its wait for the thread. *)
Definition stop_request (s : BinanceUserStream) : BinanceUserStream :=
  if running_ s then s {{ running_ := false; stopRequested := true; stopping := true }} else s.

(** [stop] once the thread has exited. *)
Definition stop_finish (nets : nat → HttpNetwork) (s : BinanceUserStream) : BinanceUserStream :=
  if stopping s && threadExited s then
    let s := s {{ stopping := false; readThread := None; transport ::= fmap ThinMux.WebSocketTlsTransport.disconnect }} in
    if String.eqb (listenKey s) EmptyString then s
    else s {{ http_requests ::= λ l, l ++ (closeListenKey nets (cfg s) (listenKey s)).2 }}
  else s.

(** *** The stream among its client, its thread and the gateway *)

Inductive stream_event :=
| Start (config : ExchangeConfig) (nets : nat → HttpNetwork) (net : Network)
| StopRequest
| StopFinish (nets : nat → HttpNetwork)
| Turn (f : frame) (nets : nat → HttpNetwork) (net : Network)
| GatewayStart
| GatewayStop (rest : list OrderRequest.t) (ids : OrderGateway → list Z)
| GatewayEvent (e : OrderGateway.event).

Definition run_event (e : stream_event) (s : BinanceUserStream) : option BinanceUserStream :=
  match e with
  | Start config nets net => snd <$> start config nets net s
  | StopRequest => Some (stop_request s)
  | StopFinish nets => Some (stop_finish nets s)
  | Turn f nets net => thread_step f nets net s
  | GatewayStart => Some (s {{ gateway ::= OrderGateway.start }})
  | GatewayStop rest ids => Some (s {{ gateway ::= OrderGateway.stop clock http_place rest ids }})
  | GatewayEvent e => Some (s {{ gateway ::= handle clock http_place e }})
  end.

Fixpoint run_events (es : list stream_event) (s : BinanceUserStream) : option BinanceUserStream :=
  match es with [] => Some s | e :: es => s ← run_event e s; run_events es s end.
End stream.

(** ** The fills of an order reach its strategy *)

Class ReportLaws {J : JsonOps} (R : ReportOps) := { j_is_object_object fs : j_is_object (j_object fs) = true }.

(** A trade as the exchange reports it. *)
Module TradeReport.
Record t := mk {
  status : string;
  exchange_order_id : Z;
  last_price : string;
  last_quantity : string;
  original_quantity : string;
  trade_time : Z;
  event_time : Z;
}.
End TradeReport.

Section fills.
Context {F : FpmOps} {UB : CastUB} {J : JsonOps} {R : ReportOps} {HJ : JsonLaws J} {HR : ReportLaws R}.
Context (clock : nat → Z) (http_place : nat → option (option json)).

Definition side_text (s : OrderSide.t) : string := match s with OrderSide.BUY => "BUY" | OrderSide.SELL => "SELL" end.

Definition order_members (cid symbol : string) (side : OrderSide.t) (r : TradeReport.t) : list (string * json) :=
  [("s", j_string symbol); ("c", j_string cid); ("S", j_string (side_text side)); ("q", j_string (TradeReport.original_quantity r));
   ("x", j_string "TRADE"); ("X", j_string (TradeReport.status r)); ("i", j_int (TradeReport.exchange_order_id r));
   ("l", j_string (TradeReport.last_quantity r)); ("L", j_string (TradeReport.last_price r));
   ("T", j_int (TradeReport.trade_time r)); ("E", j_int (TradeReport.event_time r))]%string.

Definition trade_report (cid symbol : string) (side : OrderSide.t) (r : TradeReport.t) : json :=
  j_object [("e", j_string "ORDER_TRADE_UPDATE"); ("o", j_object (order_members cid symbol side r))]%string.

(** The fill a report tells of, where its amounts are numbers and the quantity is positive. *)
Definition reported_fill (id : Z) (side : OrderSide.t) (r : TradeReport.t) (f : Fill.t) : Prop :=
  ∃ price quantity,
    TradeReport.status r ∈ ["FILLED"; "PARTIALLY_FILLED"]%string ∧
    inU 64 (TradeReport.exchange_order_id r) ∧ 0 <= TradeReport.trade_time r < 2 ^ 54 ∧ 0 <= TradeReport.event_time r < 2 ^ 54 ∧
    stod (TradeReport.last_price r) = Some price ∧ stod (TradeReport.last_quantity r) = Some quantity ∧
    0 < toDecimal quantity ∧
    f = Fill.default {{ Fill.order_id := id; Fill.exchange_id := ExchangeId.to_Z ExchangeId.BINANCE; Fill.side := side;
                        Fill.fill_price := toDecimal price; Fill.fill_quantity := toDecimal quantity;
                        Fill.exchange_timestamp_us := TradeReport.trade_time r * 1000;
                        Fill.receive_timestamp_us := TradeReport.event_time r * 1000 }}.

Lemma value_object {A} (get : json → option A) d fs k v x :
  NoDup fs.*1 → (k, v) ∈ fs → get v = Some x → value get d (j_object fs) k = Some x.
Proof. intros. unfold value. rewrite j_is_object_object. by apply get_or_object with v. Qed.

Lemma time_us_object fs k t : NoDup fs.*1 → (k, j_int t) ∈ fs → 0 <= t < 2 ^ 54 → time_us (j_object fs) k = Some (t * 1000).
Proof.
  intros Hn Hin Ht. unfold time_us. rewrite (j_contains_object fs k (j_int t)) by done.
  rewrite (get_at_object _ fs k (j_int t) t) by (done || apply get_uint_int; unfold inU; lia). cbn. f_equal. apply u64_id. lia.
Qed.

Lemma decimal_at_object d fs k s x : NoDup fs.*1 → (k, j_string s) ∈ fs → stod s = Some x → decimal_at d (j_object fs) k = Some (toDecimal x).
Proof.
  intros Hn Hin Hx. unfold decimal_at. rewrite (j_contains_object fs k (j_string s)) by done.
  rewrite (get_at_object _ fs k (j_string s) s) by (done || apply j_get_string_string). cbn. by rewrite Hx.
Qed.

Ltac member := repeat (apply elem_of_cons; (left; reflexivity) || right).

Lemma report_injects cid symbol side r id f g :
  reported_fill id side r f → client_id_to_local_ g !! cid = Some id → id ≠ 0 →
  parseExecutionReport clock (trade_report cid symbol side r) g = Some (injectFill clock f g).
Proof.
  intros (price & quantity & Hst & Hi & Ht & He & Hp & Hq & Hpos & ->) Hc Hid. unfold parseExecutionReport, trade_report.
  set (fs := order_members cid symbol side r).
  assert (NoDup fs.*1) as Hfs by (apply (bool_decide_unpack _); by vm_compute).
  set (top := [("e", j_string "ORDER_TRADE_UPDATE"); ("o", j_object fs)]%string).
  assert (NoDup top.*1) as Htop by (apply (bool_decide_unpack _); by vm_compute).
  rewrite (value_object _ _ top "e" (j_string "ORDER_TRADE_UPDATE") "ORDER_TRADE_UPDATE") by (done || member || apply j_get_string_string).
  cbn [mbind option_bind String.eqb]. change (negb _) with false. cbv iota.
  rewrite (j_at_object top "o" (j_object fs)) by (done || member). cbn [mbind option_bind].
  rewrite (value_object _ _ fs "X" (j_string (TradeReport.status r)) (TradeReport.status r)) by (done || member || apply j_get_string_string).
  rewrite (value_object _ _ fs "x" (j_string "TRADE") "TRADE"%string) by (done || member || apply j_get_string_string).
  rewrite (value_object _ _ fs "s" (j_string symbol) symbol) by (done || member || apply j_get_string_string).
  rewrite (value_object _ _ fs "S" (j_string (side_text side)) (side_text side)) by (done || member || apply j_get_string_string).
  rewrite (get_or_object _ _ fs "i" (j_int (TradeReport.exchange_order_id r)) (TradeReport.exchange_order_id r)) by (done || member || by apply get_uint_int).
  cbn [mbind option_bind].
  assert (local_id (j_object fs) (TradeReport.exchange_order_id r) g = Some id) as ->.
  { unfold local_id. rewrite (j_contains_object fs "c" (j_string cid)) by (done || member).
    rewrite (get_at_object _ fs "c" (j_string cid) cid) by (done || member || apply j_get_string_string).
    cbn. unfold resolveByClientOrderId. rewrite Hc. cbn. by rewrite (proj2 (Z.eqb_neq _ _)) by done. }
  cbn [mbind option_bind].
  assert (one_of (TradeReport.status r) ["NEW"; "ACCEPTED"]%string = false ∧ one_of (TradeReport.status r) ["REJECTED"; "EXPIRED"]%string = false ∧
          one_of (TradeReport.status r) ["FILLED"; "PARTIALLY_FILLED"]%string = true) as (-> & -> & ->).
  { rewrite !elem_of_cons in Hst. destruct Hst as [->|[->|[]%elem_of_nil]]; by vm_compute. }
  change (String.eqb "TRADE" "TRADE" && true) with true. cbv iota.
  unfold report_fill. rewrite (decimal_at_object 0 fs "L" (TradeReport.last_price r) price) by (done || member).
  rewrite (decimal_at_object 0 fs "l" (TradeReport.last_quantity r) quantity) by (done || member). cbn [mbind option_bind].
  rewrite (proj2 (Z.eqb_neq (toDecimal quantity) 0)), andb_false_r by lia. cbn [mbind option_bind].
  rewrite (time_us_object fs "T" (TradeReport.trade_time r)) by (done || member).
  rewrite (time_us_object fs "E" (TradeReport.event_time r)) by (done || member). cbn [mbind option_bind].
  by destruct side.
Qed.

Lemma injectFill_client f g : client_id_to_local_ (injectFill clock f g) = client_id_to_local_ g.
Proof.
  unfold injectFill. destruct (fill_target _ _) as [[id po]|]; [|by destruct g]. cbn [now_us]. unfold deliver_fill, settle_fill.
  by destruct g as [? ? ? [] ? ? ? ? ? ? ? ? ? ? ?]; destruct (_ >=? _).
Qed.

(** Reports one after the other. *)
Fixpoint parse_reports (reports : list json) (g : OrderGateway) : option OrderGateway :=
  match reports with [] => Some g | r :: reports => g ← parseExecutionReport clock r g; parse_reports reports g end.

Lemma reports_inject cid symbol side id rs fills g :
  Forall2 (reported_fill id side) rs fills → client_id_to_local_ g !! cid = Some id → id ≠ 0 →
  parse_reports (trade_report cid symbol side <$> rs) g = Some (inject_all clock fills g).
Proof.
  intros Hr. revert g. induction Hr as [|r f rs fills Hf _ IH]; intros g Hc Hid; [done|]. cbn.
  rewrite (report_injects cid symbol side r id f) by done. cbn. apply IH; [by rewrite injectFill_client|done].
Qed.

(** An order sent to a live exchange can be found by its client id and is pending, whatever the REST call answered. *)
Lemma live_order_tracked o g :
  let id := OrderRequest.order_id o in
  let cid := (RiskEngine.to_string id ++ "_" ++ RiskEngine.to_string (clock (S (readings_ g))))%string in
  live g = true → OrderRequest.exchange_id o = exchange_id_ g → OrderRequest.quantity o ≠ 0 →
  find_pending id g = None → symbolIdToName (OrderRequest.symbol_id o) g ≠ EmptyString →
  let g1 := processOrder clock http_place o g in
  client_id_to_local_ g1 !! cid = Some id ∧ has_callback g1 = has_callback g ∧ fills_out_ g1 = fills_out_ g ∧
  (live g1 = true ∧ exchange_id_ g1 = exchange_id_ g ∧ config_ g1 = config_ g ∧
   delete id (pending_orders_ g1) = delete id (pending_orders_ g)) ∧
  ∃ po, find_pending id g1 = Some po ∧ PendingOrder.filled_quantity po = 0 ∧
        PendingOrder.original_quantity po = OrderRequest.quantity o ∧
        PendingOrder.strategy_id po = OrderRequest.strategy_id o ∧ PendingOrder.symbol_id po = OrderRequest.symbol_id o.
Proof.
  intros id cid Hl Hx Hq Hp Hs. cbv zeta. unfold processOrder. set (g0 := count _ g).
  assert (live g0 = true ∧ exchange_id_ g0 = exchange_id_ g ∧ pending_orders_ g0 = pending_orders_ g ∧ readings_ g0 = readings_ g ∧
    config_ g0 = config_ g ∧ has_callback g0 = has_callback g ∧ fills_out_ g0 = fills_out_ g ∧ has_http_client g0 = true)
    as (L0 & X0 & P0 & R0 & C0 & H0 & F0 & K0).
  { unfold live in *. subst g0. destruct g as [? ? ? ? ? ? ? ? ? ? [] ? ? ? ?]. cbn in *. by apply andb_prop in Hl as [-> ->]. }
  rewrite X0, Hx, Z.eqb_refl. cbn [negb]. rewrite (proj2 (Z.eqb_neq _ _)) by done.
  unfold find_pending in *. fold id. rewrite P0, Hp. cbn [now_us].
  assert (live (g0 {{ readings_ ::= S }}) = true) as -> by by destruct g0.
  unfold process_new_live, encodeOrderJson.
  assert (symbolIdToName (OrderRequest.symbol_id o) (g0 {{ readings_ ::= S }}) =
    symbolIdToName (OrderRequest.symbol_id o) g) as -> by (unfold symbolIdToName; rewrite <-C0; by destruct g0).
  rewrite (proj2 (String.eqb_neq _ _)) by done. cbn [now_us].
  unfold realSendWithClientId. subst cid. rewrite <-R0, <-H0, <-F0, <-C0, <-P0, <-X0. clearbody g0. clear Hp.
  destruct g0 as [cf xi xn hc sf hh ru pe el cl st av re rq fo]; cbn in K0, L0. subst hh.
  cbn -[injectOrderAck parse_ack]. destruct (http_place (length rq)) as [body|]; cbn -[injectOrderAck parse_ack].
  - destruct (body ≫= parse_ack (OrderRequest.order_id o)) as [ack|] eqn:Eack; cbn -[injectOrderAck].
    + assert (OrderAck.order_id ack = id) as Hid.
      { destruct body as [j|]; [|done]. cbn in Eack. unfold parse_ack in Eack.
        destruct (get_or _ _ j "orderId"); [|done]. cbn in Eack. destruct (get_or _ _ j "updateTime"); [|done].
        cbn in Eack. by injection Eack as <-. }
      unfold injectOrderAck, find_pending. cbn. rewrite Hid. fold id. rewrite lookup_insert_eq. cbn.
      destruct (OrderAck.exchange_order_id ack =? 0); cbn; rewrite !lookup_insert_eq; (split; [done|]; split; [done|]; split; [done|]; split; [split_and!; [done..|by rewrite !delete_insert_eq]|]; by eexists).
    + rewrite !lookup_insert_eq. split; [done|]. split; [done|]. split; [done|]. split; [split_and!; [done..|by rewrite !delete_insert_eq]|]. by eexists.
  - rewrite !lookup_insert_eq. split; [done|]. split; [done|]. split; [done|]. split; [split_and!; [done..|by rewrite !delete_insert_eq]|]. by eexists.
Qed.

(** An order processed for a live exchange, whatever its REST call answered: the trades
    the user stream reports under its client id, up to and including the one that completes it, reach
    the callback as fills of its strategy and symbol with the reported side, price and
    quantity; it stays pending until they add up to its quantity. *)
Lemma live_order_filled {HF : FpmLaws F} o g symbol side rs fills :
  let id := OrderRequest.order_id o in
  let cid := (RiskEngine.to_string id ++ "_" ++ RiskEngine.to_string (clock (S (readings_ g))))%string in
  live g = true → has_callback g = true → OrderRequest.exchange_id o = exchange_id_ g → id ≠ 0 → 0 < OrderRequest.quantity o →
  find_pending id g = None → symbolIdToName (OrderRequest.symbol_id o) g ≠ EmptyString →
  let g1 := processOrder clock http_place o g in
  exchange_to_local_ g1 !! id = None →
  Forall2 (reported_fill id side) rs fills → sumZ (Fill.fill_quantity <$> fills) < 2 ^ 63 →
  ∃ g2, parse_reports (trade_report cid symbol side <$> rs) g1 = Some g2 ∧
    fills_out_ g2 = fills_out_ g ++
      ((λ f, f {{ Fill.strategy_id := OrderRequest.strategy_id o; Fill.symbol_id := OrderRequest.symbol_id o }})
        <$> take (fills_used (OrderRequest.quantity o) fills) fills) ∧
    (find_pending id g2 = None ↔ OrderRequest.quantity o <= sumZ (Fill.fill_quantity <$> fills)).
Proof.
  intros id cid Hl Hcb Hx Hid Hq Hp Hs g1 Hel Hr Hsum.
  destruct (live_order_tracked o g Hl Hx ltac:(lia) Hp Hs) as (T1 & T2 & T3 & _ & po & T4 & T5 & T6 & T7 & T8).
  fold id cid g1 in T1, T2, T3, T4. exists (inject_all clock fills g1). split; [by apply (reports_inject _ _ _ id)|].
  destruct (inject_lifecycle clock id po fills g1) as (I1 & I2 & _); try done; try (rewrite ?T5, ?T6; lia); [by rewrite T2| |].
  { clear -Hr. induction Hr as [|r f rs fills (price & quantity & ? & ? & ? & ? & ? & ? & ? & ->) _ IH]; [done|]. by constructor. }
  rewrite T5, T6, Z.sub_0_r in I1, I2. rewrite I1, T3. split; [|done]. f_equal. apply list_fmap_ext. intros i f _. unfold enrich. by rewrite T7, T8.
Qed.
End fills.

(** ** Stopping *)

Section stopping.
Context {F : FpmOps} {UB : CastUB} {J : JsonOps} {R : ReportOps}.
Context (clock : nat → Z) (http_place : nat → option (option json)).
Abbreviation run_event := (run_event clock http_place).
Abbreviation run_events := (run_events clock http_place).

(** The messages handed to [dispatch] in a run. *)
Definition message_read (e : stream_event) (s : BinanceUserStream) : list string :=
  match e, readThread s, transport s with
  | Turn f _ _, Some Receiving, Some tr =>
      match (ThinMux.WebSocketTlsTransport.receive f tr).1 with Some EmptyString | None => [] | Some msg => [msg] end
  | _, _, _ => []
  end.
Fixpoint messages_read (es : list stream_event) (s : BinanceUserStream) : list string :=
  match es with
  | [] => []
  | e :: es => message_read e s ++ match run_event e s with Some s => messages_read es s | None => [] end
  end.

Definition is_turn (e : stream_event) : bool := match e with Turn _ _ _ => true | _ => false end.
Definition is_start (e : stream_event) : bool := match e with Start _ _ _ => true | _ => false end.
Definition turns (es : list stream_event) : nat := length (filter is_turn es).

(** How many steps a thread that is to stop has left. *)
Definition rank (t : option pc) : nat :=
  match t with Some Receiving => 3 | Some ReadTop => 2 | None | Some Exited => 0 | _ => 1 end.

(** Whether it is in a read. *)
Definition receiving (t : option pc) : nat := match t with Some Receiving => 1 | _ => 0 end.

Definition exit_marked (s : BinanceUserStream) : Prop := readThread s = Some Exited → threadExited s = true.

Lemma createListenKey_thread nets s :
  let s' := (createListenKey nets s).2 in
  readThread s' = readThread s ∧ threadExited s' = threadExited s ∧ stopRequested s' = stopRequested s.
Proof. cbv zeta. unfold createListenKey. by destruct (HttpClient.createListenKey _ _ _). Qed.

Lemma connect_thread net s ok s' :
  connect net s = Some (ok, s') →
  readThread s' = readThread s ∧ threadExited s' = threadExited s ∧ stopRequested s' = stopRequested s.
Proof.
  unfold connect. destruct (transport s) as [tr|]; [|done]. cbn [mbind option_bind].
  destruct (ThinMux.WebSocketTlsTransport.connect (stream_config s) net tr).
  by intros [= <- <-].
Qed.

Lemma start_thread config nets net s ok s' :
  start config nets net s = Some (ok, s') →
  threadExited s' = threadExited s ∧ stopRequested s' = stopRequested s ∧
  (readThread s' = readThread s ∨ (readThread s = None ∧ readThread s' = Some ReadTop)).
Proof.
  unfold start. pose proof (createListenKey_thread nets (s {{ cfg := config }})) as K.
  destruct (createListenKey nets _) as [ok1 s1]. destruct K as (K1 & K2 & K3).
  change (readThread s1 = readThread s) in K1. change (threadExited s1 = threadExited s) in K2. change (stopRequested s1 = stopRequested s) in K3.
  destruct (negb ok1); [intros [= <- <-]; by auto|].
  destruct (connect net _) as [[ok2 s2]|] eqn:Hc; cbn [mbind option_bind]; [|done]. apply connect_thread in Hc as (C1 & C2 & C3).
  change (readThread s2 = readThread s1) in C1. change (threadExited s2 = threadExited s1) in C2. change (stopRequested s2 = stopRequested s1) in C3.
  destruct (negb ok2).
  - intros [= <- <-]. split_and!; [congruence|congruence|left; congruence].
  - destruct (readThread s2) eqn:E; [done|]. intros [= <- <-].
    split; [exact (eq_trans C2 K2)|]. split; [exact (eq_trans C3 K3)|]. right. split; [congruence|done].
Qed.

Lemma receive_thread f s s' :
  receive_step clock f s = Some s' →
  (readThread s' = Some Disconnected ∨ readThread s' = Some ReadTop) ∧ threadExited s' = threadExited s ∧ stopRequested s' = stopRequested s.
Proof.
  unfold receive_step. destruct (transport s) as [tr|]; [|done]. cbn [mbind option_bind]. destruct (ThinMux.WebSocketTlsTransport.receive f tr) as [[[|c msg]|] tr'].
  - intros [= <-]. by auto.
  - destruct (dispatch _ _ _); cbn; [|done]. intros [= <-]. by auto.
  - intros [= <-]. by auto.
Qed.

Lemma thread_step_marked f nets net s s' :
  exit_marked s → thread_step clock f nets net s = Some s' → exit_marked s' ∧ stopRequested s' = stopRequested s.
Proof.
  unfold exit_marked, thread_step. intros Hm. destruct (readThread s) as [[]|] eqn:E.
  - intros [= <-]. split; [by destruct (isRunning s)|done].
  - intros ([H|H] & _ & ->)%receive_thread; split; congruence.
  - intros [= <-]. destruct (isRunning s); by split.
  - destruct (negb _); [intros [= <-]; by split|].
    destruct (createListenKey_thread nets (s {{ transport ::= fmap ThinMux.WebSocketTlsTransport.disconnect }})) as (_ & _ & K).
    destruct (createListenKey nets _) as [ok s1]. intros [= <-]. cbn in *. split; [by destruct ok|done].
  - destruct (negb _); intros [= <-]; by split.
  - destruct (negb _); [intros [= <-]; by split|]. destruct (connect net s) as [[ok s1]|] eqn:Hc; cbn; [|done].
    apply connect_thread in Hc as (_ & _ & C). intros [= <-]. split; [by destruct ok|done].
  - intros [= <-]. by rewrite E.
  - intros [= <-]. by rewrite E.
Qed.

Lemma run_event_marked e s s' :
  exit_marked s → run_event e s = Some s' → exit_marked s' ∧ (stopRequested s = true → stopRequested s' = true).
Proof.
  intros Hm. destruct e; cbn.
  - destruct (start _ _ _ _) as [[ok s1]|] eqn:E; [|done]. intros [= <-]. apply start_thread in E as (E1 & E2 & E3).
    split; [|by rewrite E2]. unfold exit_marked. rewrite E1. destruct E3 as [->|[_ ->]]; [exact Hm|done].
  - intros [= <-]. unfold stop_request. by destruct (running_ s).
  - intros [= <-]. unfold stop_finish. destruct (_ && _); [|done]. by destruct (String.eqb _ _).
  - intros H. apply thread_step_marked in H as [? ->]; done.
  - intros [= <-]. by split.
  - intros [= <-]. by split.
  - intros [= <-]. by split.
Qed.

Lemma run_events_marked es s s' : exit_marked s → run_events es s = Some s' → exit_marked s'.
Proof.
  revert s. induction es as [|e es IH]; intros s Hm; cbn; [by intros [= <-]|].
  destruct (run_event e s) as [s1|] eqn:E; cbn; [|done]. apply IH. by apply (run_event_marked e s).
Qed.

Lemma thread_step_stopped f nets net s s' :
  stopRequested s = true → thread_step clock f nets net s = Some s' →
  (rank (readThread s') <= rank (readThread s) - 1)%nat ∧ (readThread s = None → readThread s' = None).
Proof.
  intros Hs. assert (isRunning s = false) as Hr by (unfold isRunning; by rewrite Hs). unfold thread_step. rewrite Hr. cbn [negb].
  destruct (readThread s) as [[]|] eqn:E; try (intros [= <-]; rewrite ?E; cbn; split; [lia|done]).
  intros ([->| ->] & _)%receive_thread; cbn; split; [lia|done|lia|done].
Qed.

Lemma run_event_stopped e s s' :
  stopRequested s = true → run_event e s = Some s' →
  (is_start e = false → (rank (readThread s') <= rank (readThread s) - (if is_turn e then 1 else 0))%nat) ∧
  (length (message_read e s) + receiving (readThread s') <= receiving (readThread s))%nat.
Proof.
  intros Hs He. destruct e; cbn [is_start is_turn message_read length Nat.add] in *; cbn in He.
  - split; [done|]. destruct (start _ _ _ _) as [[ok s1]|] eqn:E; [|done]. injection He as <-.
    apply start_thread in E as (_ & _ & [->|[-> ->]]); done.
  - injection He as <-. unfold stop_request. destruct (running_ s); (split; [intros _; rewrite Nat.sub_0_r; done|done]).
  - injection He as <-. unfold stop_finish. rewrite Nat.sub_0_r. destruct (_ && _); [|split; [lia|done]].
    destruct (String.eqb _ _); (split; [intros _|]; apply Nat.le_0_l).
  - destruct (thread_step_stopped _ _ _ _ _ Hs He) as [Hk _]. split; [done|].
    assert (receiving (readThread s') = 0%nat) as ->.
    { revert Hk. clear. destruct (readThread s) as [[]|], (readThread s') as [[]|]; cbn; (done || lia). }
    destruct (readThread s) as [[]|]; cbn [length receiving]; try lia. destruct (transport s) as [t|]; [|cbn; lia].
    destruct ((ThinMux.WebSocketTlsTransport.receive f t).1) as [[]|]; cbn; lia.
  - injection He as <-. split; [intros _; by rewrite Nat.sub_0_r|done].
  - injection He as <-. split; [intros _; by rewrite Nat.sub_0_r|done].
  - injection He as <-. split; [intros _; by rewrite Nat.sub_0_r|done].
Qed.

(** C36: once [stop] has asked a stream to end, then, unless the program ends, the request
    stands for ever: at most the message being read is still handed to the gateway, also
    when the stream is started again; and without a new start the read thread has ended
    after three of its steps, so that [stop]'s wait for it ends. *)
Theorem stop_is_final es0 g s es s' :
  run_events es0 (BinanceUserStream_init g) = Some s → stopRequested s = true → run_events es s = Some s' →
  stopRequested s' = true ∧
  (length (messages_read es s) <= receiving (readThread s))%nat ∧
  ((3 <= turns es)%nat → existsb is_start es = false → readThread s' = None ∨ (readThread s' = Some Exited ∧ threadExited s' = true)).
Proof.
  intros H0 Hs Hrun. assert (exit_marked s) as Hm by by apply (run_events_marked es0) in H0.
  assert (stopRequested s' = true ∧
    (length (messages_read es s) <= receiving (readThread s))%nat ∧
    (existsb is_start es = false → (rank (readThread s') <= rank (readThread s) - turns es)%nat) ∧ exit_marked s') as (S1 & S2 & S3 & S4).
  { clear H0. revert s Hs Hm Hrun. induction es as [|e es IH]; intros s Hs Hm; cbn [run_events messages_read UserStream.run_events].
    - intros [= <-]. split_and!; [done|cbn; lia|cbn; lia|done].
    - destruct (run_event e s) as [s1|] eqn:E; cbn [mbind option_bind]; [|done]. intros Hrun.
      destruct (run_event_marked e s s1 Hm E) as [Hm1 Hs1]. destruct (IH s1 (Hs1 Hs) Hm1 Hrun) as (I1 & I2 & I3 & I4).
      destruct (run_event_stopped e s s1 Hs E) as [R1 R2]. split; [done|]. split; [rewrite length_app; lia|]. split; [|done].
      cbn [existsb]. intros [Hn1 Hn2]%orb_false_elim. specialize (R1 Hn1). specialize (I3 Hn2).
      unfold turns in *. rewrite filter_cons. destruct (is_turn e); case_decide; cbn [length] in *; (done || lia). }
  split; [done|]. split; [done|]. intros Ht Hn. specialize (S3 Hn).
  assert (rank (readThread s) <= 3)%nat by (destruct (readThread s) as [[]|]; cbn; lia).
  unfold exit_marked in S4. destruct (readThread s') as [[]|]; cbn in S3; try lia; [right; by split; [|apply S4]|by left].
Qed.
End stopping.

(** ** Witnesses *)

(** A parser of one document and numbers of one digit. *)
Definition RefReports : @ReportOps JsonRef := {|
  j_is_object := λ j : @json JsonRef, match j with JObject _ => true | _ => false end;
  j_parse := λ s, if String.eqb s "key" then Some (JObject [("listenKey", JString "k1")]%string) else None;
  stod := λ s, match s with String.String c EmptyString => Some (d_of_Z (byte_of c - 48)) | _ => None end;
|}.

Lemma RefReports_laws : ReportLaws RefReports.
Proof. by split. Qed.

Definition sample_live : OrderGateway := setHttpClient true (OrderGateway_init sample_config true 7 false).
Definition sample_report (status : string) : TradeReport.t := TradeReport.mk status 9001 "7" "1" "2" 1000 1001.
Definition sample_fill (id : Z) : Fill.t :=
  Fill.default {{ Fill.order_id := id; Fill.exchange_id := 1; Fill.fill_price := 7 * ONE; Fill.fill_quantity := ONE;
                  Fill.exchange_timestamp_us := 1000000; Fill.receive_timestamp_us := 1001000 }}.

Lemma live_order_filled_witness :
  ∃ g2, parse_reports (F := FpmRef) (UB := CastX86) (R := RefReports) sample_clock
          (trade_report (J := JsonRef) "41_1010" "BTCUSDT" OrderSide.BUY <$> [sample_report "PARTIALLY_FILLED"; sample_report "FILLED"])
          sample_gateway = Some g2 ∧
        find_pending 41 g2 = None ∧ length (fills_out_ g2) = 2%nat.
Proof.
  destruct (live_order_filled (F := FpmRef) (UB := CastX86) (R := RefReports) (HR := RefReports_laws) sample_clock (λ _, Some None)
    (sample_order 41) sample_live "BTCUSDT" OrderSide.BUY [sample_report "PARTIALLY_FILLED"; sample_report "FILLED"]
    [sample_fill 41; sample_fill 41]) as (g2 & E1 & E2 & E3).
  - reflexivity.
  - reflexivity.
  - reflexivity.
  - discriminate.
  - reflexivity.
  - reflexivity.
  - discriminate.
  - vm_compute. reflexivity.
  - repeat constructor; exists (d_of_Z 7), (d_of_Z 1); (split; [repeat constructor|]); do 3 (split; [split; vm_compute; (discriminate || reflexivity)|]);
       (split; [reflexivity|]); (split; [reflexivity|]); (split; vm_compute; reflexivity).
  - reflexivity.
  - exists g2. split; [exact E1|]. split; [apply E3; vm_compute; discriminate|]. rewrite E2. vm_compute. reflexivity.
Defined.

Definition sample_rest (n : nat) : HttpNetwork :=
  {| socket := OpenNetwork; http_write := λ _, inr (); http_read := inr (200, "key"%string) |}.
Definition sample_turn (text : string) : stream_event := Turn (Frame text) sample_rest OpenNetwork.

Definition sample_stream := @BinanceUserStream JsonRef.
Definition sample_run : list stream_event → sample_stream → option sample_stream :=
  run_events (F := FpmRef) (UB := CastX86) (R := RefReports) sample_clock (λ _, None).
Definition sample_start : sample_stream := BinanceUserStream_init sample_live.
Definition until_stop : list stream_event :=
  [GatewayStart; Start sample_config sample_rest OpenNetwork; sample_turn "a"; StopRequest].
Definition after_stop : list stream_event := [sample_turn "b"; sample_turn "c"; sample_turn "d"].
Definition sample_stopped : sample_stream := default sample_start (sample_run until_stop sample_start).

Lemma ran (o : option sample_stream) d : bool_decide (is_Some o) = true → o = Some (default d o).
Proof. by destruct o. Qed.

Lemma stop_is_final_witness :
  messages_read (F := FpmRef) (UB := CastX86) (R := RefReports) sample_clock (λ _, None) after_stop sample_stopped = ["b"%string] ∧
  threadExited (default sample_start (sample_run after_stop sample_stopped)) = true.
Proof.
  assert (sample_run until_stop sample_start = Some sample_stopped) as E0 by (apply ran; vm_compute; reflexivity).
  assert (sample_run after_stop sample_stopped = Some (default sample_start (sample_run after_stop sample_stopped))) as E1
    by (apply ran; vm_compute; reflexivity).
  split; [vm_compute; reflexivity|].
  destruct (stop_is_final (F := FpmRef) (UB := CastX86) (R := RefReports) sample_clock (λ _, None) until_stop sample_live sample_stopped
    after_stop _ E0 ltac:(vm_compute; reflexivity) E1) as (_ & _ & H).
  destruct H as [H|[_ H]]; [vm_compute; lia|reflexivity| |exact H].
  exfalso. assert (readThread (default sample_start (sample_run after_stop sample_stopped)) = Some Exited) as E by (vm_compute; reflexivity).
  congruence.
Defined.
