(* ===== verification/LiveSend.v ===== *)
(** Sending an order takes time: [OrderGateway::processOrder] holds no lock while its REST
    call is under way (src/execution/order_gateway.cpp), so the user stream's thread may
    inject fills between the moment the order is tracked and the moment its answer is
    read; the code tracks the order before the call for this reason. [processOrder] of
    OrderGateway.v in two halves, with anything in between. *)
From S2P Require Import Prelude FixedPoint Types Json.
From S2P Require Import OrderGateway UserStream.
From S2P Require RiskEngine.

Section send.
Context {F : FpmOps} {UB : CastUB} {J : JsonOps} {R : ReportOps}.
Context (clock : nat → Z) (http_place : nat → option (option json)).

(** Symbol, side, quantity, price and client id of a request. *)
Abbreviation params := (string * string * string * string * string)%type.

(** Up to the REST call: the order is known by its client id and pending; the request
    goes out. [None] when the order cannot be encoded. *)
Definition begin_send (order : OrderRequest.t) (send_time : Z) (g : OrderGateway) : bool * OrderGateway :=
  match encodeOrderJson clock order g with
  | (None, g) => (false, reject_order g)
  | (Some (symbol, side, qty, price, clientOrderId), g) =>
      let g := g {{ client_id_to_local_ ::= <[clientOrderId := OrderRequest.order_id order]> }} in
      let g := trackPending order send_time g in
      (true, g {{ requests_ ::= λ l, l ++ [Place symbol side qty price clientOrderId] }})
  end.

(** From the answer on. *)
Definition finish_send (order : OrderRequest.t) (resp : option (option json)) (g : OrderGateway) : OrderGateway :=
  match resp with
  | None => count (λ s, s {{ OrderGatewayStats.orders_rejected ::= inc64 }}) g
  | Some body =>
      let g := match body ≫= parse_ack (OrderRequest.order_id order) with
               | Some ack => injectOrderAck ack g
               | None => g
               end in
      count (λ s, s {{ OrderGatewayStats.orders_sent ::= inc64 }}) g
  end.

(** With nothing in between the halves are the whole. *)
Lemma process_new_live_halves order t g :
  has_http_client g = true →
  process_new_live clock http_place order t g =
    match begin_send order t g with
    | (true, g1) => finish_send order (http_place (length (requests_ g))) g1
    | (false, g1) => g1
    end.
Proof.
  intros Hh. unfold process_new_live, begin_send, encodeOrderJson. destruct (String.eqb _ _); [done|]. cbn [now_us].
  destruct g as [cf xi xn hc sf hh ru pe el cl st av re rq fo]. cbn in Hh. subst hh. unfold realSendWithClientId, finish_send. cbn.
  destruct (http_place (length rq)) as [body|]; [|done]. cbn. by destruct (body ≫= _).
Qed.

(** The first half of [processOrder] for an order that is new, for this exchange and sent live
    ([processOrder_halves]): it is counted, the clock is read, the rest is [begin_send]. *)
Definition begin_order (order : OrderRequest.t) (g : OrderGateway) : bool * OrderGateway :=
  let g := count (λ s, s {{ OrderGatewayStats.orders_received ::= inc64 }}) g in
  let '(send_time, g) := now_us clock g in
  begin_send order send_time g.

Lemma processOrder_halves o g :
  live g = true → OrderRequest.exchange_id o = exchange_id_ g → OrderRequest.quantity o ≠ 0 →
  find_pending (OrderRequest.order_id o) g = None →
  processOrder clock http_place o g =
    match begin_order o g with
    | (true, g1) => finish_send o (http_place (length (requests_ g))) g1
    | (false, g1) => g1
    end.
Proof.
  intros Hl Hx Hq Hp. unfold processOrder, begin_order.
  destruct g as [cf xi xn hc sf hh ru pe el cl st av re rq fo]. unfold live, find_pending in *. cbn in Hl, Hx, Hp.
  apply andb_prop in Hl as [Hsf Hh]. subst hh xi.
  assert (sf = false) as -> by (by destruct sf).
  cbn [count now_us OrderGateway.exchange_id_ stats_ constant]. rewrite Z.eqb_refl. cbn [negb]. rewrite (proj2 (Z.eqb_neq _ _)) by done.
  cbn. rewrite Hp. by rewrite process_new_live_halves.
Qed.

(** *** The first half *)

(** An order in flight none of which is filled. *)
Definition tracked_as (o : OrderRequest.t) (g : OrderGateway) : Prop :=
  ∃ po, find_pending (OrderRequest.order_id o) g = Some po ∧ PendingOrder.filled_quantity po = 0 ∧
        PendingOrder.original_quantity po = OrderRequest.quantity o ∧
        PendingOrder.strategy_id po = OrderRequest.strategy_id o ∧ PendingOrder.symbol_id po = OrderRequest.symbol_id o.

Lemma begin_send_ok o t g :
  symbolIdToName (OrderRequest.symbol_id o) g ≠ EmptyString →
  let id := OrderRequest.order_id o in
  let cid := (RiskEngine.to_string id ++ "_" ++ RiskEngine.to_string (clock (readings_ g)))%string in
  let '(ok, g1) := begin_send o t g in
  ok = true ∧ client_id_to_local_ g1 !! cid = Some id ∧ has_callback g1 = has_callback g ∧
  fills_out_ g1 = fills_out_ g ∧ exchange_to_local_ g1 = exchange_to_local_ g ∧
  tracked_as o g1.
Proof.
  intros Hs id cid. unfold begin_send, encodeOrderJson. rewrite (proj2 (String.eqb_neq _ _)) by done. cbn [now_us].
  destruct g as [cf xi xn hc sf hh ru pe el cl st av re rq fo]. subst id cid. cbn. unfold find_pending. cbn.
  rewrite !lookup_insert_eq. split_and!; try done. unfold tracked_as, find_pending; cbn; rewrite lookup_insert_eq; by eexists.
Qed.

Lemma begin_order_ok o g :
  symbolIdToName (OrderRequest.symbol_id o) g ≠ EmptyString →
  let id := OrderRequest.order_id o in
  let cid := (RiskEngine.to_string id ++ "_" ++ RiskEngine.to_string (clock (S (readings_ g))))%string in
  let '(ok, g1) := begin_order o g in
  ok = true ∧ client_id_to_local_ g1 !! cid = Some id ∧ has_callback g1 = has_callback g ∧
  fills_out_ g1 = fills_out_ g ∧ exchange_to_local_ g1 = exchange_to_local_ g ∧ tracked_as o g1.
Proof.
  intros Hs id cid. unfold begin_order. destruct (now_us _ _) as [t g0] eqn:En.
  assert (readings_ g0 = S (readings_ g) ∧ config_ g0 = config_ g ∧ has_callback g0 = has_callback g ∧ fills_out_ g0 = fills_out_ g ∧
    exchange_to_local_ g0 = exchange_to_local_ g) as (E1 & E2 & E3 & E4 & E5) by (injection En as _ <-; by destruct g).
  clear En. pose proof (begin_send_ok o t g0) as Hb. unfold symbolIdToName in *. rewrite E2 in Hb. specialize (Hb Hs).
  rewrite E1, E3, E4, E5 in Hb. exact Hb.
Qed.

(** *** The second half *)

Lemma parse_ack_id id j ack : parse_ack id j = Some ack → OrderAck.order_id ack = id.
Proof.
  unfold parse_ack. destruct (get_or _ _ j "orderId"); [|done]. cbn. destruct (get_or _ _ j "updateTime"); [|done].
  cbn. by intros [= <-].
Qed.

(** The answer neither fills nor loses the order: its quantities stay, a finished order stays finished. *)
Lemma finish_send_keeps o resp g :
  let id := OrderRequest.order_id o in
  let g' := finish_send o resp g in
  has_callback g' = has_callback g ∧ fills_out_ g' = fills_out_ g ∧ client_id_to_local_ g' = client_id_to_local_ g ∧
  match find_pending id g with
  | None => find_pending id g' = None
  | Some po => ∃ po', find_pending id g' = Some po' ∧
      PendingOrder.filled_quantity po' = PendingOrder.filled_quantity po ∧
      PendingOrder.original_quantity po' = PendingOrder.original_quantity po ∧
      PendingOrder.strategy_id po' = PendingOrder.strategy_id po ∧ PendingOrder.symbol_id po' = PendingOrder.symbol_id po
  end.
Proof.
  intros id g'. subst g'. unfold finish_send.
  assert (∀ f, let g' := count f g in has_callback g' = has_callback g ∧ fills_out_ g' = fills_out_ g ∧
    client_id_to_local_ g' = client_id_to_local_ g ∧ find_pending id g' = find_pending id g) as Hc by (intros f; by destruct g).
  assert (match find_pending id g with
    | None => find_pending id g = None
    | Some po => ∃ po', find_pending id g = Some po' ∧
      PendingOrder.filled_quantity po' = PendingOrder.filled_quantity po ∧
      PendingOrder.original_quantity po' = PendingOrder.original_quantity po ∧
      PendingOrder.strategy_id po' = PendingOrder.strategy_id po ∧ PendingOrder.symbol_id po' = PendingOrder.symbol_id po end) as Hrefl.
  { destruct (find_pending id g) as [po|]; [|done]. by exists po. }
  destruct resp as [body|]; [|destruct (Hc (λ s, s {{ OrderGatewayStats.orders_rejected ::= inc64 }})) as (-> & -> & -> & ->); done].
  destruct (body ≫= _) as [ack|] eqn:Ha; [|destruct (Hc (λ s, s {{ OrderGatewayStats.orders_sent ::= inc64 }})) as (-> & -> & -> & ->); done].
  assert (OrderAck.order_id ack = id) as Hid by (destruct body; [by apply parse_ack_id in Ha|done]).
  clear Hc Hrefl Ha. unfold injectOrderAck. rewrite Hid. destruct (find_pending id g) as [po|] eqn:Hp.
  - unfold find_pending in *. destruct g as [? ? ? ? ? ? ? ? ? ? [] ? ? ? ?]; destruct (_ =? 0); cbn; rewrite lookup_insert_eq;
      (split_and!; [done..|]); eexists; (split; [done|]); by destruct po.
  - unfold find_pending in *. by destruct g as [? ? ? ? ? ? ? ? ? ? [] ? ? ? ?].
Qed.
End send.

Section race.
Context {F : FpmOps} {HF : FpmLaws F} {UB : CastUB} {J : JsonOps} {R : ReportOps} {HJ : JsonLaws J} {HR : ReportLaws R}.
Context (clock : nat → Z) (http_place : nat → option (option json)).

(** *** Fills in two parts *)

Lemma positive_sum fills : Forall (λ f, 0 < Fill.fill_quantity f) fills → 0 <= sumZ (Fill.fill_quantity <$> fills).
Proof. intros H. apply sumZ_nonneg, Forall_fmap. eapply Forall_impl; [exact H|]. cbn. lia. Qed.

Lemma fills_used_app rest fills1 fills2 :
  Forall (λ f, 0 < Fill.fill_quantity f) fills1 →
  take (fills_used rest (fills1 ++ fills2)) (fills1 ++ fills2) =
    if decide (fills1 ≠ [] ∧ rest <= sumZ (Fill.fill_quantity <$> fills1)) then take (fills_used rest fills1) fills1
    else fills1 ++ take (fills_used (rest - sumZ (Fill.fill_quantity <$> fills1)) fills2) fills2.
Proof.
  revert rest. induction fills1 as [|f fills1 IH]; intros rest Hf.
  - rewrite decide_False by naive_solver. cbn. by rewrite Z.sub_0_r.
  - apply Forall_cons in Hf as [Hq Hf]. pose proof (positive_sum _ Hf). cbn [app fills_used fmap list_fmap].
    rewrite sumZ_cons, Z.geb_leb. destruct (Z.leb_spec rest (Fill.fill_quantity f)) as [Hle|Hlt].
    + rewrite decide_True; [done|]. split; [done|lia].
    + cbn [take]. rewrite IH by done. destruct fills1 as [|f1 fills1].
      * rewrite decide_False by naive_solver. rewrite decide_False by (cbn; intros [_ ?]; lia). cbn. do 3 f_equal; lia.
      * destruct (decide (_ ∧ _)) as [[_ Hs]|Hs].
        -- rewrite decide_True; [done|]. split; [done|lia].
        -- rewrite decide_False; [|intros [_ ?]; apply Hs; split; [done|lia]]. cbn [app]. by rewrite Z.sub_add_distr.
Qed.

(** An order that is not complete yet: every fill is passed on and counted. *)
Lemma inject_partial k po fills g :
  find_pending k g = Some po → has_callback g = true →
  Forall (λ f, Fill.order_id f = k ∧ 0 < Fill.fill_quantity f) fills →
  0 <= PendingOrder.filled_quantity po → PendingOrder.original_quantity po < 2 ^ 63 →
  PendingOrder.filled_quantity po + sumZ (Fill.fill_quantity <$> fills) < PendingOrder.original_quantity po →
  let g' := inject_all clock fills g in
  exchange_to_local_ g' = exchange_to_local_ g ∧ has_callback g' = true ∧ fills_out_ g' = fills_out_ g ++ (enrich po <$> fills) ∧
  ∃ po', find_pending k g' = Some po' ∧
    PendingOrder.filled_quantity po' = PendingOrder.filled_quantity po + sumZ (Fill.fill_quantity <$> fills) ∧
    PendingOrder.original_quantity po' = PendingOrder.original_quantity po ∧
    PendingOrder.strategy_id po' = PendingOrder.strategy_id po ∧ PendingOrder.symbol_id po' = PendingOrder.symbol_id po.
Proof.
  revert po g. induction fills as [|f fills IH]; intros po g Hp Hc Hf H0 Hb Hs; cbv zeta.
  - cbn. rewrite app_nil_r, Z.add_0_r. split_and!; [done..|]. by exists po.
  - apply Forall_cons in Hf as [[Hfk Hfq] Hf]. rewrite !fmap_cons, !sumZ_cons in *.
    assert (0 <= sumZ (Fill.fill_quantity <$> fills)) as Hnn by (apply positive_sum; eapply Forall_impl; [exact Hf|]; by intros ? []).
    destruct (inject_known clock k po f g Hp Hfk Hc) as (I1 & I2 & I3 & _ & I5); [unfold is_dec, inS; lia..|].
    rewrite Z.geb_leb, (proj2 (Z.leb_gt _ _)) in I5 by lia.
    change (inject_all clock (f :: fills) g) with (inject_all clock fills (injectFill clock f g)).
    set (po1 := partially_filled _ _ po) in I5.
    assert (PendingOrder.filled_quantity po1 = PendingOrder.filled_quantity po + Fill.fill_quantity f ∧
      PendingOrder.original_quantity po1 = PendingOrder.original_quantity po ∧ PendingOrder.strategy_id po1 = PendingOrder.strategy_id po ∧
      PendingOrder.symbol_id po1 = PendingOrder.symbol_id po) as (P1 & P2 & P3 & P4) by by subst po1; destruct po.
    destruct (IH po1 _ I5 I2 Hf) as (J1 & J2 & J3 & po' & J4 & J5 & J6 & J7 & J8); [lia|lia|lia|].
    rewrite J1, J3, I1, I3, <-app_assoc. split_and!; [done|done| |].
    + cbn [app]. by do 2 f_equal.
    + exists po'. rewrite J5, J6, J7, J8, P1, P2, P3, P4. split_and!; [done|lia|done..].
Qed.

Lemma reported_fills id side rs fills :
  Forall2 (reported_fill id side) rs fills → Forall (λ f, Fill.order_id f = id ∧ 0 < Fill.fill_quantity f) fills.
Proof.
  induction 1 as [|r f rs fills (price & quantity & ? & ? & ? & ? & ? & ? & ? & ->) _ IH]; [done|]. by constructor.
Qed.

Lemma inject_all_client fills g : client_id_to_local_ (inject_all clock fills g) = client_id_to_local_ g.
Proof.
  revert g. induction fills as [|f fills IH]; intros g; [done|].
  change (inject_all clock (f :: fills) g) with (inject_all clock fills (injectFill clock f g)). by rewrite IH, injectFill_client.
Qed.

(** The fills in two parts with the answer between them. *)
Lemma fills_around_answer o resp po fills1 fills2 g :
  let id := OrderRequest.order_id o in
  find_pending id g = Some po → PendingOrder.filled_quantity po = 0 → 0 < PendingOrder.original_quantity po →
  has_callback g = true → exchange_to_local_ g !! id = None →
  Forall (λ f, Fill.order_id f = id ∧ 0 < Fill.fill_quantity f) fills1 →
  Forall (λ f, Fill.order_id f = id ∧ 0 < Fill.fill_quantity f) fills2 →
  sumZ (Fill.fill_quantity <$> fills1 ++ fills2) < 2 ^ 63 → PendingOrder.original_quantity po < 2 ^ 63 →
  let g2 := finish_send o resp (inject_all clock fills1 g) in
  exchange_to_local_ g2 !! id = None →
  let g3 := inject_all clock fills2 g2 in
  fills_out_ g3 = fills_out_ g ++
    (enrich po <$> take (fills_used (PendingOrder.original_quantity po) (fills1 ++ fills2)) (fills1 ++ fills2)) ∧
  (find_pending id g3 = None ↔ PendingOrder.original_quantity po <= sumZ (Fill.fill_quantity <$> fills1 ++ fills2)).
Proof.
  intros id Hp H0 Hq Hc He Hf1 Hf2 Hs Hb g2 He2 g3. rewrite fmap_app, sumZ_app in *.
  assert (Forall (λ f, 0 < Fill.fill_quantity f) fills1) as Hp1 by (eapply Forall_impl; [exact Hf1|]; by intros ? []).
  assert (Forall (λ f, 0 < Fill.fill_quantity f) fills2) as Hp2 by (eapply Forall_impl; [exact Hf2|]; by intros ? []).
  pose proof (positive_sum _ Hp1). pose proof (positive_sum _ Hp2).
  rewrite fills_used_app by done.
  destruct (finish_send_keeps o resp (inject_all clock fills1 g)) as (K1 & K2 & _ & K3). fold g2 id in K1, K2, K3.
  destruct (decide (PendingOrder.original_quantity po <= sumZ (Fill.fill_quantity <$> fills1))) as [Hdone|Hopen].
  - destruct (inject_lifecycle clock id po fills1 g) as (L1 & L2 & _); try done; [lia..|].
    rewrite H0, Z.sub_0_r in L1, L2. rewrite (proj2 L2 Hdone) in K3.
    destruct (inject_unknown clock id fills2 g2) as ([U1 _] & U2 & _); [by split|eapply Forall_impl; [exact Hf2|]; by intros ? []|].
    fold g3 in U1, U2. rewrite U2, K2, L1. rewrite decide_True; [split; [done|split; [lia|done]]|].
    split; [|done]. intros ->. cbn in Hdone. lia.
  - destruct (inject_partial id po fills1 g Hp Hc Hf1) as (P1 & P2 & P3 & po1 & P4 & P5 & P6 & P7 & P8); [lia..|].
    rewrite P4 in K3. destruct K3 as (po2 & Q1 & Q2 & Q3 & Q4 & Q5).
    destruct (inject_lifecycle clock id po2 fills2 g2) as (L1 & L2 & _); try done; [by rewrite K1|lia|lia|].
    fold g3 in L1, L2. rewrite Q2, Q3, P5, P6, H0 in L1, L2. rewrite Z.add_0_l in L1, L2.
    rewrite L1, K2, P3, <-app_assoc. rewrite decide_False; [|by intros [_ ?]]. split; [|rewrite L2; lia].
    f_equal. rewrite fmap_app. f_equal. apply list_fmap_ext. intros i x _. unfold enrich. by rewrite Q4, Q5, P7, P8.
Qed.

(** C20: an order sent to a live exchange while the user stream's thread reports trades of it,
    some ([rs1]) before the REST call returned and some ([rs2]) after, whatever it
    returned: no fill is lost, counted twice or given to another strategy because of the
    race. The fills of both parts, up to and including the one that completes the
    order, reach the callback in order under the order's strategy and symbol; the
    order stays pending until they add up to its quantity, and an answer
    that comes after the completing trade does not bring it back. Without
    trades in between the two halves are [processOrder]. *)
Theorem fills_race_answer o g symbol side rs1 fills1 rs2 fills2 resp :
  let id := OrderRequest.order_id o in
  let cid := (RiskEngine.to_string id ++ "_" ++ RiskEngine.to_string (clock (S (readings_ g))))%string in
  live g = true → has_callback g = true → OrderRequest.exchange_id o = exchange_id_ g → id ≠ 0 →
  0 < OrderRequest.quantity o < 2 ^ 63 →
  find_pending id g = None → symbolIdToName (OrderRequest.symbol_id o) g ≠ EmptyString →
  exchange_to_local_ g !! id = None →
  Forall2 (reported_fill id side) rs1 fills1 → Forall2 (reported_fill id side) rs2 fills2 →
  sumZ (Fill.fill_quantity <$> fills1 ++ fills2) < 2 ^ 63 →
  ∃ g1, begin_order clock o g = (true, g1) ∧
    processOrder clock http_place o g = finish_send o (http_place (length (requests_ g))) g1 ∧
  ∃ g2, parse_reports clock (trade_report cid symbol side <$> rs1) g1 = Some g2 ∧
    let g3 := finish_send o resp g2 in
    (exchange_to_local_ g3 !! id = None →
     ∃ g4, parse_reports clock (trade_report cid symbol side <$> rs2) g3 = Some g4 ∧
       fills_out_ g4 = fills_out_ g ++
         ((λ f, f {{ Fill.strategy_id := OrderRequest.strategy_id o; Fill.symbol_id := OrderRequest.symbol_id o }})
           <$> take (fills_used (OrderRequest.quantity o) (fills1 ++ fills2)) (fills1 ++ fills2)) ∧
       (find_pending id g4 = None ↔ OrderRequest.quantity o <= sumZ (Fill.fill_quantity <$> fills1 ++ fills2))).
Proof.
  intros id cid Hl Hcb Hx Hid Hq Hp Hs He Hr1 Hr2 Hsum.
  pose proof (begin_order_ok clock o g Hs) as Hb. pose proof (processOrder_halves clock http_place o g Hl Hx ltac:(lia) Hp) as Hh.
  destruct (begin_order clock o g) as [ok g1]. destruct Hb as (-> & B1 & B2 & B3 & B4 & po & P1 & P2 & P3 & P4 & P5).
  fold id cid in B1, P1. exists g1. split; [done|]. split; [done|]. exists (inject_all clock fills1 g1).
  split; [by apply (reports_inject clock _ _ _ id)|]. cbv zeta. intros He3.
  exists (inject_all clock fills2 (finish_send o resp (inject_all clock fills1 g1))). split.
  - apply (reports_inject clock _ _ _ id); [done| |done].
    destruct (finish_send_keeps o resp (inject_all clock fills1 g1)) as (_ & _ & -> & _). by rewrite inject_all_client.
  - destruct (fills_around_answer o resp po fills1 fills2 g1) as [A1 A2]; try done;
      [lia|by rewrite B2|by rewrite B4|by eapply reported_fills|by eapply reported_fills|lia|].
    rewrite A1, B3. rewrite P3 in A2 |- *. split; [|exact A2]. f_equal. apply list_fmap_ext. intros i f _. unfold enrich. by rewrite P4, P5.
Qed.
End race.

(** *** Witness *)

Lemma sample_reported status :
  status ∈ ["FILLED"; "PARTIALLY_FILLED"]%string →
  reported_fill (UB := CastX86) (J := JsonRef) (R := RefReports) 41 OrderSide.BUY (sample_report status) (sample_fill 41).
Proof.
  intros Hs. exists (d_of_Z 7), (d_of_Z 1). split; [done|]. do 3 (split; [split; vm_compute; (discriminate || reflexivity)|]).
  do 2 (split; [reflexivity|]). split; vm_compute; reflexivity.
Qed.

Lemma fills_race_answer_witness :
  ∃ g1 g2 g4, begin_order sample_clock (sample_order 41) sample_live = (true, g1) ∧
    parse_reports (F := FpmRef) (UB := CastX86) (R := RefReports) sample_clock
      (trade_report (J := JsonRef) "41_1010" "BTCUSDT" OrderSide.BUY <$> [sample_report "PARTIALLY_FILLED"]) g1 = Some g2 ∧
    parse_reports (F := FpmRef) (UB := CastX86) (R := RefReports) sample_clock
      (trade_report (J := JsonRef) "41_1010" "BTCUSDT" OrderSide.BUY <$> [sample_report "FILLED"])
      (finish_send (J := JsonRef) (sample_order 41) (Some None) g2) = Some g4 ∧
    find_pending 41 g4 = None ∧ length (fills_out_ g4) = 2%nat.
Proof.
  pose proof (sample_reported "PARTIALLY_FILLED" ltac:(repeat constructor)) as R1.
  pose proof (sample_reported "FILLED" ltac:(repeat constructor)) as R2.
  destruct (fills_race_answer (F := FpmRef) (UB := CastX86) (R := RefReports) (HR := RefReports_laws) sample_clock (λ _, Some None)
    (sample_order 41) sample_live "BTCUSDT" OrderSide.BUY _ _ _ _ (Some None) eq_refl eq_refl eq_refl ltac:(discriminate)
    ltac:(vm_compute; split; reflexivity) eq_refl ltac:(discriminate) eq_refl
    ltac:(constructor; [exact R1|constructor]) ltac:(constructor; [exact R2|constructor]) eq_refl)
    as (g1 & E1 & _ & g2 & E2 & E3).
  assert (exchange_to_local_ (finish_send (J := JsonRef) (sample_order 41) (Some None) g2) !! 41 = None) as E4.
  { vm_compute in E1. injection E1 as <-. vm_compute in E2. injection E2 as <-. vm_compute. reflexivity. }
  destruct (E3 E4) as (g4 & E5 & E6 & E7). exists g1, g2, g4. split; [exact E1|]. split; [exact E2|]. split; [exact E5|].
  split; [apply E7; vm_compute; discriminate|]. rewrite E6. vm_compute. reflexivity.
Defined.
