(* ===== verification/ZmqBridge.v ===== *)
(** [ZMQBridge] (include/chronos/logging/zmq_bridge.hpp, src/logging/zmq_bridge.cpp): the
    engine's events, copied into a queue by the hot path and published by a thread as
    binary messages.

    ZeroMQ is outside the model: whether it opens and binds a socket and whether it takes a message
    are arguments; the messages it took are appended to [sent]. The publisher's turns are
    between two of its checks. [None] is undefined behaviour: the use of the queue
    before [initialize] or after [stop]. *)
From S2P Require Import Prelude FixedPoint Types MpmcQueue LogFormat.

(** ** Data *)

Module EventTag.
Inductive t := TICK | ORDER | FILL.
#[global] Instance t_eq_dec : EqDecision t.
Proof. solve_decision. Defined.
End EventTag.

(** The bytes of [data] behind the record are not initialised and never read. *)
Module Event.
Record t := mk {
  tag : EventTag.t;
  data : list byte;
}.
#[global] Instance inhabited : Inhabited t := populate (mk EventTag.TICK []).
End Event.

Module ZMQConfig.
Record t := mk {
  bind_address : string;
  send_hwm : Z;
  linger_ms : Z;
  queue_capacity : Z;
}.
Definition default : t := mk "tcp://*:5555" 10000 0 65536.
End ZMQConfig.

(** The publisher: at its loop's condition, in the inner loop, or ended. *)
Inductive pc := Top | Draining | Ended.
#[global] Instance pc_eq_dec : EqDecision pc.
Proof. solve_decision. Defined.

Abbreviation bridge_bits := 16.

Record ZMQBridge := mkBridge {
  config_ : ZMQConfig.t;
  zmq_socket_ : bool;
  queue_ : option (@MPMCQueue Event.t);
  pub_thread_ : option pc;        (* [None]: not joinable *)
  stopping : bool;                (* a call of [stop] waits for the publisher *)
  running_ : bool;
  ticks_pub_ : Z;
  orders_pub_ : Z;
  fills_pub_ : Z;
  dropped_ : Z;
  sent : list (list byte);
}.

Definition ZMQBridge_init : ZMQBridge := mkBridge ZMQConfig.default false None None false false 0 0 0 0 [].

Definition isRunning (b : ZMQBridge) : bool := running_ b.
Definition ticksPublished (b : ZMQBridge) : Z := ticks_pub_ b.
Definition ordersPublished (b : ZMQBridge) : Z := orders_pub_ b.
Definition fillsPublished (b : ZMQBridge) : Z := fills_pub_ b.
Definition droppedCount (b : ZMQBridge) : Z := dropped_ b.

(** ** Messages *)

Definition record_size (tag : EventTag.t) : nat :=
  match tag with EventTag.TICK => 64 | EventTag.ORDER => 128 | EventTag.FILL => 128 end.
Definition topic (tag : EventTag.t) : list byte :=
  String.list_byte_of_string (match tag with EventTag.TICK => "TICK" | EventTag.ORDER => "ORDR" | EventTag.FILL => "FILL" end).

(** The buffer handed to [zmq_send]. *)
Definition message_of (ev : Event.t) : list byte := topic (Event.tag ev) ++ take (record_size (Event.tag ev)) (Event.data ev).

Definition sendMessage (accepts : bool) (msg : list byte) (b : ZMQBridge) : bool * ZMQBridge :=
  (accepts, if accepts then b {{ sent ::= λ l, l ++ [msg] }} else b).

(** ** Operations *)

(** [ctx_ok], [socket_ok] and [bind_ok]: what ZeroMQ answers. A thread that has not been
    joined must not be replaced. *)
Definition initialize (config : ZMQConfig.t) (queue : @MPMCQueue Event.t) (ctx_ok socket_ok bind_ok : bool) (b : ZMQBridge)
    : option (bool * ZMQBridge) :=
  if running_ b then Some (false, b)
  else
    let b := b {{ config_ := config; queue_ := Some queue }} in
    if negb (ctx_ok && socket_ok && bind_ok) then Some (false, b)
    else match pub_thread_ b with
         | Some _ => None
         | None => Some (true, b {{ zmq_socket_ := true; running_ := true; pub_thread_ := Some Top }})
         end.

(** [stop] up to the join. *)
Definition stop_request (b : ZMQBridge) : ZMQBridge :=
  if running_ b then b {{ running_ := false; stopping := true }} else b.

(** [stop] once the publisher has ended. *)
Definition stop_finish (b : ZMQBridge) : ZMQBridge :=
  if stopping b && bool_decide (pub_thread_ b = Some Ended)
  then b {{ stopping := false; pub_thread_ := None; zmq_socket_ := false; queue_ := None }} else b.

Definition publish (ev : Event.t) (b : ZMQBridge) : option (bool * ZMQBridge) :=
  q ← queue_ b;
  '(ok, q) ← try_push bridge_bits ev q;
  let b := b {{ queue_ := Some q }} in
  Some (if ok : bool then (true, b) else (false, b {{ dropped_ ::= inc64 }})).

(** [reserved] is the content of the record's trailing reserved bytes. *)
Definition publishTick (tick : Tick.t) (reserved : list byte) : ZMQBridge → option (bool * ZMQBridge) :=
  publish (Event.mk EventTag.TICK (encode tick reserved)).
Definition publishOrder (order : OrderRequest.t) (reserved : list byte) : ZMQBridge → option (bool * ZMQBridge) :=
  publish (Event.mk EventTag.ORDER (encode order reserved)).
Definition publishFill (fill : Fill.t) (reserved : list byte) : ZMQBridge → option (bool * ZMQBridge) :=
  publish (Event.mk EventTag.FILL (encode fill reserved)).

Definition count_published (tag : EventTag.t) (b : ZMQBridge) : ZMQBridge :=
  match tag with
  | EventTag.TICK => b {{ ticks_pub_ ::= inc64 }}
  | EventTag.ORDER => b {{ orders_pub_ ::= inc64 }}
  | EventTag.FILL => b {{ fills_pub_ ::= inc64 }}
  end.

(** One step of [run]; [accepts]: ZeroMQ takes a message sent in it. *)
Definition run_step (accepts : bool) (b : ZMQBridge) : option ZMQBridge :=
  match pub_thread_ b with
  | None | Some Ended => Some b
  | Some Top => Some (b {{ pub_thread_ := Some (if running_ b then Draining else Ended) }})
  | Some Draining =>
      q ← queue_ b;
      '(r, q) ← try_pop bridge_bits q;
      let b := b {{ queue_ := Some q }} in
      Some match r with
           | None => b {{ pub_thread_ := Some Top }}
           | Some ev =>
               let '(ok, b) := sendMessage accepts (message_of ev) b in
               if ok then count_published (Event.tag ev) b else b
           end
  end.

(** ** The bridge among its threads *)

#[global] Instance byte_eq_dec : EqDecision byte := Byte.byte_eq_dec.

(** What a publishing call is about. *)
Inductive item :=
| ATick (t : Tick.t) (reserved : list byte)
| AnOrder (o : OrderRequest.t) (reserved : list byte)
| AFill (f : Fill.t) (reserved : list byte).

Inductive bridge_event :=
| Publish (i : item)
| RunStep (accepts : bool)
| StopRequest
| StopFinish.

Definition publish_item (i : item) (b : ZMQBridge) : option (bool * ZMQBridge) :=
  match i with
  | ATick t r => publishTick t r b
  | AnOrder o r => publishOrder o r b
  | AFill f r => publishFill f r b
  end.

Definition run_event (e : bridge_event) (b : ZMQBridge) : option ZMQBridge :=
  match e with
  | Publish i => snd <$> publish_item i b
  | RunStep accepts => run_step accepts b
  | StopRequest => Some (stop_request b)
  | StopFinish => Some (stop_finish b)
  end.

Definition run_events (es : list bridge_event) (b : ZMQBridge) : option ZMQBridge :=
  fold_left (λ ob e, ob ≫= run_event e) es (Some b).

(** A bridge just initialised. *)
Definition initialized (config : ZMQConfig.t) : option ZMQBridge :=
  snd <$> initialize config (MPMCQueue_init bridge_bits) true true true ZMQBridge_init.

(** ** What subscribers receive *)

Definition published (e : bridge_event) : option item := match e with Publish i => Some i | _ => None end.

Definition item_ok (i : item) : Prop :=
  match i with
  | ATick t r => wf_entry (t, r)
  | AnOrder o r => wf_entry (o, r)
  | AFill f r => wf_entry (f, r)
  end.

(** A subscriber's reading of a message: the record behind the topic. *)
Definition decode_message (msg : list byte) : option (Tick.t + OrderRequest.t + Fill.t) :=
  if bool_decide (take 4 msg = topic EventTag.TICK) then (λ t, inl (inl t)) <$> decode (drop 4 msg)
  else if bool_decide (take 4 msg = topic EventTag.ORDER) then (λ o, inl (inr o)) <$> decode (drop 4 msg)
  else if bool_decide (take 4 msg = topic EventTag.FILL) then inr <$> decode (drop 4 msg)
  else None.

Definition content (i : item) : Tick.t + OrderRequest.t + Fill.t :=
  match i with ATick t _ => inl (inl t) | AnOrder o _ => inl (inr o) | AFill f _ => inr f end.

Definition event_of (i : item) : Event.t :=
  match i with
  | ATick t r => Event.mk EventTag.TICK (encode t r)
  | AnOrder o r => Event.mk EventTag.ORDER (encode o r)
  | AFill f r => Event.mk EventTag.FILL (encode f r)
  end.

Lemma publish_item_event i b : publish_item i b = publish (event_of i) b.
Proof. by destruct i. Qed.

Lemma decode_sent i : item_ok i → decode_message (message_of (event_of i)) = Some (content i).
Proof.
  assert (∀ t l, take 4 (topic t ++ l) = topic t ∧ drop 4 (topic t ++ l) = l) as Ht by by intros [].
  destruct i as [t r|o r|f r]; intros [Hw Hr]; cbn [fst snd] in Hw, Hr;
    unfold message_of, decode_message; cbn [event_of Event.tag Event.data];
    match goal with |- context [take (record_size ?t) ?l] =>
      rewrite (take_ge l (record_size t)) by (rewrite encode_length by done; apply Nat.le_refl) end;
    match goal with |- context [topic ?t ++ ?l] => destruct (Ht t l) as [-> ->] end;
    repeat (rewrite bool_decide_false by (intros H; discriminate)); rewrite bool_decide_true by done;
    rewrite decode_encode by done; done.
Qed.

(** ** The history of a bridge *)

Definition tagged (tag : EventTag.t) (evs : list Event.t) : Z :=
  Z.of_nat (length (filter (λ ev, Event.tag ev = tag) evs)).

(** After the events [es]: what the queue took ([accepted]) and handed out ([popped]), and
    the events ZeroMQ took ([out]). *)
Record bridge_ok (es : list bridge_event) (accepted popped out : list Event.t) (b : ZMQBridge) : Prop := {
  bo_queue : ∃ q, queue_ b = Some q ∧ queue_state bridge_bits q accepted popped;
  bo_accepted : accepted `sublist_of` (event_of <$> omap published es);
  bo_all : Z.of_nat (length (omap published es)) <= 2 ^ 16 → accepted = event_of <$> omap published es;
  bo_dropped : dropped_ b + Z.of_nat (length accepted) = Z.of_nat (length (omap published es));
  bo_out : out `sublist_of` popped;
  bo_out_all : Forall (λ e, e ≠ RunStep false) es → out = popped;
  bo_sent : sent b = message_of <$> out;
  bo_ticks : ticks_pub_ b = tagged EventTag.TICK out;
  bo_orders : orders_pub_ b = tagged EventTag.ORDER out;
  bo_fills : fills_pub_ b = tagged EventTag.FILL out;
}.

Lemma bridge_small : 1 <= bridge_bits < 62. Proof. lia. Qed.
#[local] Opaque MPMCQueue_init.

Lemma bridge_initialized config : ∃ b, initialized config = Some b ∧ bridge_ok [] [] [] [] b ∧ running_ b = true ∧ pub_thread_ b = Some Top.
Proof.
  eexists. split; [reflexivity|]. split; [|done]. split; try done.
  eexists. split; [reflexivity|apply queue_state_init; lia].
Qed.

Lemma tagged_snoc tag evs ev : tagged tag (evs ++ [ev]) = tagged tag evs + (if decide (Event.tag ev = tag) then 1 else 0).
Proof. unfold tagged. rewrite filter_app, length_app, filter_cons, filter_nil. case_decide; cbn [length]; lia. Qed.

Lemma tagged_le tag evs : 0 <= tagged tag evs <= Z.of_nat (length evs).
Proof. unfold tagged. pose proof (length_filter (λ ev, Event.tag ev = tag) evs). lia. Qed.

(** A step that publishes nothing and sends nothing. *)
Lemma bridge_ok_same es e accepted popped out b b' :
  bridge_ok es accepted popped out b → published e = None → queue_ b' = queue_ b →
  (dropped_ b', sent b', ticks_pub_ b', orders_pub_ b', fills_pub_ b') = (dropped_ b, sent b, ticks_pub_ b, orders_pub_ b, fills_pub_ b) →
  bridge_ok (es ++ [e]) accepted popped out b'.
Proof.
  intros [H1 H2 H3 H4 H5 H6 H7 H8 H9 H10] He Hq [= E1 E2 E3 E4 E5].
  split; rewrite ?omap_app; cbn [omap list_omap]; rewrite ?He, ?app_nil_r, ?Hq, ?E1, ?E2, ?E3, ?E4, ?E5; try done.
  intros [Hes _]%Forall_app. by apply H6.
Qed.

Lemma publish_ok es i accepted popped out b :
  bridge_ok es accepted popped out b → Z.of_nat (length (omap published es)) < 2 ^ 62 →
  ∃ b' accepted', run_event (Publish i) b = Some b' ∧ bridge_ok (es ++ [Publish i]) accepted' popped out b'.
Proof.
  intros [(q & Hq & Hs) H2 H3 H4 H5 H6 H7 H8 H9 H10] Hn. cbn [run_event]. rewrite publish_item_event. unfold publish. rewrite Hq. cbn [mbind option_bind].
  apply sublist_length in H2 as Hl. rewrite length_fmap in Hl.
  destruct (queue_state_push bridge_bits bridge_small q accepted popped (event_of i) Hs ltac:(lia)) as (ok & q' & Hp & Hs').
  pose proof (λ E : ok = false, queue_state_room bridge_bits bridge_small q q' accepted popped (event_of i) Hs ltac:(lia) ltac:(by rewrite Hp, E)) as Hroom.
  change (N bridge_bits) with (2 ^ 16) in Hroom. rewrite Hp. cbn [mbind option_bind].
  assert (omap published (es ++ [Publish i]) = omap published es ++ [i]) as Hpub by (by rewrite omap_app).
  assert (Forall (λ e, e ≠ RunStep false) (es ++ [Publish i]) → out = popped) as Hall by (intros [? _]%Forall_app; by apply H6).
  destruct ok.
  - exists (b {{ queue_ := Some q' }}), (accepted ++ [event_of i]). split; [reflexivity|].
    constructor; rewrite ?Hpub, ?fmap_app, ?length_app; cbn [fmap list_fmap length]; [by exists q'|by apply sublist_app| | |exact H5|exact Hall|exact H7|exact H8|exact H9|exact H10].
    + intros Hb. rewrite H3 by lia. reflexivity.
    + change (dropped_ b + Z.of_nat (length accepted + 1) = Z.of_nat (length (omap published es) + 1)). lia.
  - exists (b {{ queue_ := Some q' }} {{ dropped_ ::= inc64 }}), accepted. rewrite app_nil_r in Hs'. split; [reflexivity|].
    constructor; rewrite ?Hpub, ?fmap_app, ?length_app; cbn [fmap list_fmap length]; [by exists q'|by apply sublist_inserts_r| | |exact H5|exact Hall|exact H7|exact H8|exact H9|exact H10].
    + intros Hb. specialize (Hroom eq_refl). lia.
    + change (inc64 (dropped_ b) + Z.of_nat (length accepted) = Z.of_nat (length (omap published es) + 1)). rewrite inc64_id by lia. lia.
Qed.

Definition counter (tag : EventTag.t) (b : ZMQBridge) : Z :=
  match tag with EventTag.TICK => ticks_pub_ b | EventTag.ORDER => orders_pub_ b | EventTag.FILL => fills_pub_ b end.

Lemma counter_published tag tag' b :
  counter tag' (count_published tag b) = if decide (tag = tag') then inc64 (counter tag' b) else counter tag' b.
Proof. by destruct tag, tag'. Qed.

Lemma run_step_ok es accepts accepted popped out b :
  bridge_ok es accepted popped out b → Z.of_nat (length (omap published es)) < 2 ^ 62 →
  ∃ b' popped' out', run_event (RunStep accepts) b = Some b' ∧ bridge_ok (es ++ [RunStep accepts]) accepted popped' out' b'.
Proof.
  intros Hb Hn. cbn [run_event]. unfold run_step.
  destruct (pub_thread_ b) as [[]|];
    try (eexists _, popped, out; split; [reflexivity|]; by apply (bridge_ok_same es (RunStep accepts) accepted popped out b)).
  pose proof Hb as [(q & Hq & Hs) H2 H3 H4 H5 H6 H7 H8 H9 H10]. rewrite Hq. cbn [mbind option_bind].
  apply sublist_length in H2 as Hl. rewrite length_fmap in Hl.
  destruct (queue_state_pop bridge_bits bridge_small q accepted popped Hs ltac:(lia)) as (r & q' & -> & Hs'). cbn [mbind option_bind].
  assert (omap published (es ++ [RunStep accepts]) = omap published es) as Hpub by (by rewrite omap_app, app_nil_r).
  assert (∀ b', queue_ b' = Some q' → dropped_ b' = dropped_ b →
    ∀ new, new `sublist_of` option_list r → (accepts = true → new = option_list r) → sent b' = message_of <$> out ++ new →
    (∀ tag, counter tag b' = tagged tag (out ++ new)) →
    bridge_ok (es ++ [RunStep accepts]) accepted (popped ++ option_list r) (out ++ new) b') as Hok.
  { intros b' Eq Ed new Hnew Hall Hsent Htag. constructor; rewrite ?Hpub, ?Ed; try done; [by exists q'|by apply sublist_app| |..].
    - intros [Hes Hlast]%Forall_app. apply Forall_cons in Hlast as [Hlast _]. rewrite Hall by (by destruct accepts). by rewrite H6.
    - exact (Htag EventTag.TICK).
    - exact (Htag EventTag.ORDER).
    - exact (Htag EventTag.FILL). }
  pose proof (λ tag, tagged_le tag out) as Hc. apply sublist_length in H5 as Hlo.
  assert (length popped <= length accepted)%nat as Hlp by exact (queue_state_done _ _ _ _ Hs).
  destruct r as [ev|].
  - destruct accepts; cbn [sendMessage].
    + eexists _, _, _. split; [reflexivity|]. apply (Hok _) with (new := [ev]).
      * by destruct (Event.tag ev).
      * by destruct (Event.tag ev).
      * done.
      * done.
      * rewrite fmap_app, <-H7. by destruct (Event.tag ev).
      * intros tag. rewrite counter_published, tagged_snoc. pose proof (Hc tag).
        assert (counter tag (b {{ queue_ := Some q' }} {{ sent ::= λ l, l ++ [message_of ev] }}) = tagged tag out) as ->
          by (destruct tag; [exact H8|exact H9|exact H10]).
        case_decide; [apply inc64_id; lia|lia].
    + eexists _, _, _. split; [reflexivity|]. apply (Hok _) with (new := []); rewrite ?app_nil_r; try done; [by apply sublist_nil_l|by intros []].
  - eexists _, _, _. split; [reflexivity|]. apply (Hok _) with (new := []); rewrite ?app_nil_r; try done; by intros [].
Qed.

Lemma run_events_snoc es e b : run_events (es ++ [e]) b = run_events es b ≫= run_event e.
Proof. unfold run_events. by rewrite fold_left_app. Qed.

Lemma bridge_run config b0 es :
  initialized config = Some b0 → StopFinish ∉ es → Z.of_nat (length (omap published es)) < 2 ^ 62 →
  ∃ b accepted popped out, run_events es b0 = Some b ∧ bridge_ok es accepted popped out b.
Proof.
  intros H0. induction es as [|e es IH] using rev_ind; intros Hes Hn.
  { destruct (bridge_initialized config) as (b & Hb & Hok & _). assert (b0 = b) as -> by congruence. by exists b, [], [], []. }
  apply not_elem_of_app in Hes as [Hes He]. rewrite omap_app, length_app in Hn.
  destruct IH as (b & accepted & popped & out & Hr & Hb); [done|lia|]. rewrite run_events_snoc, Hr. cbn [mbind option_bind].
  destruct e as [i|accepts| |].
  - destruct (publish_ok es i accepted popped out b Hb) as (b' & accepted' & Hr' & Hb'); [lia|]. by exists b', accepted', popped, out.
  - destruct (run_step_ok es accepts accepted popped out b Hb) as (b' & popped' & out' & Hr' & Hb'); [lia|].
    by exists b', accepted, popped', out'.
  - exists (stop_request b), accepted, popped, out. split; [done|]. apply (bridge_ok_same es StopRequest _ _ _ b); try done; unfold stop_request; by destruct (running_ b).
  - by destruct He; apply list_elem_of_singleton.
Qed.

Lemma sublist_fmap_inv {A B} (f : A → B) l k : l `sublist_of` f <$> k → ∃ l', l = f <$> l' ∧ l' `sublist_of` k.
Proof.
  revert l. induction k as [|x k IH]; intros l; cbn.
  - intros ->%sublist_nil_r. by exists [].
  - intros [(l' & -> & Hs)%IH|(l1 & -> & (l' & -> & Hs)%IH)]%sublist_cons_r.
    + exists l'. split; [done|by apply sublist_cons].
    + exists (x :: l'). split; [done|by apply sublist_skip].
Qed.

Lemma sublist_all {A} (P : A → Prop) l k : l `sublist_of` k → Forall P k → Forall P l.
Proof. induction 1; intros HF; [done| |]; apply Forall_cons in HF as [? ?]; auto. Qed.

Lemma sublist_same {A} (l k : list A) : l `sublist_of` k → length l = length k → l = k.
Proof.
  induction 1 as [|x l k Hs IH|x l k Hs _]; cbn; intros Hl; [done|by rewrite IH by lia|].
  apply sublist_length in Hs. lia.
Qed.

(** C23: whatever the order of the publishing calls and of the publisher's steps, subscribers
    can decode every message sent, the records they get are records published, in the order
    of the calls, and the three counters add up to them; every call is accounted for as
    sent, queued, dropped or refused by ZeroMQ; and while at most 65536 calls are made and ZeroMQ refuses
    nothing, what was sent and what is queued are all the records, in order. *)
Theorem bridge_delivers config b0 es :
  let calls := omap published es in
  initialized config = Some b0 → StopFinish ∉ es → Forall item_ok calls → Z.of_nat (length calls) < 2 ^ 62 →
  ∃ b got q queued, run_events es b0 = Some b ∧
    mapM decode_message (sent b) = Some got ∧ got `sublist_of` (content <$> calls) ∧
    ticksPublished b + ordersPublished b + fillsPublished b = Z.of_nat (length got) ∧
    queue_ b = Some q ∧ rep bridge_bits q (event_of <$> queued) ∧
    Z.of_nat (length got + length queued) + droppedCount b <= Z.of_nat (length calls) ∧
    (RunStep false ∉ es →
      Z.of_nat (length got + length queued) + droppedCount b = Z.of_nat (length calls) ∧
      (Z.of_nat (length calls) <= 2 ^ 16 → got ++ (content <$> queued) = content <$> calls)).
Proof.
  intros calls H0 Hes Hok Hn. destruct (bridge_run config b0 es H0 Hes Hn) as (b & accepted & popped & out & Hr & Hb).
  destruct Hb as [(q & Hq & queued & Hacc & Hrep & _) H2 H3 H4 H5 H6 H7 H8 H9 H10]. fold calls in H2, H3, H4.
  destruct (sublist_fmap_inv _ _ _ H2) as (acc & Ha & Hsub).
  rewrite Ha in Hacc. apply fmap_app_inv in Hacc as (pops & rest & -> & -> & ->).
  destruct (sublist_fmap_inv _ _ _ H5) as (outs & Eouts & Hout). rewrite Eouts in H6, H7, H8, H9, H10.
  assert (outs `sublist_of` calls) as Houts by (etrans; [exact Hout|]; etrans; [|exact Hsub]; by apply sublist_inserts_r).
  exists b, (content <$> outs), q, rest. split; [done|]. split.
  { rewrite H7, <-list_fmap_compose. apply mapM_Some, Forall2_fmap_2, Forall_Forall2_diag.
    apply (Forall_impl item_ok); [|intros i Hi; by apply decode_sent]. by apply (sublist_all _ _ calls). }
  split; [by apply fmap_sublist|].
  split.
  { unfold ticksPublished, ordersPublished, fillsPublished. rewrite H8, H9, H10, length_fmap. clear.
    unfold tagged. induction outs as [|i outs IH]; [done|]. cbn [fmap list_fmap length]. rewrite !filter_cons.
    destruct i; cbn [event_of Event.tag]; repeat case_decide; try done; cbn [length]; lia. }
  split; [done|]. split; [done|]. unfold droppedCount. apply sublist_length in Hout as Hlen.
  rewrite Ha, length_fmap, length_app in H4. rewrite length_fmap. split; [lia|]. intros Hall.
  assert (outs = pops) as ->.
  { apply sublist_same; [done|]. rewrite <-(length_fmap event_of outs), H6; [by rewrite length_fmap|].
    apply Forall_forall. by intros e He ->. }
  split; [lia|]. intros Hsmall. rewrite <-fmap_app. f_equal. apply sublist_same; [done|].
  by rewrite <-(length_fmap event_of (pops ++ rest)), <-Ha, H3, length_fmap.
Qed.

Definition sample_tick : Tick.t := Tick.mk 1000 1001 1 7 (100 * ONE) ONE TickSide.BID 0.
Definition sample_fill : Fill.t := Fill.default {{ Fill.order_id := 9; Fill.fill_price := ONE }}.
Definition sample_session : list bridge_event :=
  [Publish (ATick sample_tick (replicate 22 Byte.x00)); RunStep true; RunStep true;
   Publish (AFill sample_fill (replicate 58 Byte.x00)); RunStep true; RunStep true].

Ltac absent := intros Hin; repeat (apply elem_of_cons in Hin as [?|Hin]; [discriminate|]); by apply elem_of_nil in Hin.

Lemma bridge_delivers_witness :
  ∃ b0 b got q queued, initialized ZMQConfig.default = Some b0 ∧ run_events sample_session b0 = Some b ∧
    mapM decode_message (sent b) = Some got ∧ queue_ b = Some q ∧ rep bridge_bits q (event_of <$> queued) ∧
    got ++ (content <$> queued) = [inl (inl sample_tick); inr sample_fill].
Proof.
  destruct (bridge_initialized ZMQConfig.default) as (b0 & H0 & _).
  destruct (bridge_delivers ZMQConfig.default b0 sample_session H0) as (b & got & q & queued & R & D & _ & _ & Q & P & _ & E).
  - absent.
  - repeat constructor; vm_compute; discriminate.
  - reflexivity.
  - exists b0, b, got, q, queued. split_and!; [exact H0|exact R|exact D|exact Q|exact P|]. apply E; [absent|discriminate].
Defined.
