(* ===== verification/LiveTrading.v ===== *)
(** Live trading, end to end: an order goes through [OrderGateway.processOrder] to the
    exchange, the user stream reports its trades ([UserStream.parseExecutionReport]), the
    gateway's fills go to [ExecutionHandler.onFill] and change the positions. The
    composition of three components; it defines nothing of the code itself. *)
From S2P Require Import Prelude FixedPoint Types Json PositionManager.
From S2P Require Import OrderGateway.
From S2P Require ExecutionHandler.
From S2P Require Import UserStream.

Section live.
Context {F : FpmOps} {HF : FpmLaws F} {UB : CastUB} {J : JsonOps} {R : ReportOps} {HJ : JsonLaws J} {HR : ReportLaws R}.
Context {IO : IterOrder}.
Context (clock : nat → Z) (http_place : nat → option (option json)).

(** The client id the gateway gives to a new order. *)
Definition client_id (o : OrderRequest.t) (g : OrderGateway) : string :=
  (RiskEngine.to_string (OrderRequest.order_id o) ++ "_" ++ RiskEngine.to_string (clock (S (readings_ g))))%string.

(** An order and the trades the exchange reports for it. *)
Record round := mkRound {
  order : OrderRequest.t;
  symbol : string;
  trades : list TradeReport.t;
}.

Definition run_round (r : round) (g : OrderGateway) : option OrderGateway :=
  parse_reports clock
    (trade_report (client_id (order r) g) (symbol r) (OrderRequest.side (order r)) <$> trades r)
    (processOrder clock http_place (order r) g).

Fixpoint run_rounds (rs : list round) (g : OrderGateway) : option OrderGateway :=
  match rs with [] => Some g | r :: rs => g ← run_round r g; run_rounds rs g end.

(** ** The gateway before and after *)

(** What a round needs of the gateway, and leaves as it was. *)
Definition fixed (g : OrderGateway) : bool * bool * bool * Z * Config.ExchangeConfig :=
  (simulate_fills_ g, has_http_client g, has_callback g, exchange_id_ g, config_ g).

Lemma injectFill_fixed f g : fixed (injectFill clock f g) = fixed g.
Proof.
  unfold injectFill. destruct (fill_target _ _) as [[id po]|]; [|by destruct g]. cbn [now_us].
  unfold settle_fill, deliver_fill. destruct g as [? ? ? [] ? ? ? ? ? ? ? ? ? ? ?]; by destruct (_ >=? _).
Qed.

Lemma inject_all_fixed fills g : fixed (inject_all clock fills g) = fixed g.
Proof.
  revert g. induction fills as [|f fills IH]; intros g; [done|].
  change (inject_all clock (f :: fills) g) with (inject_all clock fills (injectFill clock f g)).
  by rewrite IH, injectFill_fixed.
Qed.

(** An order being filled: the gateway is [g] but for the order. *)
Lemma injectFill_pending_known id po f g :
  find_pending id g = Some po → Fill.order_id f = id →
  delete id (pending_orders_ (injectFill clock f g)) = delete id (pending_orders_ g).
Proof.
  intros Hp Hf. unfold injectFill, fill_target. rewrite Hf, Hp. cbn [now_us]. unfold settle_fill, deliver_fill, finalizeOrder.
  destruct g as [? ? ? [] ? ? ? pe ? ? ? ? ? ? ?]; destruct (_ >=? _); cbn; by rewrite ?delete_delete_eq, ?delete_insert_eq.
Qed.

(** Fills that add up to what is left of a pending order complete it. *)
Lemma fills_complete id po fills g :
  find_pending id g = Some po → has_callback g = true →
  Forall (λ f, Fill.order_id f = id ∧ 0 < Fill.fill_quantity f) fills → fills ≠ [] →
  0 <= PendingOrder.filled_quantity po → PendingOrder.original_quantity po < 2 ^ 62 →
  PendingOrder.filled_quantity po + sumZ (Fill.fill_quantity <$> fills) = PendingOrder.original_quantity po →
  let g' := inject_all clock fills g in
  fills_out_ g' = fills_out_ g ++ (enrich po <$> fills) ∧ pending_orders_ g' = delete id (pending_orders_ g).
Proof.
  revert po g. induction fills as [|f fills IH]; intros po g Hp Hc Hf Hne H0 Hb Hsum; [done|]. cbv zeta.
  apply Forall_cons in Hf as [[Hfid Hfq] Hf]. rewrite fmap_cons, sumZ_cons in Hsum.
  assert (0 <= sumZ (Fill.fill_quantity <$> fills)) as Hnn.
  { apply sumZ_nonneg, Forall_fmap. eapply Forall_impl; [exact Hf|]. cbn. intros ? [_ ?]. lia. }
  destruct (inject_known clock id po f g Hp Hfid Hc) as (I1 & I2 & I3 & _ & I5); [unfold is_dec, inS; lia..|].
  pose proof (injectFill_pending_known id po f g Hp Hfid) as Hdel.
  change (inject_all clock (f :: fills) g) with (inject_all clock fills (injectFill clock f g)). rewrite fmap_cons.
  destruct fills as [|f' fills].
  - cbn in Hsum. rewrite Z.geb_leb, (proj2 (Z.leb_le _ _)) in I5 by lia. cbn [inject_all fold_left fmap list_fmap].
    split; [exact I1|]. rewrite <-Hdel. symmetry. by apply delete_id.
  - assert (0 < sumZ (Fill.fill_quantity <$> f' :: fills)) as Hpos.
    { apply Forall_cons in Hf as [[_ ?] Hf']. rewrite fmap_cons, sumZ_cons in *.
      assert (0 <= sumZ (Fill.fill_quantity <$> fills)); [|lia].
      apply sumZ_nonneg, Forall_fmap. eapply Forall_impl; [exact Hf'|]. cbn. intros ? [_ ?]. lia. }
    rewrite Z.geb_leb, (proj2 (Z.leb_gt _ _)) in I5 by lia.
    destruct (IH _ (injectFill clock f g) I5) as [J1 J2]; try done.
    + destruct po; cbn in *; unfold constant in *; lia.
    + destruct po; cbn in *; unfold constant in *; lia.
    + rewrite J1, J2, I1, <-app_assoc. split; [by destruct po|done].
Qed.

(** ** One order *)

Definition round_fills (r : round) (fills : list Fill.t) : Prop :=
  Forall2 (reported_fill (OrderRequest.order_id (order r)) (OrderRequest.side (order r))) (trades r) fills.

(** An order for the exchange [xid] that its trades fill exactly. *)
Definition round_ok (g : OrderGateway) (r : round) (fills : list Fill.t) : Prop :=
  OrderRequest.exchange_id (order r) = exchange_id_ g ∧ OrderRequest.order_id (order r) ≠ 0 ∧
  0 < OrderRequest.quantity (order r) < 2 ^ 62 ∧ symbolIdToName (OrderRequest.symbol_id (order r)) g ≠ EmptyString ∧
  round_fills r fills ∧ sumZ (Fill.fill_quantity <$> fills) = OrderRequest.quantity (order r).

Definition owned (o : OrderRequest.t) (f : Fill.t) : Fill.t :=
  f {{ Fill.strategy_id := OrderRequest.strategy_id o; Fill.symbol_id := OrderRequest.symbol_id o }}.

Lemma reported_all id side rs fills :
  Forall2 (reported_fill id side) rs fills → Forall (λ f, Fill.order_id f = id ∧ Fill.side f = side ∧ 0 < Fill.fill_quantity f) fills.
Proof.
  induction 1 as [|r f rs fills (price & quantity & ? & ? & ? & ? & ? & ? & ? & ->) _ IH]; [done|]. by constructor.
Qed.

Lemma run_round_ok r g fills :
  live g = true → has_callback g = true → pending_orders_ g = ∅ → round_ok g r fills →
  ∃ g', run_round r g = Some g' ∧ live g' = true ∧ has_callback g' = true ∧ pending_orders_ g' = ∅ ∧
    exchange_id_ g' = exchange_id_ g ∧ config_ g' = config_ g ∧
    fills_out_ g' = fills_out_ g ++ (owned (order r) <$> fills).
Proof.
  intros Hl Hc Hp (Hx & Hid & Hq & Hs & Hf & Hsum). unfold run_round.
  destruct (live_order_tracked clock http_place (order r) g Hl Hx ltac:(lia)) as (T1 & T2 & T3 & (T4 & T5 & T6 & T7) & po & P1 & P2 & P3 & P4 & P5);
    [unfold find_pending; by rewrite Hp, lookup_empty|done|].
  set (g1 := processOrder clock http_place (order r) g) in *.
  exists (inject_all clock fills g1). split; [by apply (reports_inject clock _ _ _ (OrderRequest.order_id (order r)))|].
  apply reported_all in Hf as Hall.
  destruct (fills_complete (OrderRequest.order_id (order r)) po fills g1) as [C1 C2]; try done.
  - by rewrite T2.
  - eapply Forall_impl; [exact Hall|]. by intros f (? & _ & ?).
  - intros ->. cbn in Hsum. lia.
  - by rewrite P2.
  - rewrite P3. lia.
  - rewrite P2, P3. lia.
  - pose proof (inject_all_fixed fills g1) as E. unfold fixed in E. injection E as E1 E2 E3 E4 E5.
    unfold live in *. rewrite E1, E2, E3, E4, E5, C1, C2, T3, T7, Hp, delete_empty. split_and!; try done; [by rewrite T2|].
    f_equal. apply list_fmap_ext. intros i f _. unfold enrich, owned. by rewrite P4, P5.
Qed.

(** ** A session *)

Lemma round_ok_same g g' r fills :
  exchange_id_ g' = exchange_id_ g → config_ g' = config_ g → round_ok g r fills → round_ok g' r fills.
Proof. intros Hx Hc. unfold round_ok, symbolIdToName. by rewrite Hx, Hc. Qed.

Lemma run_rounds_ok rs fillss g0 g :
  Forall2 (round_ok g0) rs fillss → live g = true → has_callback g = true → pending_orders_ g = ∅ →
  exchange_id_ g = exchange_id_ g0 → config_ g = config_ g0 →
  ∃ g', run_rounds rs g = Some g' ∧ pending_orders_ g' = ∅ ∧
    fills_out_ g' = fills_out_ g ++ concat (zip_with (λ r fills, owned (order r) <$> fills) rs fillss).
Proof.
  intros Hrs. revert g. induction Hrs as [|r fills rs fillss Hr Hrs IH]; intros g Hl Hc Hp Hx Hcf.
  - exists g. cbn [run_rounds zip_with concat]. rewrite app_nil_r. by split_and!.
  - destruct (run_round_ok r g fills Hl Hc Hp) as (g1 & R1 & R2 & R3 & R4 & R5 & R6 & R7); [by apply (round_ok_same g0)|].
    destruct (IH g1) as (g' & I1 & I2 & I3); try done; [congruence|congruence|].
    exists g'. cbn [run_rounds]. rewrite R1. split; [exact I1|]. split; [done|]. cbn [zip_with concat]. by rewrite I3, R7, <-app_assoc.
Qed.

(** *** The positions *)

Lemma round_quantities g r fills sym :
  round_ok g r fills →
  sumZ (exact_quantity <$> filter (λ f, Fill.symbol_id f = sym) (owned (order r) <$> fills)) =
    (if decide (OrderRequest.symbol_id (order r) = sym) then ExecutionHandler.signed_order (order r) else 0).
Proof.
  intros (_ & _ & _ & _ & Hf & Hsum). apply reported_all in Hf. unfold ExecutionHandler.signed_order. rewrite <-Hsum. clear Hsum.
  induction Hf as [|f fills (_ & Hside & Hq) _ IH]; [by case_decide; destruct (OrderRequest.side (order r))|].
  rewrite !fmap_cons, filter_cons, !sumZ_cons. change (Fill.symbol_id (owned (order r) f)) with (OrderRequest.symbol_id (order r)).
  case_decide; [|exact IH]. rewrite fmap_cons, sumZ_cons, IH.
  change (exact_quantity (owned (order r) f)) with (exact_quantity f). unfold exact_quantity. rewrite Hside. destruct (OrderRequest.side (order r)); lia.
Qed.

Lemma rounds_quantities g rs fillss sym :
  Forall2 (round_ok g) rs fillss →
  let fills := concat (zip_with (λ r fills, owned (order r) <$> fills) rs fillss) in
  sumZ (exact_quantity <$> filter (λ f, Fill.symbol_id f = sym) fills) =
    sumZ (ExecutionHandler.signed_order <$> filter (λ o, OrderRequest.symbol_id o = sym) (order <$> rs)) ∧
  sumZ (Fill.fill_quantity <$> fills) = sumZ (OrderRequest.quantity <$> (order <$> rs)) ∧
  Forall (λ f, 0 < Fill.fill_quantity f) fills ∧ length fills = length (concat fillss).
Proof.
  induction 1 as [|r fills rs fillss Hr _ (IH1 & IH2 & IH3 & IH4)]; [done|]. cbv zeta in *. cbn [zip_with concat].
  rewrite !filter_app, !fmap_app, !sumZ_app, IH1, IH2, (round_quantities g r fills sym Hr). rewrite fmap_cons, filter_cons.
  pose proof Hr as (_ & _ & _ & _ & Hf & Hsum). apply reported_all in Hf. split_and!.
  - case_decide; rewrite ?fmap_cons, ?sumZ_cons; lia.
  - rewrite fmap_cons, sumZ_cons, <-Hsum. f_equal. rewrite <-list_fmap_compose. done.
  - apply Forall_app. split; [|done]. apply Forall_fmap. eapply Forall_impl; [exact Hf|]. by intros f (_ & _ & ?).
  - by rewrite !length_app, length_fmap, IH4.
Qed.

(** C19: trading against the live exchange is position keeping, end to end: orders processed
    one after the other, whatever their REST calls answered, whose trades the user stream
    reports until each is filled, leave no order pending, and when the gateway's fills go to the
    handler the position in every symbol is the signed sum of the quantities
    ordered. *)
Theorem live_trading_positions rs fillss g sym times :
  live g = true → has_callback g = true → pending_orders_ g = ∅ → fills_out_ g = [] →
  Forall2 (round_ok g) rs fillss → sumZ (OrderRequest.quantity ∘ order <$> rs) < 2 ^ 62 →
  length times = length (concat fillss) →
  ∃ g', run_rounds rs g = Some g' ∧ pending_orders_ g' = ∅ ∧
    (let reports := zip_with (λ '(t0, t1) f, ExecutionHandler.FillReport t0 t1 f) times (fills_out_ g') in
     ∃ pm, ExecutionHandler.pm_ (ExecutionHandler.handle_all reports
             (ExecutionHandler.ExecutionHandler_init (Some PositionManager_init) true false false)) = Some pm ∧
       quantity_of sym pm = sumZ (ExecutionHandler.signed_order <$> filter (λ o, OrderRequest.symbol_id o = sym) (order <$> rs))).
Proof.
  intros Hl Hc Hp Hfo Hrs Hsum Hlen. destruct (run_rounds_ok rs fillss g g Hrs Hl Hc Hp) as (g' & R1 & R2 & R3); [done..|].
  rewrite Hfo in R3. cbn [app] in R3. exists g'. split; [done|]. split; [done|]. intros reports.
  destruct (rounds_quantities g rs fillss sym Hrs) as (Q1 & Q2 & Q3 & Q4). rewrite <-Q4 in Hlen.
  set (fills := concat _) in *. clearbody fills. subst reports. rewrite R3 in *.
  destruct (ExecutionHandler.handle_all_ok (zip_with (λ '(t0, t1) f, ExecutionHandler.FillReport t0 t1 f) times fills)
    (ExecutionHandler.ExecutionHandler_init (Some PositionManager_init) true false false)) as [H1 _ _ _ _ _].
  rewrite ExecutionHandler.fills_of_reports in H1 by done. eexists. split; [exact H1|].
  change (quantity_of sym (pm_run fills) = sumZ (ExecutionHandler.signed_order <$> filter (λ o, OrderRequest.symbol_id o = sym) (order <$> rs))).
  rewrite <-Q1. apply run_quantity_bound; [done|]. rewrite Q2, <-list_fmap_compose. exact Hsum.
Qed.
End live.

(** ** A session of two orders *)

Definition trade (status quantity : string) : TradeReport.t := TradeReport.mk status 9001 "7" quantity "2" 1000 1001.
Definition sample_rounds : list round :=
  [mkRound (sample_order 41) "BTCUSDT" [trade "PARTIALLY_FILLED" "1"; trade "FILLED" "1"];
   mkRound (sample_order 42) "BTCUSDT" [trade "FILLED" "2"]]%string.
Definition fill_of (id quantity : Z) : Fill.t := (sample_fill id) {{ Fill.fill_quantity := quantity * ONE }}.
Definition sample_fills : list (list Fill.t) := [[fill_of 41 1; fill_of 41 1]; [fill_of 42 2]].

Lemma reported_trade id status quantity (q : double) n :
  status ∈ ["FILLED"; "PARTIALLY_FILLED"]%string → stod (ReportOps := RefReports) quantity = Some q →
  toDecimal (H := CastX86) q = n * ONE → 0 < n →
  reported_fill (UB := CastX86) (R := RefReports) id OrderSide.BUY (trade status quantity) (fill_of id n).
Proof.
  intros Hs Hq Hn Hpos. exists (d_of_Z 7), q. split; [done|].
  do 3 (split; [split; vm_compute; (discriminate || reflexivity)|]). split; [reflexivity|]. split; [exact Hq|].
  rewrite Hn. split; [unfold ONE; lia|]. reflexivity.
Qed.

Lemma live_trading_positions_witness :
  ∃ g', run_rounds (F := FpmRef) (UB := CastX86) (R := RefReports) sample_clock (λ _, Some None) sample_rounds sample_live = Some g' ∧
    (∃ pm, ExecutionHandler.pm_ (ExecutionHandler.handle_all (F := FpmRef) (IO := iter_default)
             (zip_with (λ '(t0, t1) f, ExecutionHandler.FillReport t0 t1 f) [(1, 2); (3, 4); (5, 6)] (fills_out_ g'))
             (ExecutionHandler.ExecutionHandler_init (Some PositionManager_init) true false false)) = Some pm ∧
       quantity_of 1 pm = 4 * ONE).
Proof.
  destruct (live_trading_positions (F := FpmRef) (UB := CastX86) (R := RefReports) (HR := RefReports_laws) (IO := iter_default)
    sample_clock (λ _, Some None) sample_rounds sample_fills sample_live 1 [(1, 2); (3, 4); (5, 6)]) as (g' & E1 & _ & E2).
  - reflexivity.
  - reflexivity.
  - reflexivity.
  - reflexivity.
  - constructor; [|constructor; [|constructor]]; (split; [reflexivity|]); (split; [discriminate|]);
      (split; [split; reflexivity|]); (split; [discriminate|]); (split; [|reflexivity]); repeat (constructor || idtac).
    + apply (reported_trade 41 "PARTIALLY_FILLED" "1" (d_of_Z 1) 1); [repeat constructor|reflexivity|vm_compute; reflexivity|reflexivity].
    + apply (reported_trade 41 "FILLED" "1" (d_of_Z 1) 1); [repeat constructor|reflexivity|vm_compute; reflexivity|reflexivity].
    + apply (reported_trade 42 "FILLED" "2" (d_of_Z 2) 2); [repeat constructor|reflexivity|vm_compute; reflexivity|reflexivity].
  - reflexivity.
  - reflexivity.
  - exists g'. split; [exact E1|exact E2].
Defined.
