(* ===== verification/TradingLoop.v ===== *)
(** The closed trading loop: a [StrategyEngine] and an [OrderGateway] with simulated
    execution, wired through the engine's queues as their headers describe
    (strategy_engine.hpp: [pushFill] "called by OrderGateway", [getOrderQueue] "for
    OrderGateway to consume"; order_gateway.cpp: [run], the fill callback). The gateway
    thread pops the orders the strategies placed, processes them one by one, and its
    callback pushes the fills into the engine's fill queue, which the engine applies
    to its positions. The composition of components; apart from the callback it defines
    nothing of the code itself. *)
From S2P Require Import Prelude FixedPoint Types BookSpec.
From S2P Require Import Json MpmcQueue PositionManager.
From S2P Require OrderGateway ExecutionHandler.
From S2P Require Import StrategyEngine OrderPath.

Section loop.
Context {F : FpmOps} {U : CastUB} {IO : IterOrder} {J : JsonOps} {St : Type} (env : nat → reading).
Context (clock : nat → Z) (http_place : nat → option (option json)).

Abbreviation Gateway := OrderGateway.OrderGateway.

(** [handled] of the orders the gateway has taken ([delivered_]) have been processed. *)
Record Desk := mkDesk {
  world : @World St;
  gateway : Gateway;
  handled : nat;
}.

Inductive desk_event :=
| MarketTick (tick : Tick.t)
| EngineTurn (now_ns : Z)
| TakeOrder
| HandleOrder
| ChangeLimits (now_us : Z) (p : Config.RiskParameters)
| ChangeCapital (capital : Z).

(** The gateway's callback: [pushFill] for each fill, a full queue's refusal ignored. *)
Definition fill_callback (fills : list Fill.t) (w : @World St) : option (@World St) :=
  run_events env (PushFill <$> fills) w.

(** [processOrder] for the next order taken, with the callback of each fill it makes. *)
Definition handle_order (d : Desk) : option Desk :=
  match delivered_ (engine (world d)) !! handled d with
  | None => Some d
  | Some order =>
      let g := OrderGateway.processOrder clock http_place order (gateway d) in
      let fills := drop (length (OrderGateway.fills_out_ (gateway d))) (OrderGateway.fills_out_ g) in
      w ← fill_callback fills (world d);
      Some (mkDesk w g (S (handled d)))
  end.

Definition engine_event (ev : StrategyEngine.event) (d : Desk) : option Desk :=
  w ← run_event env ev (world d); Some (mkDesk w (gateway d) (handled d)).

Definition desk_step (ev : desk_event) (d : Desk) : option Desk :=
  match ev with
  | MarketTick t => engine_event (PushTick t) d
  | EngineTurn now => engine_event (Iterate now) d
  | TakeOrder => engine_event PopOrder d
  | HandleOrder => handle_order d
  | ChangeLimits now p => engine_event (UpdateRiskParameters now p) d
  | ChangeCapital capital => engine_event (SetAvailableCapital capital) d
  end.

Fixpoint desk_steps (evs : list desk_event) (d : Desk) : option Desk :=
  match evs with
  | [] => Some d
  | ev :: evs' => d ← desk_step ev d; desk_steps evs' d
  end.

(** The engine started with its strategies, the gateway with its exchange. *)
Definition desk_run (now_ns : Z) (strategies : list (Strategy St * St)) (g : Gateway)
    (evs : list desk_event) : option Desk :=
  w ← run env now_ns strategies []; desk_steps evs (mkDesk w g 0).

Definition orders_of (d : Desk) : list OrderRequest.t := take (handled d) (delivered_ (engine (world d))).

(** The orders an exchange [xid] fills; the others are meant for someone else or cancel. *)
Definition for_exchange (xid : Z) (o : OrderRequest.t) : Prop :=
  OrderRequest.exchange_id o = xid ∧ OrderRequest.quantity o ≠ 0.

#[global] Instance for_exchange_dec xid o : Decision (for_exchange xid o).
Proof. apply _. Defined.

(** ** What the gateway does with an order *)

Notation processOrder := (OrderGateway.processOrder clock http_place).
Abbreviation pending g := (OrderGateway.pending_orders_ g).
Abbreviation out g := (OrderGateway.fills_out_ g).

(** At most one fill, whatever the order. *)
Lemma injectFill_out f (g : Gateway) xid :
  OrderGateway.simulating xid g →
  OrderGateway.simulating xid (OrderGateway.injectFill clock f g) ∧
  ∃ fs, out (OrderGateway.injectFill clock f g) = out g ++ fs ∧ (length fs <= 1)%nat.
Proof.
  intros H. unfold OrderGateway.injectFill. destruct (OrderGateway.fill_target _ _) as [[id po]|].
  - cbn [OrderGateway.now_us]. unfold OrderGateway.settle_fill, OrderGateway.deliver_fill.
    destruct H as (H1 & H2 & H3).
    destruct g as [? ? ? ? ? ? ? ? ? ? ? ? ? ? ?]; cbn in H1, H2, H3; subst.
    destruct (_ >=? _); (split; [done|]); (eexists [_]; split; [reflexivity|cbn; lia]).
  - destruct g. split; [done|]. exists []. rewrite app_nil_r. split; [done|cbn; lia].
Qed.

Lemma process_cancel_out o (g : Gateway) xid :
  OrderGateway.simulating xid g →
  let g' := OrderGateway.process_cancel clock o g in
  OrderGateway.simulating xid g' ∧ out g' = out g ∧ pending g' = delete (OrderRequest.order_id o) (pending g).
Proof.
  intros (H1 & H2 & H3). cbv zeta. unfold OrderGateway.process_cancel.
  destruct g as [cf xi xn hc sf hh ru pe el cl st av re rq fo]; cbn in H1, H2, H3. subst sf hc xi.
  cbn [OrderGateway.now_us OrderGateway.live OrderGateway.encodeCancel].
  unfold OrderGateway.simulateSend, OrderGateway.find_pending. cbn.
  destruct (pe !! OrderRequest.order_id o) eqn:Hp; cbn; split_and!; try done. symmetry. by apply delete_id.
Qed.

Lemma processOrder_out o (g : Gateway) xid :
  OrderGateway.simulating xid g →
  OrderGateway.simulating xid (processOrder o g) ∧
  ∃ fs, out (processOrder o g) = out g ++ fs ∧ (length fs <= 1)%nat.
Proof.
  intros (H1 & H2 & H3). unfold OrderGateway.processOrder.
  destruct g as [cf xi xn hc sf hh ru pe el cl st av re rq fo]; cbn in H1, H2, H3. subst sf hc xi.
  assert (∀ g' : Gateway, OrderGateway.simulating xid g' ∧ out g' = fo →
    OrderGateway.simulating xid g' ∧ ∃ fs, out g' = fo ++ fs ∧ (length fs <= 1)%nat) as Hnone.
  { intros g' [? ->]. split; [done|]. exists []. rewrite app_nil_r. split; [done|cbn; lia]. }
  cbn -[OrderGateway.process_modify OrderGateway.process_cancel OrderGateway.process_new_simulated OrderGateway.modifiable Z.eqb].
  destruct (negb _); [by apply Hnone|]. destruct (_ =? 0).
  { apply Hnone. by edestruct process_cancel_out as (? & -> & _). }
  assert (∀ t (g' : Gateway), OrderGateway.simulating xid g' ∧ out g' = fo →
    OrderGateway.simulating xid (OrderGateway.process_new_simulated clock o t g') ∧
    ∃ fs, out (OrderGateway.process_new_simulated clock o t g') = fo ++ fs ∧ (length fs <= 1)%nat) as Hnew.
  { intros t g' [(G1 & G2 & G3) G4]. unfold OrderGateway.process_new_simulated. cbn [OrderGateway.encodeOrder].
    set (g1 := OrderGateway.trackPending _ _ _).
    assert (OrderGateway.simulating xid g1 ∧ out g1 = fo) as [S1 <-] by by subst g1; destruct g'.
    destruct (injectFill_out (OrderGateway.simulated_fill o t) g1 xid S1) as [I1 I2].
    pose proof S1 as (-> & -> & _). cbn [andb]. revert I1 I2.
    destruct (OrderGateway.injectFill clock _ g1). by cbn. }
  destruct (OrderGateway.find_pending _ _) as [po|]; [destruct (OrderGateway.modifiable po)|].
  - by apply Hnone.
  - by apply Hnew.
  - by apply Hnew.
Qed.

(** A gateway with nothing pending fills an order for its exchange at once and in full. *)
Lemma processOrder_simulated {HF : FpmLaws F} o (g : Gateway) xid :
  OrderGateway.simulating xid g → pending g = ∅ →
  (for_exchange xid o → is_dec (OrderRequest.quantity o)) →
  pending (processOrder o g) = ∅ ∧
  ∃ fs, out (processOrder o g) = out g ++ fs ∧
    Forall2 (λ f o, ∃ t, f = OrderGateway.simulated_fill o t) fs (filter (for_exchange xid) [o]).
Proof.
  intros Hg Hp Hd. rewrite filter_cons, filter_nil. case_decide as Ho.
  - destruct Ho as [Hx Hq].
    destruct (OrderGateway.simulated_order clock http_place xid o g Hg Hx Hq (Hd (conj Hx Hq))) as (_ & H2 & H3); [by rewrite Hp|].
    rewrite H2, H3. split; [done|]. eexists. split; [done|]. repeat constructor. by eexists.
  - destruct Hg as (H1 & H2 & H3). unfold OrderGateway.processOrder.
    destruct g as [cf xi xn hc sf hh ru pe el cl st av re rq fo]; cbn in H1, H2, H3, Hp. subst.
    cbn -[OrderGateway.process_cancel Z.eqb]. destruct (Z.eqb_spec (OrderRequest.exchange_id o) xid) as [Hx|]; cbn [negb].
    + destruct (Z.eqb_spec (OrderRequest.quantity o) 0) as [Hq|]; [|by destruct Ho].
      edestruct (process_cancel_out o) as (_ & -> & ->); [by split_and!|]. cbn.
      rewrite delete_empty. split; [done|]. exists []. by rewrite app_nil_r.
    + split; [done|]. exists []. by rewrite app_nil_r.
Qed.

(** ** The invariant of the loop *)

Lemma world_ok_mono k m ss (w : @World St) : world_ok k m ss w → world_ok (S k) m ss w.
Proof.
  intros (td & fd & He & ? & ?). exists td, fd. split; [|lia]. eapply engine_ok_mono, He. cbn [Nat.mul]. lia.
Qed.

(** One fill: queued, or refused by a full queue. *)
Lemma push_fill_ok k m ss f (w : @World St) :
  world_ok k m ss w → in_budget (calls_of (S k) m ss) →
  ∃ w', run_event env (PushFill f) w = Some w' ∧ world_ok (S k) m ss w' ∧
    pushed_fills w' `sublist_of` pushed_fills w ++ [f] ∧
    (Z.of_nat (S (length (pushed_fills w))) <= 1024 → pushed_fills w' = pushed_fills w ++ [f]).
Proof.
  intros Hw Hn. destruct (run_event_ok env k m ss (PushFill f) w Hw Hn) as (w' & Hr & Hw').
  exists w'. split; [done|]. split; [done|]. destruct Hw as (td & fd & (_ & _ & Hf) & _ & Hk).
  apply calls_of_budget in Hn as [Hn _]. cbn [run_event] in Hr. unfold pushFill in Hr.
  destruct (try_push queue_bits f (fill_queue_ (engine w))) as [[ok q]|] eqn:Hp; [|done].
  cbn [mbind option_bind] in Hr. injection Hr as <-. cbn [pushed_fills].
  destruct ok; [done|]. rewrite app_nil_r. split; [by apply sublist_inserts_r|]. intros Hlen.
  pose proof (queue_state_room queue_bits queue_small _ _ _ _ f (feeds_fills _ _ _ _ _ Hf) ltac:(lia) Hp) as Hroom.
  change (N queue_bits) with 1024 in Hroom. lia.
Qed.

Lemma fill_callback_ok k m ss fs (w : @World St) :
  (length fs <= 1)%nat → world_ok k m ss w → in_budget (calls_of (S k) m ss) →
  ∃ w', fill_callback fs w = Some w' ∧ world_ok (S k) m ss w' ∧ delivers (engine w) (engine w') ∧
    pushed_fills w' `sublist_of` pushed_fills w ++ fs ∧
    (Z.of_nat (length (pushed_fills w ++ fs)) <= 1024 → pushed_fills w' = pushed_fills w ++ fs).
Proof.
  intros Hl Hw Hn. destruct fs as [|f [|? ?]]; [| |cbn in Hl; lia].
  - exists w. rewrite app_nil_r. split_and!; [done|by apply world_ok_mono|by unfold delivers|done..].
  - destruct (push_fill_ok k m ss f w Hw Hn) as (w' & Hr & H1 & H2 & H3). exists w'.
    unfold fill_callback. cbn [fmap list_fmap run_events]. rewrite Hr. cbn [mbind option_bind].
    split_and!; [done|done|exact (run_event_delivers env _ _ _ Hr)|done|rewrite length_app; cbn [length]; intros; apply H3; lia].
Qed.

Record desk_ok (k m : nat) (ss : list (Strategy St)) (xid : Z) (d : Desk) : Prop := {
  desk_world : world_ok k m ss (world d);
  desk_handled : (handled d <= length (delivered_ (engine (world d))))%nat;
  desk_simulating : OrderGateway.simulating xid (gateway d);
  desk_pushed : pushed_fills (world d) `sublist_of` out (gateway d);
  desk_room : Z.of_nat (length (out (gateway d))) <= 1024 → pushed_fills (world d) = out (gateway d);
  desk_orders : Forall (λ o, is_dec (OrderRequest.quantity o)) (filter (for_exchange xid) (orders_of d)) →
    pending (gateway d) = ∅ ∧
    Forall2 (λ f o, ∃ t, f = OrderGateway.simulated_fill o t) (out (gateway d)) (filter (for_exchange xid) (orders_of d));
}.

Lemma take_prefix {A} n (l l' : list A) : l `prefix_of` l' → (n <= length l)%nat → take n l' = take n l.
Proof. intros [k ->] Hn. by rewrite take_app_le. Qed.

Lemma engine_event_ok k m ss xid ev d :
  (∀ f, ev ≠ PushFill f) → desk_ok k m ss xid d → in_budget (calls_of (S k) m ss) →
  ∃ d', engine_event ev d = Some d' ∧ desk_ok (S k) m ss xid d'.
Proof.
  intros Hev [H1 H2 H3 H4 H5 H6] Hn. unfold engine_event.
  destruct (run_event_ok env k m ss ev (world d) H1 Hn) as (w & Hr & Hw). rewrite Hr. cbn [mbind option_bind].
  eexists. split; [reflexivity|]. pose proof (run_event_delivers env ev _ _ Hr) as Hd.
  assert (pushed_fills w = pushed_fills (world d)) as Hf.
  { destruct ev as [t|f| |now|now p|c]; [| by destruct (Hev f)|..]; cbn [run_event] in Hr.
    - destruct (pushTick _ _) as [[? ?]|]; [|done]. by injection Hr as <-.
    - destruct (popOrder _) as [[? ?]|]; [|done]. by injection Hr as <-.
    - destruct (iteration _ _ _ _) as [[? ?]|]; [|done]. by injection Hr as <-.
    - by injection Hr as <-.
    - by injection Hr as <-. }
  split; unfold orders_of in *; cbn [world gateway handled]; rewrite ?Hf; try done.
  - apply prefix_length in Hd. lia.
  - by rewrite (take_prefix _ _ _ Hd H2).
Qed.

Lemma handle_order_ok {HF : FpmLaws F} k m ss xid d :
  desk_ok k m ss xid d → in_budget (calls_of (S k) m ss) →
  ∃ d', handle_order d = Some d' ∧ desk_ok (S k) m ss xid d'.
Proof.
  intros Hd Hn. pose proof Hd as [H1 H2 H3 H4 H5 H6]. unfold handle_order.
  destruct (delivered_ (engine (world d)) !! handled d) as [o|] eqn:Ho.
  2:{ exists d. split; [done|]. by split; [apply world_ok_mono|..]. }
  destruct (processOrder_out o (gateway d) xid H3) as (P1 & fs & P2 & P3).
  set (g := processOrder o (gateway d)) in *. rewrite P2, drop_app_length.
  destruct (fill_callback_ok k m ss fs (world d) P3 H1 Hn) as (w & -> & W1 & W2 & W3 & W4).
  cbn [mbind option_bind]. eexists. split; [reflexivity|]. apply lookup_lt_Some in Ho as Hlt.
  pose proof (prefix_length _ _ W2) as Hlen.
  split; cbn [world gateway handled]; try done; [lia| | |].
  - rewrite P2. etrans; [exact W3|]. by apply sublist_app.
  - intros Hroom. rewrite P2 in Hroom |- *.
    rewrite <-H5 in Hroom |- * by (rewrite length_app in Hroom; lia). by apply W4.
  - unfold orders_of in *. cbn [world gateway handled].
    rewrite (take_prefix (S (handled d)) _ _ W2), (take_S_r _ _ _ Ho), filter_app by lia.
    intros [Hdec Hdec']%Forall_app. destruct (H6 Hdec) as [Q1 Q2].
    destruct (processOrder_simulated o (gateway d) xid H3 Q1) as (Q3 & fs' & Q4 & Q5).
    { intros Hx. rewrite Forall_forall in Hdec'. apply Hdec'. rewrite list_elem_of_filter. set_solver. }
    fold g in Q3, Q4. rewrite Q4. split; [done|]. by apply Forall2_app.
Qed.

Lemma desk_steps_ok {HF : FpmLaws F} k m ss xid evs d :
  desk_ok k m ss xid d → in_budget (calls_of (k + length evs) m ss) →
  ∃ d', desk_steps evs d = Some d' ∧ desk_ok (k + length evs) m ss xid d'.
Proof.
  revert k d. induction evs as [|ev evs IH]; intros k d Hd Hn; cbn [desk_steps length] in *.
  - exists d. by rewrite Nat.add_0_r.
  - rewrite <-Nat.add_succ_comm in *.
    assert (in_budget (calls_of (S k) m ss)) as Hk.
    { eapply in_budget_le, Hn. unfold calls_of. apply Nat.mul_le_mono_r. lia. }
    assert (∃ d1, desk_step ev d = Some d1 ∧ desk_ok (S k) m ss xid d1) as (d1 & -> & H1).
    { destruct ev; cbn [desk_step]; first [by apply handle_order_ok|by apply engine_event_ok]. }
    cbn [mbind option_bind]. by apply IH.
Qed.

Lemma desk_run_ok {HF : FpmLaws F} now m (strats : list (Strategy St * St)) g xid evs :
  Forall (obeys m) strats.*1 → in_budget (calls_of (length evs) m strats.*1) →
  OrderGateway.simulating xid g → pending g = ∅ → out g = [] →
  ∃ d, desk_run now strats g evs = Some d ∧ desk_ok (length evs) m strats.*1 xid d.
Proof.
  intros Hob Hn Hg Hp Ho. unfold desk_run.
  destruct (run_ok env now m strats [] Hob) as (w & -> & Hw).
  { eapply in_budget_le, Hn. unfold calls_of. apply Nat.mul_le_mono_r. cbn. lia. }
  cbn [mbind option_bind]. apply (desk_steps_ok 0); [|done]. pose proof Hw as (_ & _ & _ & _ & Hf).
  destruct (pushed_fills w) as [|] eqn:Hpf; [|cbn in Hf; lia].
  split; cbn [world gateway handled]; rewrite ?Ho, ?Hpf; try done.
  lia.
Qed.

(** ** Properties *)

Lemma sublist_full {A} (l1 l2 : list A) : l1 `sublist_of` l2 → length l1 = length l2 → l1 = l2.
Proof.
  induction 1 as [|x l1 l2 H IH|x l1 l2 H IH]; cbn [length]; intros Hl; [done|by rewrite IH by lia|].
  apply sublist_length in H. lia.
Qed.

Lemma positive_decimals (orders : list OrderRequest.t) :
  Forall (λ o, 0 < OrderRequest.quantity o) orders → sumZ (OrderRequest.quantity <$> orders) < 2 ^ 62 →
  Forall (λ o, is_dec (OrderRequest.quantity o)) orders.
Proof.
  intros Hpos. assert (∀ l, Forall (λ o, 0 < OrderRequest.quantity o) l → 0 <= sumZ (OrderRequest.quantity <$> l)) as Hnn.
  { intros l Hl. apply sumZ_nonneg, Forall_fmap. eapply Forall_impl; [exact Hl|]. cbn. lia. }
  induction Hpos as [|o l Ho Hl IH]; intros Hs; [constructor|].
  rewrite fmap_cons, sumZ_cons in Hs. pose proof (Hnn l Hl).
  constructor; [unfold is_dec, inS; lia|apply IH; lia].
Qed.

Lemma fills_executed fills (orders : list OrderRequest.t) :
  Forall2 (λ f o, ∃ t, f = OrderGateway.simulated_fill o t) fills orders →
  Forall (λ o, 0 < OrderRequest.quantity o) orders → sumZ (OrderRequest.quantity <$> orders) < 2 ^ 62 →
  Forall (λ f, 0 < Fill.fill_quantity f) fills ∧ sumZ (Fill.fill_quantity <$> fills) < 2 ^ 62.
Proof.
  intros Hf Hpos Hs. destruct (ExecutionHandler.simulated_quantities fills orders 0 Hf) as [Hq _].
  rewrite Hq. split; [|done]. apply (Forall_fmap Fill.fill_quantity (Z.lt 0)). rewrite Hq. by apply Forall_fmap.
Qed.

(** C18: the closed loop trades what was ordered: however the market's ticks, the
    engine's turns, changes of the risk limits and the gateway's pops and sends interleave and whatever the
    strategies do, the loop never gets stuck and leaves no order pending; the gateway
    fills exactly the orders meant for its exchange, each once and in order, and the
    engine takes its fills in that order; and as long as no fill met a full
    queue (never, up to 1024 fills) every position is at every moment the signed
    sum of the quantities of the first orders executed, one for every fill the
    engine has processed. *)
Theorem trading_loop_positions {HF : FpmLaws F} now m (strats : list (Strategy St * St)) g xid evs :
  Forall (obeys m) strats.*1 → in_budget (calls_of (length evs) m strats.*1) →
  OrderGateway.simulating xid g → pending g = ∅ → out g = [] →
  ∃ d, desk_run now strats g evs = Some d ∧
    let orders := filter (for_exchange xid) (orders_of d) in
    let fills := pushed_fills (world d) in
    let n := fills_processed (getStats (engine (world d))) in
    Forall (λ o, 0 < OrderRequest.quantity o) orders → sumZ (OrderRequest.quantity <$> orders) < 2 ^ 62 →
    pending (gateway d) = ∅ ∧ fills `sublist_of` out (gateway d) ∧
    Forall2 (λ f o, ∃ t, f = OrderGateway.simulated_fill o t) (out (gateway d)) orders ∧
    (Z.of_nat (length orders) <= 1024 → length fills = length orders) ∧
    (length fills = length orders →
     0 <= n <= Z.of_nat (length orders) ∧
     ∀ sym, quantity_of sym (position_manager_ (engine (world d))) =
       sumZ (ExecutionHandler.signed_order <$>
             filter (λ o, OrderRequest.symbol_id o = sym) (take (Z.to_nat n) orders))).
Proof.
  intros Hob Hn Hg Hp Ho. destruct (desk_run_ok now m strats g xid evs Hob Hn Hg Hp Ho) as (d & Hd & [H1 _ _ H4 H5 H6]).
  exists d. split; [done|]. intros orders fills n Hpos Hsum. fold orders in H6. fold fills in H4, H5.
  destruct (H6 (positive_decimals _ Hpos Hsum)) as [Q1 Q2]. pose proof (Forall2_length _ _ _ Q2) as Hlen.
  split_and!; [done..| |].
  - rewrite <-Hlen. intros Hroom. by rewrite H5.
  - intros Hall. assert (fills = out (gateway d)) as Hfills.
    { apply sublist_full; [done|lia]. }
    destruct H1 as (td & fd & (_ & _ & Hf) & _ & _).
    assert (n = Z.of_nat (length fd)) as -> by exact (feeds_fill_count _ _ _ _ _ Hf).
    rewrite (feeds_positions _ _ _ _ _ Hf). destruct (feeds_fills _ _ _ _ _ Hf) as (fq & Hfq & _).
    change (pushed_fills (world d)) with fills in Hfq. rewrite <-Hfills, Hfq in Q2.
    rewrite Hfq, length_app in Hall. split; [lia|]. intros sym. rewrite Nat2Z.id.
    apply (Forall2_take _ _ _ (length fd)) in Q2. rewrite take_app_length in Q2.
    destruct (ExecutionHandler.simulated_quantities fd _ sym Q2) as [_ <-].
    assert (Forall (λ f, 0 < Fill.fill_quantity f) fd ∧ sumZ (Fill.fill_quantity <$> fd) < 2 ^ 62) as [E1 E2];
      [|by apply run_quantity_bound].
    apply (fills_executed fd _ Q2); [by apply Forall_take|]. 
    eapply Z.le_lt_trans, Hsum. rewrite <-(take_drop (length fd) orders) at 2. rewrite fmap_app, sumZ_app.
    assert (0 <= sumZ (OrderRequest.quantity <$> drop (length fd) orders)); [|lia].
    apply sumZ_nonneg, Forall_fmap, Forall_drop. eapply Forall_impl; [exact Hpos|]. cbn. lia.
Qed.
End loop.

(** *** Witness: one order, from the tick to the position *)

Definition loop_gateway : OrderGateway.OrderGateway :=
  OrderGateway.OrderGateway_init OrderGateway.sample_config true 1 true.

Definition loop_events : list desk_event :=
  [MarketTick (sample_tick 7); EngineTurn 5; TakeOrder; HandleOrder; HandleOrder; EngineTurn 6].

Abbreviation loop_run :=
  (desk_run (F := FpmRef) (U := CastX86) (IO := iter_default) (J := JsonRef) sample_env OrderGateway.sample_clock (λ _, None) 0
     [(sample_strategy, 0)] loop_gateway loop_events).

Lemma loop_run_result :
  (λ d, (OrderRequest.quantity <$> filter (for_exchange 1) (orders_of d),
         (λ o, (OrderRequest.symbol_id o, OrderRequest.side o)) <$> filter (for_exchange 1) (orders_of d),
         length (pushed_fills (world d)), fills_processed (getStats (engine (world d)))))
    <$> loop_run = Some ([ONE], [(7, OrderSide.BUY)], 1%nat, 1).
Proof. vm_compute. reflexivity. Qed.

Lemma trading_loop_positions_witness :
  ∃ d, loop_run = Some d ∧ OrderGateway.pending_orders_ (gateway d) = ∅ ∧
    quantity_of 7 (position_manager_ (engine (world d))) = ONE.
Proof.
  destruct (trading_loop_positions (F := FpmRef) (U := CastX86) (IO := iter_default) (J := JsonRef) sample_env
    OrderGateway.sample_clock (λ _, None) 0 2 [(sample_strategy, 0)] loop_gateway 1 loop_events sample_obeys)
    as (d & Hd & Hrest); [vm_compute; discriminate|by split_and!|reflexivity|reflexivity|].
  exists d. split; [exact Hd|]. pose proof loop_run_result as Hres. rewrite Hd in Hres.
  cbn [fmap option_fmap option_map] in Hres. cbv zeta in Hrest.
  cbn [fills_processed getStats] in Hrest. injection Hres as Hq Ho Hf Hn. rewrite Hn, Hf in Hrest.
  destruct (filter (for_exchange 1) (orders_of d)) as [|o [|? ?]]; [discriminate Hq| |discriminate Hq].
  injection Hq as Hq. injection Ho as Hs Hsd.
  destruct Hrest as (Hp & _ & _ & _ & Hpos).
  - repeat constructor. rewrite Hq. unfold ONE. lia.
  - cbn. rewrite Hq. unfold ONE. lia.
  - split; [exact Hp|]. destruct (Hpos eq_refl) as [_ Hpos']. rewrite Hpos'.
    change (take (Z.to_nat 1) [o]) with [o]. rewrite filter_cons, filter_nil, decide_True by exact Hs.
    unfold ExecutionHandler.signed_order. cbn. rewrite Hsd, Hq. reflexivity.
Defined.
